(* ===== verification/_CoqProject ===== *)
-Q . S2P
Prelude.v
GoStd.v
Apperr.v
Script.v
Model.v
Gorm.v
Effects.v
Threads.v
Isolation.v
Repository.v
RepositoryLaws.v
Testbed.v
Token.v
Csrf.v
UserService.v
UserSpec.v
Accounts.v
Lts.v
AccountMachine.v
Refinement.v
Counters.v
Concurrency.v
Availability.v
Interleaving.v
Http.v
Middleware.v
RateLimit.v
Health.v
Handlers.v
Binding.v
Migrate.v
Config.v
Startup.v
Testutil.v
Telemetry.v
Observability.v
App.v
Passage.v
Authority.v
Secrecy.v
Session.v
Container.v
Process.v
Cmd.v
