(* ===== verification/Prelude.v ===== *)
(** * clean-arch-go-gin: a verification library

    The program is an HTTP service for accounts and sessions in clean
    architecture: handlers (internal/api) bind a request and call services
    (internal/service), which act through repositories (internal/repository) on a
    SQL database by way of gorm, and turn every failure into an application error
    (internal/apperr) that the handlers send out in one envelope.  Around the
    handlers stands a chain of middlewares; internal/platform reads the
    configuration and migrates the database.

    ** Files

    - Prelude, GoStd: 64-bit integers, byte strings, and the parts of the Go
      standard library the service computes with (hex, big-endian, SHA-256, HMAC,
      UTF-8, time, strings), executable.
    - Apperr: internal/apperr.  An error is a tree of wrappers with the address of
      each pointer; sentinels have static addresses.
    - Model: internal/model.  Entities, requests, responses, the pagination window,
      and [Tables], the contents of the database by primary key.
    - Gorm: the statements the repositories build, and [gorm_spec], the contract
      the model asks of gorm and the database; [Memory] is an executor that keeps it.
    - Effects: [prog], programs with effects; [run], their execution against an
      environment [env] of oracles; [wp], weakest preconditions of [run].
    - Threads: programs that run side by side under any schedule; [once], what a
      program that commits at most once may change; [linearises], which puts the
      changes of such programs in a row.  Isolation: the same where the statements of
      transactions interleave too, kept apart by the locks of rows.
    - Repository, RepositoryLaws: internal/repository, interfaces as records of
      operations with their gorm implementations, and one class of laws per
      interface, which the implementations satisfy whenever gorm keeps its contract.
    - Testbed: a concrete environment on which the witnesses run.
    - Token, Csrf: internal/service/token and internal/service/csrf.
    - UserService, UserSpec, Accounts: internal/service/user: the methods, their
      specifications against the classes of laws, and the theorems.
    - Counters: internal/service/counter and internal/service/message.
    - Lts, AccountMachine, Refinement: labelled transition systems and forward
      simulations; an abstract machine of accounts and sessions; and the proof that
      the user service over its repositories is one.
    - Concurrency: the user service under overlapping calls, from one contract per
      method.  Interleaving: two questions about requests that overlap.
    - Availability: the user service where nothing it depends on fails, from what
      each interface promises then.
    - Http, Middleware, RateLimit, Health, Handlers: the response envelope and gin's
      context, internal/api/middleware, internal/service/health,
      internal/api/handler and the route table of internal/api/router.go.
    - Binding: the rules in the struct tags of internal/model/request, and what
      becomes of a request that breaks one.
    - Script: a state monad for the code that runs before there are requests.
    - Migrate, Config, Startup: internal/platform: migrate.go; config.go and
      config_validate.go; database.go.  Testutil: internal/testutil.
    - Telemetry: internal/logging ([Logging]) and internal/tracing ([Tracing_]).
    - Observability: internal/observability: the metrics registry and admin server.
    - App, Container: internal/di: the middleware chain, wiring, dispatch, Close, the
      janitor; and [NewContainer] with everything that can go wrong in it.
    - Passage, Authority, Secrecy, Session: the application end to end: what its
      middlewares let pass; which requests may change an account; which may learn of
      one; and what a client gets that comes back with the cookies of a sign-in.
    - Process, Cmd: cmd/server: the life of the process as a transition system; the
      configuration it runs with and the exit status it ends with.

    A definition keeps the name of the Go function it translates; methods of
    repositories, counters and handlers carry a prefix ([User_Create],
    [counter_GetCounter], [handle_Login]), and a trailing underscore avoids a
    keyword ([From_], [Check_]).

    ** What the theorems show

    - Accounts: registering, signing in, refreshing, changing a password and
      deleting an account either do all they promise or change nothing, whatever
      call fails; a rotated refresh token is refused and its replay ends every
      session; unknown addresses and wrong passwords are answered alike after the
      same work; over every sequence of calls and failures addresses and token
      digests stay unique and only hashes are stored.
    - Tokens: a minted token validates to its claims for its lifetime, and only
      tokens signed with the right secret validate.  Csrf: the same for CSRF tokens,
      down to their bytes.
    - Apperr, [Fail]: what is sent to a client does not depend on hidden causes, and
      what an error becomes on the wire and in the log.
    - Refinement: every sequence of calls to the service, whatever its dependencies
      do, is an execution of the account machine; so what the machine never does the
      service never does, however many calls lie between: a session outlives its
      account, an address is registered twice, a deleted account comes back, an
      exchanged or revoked token is refreshed.  Calls follow each other there.
    - Concurrency: calls overlap, and their steps interleave in any way.  Every
      method commits at most once ([call_commit]); registrations, sign-outs
      everywhere and purges still give the answers of the account machine, in some
      order; the invariant of the database survives whatever overlaps, and an
      address is registered once.  What does not survive is shown by a run: a sign-in
      overtaken by the deletion of its account leaves a session that works.
    - Availability: the statements above let any call fail, since what it depends on
      may.  Where nothing does ([Faultless]), every error has one of the reasons
      [justified] lists for its call, so that a call without one succeeds.
    - Interleaving: concurrent increments lose no update, with the row lock they take
      and not without it; two concurrent refreshes with one token can both succeed.
    - Middleware, Handlers: what lets a request through to a handler; which id it
      gets; what a panic becomes; which routes have which guards; when the session
      cookies are set; and, end to end, what deleting an account over HTTP takes.
    - Passage: every middleware of the chain, third parties included, is a [conduit]:
      it runs the rest on the request it was given or answers itself, and adds no data
      to the response; the guards hand on what they establish.
    - Authority: whatever the request, what is stored of a user changes only if it
      carried the authority of that user ([entitled]).  Secrecy: and the response
      carries data of an account, or tokens for it, only if the request had the
      authority to see them ([due]).
    - Binding: a body reaches its handler exactly if it decodes and meets every rule,
      and a rejection names exactly the offending fields; the ceiling on passwords
      counts characters where bcrypt counts bytes.
    - RateLimit: a client's decisions are those of a bucket of its own, and idle
      buckets are dropped.
    - App: every request that gin does not redirect is answered, under one id,
      whatever fails and wherever its handler panics.
    - Migrate, Config: a run of the migrations stops between two of them and is
      idempotent; exactly which migration lists and configurations are accepted.
    - Startup: opening the database ends within its attempts, and connects to any
      database that answers one of them.  Container: every outcome of building the
      container, with what it leaves of the tracer, the pool and the tables; and that a
      validated configuration is understood by all it configures.
    - Testutil: what a test gets with its database and its seeding; that the stand-in
      for a transaction manager is none.
    - Telemetry, Observability: bound variables never reach a span; what the admin
      listener serves, and what the metrics count.
    - Process, Cmd: shutting down ends within its time-outs, in order, with nothing
      left open, and reports success only if no request was cut short; the one way the
      process can crash; what its exit status tells.

    ** Parameters and assumptions

    Third-party code is a parameter with named laws: gorm ([GormLaws], and
    [DdlLaws] for schema changes), golang-jwt ([JWTLaws]), google/uuid ([UUIDLaws]),
    bcrypt ([BcryptLaws]; that it hashes the placeholder phrase is a hypothesis of
    [login_refusal_uniform]), the token bucket of golang.org/x/time/rate (no law), gin
    (what its accessors answer is data of a request; its router has the laws
    [GinRouting]) with its binding and validator ([BindingLaws]), the opening of a
    connection ([driver]), the CORS middleware ([third_parties] in Passage, and in App the
    more exact [cors_contract]), OpenTelemetry, of which the model
    keeps the calls made on it, and Prometheus.  That bcrypt refuses more than 72
    bytes is assumed only where it is the subject ([BcryptLimit]); that it accepts the
    others, that HMAC-SHA256 signs anything ([Signs]) and that no statement, commit
    or context fails ([Faultless]) only in Availability.  The clock is read
    between 1970 and the year 142 million ([ClockLaws]).  Every effect may fail or find its
    context cancelled: the environment answers the n-th effect as it likes.
    A transaction works on a copy of the tables that replaces them on commit.  In
    Threads, and so in Concurrency, one transaction is one atomic step, which assumes
    that transactions are serialisable.  The increment of the counter, which asks for a
    row lock to do without that, is treated in Isolation instead, where statements
    interleave, see what is committed when they run and wait for locked rows only, as
    on postgres at its default level; nested transactions are not given steps there.
    The statements of the other transactions are not interleaved.
    In Process time passes only while main waits, calls return at the latest when
    their context's deadline is reached, and closing the pool, which has no deadline,
    takes a time that is a parameter; requests and scrapes in flight may take for ever.
    Quote, ToLower, TrimSpace and EqualFold are exact on ASCII.  SHA-256 is written
    out so that witnesses evaluate; no theorem assumes anything of it beyond the
    length of its output; the statements of Refinement about refresh tokens are for
    tokens whose digests do not collide ([genuine]).  In Config floating-point
    parsing, net.ParseIP and the order of map iteration are parameters.

    ** Recursion and bounds

    Definitions are structurally recursive, except for decoders that consume at
    least one byte per iteration: those take the length of their input as fuel
    (UTF-8, SHA-256 blocks, durations).  The loop that pings the database has
    [enough_fuel], one unit more than its five attempts, with its counter wrapped at
    64 bits as in the code; that this is enough is part of
    [initialize_database_terminates].  Integers are unbounded where the code
    cannot reach the limits of its types, and wrapped explicitly where it can: the
    pagination offset, Unix times, and subtraction of times, which saturates.

    ** Not modelled

    The wire: net/http itself, JSON encoding, the text format of the metrics, and
    what the pprof handlers print; the collectors of the Go runtime; reading a .env
    file, which changes only what the environment answers; the generated API
    description, mocks and tests, and the JSON helpers of testutil.  Scheduling is modelled where it matters:
    the effects and transactions of concurrent requests (Threads), the statements of
    concurrent increments (Isolation), decisions of the rate limiter, atomic under its
    lock (RateLimit), and the goroutines of the process (Process); within a request
    and during start-up the code runs sequentially. *)

From Stdlib Require Export ZArith Ascii Lia.
From stdpp Require Export base tactics option list strings gmap sorting.

#[global] Open Scope Z_scope.

Declare Scope go_scope.
Delimit Scope go_scope with go.

(** ** Machine integers

    Go's [int] is 64 bits wide on every platform the service is built for; its
    arithmetic wraps around in two's complement. *)

Definition int64_min : Z := - 2 ^ 63.
Definition int64_max : Z := 2 ^ 63 - 1.

(** [wrap64 z] is the 64-bit signed integer congruent to [z]. *)
Definition wrap64 (z : Z) : Z := (z + 2 ^ 63) mod 2 ^ 64 - 2 ^ 63.

Definition in_int64 (z : Z) : Prop := int64_min <= z <= int64_max.

#[export] Instance in_int64_dec z : Decision (in_int64 z).
Proof. unfold in_int64. apply _. Defined.

(** [sat64 z] clamps [z] to the 64-bit range, as [time.Time.Sub] does. *)
Definition sat64 (z : Z) : Z := Z.max int64_min (Z.min int64_max z).

Lemma wrap64_range z : in_int64 (wrap64 z).
Proof.
  unfold in_int64, wrap64, int64_min, int64_max.
  pose proof (Z.mod_pos_bound (z + 2 ^ 63) (2 ^ 64) ltac:(lia)). lia.
Qed.

Lemma wrap64_id z : in_int64 z -> wrap64 z = z.
Proof.
  unfold in_int64, wrap64, int64_min, int64_max. intros Hz.
  rewrite Z.mod_small; lia.
Qed.

Lemma wrap64_mod z : wrap64 (z mod 2 ^ 64) = wrap64 z.
Proof. unfold wrap64. by rewrite Zplus_mod_idemp_l. Qed.

Lemma sat64_id z : in_int64 z -> sat64 z = z.
Proof. unfold in_int64, sat64. lia. Qed.

(** ** Strings as byte sequences *)

(** A Go [[]byte], and the bytes of a Go [string]. *)
Abbreviation bytes := (list ascii).

Abbreviation to_bytes := String.list_ascii_of_string.
Abbreviation of_bytes := String.string_of_list_ascii.

Lemma of_to_bytes s : of_bytes (to_bytes s) = s.
Proof. apply String.string_of_list_ascii_of_string. Qed.

Lemma to_of_bytes l : to_bytes (of_bytes l) = l.
Proof. apply String.list_ascii_of_string_of_list_ascii. Qed.

Lemma to_bytes_app s t : to_bytes (s +:+ t) = to_bytes s ++ to_bytes t.
Proof. induction s as [|c s IH]; [done|]. simpl. by rewrite <- IH. Qed.

Lemma to_bytes_inj s t : to_bytes s = to_bytes t -> s = t.
Proof. intros H. by rewrite <- (of_to_bytes s), H, of_to_bytes. Qed.

(** The value of a byte as an unsigned integer, and the byte of an integer
    (reduced modulo 256, as Go's conversion [byte(x)] does). *)
Definition byte_val (b : ascii) : Z := Z.of_N (N_of_ascii b).
Definition to_byte (z : Z) : ascii := ascii_of_N (Z.to_N (z mod 256)).

Lemma byte_val_range b : 0 <= byte_val b < 256.
Proof.
  unfold byte_val. pose proof (N_ascii_bounded b). lia.
Qed.

Lemma to_byte_val b : to_byte (byte_val b) = b.
Proof.
  unfold to_byte. rewrite Z.mod_small by apply byte_val_range.
  unfold byte_val. rewrite N2Z.id. apply ascii_N_embedding.
Qed.

Lemma byte_val_to_byte z : byte_val (to_byte z) = z mod 256.
Proof.
  unfold byte_val, to_byte.
  pose proof (Z.mod_pos_bound z 256 ltac:(lia)).
  rewrite N_ascii_embedding by lia. lia.
Qed.

(** ** Tactics of the development *)

(** Splits every conjunction and existential among the hypotheses. *)
Ltac deconj :=
  repeat match goal with
  | H : _ /\ _ |- _ => destruct H
  | H : exists _, _ |- _ => destruct H
  end.

(** Splits the conjunctions of the goal that are written as such. *)
Ltac conj := repeat match goal with |- _ /\ _ => split end.

(** Destructs the scrutinee of a [match] or [if] in the goal, keeping the
    equation. *)
Ltac case_goal :=
  match goal with
  | |- context [match ?x with _ => _ end] => let E := fresh "E" in destruct x eqn:E
  end.

Create HintDb go.
Create Rewrite HintDb go.
#[export] Hint Resolve wrap64_range byte_val_range : go.
#[export] Hint Rewrite of_to_bytes to_of_bytes to_byte_val to_bytes_app : go.
