(* ===== verification/GoStd.v ===== *)
(** * The parts of the Go standard library the service computes with

    [encoding/hex], [encoding/binary], [strings.Split], [crypto/sha256],
    [crypto/hmac], [unicode/utf8] and the arithmetic of [time.Time] and
    [time.Duration], as executable functions on byte lists and integers.
    The service never looks inside SHA-256; it is written out so that the
    definitions built on it can be evaluated on concrete inputs. *)

From S2P Require Import Prelude.

(** ** encoding/hex *)

Module Hex.

Definition digit (n : Z) : ascii :=
  ascii_of_N (Z.to_N (if n <? 10 then 48 + n else 87 + n)).

(** The value of a hexadecimal digit of either case. *)
Definition value (c : ascii) : option Z :=
  let n := byte_val c in
  if (48 <=? n) && (n <=? 57) then Some (n - 48)
  else if (97 <=? n) && (n <=? 102) then Some (n - 87)
  else if (65 <=? n) && (n <=? 70) then Some (n - 55)
  else None.

(** [hex.EncodeToString] *)
Fixpoint encode (bs : bytes) : bytes :=
  match bs with
  | [] => []
  | b :: bs' => digit (byte_val b / 16) :: digit (byte_val b mod 16) :: encode bs'
  end.

(** [hex.DecodeString]; [None] stands for its error, either an invalid digit
    or an odd number of digits. *)
Fixpoint decode (cs : bytes) : option bytes :=
  match cs with
  | [] => Some []
  | [_] => None
  | h :: l :: cs' =>
      match value h, value l, decode cs' with
      | Some x, Some y, Some bs => Some (to_byte (16 * x + y) :: bs)
      | _, _, _ => None
      end
  end.

Definition EncodeToString (bs : bytes) : string := of_bytes (encode bs).
Definition DecodeString (s : string) : option bytes := decode (to_bytes s).

Lemma value_digit n : 0 <= n < 16 -> value (digit n) = Some n.
Proof.
  intros Hn. assert (Hc : In n (map Z.of_nat (seq 0 16))).
  { apply in_map_iff. exists (Z.to_nat n). split; [lia|]. apply in_seq. lia. }
  simpl in Hc. by repeat destruct Hc as [<-|Hc].
Qed.

Lemma decode_encode bs : decode (encode bs) = Some bs.
Proof.
  induction bs as [|b bs IH]; [done|]. simpl.
  pose proof (byte_val_range b).
  rewrite !value_digit, IH.
  - rewrite <- Z_div_mod_eq_full. by rewrite to_byte_val.
  - apply Z.mod_pos_bound. lia.
  - split; [apply Z.div_pos; lia|]. apply Z.div_lt_upper_bound; lia.
Qed.

Lemma DecodeString_EncodeToString bs : DecodeString (EncodeToString bs) = Some bs.
Proof. unfold DecodeString, EncodeToString. by rewrite to_of_bytes, decode_encode. Qed.

Lemma encode_length bs : length (encode bs) = (2 * length bs)%nat.
Proof. induction bs as [|b bs IH]; [done|]. simpl. rewrite IH. lia. Qed.

Lemma EncodeToString_inj bs bs' : EncodeToString bs = EncodeToString bs' -> bs = bs'.
Proof.
  intros H. apply (f_equal DecodeString) in H.
  rewrite !DecodeString_EncodeToString in H. congruence.
Qed.

(** An encoded string only holds lower-case hexadecimal digits. *)
Definition is_lower_hex (c : ascii) : bool :=
  let n := byte_val c in
  ((48 <=? n) && (n <=? 57)) || ((97 <=? n) && (n <=? 102)).

Lemma digit_lower_hex n : 0 <= n < 16 -> is_lower_hex (digit n) = true.
Proof.
  intros Hn. assert (Hc : In n (map Z.of_nat (seq 0 16))).
  { apply in_map_iff. exists (Z.to_nat n). split; [lia|]. apply in_seq. lia. }
  simpl in Hc. by repeat destruct Hc as [<-|Hc].
Qed.

Lemma encode_lower_hex bs : Forall (fun c => is_lower_hex c = true) (encode bs).
Proof.
  induction bs as [|b bs IH]; [constructor|]. simpl.
  pose proof (byte_val_range b).
  repeat constructor; [..|done]; apply digit_lower_hex.
  - split; [apply Z.div_pos; lia|]. apply Z.div_lt_upper_bound; lia.
  - apply Z.mod_pos_bound. lia.
Qed.
End Hex.

(** ** encoding/binary: [binary.BigEndian] on 64-bit words *)

Module BigEndian.

(** The [n] low-order bytes of [z], most significant first. *)
Fixpoint put (n : nat) (z : Z) : bytes :=
  match n with
  | O => []
  | S n' => put n' (z / 256) ++ [to_byte z]
  end.

Definition get (bs : bytes) : Z := fold_left (fun acc b => acc * 256 + byte_val b) bs 0.

Definition PutUint64 (z : Z) : bytes := put 8 z.
Definition PutUint32 (z : Z) : bytes := put 4 z.
Definition Uint64 (bs : bytes) : Z := get bs.

Lemma put_length n z : length (put n z) = n.
Proof. revert z. induction n as [|n IH]; intros z; [done|]. simpl. rewrite length_app, IH. simpl. lia. Qed.

Lemma get_app bs b : get (bs ++ [b]) = get bs * 256 + byte_val b.
Proof. unfold get. by rewrite fold_left_app. Qed.

Lemma get_put n z : get (put n z) = z mod 256 ^ Z.of_nat n.
Proof.
  revert z. induction n as [|n IH]; intros z.
  - simpl. by rewrite Z.mod_1_r.
  - simpl put. rewrite get_app, IH, byte_val_to_byte.
    rewrite Nat2Z.inj_succ, Z.pow_succ_r, Z.rem_mul_r by lia. lia.
Qed.

Lemma get_range bs : 0 <= get bs < 256 ^ Z.of_nat (length bs).
Proof.
  induction bs as [|b bs IH] using rev_ind; [done|].
  rewrite get_app, length_app. simpl length. rewrite Nat2Z.inj_add, Z.pow_add_r by lia.
  pose proof (byte_val_range b). change (256 ^ Z.of_nat 1) with 256. nia.
Qed.

Lemma Uint64_PutUint64 z : Uint64 (PutUint64 z) = z mod 2 ^ 64.
Proof. unfold Uint64, PutUint64. by rewrite get_put. Qed.
End BigEndian.

(** ** strings.Split with a one-byte separator *)

Fixpoint split_on (sep : ascii) (cs : bytes) : list bytes :=
  match cs with
  | [] => [[]]
  | c :: cs' =>
      if Ascii.eqb c sep then [] :: split_on sep cs'
      else match split_on sep cs' with
           | [] => [[c]]
           | p :: ps => (c :: p) :: ps
           end
  end.

Definition strings_Split (s : string) (sep : ascii) : list string :=
  of_bytes <$> split_on sep (to_bytes s).

Lemma split_on_no_sep sep cs : Forall (fun c => c <> sep) cs -> split_on sep cs = [cs].
Proof.
  induction 1 as [|c cs Hc _ IH]; [done|]. simpl. rewrite IH.
  destruct (Ascii.eqb_spec c sep); [done|reflexivity].
Qed.

Lemma split_on_app sep cs cs' :
  Forall (fun c => c <> sep) cs -> split_on sep (cs ++ sep :: cs') = cs :: split_on sep cs'.
Proof.
  induction 1 as [|c cs Hc _ IH]; simpl.
  - by rewrite Ascii.eqb_refl.
  - rewrite IH. by destruct (Ascii.eqb_spec c sep).
Qed.

(** ** crypto/sha256 and crypto/hmac *)

Module Sha256.

Definition mask32 : Z := 2 ^ 32 - 1.
Definition w32 (z : Z) : Z := Z.land z mask32.
Definition rotr (x n : Z) : Z := Z.lor (Z.shiftr x n) (w32 (Z.shiftl x (32 - n))).
Definition not32 (x : Z) : Z := Z.lxor x mask32.

Definition Ch (x y z : Z) : Z := Z.lxor (Z.land x y) (Z.land (not32 x) z).
Definition Maj (x y z : Z) : Z := Z.lxor (Z.lxor (Z.land x y) (Z.land x z)) (Z.land y z).
Definition Sigma0 (x : Z) : Z := Z.lxor (Z.lxor (rotr x 2) (rotr x 13)) (rotr x 22).
Definition Sigma1 (x : Z) : Z := Z.lxor (Z.lxor (rotr x 6) (rotr x 11)) (rotr x 25).
Definition sigma0 (x : Z) : Z := Z.lxor (Z.lxor (rotr x 7) (rotr x 18)) (Z.shiftr x 3).
Definition sigma1 (x : Z) : Z := Z.lxor (Z.lxor (rotr x 17) (rotr x 19)) (Z.shiftr x 10).

(** The constants are the first 32 bits of the fractional parts of the square
    and cube roots of the first primes. *)
Definition first_primes (n : nat) : list Z :=
  let divides p d := bool_decide (p mod d = 0) in
  let prime p := forallb (fun d => negb (divides p d)) (Z.of_nat <$> seq 2 (Z.to_nat p - 2)) in
  take n (List.filter prime (Z.of_nat <$> seq 2 320)).

(** The largest integer whose [k]-th power is at most [x], from its bits. *)
Fixpoint root (k x : Z) (bits : nat) (acc : Z) : Z :=
  match bits with
  | O => acc
  | S b =>
      let acc' := acc + 2 ^ Z.of_nat b in
      root k x b (if acc' ^ k <=? x then acc' else acc)
  end.

Definition frac_root (k p : Z) : Z := w32 (root k (p * 2 ^ (32 * k)) 40 0).

Definition K : list Z := Eval vm_compute in frac_root 3 <$> first_primes 64.

Record hash_state := mk { ha : Z; hb : Z; hc : Z; hd : Z; he : Z; hf : Z; hg : Z; hh : Z }.

Definition H0 : hash_state := Eval vm_compute in
  match frac_root 2 <$> first_primes 8 with
  | [a; b; c; d; e; f; g; h] => mk a b c d e f g h
  | _ => mk 0 0 0 0 0 0 0 0
  end.

(** The message padded to a multiple of 64 bytes: a one bit, zeros, and the
    length in bits as a 64-bit integer. *)
Definition pad (msg : bytes) : bytes :=
  let n := length msg in
  let zeros := ((119 - n mod 64) mod 64)%nat in
  msg ++ to_byte 128 :: replicate zeros (to_byte 0) ++ BigEndian.PutUint64 (8 * Z.of_nat n).

Fixpoint words (fuel : nat) (bs : bytes) : list Z :=
  match fuel with
  | O => []
  | S f => BigEndian.get (take 4 bs) :: words f (drop 4 bs)
  end.

(** The message schedule, most recent word first. *)
Fixpoint schedule (n : nat) (ws : list Z) : list Z :=
  match n with
  | O => ws
  | S n' =>
      let w := w32 (sigma1 (nth 1 ws 0) + nth 6 ws 0 + sigma0 (nth 14 ws 0) + nth 15 ws 0) in
      schedule n' (w :: ws)
  end.

Definition round (s : hash_state) (kw : Z * Z) : hash_state :=
  let t1 := s.(hh) + Sigma1 s.(he) + Ch s.(he) s.(hf) s.(hg) + kw.1 + kw.2 in
  let t2 := Sigma0 s.(ha) + Maj s.(ha) s.(hb) s.(hc) in
  mk (w32 (t1 + t2)) s.(ha) s.(hb) s.(hc) (w32 (s.(hd) + t1)) s.(he) s.(hf) s.(hg).

Definition compress (s : hash_state) (block : bytes) : hash_state :=
  let ws := rev (schedule 48 (rev (words 16 block))) in
  let r := fold_left round (zip K ws) s in
  mk (w32 (s.(ha) + r.(ha))) (w32 (s.(hb) + r.(hb))) (w32 (s.(hc) + r.(hc)))
     (w32 (s.(hd) + r.(hd))) (w32 (s.(he) + r.(he))) (w32 (s.(hf) + r.(hf)))
     (w32 (s.(hg) + r.(hg))) (w32 (s.(hh) + r.(hh))).

Fixpoint blocks (n : nat) (s : hash_state) (bs : bytes) : hash_state :=
  match n with
  | O => s
  | S n' => blocks n' (compress s (take 64 bs)) (drop 64 bs)
  end.

(** [sha256.Sum256] *)
Definition Sum256 (msg : bytes) : bytes :=
  let p := pad msg in
  let s := blocks (length p / 64) H0 p in
  concat (BigEndian.PutUint32 <$> [s.(ha); s.(hb); s.(hc); s.(hd); s.(he); s.(hf); s.(hg); s.(hh)]).

Lemma Sum256_length msg : length (Sum256 msg) = 32%nat.
Proof.
  unfold Sum256, BigEndian.PutUint32. cbv zeta. cbn [fmap list_fmap concat].
  by rewrite !length_app, !BigEndian.put_length.
Qed.
End Sha256.

#[global] Opaque Sha256.Sum256.

(** [hmac.New(sha256.New, key)], fed with [msg], then [Sum(nil)]. *)
Definition hmac_sha256 (key msg : bytes) : bytes :=
  let key := if (64 <? Z.of_nat (length key)) then Sha256.Sum256 key else key in
  let key := key ++ replicate (64 - length key) (to_byte 0) in
  let xor_with (p : Z) := (fun b => to_byte (Z.lxor (byte_val b) p)) <$> key in
  Sha256.Sum256 (xor_with 0x5c ++ Sha256.Sum256 (xor_with 0x36 ++ msg)).

Lemma hmac_sha256_length key msg : length (hmac_sha256 key msg) = 32%nat.
Proof. apply Sha256.Sum256_length. Qed.

#[global] Opaque hmac_sha256.

(** Known answers: SHA-256 of ["abc"] (FIPS 180-4) and test case 2 of RFC 4231. *)
Example sha256_abc :
  Hex.EncodeToString (Sha256.Sum256 (to_bytes "abc"))
  = "ba7816bf8f01cfea414140de5dae2223b00361a396177a9cb410ff61f20015ad".
Proof. vm_compute. reflexivity. Qed.

Example hmac_sha256_rfc4231_2 :
  Hex.EncodeToString (hmac_sha256 (to_bytes "Jefe") (to_bytes "what do ya want for nothing?"))
  = "5bdcc146bf60754e6a042426089575c75a003f089d2739839dec58b964ec3843".
Proof. vm_compute. reflexivity. Qed.

(** [hmac.Equal]: equality of contents and length. *)
Definition hmac_Equal (a b : bytes) : bool := bool_decide (a = b).

(** ** unicode/utf8: the runes a [for range] over a string visits

    A byte that does not start a valid encoding is visited alone, as
    U+FFFD. *)

Module Utf8.

Definition RuneError : Z := 0xFFFD.

Definition in_range (lo hi x : Z) : bool := (lo <=? x) && (x <=? hi).
Definition cont (x : Z) : bool := in_range 0x80 0xBF x.

(** The range of the second byte, by first byte. *)
Definition second_range (b0 : Z) : Z * Z :=
  if b0 =? 0xE0 then (0xA0, 0xBF)
  else if b0 =? 0xED then (0x80, 0x9F)
  else if b0 =? 0xF0 then (0x90, 0xBF)
  else if b0 =? 0xF4 then (0x80, 0x8F)
  else (0x80, 0xBF).

(** [utf8.DecodeRune] of a non-empty sequence: the rune and its width. *)
Definition decode_rune (b0 : ascii) (rest : bytes) : Z * nat :=
  let x0 := byte_val b0 in
  let byte i := match rest !! i with Some b => byte_val b | None => -1 end in
  let '(lo, hi) := second_range x0 in
  let x1 := byte 0%nat in let x2 := byte 1%nat in let x3 := byte 2%nat in
  if x0 <? 0x80 then (x0, 1%nat)
  else if in_range 0xC2 0xDF x0 && in_range lo hi x1 then
    ((x0 - 0xC0) * 64 + (x1 - 0x80), 2%nat)
  else if in_range 0xE0 0xEF x0 && in_range lo hi x1 && cont x2 then
    ((x0 - 0xE0) * 4096 + (x1 - 0x80) * 64 + (x2 - 0x80), 3%nat)
  else if in_range 0xF0 0xF4 x0 && in_range lo hi x1 && cont x2 && cont x3 then
    ((x0 - 0xF0) * 262144 + (x1 - 0x80) * 4096 + (x2 - 0x80) * 64 + (x3 - 0x80), 4%nat)
  else (RuneError, 1%nat).

(** The runes of a string, with as much fuel as it has bytes: every step
    consumes at least one. *)
Fixpoint runes_fuel (fuel : nat) (bs : bytes) : list Z :=
  match fuel, bs with
  | S f, b :: rest =>
      let '(r, w) := decode_rune b rest in r :: runes_fuel f (drop (w - 1) rest)
  | _, _ => []
  end.

Definition runes (s : string) : list Z := let bs := to_bytes s in runes_fuel (length bs) bs.

(** [utf8.ValidString]: no byte is visited alone without being ASCII. *)
Fixpoint valid_fuel (fuel : nat) (bs : bytes) : bool :=
  match fuel, bs with
  | S f, b :: rest =>
      let '(r, w) := decode_rune b rest in
      negb ((r =? RuneError) && (w =? 1)%nat) && valid_fuel f (drop (w - 1) rest)
  | _, _ => true
  end.

Definition ValidString (s : string) : bool := let bs := to_bytes s in valid_fuel (length bs) bs.

(** The first byte decides whether the rune is ASCII. *)
Lemma decode_rune_ascii b rest :
  (decode_rune b rest).1 < 0x80 <-> byte_val b < 0x80.
Proof.
  pose proof (byte_val_range b). unfold decode_rune.
  destruct (second_range (byte_val b)) as [lo hi] eqn:Hr.
  assert (Hlo : 0x80 <= lo /\ (byte_val b = 0xE0 -> lo = 0xA0) /\ (byte_val b = 0xF0 -> lo = 0x90)).
  { unfold second_range in Hr.
    repeat match type of Hr with
      context [?x =? ?y] => destruct (Z.eqb_spec x y) end; simplify_eq; lia. }
  clear Hr. unfold cont, in_range, RuneError.
  repeat match goal with
    |- context [if ?c then _ else _] => let E := fresh "E" in destruct c eqn:E
    end; rewrite ?andb_true_iff, ?Z.ltb_lt, ?Z.ltb_ge, ?Z.leb_le in *; simpl; lia.
Qed.

Lemma decode_rune_small b rest :
  byte_val b < 0x80 -> decode_rune b rest = (byte_val b, 1%nat).
Proof.
  intros Hb. unfold decode_rune. destruct (second_range _).
  by destruct (Z.ltb_spec (byte_val b) 0x80); [|lia].
Qed.
End Utf8.

#[global] Arguments Utf8.decode_rune : simpl never.

(** ** time

    An instant is the number of nanoseconds since the Unix epoch; a duration is
    a number of nanoseconds in a 64-bit integer. *)

Definition time : Type := Z.
Definition duration : Type := Z.

Definition Second : duration := 10 ^ 9.
Definition Minute : duration := 60 * Second.
Definition Hour : duration := 60 * Minute.
Definition Millisecond : duration := 10 ^ 6.

(** [t.Before(u)], [t.After(u)], [t.Add(d)] *)
Definition time_Before (t u : time) : bool := t <? u.
Definition time_After (t u : time) : bool := u <? t.
Definition time_Add (t : time) (d : duration) : time := t + d.

(** [t.Sub(u)] saturates at the ends of the 64-bit range. *)
Definition time_Sub (t u : time) : duration := sat64 (t - u).

(** [t.Unix()]: the whole seconds elapsed since the epoch. *)
Definition time_UnixSec (t : time) : Z := t / Second.

(** [time.Unix(sec, 0)]: the seconds are stored relative to January 1 of year 1
    in a 64-bit integer, so an extreme argument wraps around. *)
Definition unixToInternal : Z := 62135596800.
Definition time_Unix (sec : Z) : time :=
  (wrap64 (sec + unixToInternal) - unixToInternal) * Second.

Lemma time_Unix_small sec :
  0 <= sec < 2 ^ 62 -> time_Unix sec = sec * Second.
Proof.
  intros Hs. unfold time_Unix. rewrite wrap64_id.
  - lia.
  - unfold in_int64, int64_min, int64_max, unixToInternal. lia.
Qed.

(** ** strconv.Quote, on ASCII *)

Definition quote_mark : ascii := ascii_of_N 34.
Definition backslash : ascii := ascii_of_N 92.

(** The single-letter escapes, by byte value. *)
Definition escape_letter (v : Z) : option ascii :=
  if v =? 7 then Some "a"%char else if v =? 8 then Some "b"%char
  else if v =? 9 then Some "t"%char else if v =? 10 then Some "n"%char
  else if v =? 11 then Some "v"%char else if v =? 12 then Some "f"%char
  else if v =? 13 then Some "r"%char else None.

Definition quote_byte (b : ascii) : bytes :=
  let v := byte_val b in
  if (v =? 34) || (v =? 92) then [backslash; b]
  else match escape_letter v with
       | Some l => [backslash; l]
       | None => if (v <? 32) || (v =? 127)
                 then backslash :: "x"%char :: Hex.encode [b] else [b]
       end.

Definition Quote (s : string) : string :=
  of_bytes (quote_mark :: concat (quote_byte <$> to_bytes s) ++ [quote_mark]).

(** ** Package strings *)

(** [strings.HasPrefix] and [strings.Contains] *)
Definition HasPrefix (s p : string) : bool := String.prefix p s.

Fixpoint Contains (s sub : string) : bool :=
  String.prefix sub s || match s with EmptyString => false | String _ s' => Contains s' sub end.

(** [strings.ToLower] on ASCII. *)
Definition lower_byte (b : ascii) : ascii :=
  let v := byte_val b in if (0x41 <=? v) && (v <=? 0x5A) then to_byte (v + 32) else b.
Definition ToLower (s : string) : string := of_bytes (lower_byte <$> to_bytes s).

(** [strings.EqualFold] on ASCII. *)
Definition EqualFold (s t : string) : bool := String.eqb (ToLower s) (ToLower t).

(** [strings.TrimSpace] on ASCII: tab, newline, vertical tab, form feed, carriage
    return and space. *)
Definition is_space (b : ascii) : bool := let v := byte_val b in ((9 <=? v) && (v <=? 13)) || (v =? 32).

Fixpoint drop_space (bs : bytes) : bytes :=
  match bs with
  | b :: rest => if is_space b then drop_space rest else bs
  | [] => []
  end.
Definition TrimSpace (s : string) : string := of_bytes (reverse (drop_space (reverse (drop_space (to_bytes s))))).

(** [strings.Join] *)
Definition strings_Join (l : list string) (sep : string) : string := String.concat sep l.

(** [strings.ReplaceAll] of a one-byte pattern. *)
Definition ReplaceAll (s : string) (old : ascii) (new : string) : string :=
  of_bytes (concat ((fun b => if Ascii.eqb b old then to_bytes new else [b]) <$> to_bytes s)).
