(* ===== verification/Apperr.v ===== *)
(** * internal/apperr: the application error type shared by every layer

    Go error values and the functions of the standard [errors] package on them,
    then package apperr: constructors, derived copies, sentinels and the mapping
    of an error to a status code and a client-safe message.

    A pointer is modelled by its address, so that [==] on errors is equality of
    addresses; a function that allocates takes the address of the new object as
    its first argument.  Package-level variables have the static addresses
    below 1000, the heap starts there. *)

From S2P Require Import Prelude.

(** ** Error values *)

Abbreviation addr := N.

(** The first heap address. *)
Definition heap_base : addr := 1000%N.

(** [apperr.Code] is a string with a set of named constants. *)
Definition Code : Type := string.
Definition CodeInvalidInput : Code := "INVALID_INPUT".
Definition CodeUnauthorized : Code := "UNAUTHORIZED".
Definition CodeForbidden : Code := "FORBIDDEN".
Definition CodeNotFound : Code := "NOT_FOUND".
Definition CodeConflict : Code := "CONFLICT".
Definition CodeTooManyRequests : Code := "TOO_MANY_REQUESTS".
Definition CodeTimeout : Code := "TIMEOUT".
Definition CodeUnavailable : Code := "UNAVAILABLE".
Definition CodeInternal : Code := "INTERNAL".

(** The struct behind [*apperr.Error].  [base] is only ever compared, so its
    address is what is kept of it. *)
Record ErrorOf (E : Type) := mkError {
  e_addr : addr;
  e_Code : Code;
  e_Message : string;
  e_Fields : gmap string string;
  e_cause : option E;
  e_base : option addr
}.
Arguments mkError {E}.
Arguments e_addr {E}. Arguments e_Code {E}. Arguments e_Message {E}.
Arguments e_Fields {E}. Arguments e_cause {E}. Arguments e_base {E}.

(** A [validator.FieldError]: the field's reported name, the rule that failed,
    whether the field is a string, and the rule's parameter. *)
Record FieldError := mkFieldError {
  fe_Field : string;
  fe_Tag : string;
  fe_IsString : bool;
  fe_Param : string
}.

(** The errors of package [context]. *)
Inductive ctx_error := DeadlineExceeded | Canceled.

#[export] Instance ctx_error_eq_dec : EqDecision ctx_error.
Proof. solve_decision. Defined.

#[local] Set Warnings "-register-all".

(** A non-nil [error].  A Go function that returns [(T, error)] is modelled by
    [result T] below, so the nil error is not a value of this type. *)
Inductive error :=
  | EString (a : addr) (msg : string)                   (* errors.New *)
  | EWrap (a : addr) (msg : string) (inner : error)     (* fmt.Errorf with %w *)
  | ECtx (c : ctx_error)                                (* context.DeadlineExceeded, context.Canceled *)
  | EApp (e : ErrorOf error)                            (* *apperr.Error *)
  | EMaxBytes (a : addr) (limit : Z)                    (* *http.MaxBytesError *)
  | EValidation (msg : string) (fes : list FieldError)  (* validator.ValidationErrors *)
  | EDriver (a : addr) (msg : string) (inner : option error). (* any other error *)

Abbreviation Error := (ErrorOf error).

(** Induction along the chain of wrapped errors. *)
Definition chain_ind (P : error -> Prop)
  (Hstr : forall a m, P (EString a m))
  (Hwrap : forall a m i, P i -> P (EWrap a m i))
  (Hctx : forall c, P (ECtx c))
  (Happ : forall e, (forall c, e_cause e = Some c -> P c) -> P (EApp e))
  (Hmax : forall a l, P (EMaxBytes a l))
  (Hval : forall m fes, P (EValidation m fes))
  (Hdrv : forall a m i, (forall c, i = Some c -> P c) -> P (EDriver a m i)) :
  forall err, P err :=
  fix go err : P err :=
    match err with
    | EString a m => Hstr a m
    | EWrap a m i => Hwrap a m i (go i)
    | ECtx c => Hctx c
    | EApp (mkError a k m f cause b) =>
        Happ (mkError a k m f cause b)
          (match cause with
           | Some c => fun c' H => eq_ind c P (go c) c' (Some_inj c c' H)
           | None => fun c' H => False_ind _ (None_ne_Some c' H)
           end)
    | EMaxBytes a l => Hmax a l
    | EValidation m fes => Hval m fes
    | EDriver a m i =>
        Hdrv a m i
          (match i with
           | Some c => fun c' H => eq_ind c P (go c) c' (Some_inj c c' H)
           | None => fun c' H => False_ind _ (None_ne_Some c' H)
           end)
    end.

Inductive result (A : Type) :=
  | Ok (x : A)
  | Err (e : error).
Arguments Ok {A}. Arguments Err {A}.

Definition is_ok {A} (r : result A) : bool := match r with Ok _ => true | Err _ => false end.

(** ** Package errors *)

Definition unwrap (err : error) : option error :=
  match err with
  | EWrap _ _ inner => Some inner
  | EApp e => e_cause e
  | EDriver _ _ inner => inner
  | _ => None
  end.

(** [err == target] on interface values: equal dynamic types and equal
    pointers.  [validator.ValidationErrors] is a slice type, which cannot be
    compared and which [errors.Is] skips. *)
Definition error_eqb (err target : error) : bool :=
  match err, target with
  | EString a _, EString b _ => (a =? b)%N
  | EWrap a _ _, EWrap b _ _ => (a =? b)%N
  | ECtx c, ECtx d => bool_decide (c = d)
  | EApp e, EApp t => (e_addr e =? e_addr t)%N
  | EMaxBytes a _, EMaxBytes b _ => (a =? b)%N
  | EDriver a _ _, EDriver b _ _ => (a =? b)%N
  | _, _ => false
  end.

(** [(e *Error) Is(target)]: matches a derived copy against its sentinel. *)
Definition Error_Is (e : Error) (target : error) : bool :=
  match target with
  | EApp t => (e_addr e =? e_addr t)%N || bool_decide (e_base e = Some (e_addr t))
  | _ => false
  end.

(** The [Is] method of an error that has one. *)
Definition method_Is (err target : error) : bool :=
  match err with EApp e => Error_Is e target | _ => false end.

(** [errors.Is] *)
Fixpoint errors_Is (err target : error) : bool :=
  error_eqb err target || method_Is err target ||
  match err with
  | EWrap _ _ inner => errors_Is inner target
  | EApp e => match e_cause e with Some c => errors_Is c target | None => false end
  | EDriver _ _ (Some inner) => errors_Is inner target
  | _ => false
  end.

(** [err.Error()] *)
Fixpoint error_string (err : error) : string :=
  match err with
  | EString _ msg => msg
  | EWrap _ msg inner => msg +:+ ": " +:+ error_string inner
  | ECtx DeadlineExceeded => "context deadline exceeded"
  | ECtx Canceled => "context canceled"
  | EApp e =>
      match e_cause e with
      | Some c => e_Message e +:+ ": " +:+ error_string c
      | None => e_Message e
      end
  | EMaxBytes _ _ => "http: request body too large"
  | EValidation msg _ => msg
  | EDriver _ msg _ => msg
  end.

(** ** Package apperr *)

Definition New (a : addr) (code : Code) (message : string) : Error :=
  mkError a code message ∅ None None.

Definition Wrap (a : addr) (code : Code) (message : string) (cause : error) : Error :=
  mkError a code message ∅ (Some cause) None.

Definition clone (a : addr) (e : Error) : Error :=
  let base := match e_base e with None => e_addr e | Some b => b end in
  mkError a (e_Code e) (e_Message e) (e_Fields e) (e_cause e) (Some base).

Definition WithCause (a : addr) (e : Error) (cause : error) : Error :=
  let c := clone a e in
  mkError (e_addr c) (e_Code c) (e_Message c) (e_Fields c) (Some cause) (e_base c).

Definition WithFields (a : addr) (e : Error) (fields : gmap string string) : Error :=
  let c := clone a e in
  mkError (e_addr c) (e_Code c) (e_Message c) fields (e_cause c) (e_base c).

Definition WithMessage (a : addr) (e : Error) (message : string) : Error :=
  let c := clone a e in
  mkError (e_addr c) (e_Code c) message (e_Fields c) (e_cause c) (e_base c).

(** ** Sentinels *)

Definition ErrInternal : Error := New 1 CodeInternal "Internal server error".
Definition ErrTimeout : Error := New 2 CodeTimeout "Request timed out".
Definition ErrCanceled : Error := New 3 CodeTimeout "Request was canceled".
Definition ErrValidation : Error := New 4 CodeInvalidInput "Validation failed".
Definition ErrBadRequest : Error := New 5 CodeInvalidInput "Invalid request body".
Definition ErrRateLimit : Error := New 6 CodeTooManyRequests "Too many requests".

Definition ErrInvalidCredentials : Error := New 7 CodeUnauthorized "Invalid email or password".
Definition ErrUserAlreadyExists : Error := New 8 CodeConflict "Email is already registered".
Definition ErrUserNotFound : Error := New 9 CodeNotFound "User not found".
Definition ErrInvalidUserID : Error := New 10 CodeInvalidInput "Invalid user id".
Definition ErrUnauthorized : Error := New 11 CodeUnauthorized "Unauthorized".

Definition ErrMissingAccessToken : Error := New 12 CodeUnauthorized "Missing authentication token".
Definition ErrInvalidAccessToken : Error := New 13 CodeUnauthorized "Invalid or expired token".
Definition ErrMissingRefreshToken : Error := New 14 CodeUnauthorized "Missing refresh token".
Definition ErrInvalidRefreshToken : Error := New 15 CodeUnauthorized "Invalid refresh token".
Definition ErrRefreshTokenRevoked : Error := New 16 CodeUnauthorized "Refresh token has been revoked".
Definition ErrRefreshTokenExpired : Error := New 17 CodeUnauthorized "Refresh token has expired".

Definition ErrMissingCSRFToken : Error := New 18 CodeForbidden "Missing CSRF token".
Definition ErrInvalidCSRFToken : Error := New 19 CodeForbidden "Invalid CSRF token".

Definition ErrUnhealthy : Error := New 20 CodeUnavailable "Service is not ready".

(** Every sentinel of the package. *)
Definition sentinels : list Error :=
  [ErrInternal; ErrTimeout; ErrCanceled; ErrValidation; ErrBadRequest; ErrRateLimit;
   ErrInvalidCredentials; ErrUserAlreadyExists; ErrUserNotFound; ErrInvalidUserID;
   ErrUnauthorized; ErrMissingAccessToken; ErrInvalidAccessToken; ErrMissingRefreshToken;
   ErrInvalidRefreshToken; ErrRefreshTokenRevoked; ErrRefreshTokenExpired;
   ErrMissingCSRFToken; ErrInvalidCSRFToken; ErrUnhealthy].

Definition Internal (a : addr) (cause : error) : Error := WithCause a ErrInternal cause.

(** ** From an error to what the client sees *)

(** [From]: the first [*Error] on the chain, as [errors.As] finds it. *)
Fixpoint From_ (err : error) : option Error :=
  match err with
  | EApp e => Some e
  | EWrap _ _ inner => From_ inner
  | EDriver _ _ (Some inner) => From_ inner
  | _ => None
  end.

Definition statusForCode (c : Code) : Z :=
  if String.eqb c CodeInvalidInput then 400
  else if String.eqb c CodeUnauthorized then 401
  else if String.eqb c CodeForbidden then 403
  else if String.eqb c CodeNotFound then 404
  else if String.eqb c CodeConflict then 409
  else if String.eqb c CodeTooManyRequests then 429
  else if String.eqb c CodeTimeout then 504
  else if String.eqb c CodeUnavailable then 503
  else 500.

Definition HTTPStatus (err : error) : Z :=
  match From_ err with
  | Some e => statusForCode (e_Code e)
  | None =>
      if errors_Is err (ECtx DeadlineExceeded) then 504
      else if errors_Is err (ECtx Canceled) then 408
      else 500
  end.

Definition ClientMessage (err : error) : string :=
  match From_ err with
  | Some e => e_Message e
  | None =>
      if errors_Is err (ECtx DeadlineExceeded) then e_Message ErrTimeout
      else if errors_Is err (ECtx Canceled) then e_Message ErrCanceled
      else e_Message ErrInternal
  end.

Definition Fields (err : error) : gmap string string :=
  match From_ err with Some e => e_Fields e | None => ∅ end.

(** ** Derived copies

    [derived s e]: [e] was made from [s] by any number of [WithCause],
    [WithFields] and [WithMessage], each allocating its copy on the heap. *)
Inductive derived (s : Error) : Error -> Prop :=
  | derived_self : derived s s
  | derived_WithCause a e c :
      (heap_base <= a)%N -> derived s e -> derived s (WithCause a e c)
  | derived_WithFields a e f :
      (heap_base <= a)%N -> derived s e -> derived s (WithFields a e f)
  | derived_WithMessage a e m :
      (heap_base <= a)%N -> derived s e -> derived s (WithMessage a e m).

#[export] Hint Constructors derived : go.

Lemma derived_inv s e :
  e_base s = None -> derived s e ->
  e_Code e = e_Code s /\
  (e = s \/ ((heap_base <= e_addr e)%N /\ e_base e = Some (e_addr s))).
Proof.
  intros Hs. induction 1 as [|a e c Ha He [IHc IH]|a e f Ha He [IHc IH]|a e m Ha He [IHc IH]];
    [by auto|..].
  all: split; [done|right]; split; [done|]; simpl.
  all: destruct IH as [->|[_ ->]]; [by rewrite Hs|done].
Qed.

Lemma sentinel_static s :
  s ∈ sentinels -> e_base s = None /\ (e_addr s < heap_base)%N.
Proof.
  revert s. apply (proj1 (Forall_forall (fun s => e_base s = None /\ (e_addr s < heap_base)%N) _)).
  repeat constructor.
Qed.

Lemma sentinel_addr_inj s t :
  s ∈ sentinels -> t ∈ sentinels -> e_addr s = e_addr t -> s = t.
Proof.
  intros Hs Ht Heq. apply list_elem_of_lookup in Hs as [i Hi], Ht as [j Hj].
  assert (Hnd : NoDup (e_addr <$> sentinels)) by (apply (bool_decide_unpack _); vm_compute; exact I).
  assert (i = j) as ->; [|congruence].
  apply (NoDup_lookup _ i j (e_addr s) Hnd); rewrite list_lookup_fmap.
  - by rewrite Hi.
  - by rewrite Hj, Heq.
Qed.

(** A copy derived from a sentinel, through any number of [WithCause],
    [WithFields] and [WithMessage], keeps the sentinel's code and is matched by
    its [Is] method against that sentinel and no other. *)
Theorem derived_matches_only_its_sentinel s t e :
  s ∈ sentinels -> t ∈ sentinels -> derived s e ->
  e_Code e = e_Code s /\ (Error_Is e (EApp t) = true <-> s = t).
Proof.
  intros Hs Ht He. destruct (sentinel_static s Hs) as [Hsb Hsa].
  destruct (sentinel_static t Ht) as [_ Hta].
  destruct (derived_inv s e Hsb He) as [Hc Hcase]. split; [done|].
  unfold Error_Is. rewrite orb_true_iff, N.eqb_eq, bool_decide_eq_true.
  destruct Hcase as [->|[Ha Hb]].
  - rewrite Hsb. split; [intros [?|?]; [by apply sentinel_addr_inj|done]|intros ->; auto].
  - rewrite Hb. split; [intros [?|?]|intros ->; auto].
    + lia.
    + apply sentinel_addr_inj; [done..|congruence].
Qed.

Lemma derived_matches_only_its_sentinel_witness :
  Error_Is (WithFields 1001 (WithCause 1000 ErrValidation (ECtx Canceled)) ∅) (EApp ErrValidation) = true.
Proof.
  apply (derived_matches_only_its_sentinel ErrValidation ErrValidation).
  - by (do 3 right; left).
  - by (do 3 right; left).
  - apply derived_WithFields; [done|]. apply derived_WithCause; [done|]. apply derived_self.
  - reflexivity.
Defined.

(** ** What a response depends on

    [scrub err] erases every piece of internal text of an error chain: the
    message of each plain, wrapping or third-party error, and the cause of the
    first [*Error]. *)
Fixpoint scrub (err : error) : error :=
  match err with
  | EString a _ => EString a ""
  | EWrap a _ inner => EWrap a "" (scrub inner)
  | EApp e => EApp (mkError (e_addr e) (e_Code e) (e_Message e) (e_Fields e) None (e_base e))
  | EDriver a _ (Some inner) => EDriver a "" (Some (scrub inner))
  | EDriver a _ None => EDriver a "" None
  | EValidation _ fes => EValidation "" fes
  | _ => err
  end.

(** What the client gets to see of an error: status, message and fields. *)
Definition client_view (err : error) : Z * string * gmap string string :=
  (HTTPStatus err, ClientMessage err, Fields err).

Lemma From_scrub err :
  From_ (scrub err) =
  (fun e => mkError (e_addr e) (e_Code e) (e_Message e) (e_Fields e) None (e_base e)) <$> From_ err.
Proof.
  induction err as [| | | | | |a m i IH] using chain_ind; simpl; try done.
  destruct i as [c|]; simpl; [by apply IH|done].
Qed.

Lemma errors_Is_ctx_scrub err c :
  From_ err = None -> errors_Is (scrub err) (ECtx c) = errors_Is err (ECtx c).
Proof.
  induction err as [|? ? ? IH| | | | |a m i IH] using chain_ind; simpl; intros HF; try done.
  - by rewrite IH.
  - destruct i as [i|]; simpl; [by rewrite (IH i)|done].
Qed.

Definition statuses : list Z := [400; 401; 403; 404; 408; 409; 429; 500; 503; 504].

Lemma statusForCode_known c : statusForCode c ∈ statuses.
Proof. unfold statusForCode. repeat case_match; by repeat (left || right). Qed.

(** C21.  What a client sees of an error does not depend on any internal text:
    erasing every wrapped message and every hidden cause of the chain leaves the
    status, the message and the field details unchanged. *)
Theorem client_view_scrub err : client_view (scrub err) = client_view err.
Proof.
  unfold client_view, HTTPStatus, ClientMessage, Fields. rewrite From_scrub.
  destruct (From_ err) as [e|] eqn:HF; simpl; [done|].
  by rewrite !errors_Is_ctx_scrub.
Qed.

(** Whatever the cause, an internal error is a 500 with the generic message. *)
Lemma Internal_view a cause :
  client_view (EApp (Internal a cause)) = (500, "Internal server error", ∅).
Proof. done. Qed.

Lemma HTTPStatus_known err : HTTPStatus err ∈ statuses.
Proof.
  unfold HTTPStatus. destruct (From_ err) as [e|]; [apply statusForCode_known|].
  repeat case_match; by repeat (left || right).
Qed.
