(* ===== verification/Script.v ===== *)
(** * Computations on a state

    A small state monad with the notations of the migrations and of the start-up
    code: [do*] sequences two computations, [do!] returns early on an error, the way
    [if err != nil] does. *)

From S2P Require Import Prelude Apperr.

Definition Script (S A : Type) : Type := S -> A * S.

Definition mret {S A} (a : A) : Script S A := fun s => (a, s).
Definition mbind {S A B} (m : Script S A) (f : A -> Script S B) : Script S B :=
  fun s => let '(a, s1) := m s in f a s1.
Definition modify {S} (f : S -> S) : Script S unit := fun s => (tt, f s).

Declare Scope mig_scope.
Notation "'do*' x := m 'in' k" := (mbind m (fun x => k))
  (at level 10, x name, m at level 100, k at level 200) : mig_scope.
Notation "'do!' x := m 'onerr' e => h 'in' k" :=
  (mbind m (fun r => match r with Ok x => k | Err e => h end))
  (at level 10, x name, e name, m at level 100, h at level 200, k at level 200) : mig_scope.

(** A postcondition of a computation run on [s]. *)
Definition yields {S A} (m : Script S A) (s : S) (Q : A -> S -> Prop) : Prop := Q (m s).1 (m s).2.

Lemma yields_ret {S A} (a : A) (s : S) Q : Q a s -> yields (mret a) s Q.
Proof. done. Qed.

Lemma yields_bind {S A B} (m : Script S A) (f : A -> Script S B) s Q :
  yields m s (fun a s1 => yields (f a) s1 Q) -> yields (mbind m f) s Q.
Proof. unfold yields, mbind. by destruct (m s). Qed.

Lemma yields_mono {S A} (m : Script S A) s (P Q : A -> S -> Prop) :
  yields m s P -> (forall a s', P a s' -> Q a s') -> yields m s Q.
Proof. unfold yields. auto. Qed.

Lemma yields_run {S A} (m : Script S A) s Q a s' : yields m s Q -> m s = (a, s') -> Q a s'.
Proof. unfold yields. intros H Hm. by rewrite Hm in H. Qed.

(** Runs the first computation by its specification. *)
Tactic Notation "yields_call" uconstr(lem) :=
  apply yields_bind; eapply yields_mono; [apply lem|cbv beta].

(** A computation on one half of a state. *)
Definition on_fst {S T A} (m : Script S A) : Script (S * T) A := fun st => let '(a, s) := m st.1 in (a, (s, st.2)).
Definition on_snd {S T A} (m : Script T A) : Script (S * T) A := fun st => let '(a, t) := m st.2 in (a, (st.1, t)).
