(* ===== verification/Model.v ===== *)
(** * internal/model and the value types the layers exchange

    Entities with the gorm metadata of their struct tags, request and response
    types, the pagination window, token claims, and the contents of the
    database. *)

From S2P Require Import Prelude GoStd Apperr.

(** A [uuid.UUID] is its 16 bytes, read as a number. *)
Abbreviation UUID := N.

(** The zero value of [time.Time]: January 1 of year 1, UTC. *)
Definition time_zero : time := - unixToInternal * Second.

(** ** internal/model/entity *)

Record UserEntity := mkUser {
  u_ID : UUID;
  u_Email : string;
  u_Password : bytes;
  u_Name : string;
  u_CreatedAt : time;
  u_UpdatedAt : time;
  u_DeletedAt : option time
}.

Record RefreshTokenEntity := mkToken {
  rt_ID : UUID;
  rt_UserID : UUID;
  rt_TokenHash : string;
  rt_ExpiresAt : time;
  rt_CreatedAt : time;
  rt_UpdatedAt : time
}.

Record CounterEntity := mkCounter {
  c_ID : UUID;
  c_Value : Z;
  c_CreatedAt : time;
  c_UpdatedAt : time
}.

Record MessageEntity := mkMessage {
  m_ID : UUID;
  m_Key : string;
  m_Value : string;
  m_CreatedAt : time;
  m_UpdatedAt : time
}.

(** ** internal/model/request *)

Record RegisterUserRequest := mkRegisterReq {
  rr_Email : string;
  rr_Password : string;
  rr_Name : string
}.

Record LoginRequest := mkLoginReq {
  lr_Email : string;
  lr_Password : string
}.

Record ChangePasswordRequest := mkChangeReq {
  cp_CurrentPassword : string;
  cp_NewPassword : string
}.

Record Pagination := mkPagination { Page : Z; Limit : Z }.

Definition DefaultPage : Z := 1.
Definition DefaultLimit : Z := 20.
Definition MaxLimit : Z := 100.

Definition Normalized (p : Pagination) : Pagination :=
  let p := if Page p <? DefaultPage then mkPagination DefaultPage (Limit p) else p in
  let p := if Limit p <? 1 then mkPagination (Page p) DefaultLimit else p in
  let p := if Limit p >? MaxLimit then mkPagination (Page p) MaxLimit else p in
  p.

(** The product is computed on Go's 64-bit [int]. *)
Definition Offset (p : Pagination) : Z :=
  let n := Normalized p in
  wrap64 (wrap64 (Page n - 1) * Limit n).

(** ** internal/model/response *)

Record GetUser := mkGetUser { gu_ID : UUID; gu_Email : string; gu_Name : string }.

Record AuthResponse := mkAuth {
  ar_User : GetUser;
  ar_AccessToken : string;
  ar_RefreshToken : string
}.

(** [LoginResponse] and [RegisterResponse] have the same fields. *)
Abbreviation LoginResponse := AuthResponse.
Abbreviation RegisterResponse := AuthResponse.

Record TokenPair := mkPair { tp_AccessToken : string; tp_RefreshToken : string }.

(** [RefreshResponse] and [ChangePasswordResponse] have the same fields. *)
Abbreviation RefreshResponse := TokenPair.
Abbreviation ChangePasswordResponse := TokenPair.

Record Session := mkSession {
  se_ID : UUID;
  se_Current : bool;
  se_CreatedAt : time;
  se_ExpiresAt : time
}.

Record Meta := mkMeta { mt_Page : Z; mt_Limit : Z; mt_Total : Z }.

Definition NewMeta (page limit total : Z) : Meta := mkMeta page limit total.

Record SessionList := mkSessionList { sl_Sessions : list Session; sl_Meta : Meta }.

Record GetCounter := mkGetCounter { gc_Value : Z }.
Record GetMessage := mkGetMessage { gm_Content : string }.

(** ** internal/service/token: [TokenClaims]

    The registered claims the service sets; [None] is a nil [NumericDate]. *)
Record TokenClaims := mkClaims {
  tc_UserID : UUID;
  tc_Email : string;
  tc_Name : string;
  tc_ID : string;
  tc_ExpiresAt : option time;
  tc_IssuedAt : option time;
  tc_Issuer : string
}.

(** ** The database at rest: every table, by primary key *)

Record Tables := mkTables {
  t_users : gmap UUID UserEntity;
  t_tokens : gmap UUID RefreshTokenEntity;
  t_counters : gmap UUID CounterEntity;
  t_messages : gmap UUID MessageEntity
}.

Definition empty_tables : Tables := mkTables ∅ ∅ ∅ ∅.

(** ** Properties of the pagination window *)

(** The largest page whose offset is computed without overflow. *)
Definition safe_page : Z := 92233720368547759.

Lemma Normalized_range p :
  1 <= Page (Normalized p) /\ 1 <= Limit (Normalized p) <= MaxLimit.
Proof.
  unfold Normalized, DefaultPage, DefaultLimit, MaxLimit. destruct p as [pg lim]; simpl.
  destruct (Z.ltb_spec pg 1); simpl; destruct (Z.ltb_spec lim 1); simpl;
    repeat case_match; simpl; lia.
Qed.

Lemma Normalized_id p :
  1 <= Page p -> 1 <= Limit p <= MaxLimit -> Normalized p = p.
Proof.
  unfold Normalized, DefaultPage, MaxLimit. destruct p as [pg lim]; simpl. intros ? ?.
  destruct (Z.ltb_spec pg 1); [lia|]. simpl. destruct (Z.ltb_spec lim 1); [lia|]. simpl.
  destruct (Z.gtb_spec lim 100); [lia|done].
Qed.

Lemma Normalized_idemp p : Normalized (Normalized p) = Normalized p.
Proof. destruct (Normalized_range p). by apply Normalized_id. Qed.

(** C39.  The normalised window is well formed whatever the client sent, a window
    that was already well formed is left alone, and up to page 92233720368547759
    (with any limit) the offset is exactly the number of rows on the earlier
    pages, without overflow. *)
Theorem pagination_window p :
  in_int64 (Page p) -> Page p <= safe_page ->
  1 <= Page (Normalized p) /\ 1 <= Limit (Normalized p) <= MaxLimit /\
  (1 <= Page p -> 1 <= Limit p <= MaxLimit -> Normalized p = p) /\
  0 <= Offset p /\ Offset p = (Page (Normalized p) - 1) * Limit (Normalized p).
Proof.
  intros Hr Hp. destruct (Normalized_range p) as [H1 H2].
  split; [done|]. split; [done|]. split; [apply Normalized_id|].
  assert (Hpn : Page (Normalized p) <= safe_page).
  { unfold Normalized, DefaultPage, safe_page in *. destruct p as [pg lim]; simpl in *.
    destruct (Z.ltb_spec pg 1); simpl; repeat case_match; simpl; lia. }
  unfold Offset. set (n := Normalized p) in *. unfold MaxLimit, safe_page in *.
  assert (in_int64 (Page n - 1)) by (unfold in_int64, int64_min, int64_max; lia).
  assert (in_int64 ((Page n - 1) * Limit n)) by (unfold in_int64, int64_min, int64_max; nia).
  rewrite !wrap64_id by (rewrite ?wrap64_id; done). split; nia.
Qed.

Lemma pagination_window_witness :
  Offset (mkPagination 3 20) = 40 /\ Offset (mkPagination 0 5000) = 0.
Proof.
  pose proof (pagination_window (mkPagination 3 20)
                ltac:(by vm_compute) ltac:(by vm_compute)) as (_ & _ & _ & _ & H).
  split; [exact H|].
  pose proof (pagination_window (mkPagination 0 5000)
                ltac:(by vm_compute) ltac:(by vm_compute)) as (_ & _ & _ & _ & H').
  exact H'.
Defined.

(** One page further the multiplication overflows: a page number that passes
    the binding rule [min=1] asks the database for a negative offset. *)
Theorem pagination_offset_overflows :
  exists p, 1 <= Page p <= int64_max /\ 1 <= Limit p <= MaxLimit /\ Offset p < 0.
Proof. by exists (mkPagination (safe_page + 1) 100). Qed.
