(* ===== verification/Gorm.v ===== *)
(** * The object-relational mapper, as the repositories use it

    gorm and the SQL database behind it are not part of the repository: the
    model takes the function that executes a statement as a parameter.  This
    file gives the statements the repositories build, the metadata gorm reads
    off the entities' struct tags, and [gorm_spec], the documented contract of
    each statement on the contents of the tables.  [Memory] is an in-memory
    executor, proved to satisfy the contract. *)

From S2P Require Import Prelude GoStd Apperr Model.

(** ** Statements *)

Inductive table : Type -> Type :=
  | TUsers : table UserEntity
  | TTokens : table RefreshTokenEntity
  | TCounters : table CounterEntity
  | TMessages : table MessageEntity.

(** A [Where] clause is the predicate it denotes; [Find] orders by two
    columns, both descending. *)
Inductive stmt : Type -> Type :=
  | First {R} (t : table R) (p : R -> bool) (for_update : bool) : stmt R
  | Find {R} (t : table R) (p : R -> bool) (order : R -> Z * Z) (limit offset : Z) : stmt (list R)
  | Count {R} (t : table R) (p : R -> bool) : stmt Z
  | Create {R} (t : table R) (r : R) : stmt R
  | Updates {R} (t : table R) (p : R -> bool) (r : R) : stmt Z
  | Save {R} (t : table R) (r : R) : stmt R
  | Delete {R} (t : table R) (p : R -> bool) : stmt Z.

(** ** Metadata of the entities *)

Definition rows {R} (t : table R) (db : Tables) : gmap UUID R :=
  match t in table R return gmap UUID R with
  | TUsers => t_users db
  | TTokens => t_tokens db
  | TCounters => t_counters db
  | TMessages => t_messages db
  end.

Definition set_rows {R} (t : table R) (m : gmap UUID R) (db : Tables) : Tables :=
  match t in table R return gmap UUID R -> Tables with
  | TUsers => fun m => mkTables m (t_tokens db) (t_counters db) (t_messages db)
  | TTokens => fun m => mkTables (t_users db) m (t_counters db) (t_messages db)
  | TCounters => fun m => mkTables (t_users db) (t_tokens db) m (t_messages db)
  | TMessages => fun m => mkTables (t_users db) (t_tokens db) (t_counters db) m
  end m.

(** [gorm:"primaryKey"] *)
Definition pk {R} (t : table R) : R -> UUID :=
  match t in table R return R -> UUID with
  | TUsers => u_ID
  | TTokens => rt_ID
  | TCounters => c_ID
  | TMessages => m_ID
  end.

(** A row with a non-null [gorm.DeletedAt] is invisible to every query. *)
Definition visible {R} (t : table R) : R -> bool :=
  match t in table R return R -> bool with
  | TUsers => fun u => match u_DeletedAt u with None => true | Some _ => false end
  | _ => fun _ => true
  end.

(** [gorm:"uniqueIndex"]: whether two rows hold the same indexed value. *)
Definition same_key {R} (t : table R) : R -> R -> bool :=
  match t in table R return R -> R -> bool with
  | TUsers => fun u v => String.eqb (u_Email u) (u_Email v)
  | TTokens => fun a b => String.eqb (rt_TokenHash a) (rt_TokenHash b)
  | _ => fun _ _ => false
  end.

(** gorm fills a zero [CreatedAt] or [UpdatedAt] when it inserts a row. *)
Definition or_now (t now : time) : time := if t =? time_zero then now else t.

Definition stamp_create {R} (t : table R) (now : time) : R -> R :=
  match t in table R return R -> R with
  | TUsers => fun u =>
      mkUser (u_ID u) (u_Email u) (u_Password u) (u_Name u)
             (or_now (u_CreatedAt u) now) (or_now (u_UpdatedAt u) now) (u_DeletedAt u)
  | TTokens => fun r =>
      mkToken (rt_ID r) (rt_UserID r) (rt_TokenHash r) (rt_ExpiresAt r)
              (or_now (rt_CreatedAt r) now) (or_now (rt_UpdatedAt r) now)
  | TCounters => fun c =>
      mkCounter (c_ID c) (c_Value c) (or_now (c_CreatedAt c) now) (or_now (c_UpdatedAt c) now)
  | TMessages => fun m =>
      mkMessage (m_ID m) (m_Key m) (m_Value m) (or_now (m_CreatedAt m) now) (or_now (m_UpdatedAt m) now)
  end.

(** [Updates] with a struct writes its non-zero fields and [UpdatedAt]. *)
Definition or_str (new old : string) : string := if String.eqb new "" then old else new.
Definition or_time (new old : time) : time := if new =? time_zero then old else new.
Definition or_id (new old : UUID) : UUID := if (new =? 0)%N then old else new.

Definition merge_row {R} (t : table R) (now : time) : R -> R -> R :=
  match t in table R return R -> R -> R with
  | TUsers => fun n o =>
      mkUser (u_ID o) (or_str (u_Email n) (u_Email o))
             (match u_Password n with [] => u_Password o | pw => pw end)
             (or_str (u_Name n) (u_Name o)) (or_time (u_CreatedAt n) (u_CreatedAt o)) now
             (match u_DeletedAt n with None => u_DeletedAt o | d => d end)
  | TTokens => fun n o =>
      mkToken (rt_ID o) (or_id (rt_UserID n) (rt_UserID o)) (or_str (rt_TokenHash n) (rt_TokenHash o))
              (or_time (rt_ExpiresAt n) (rt_ExpiresAt o)) (or_time (rt_CreatedAt n) (rt_CreatedAt o)) now
  | TCounters => fun n o =>
      mkCounter (c_ID o) (if c_Value n =? 0 then c_Value o else c_Value n)
                (or_time (c_CreatedAt n) (c_CreatedAt o)) now
  | TMessages => fun n o =>
      mkMessage (m_ID o) (or_str (m_Key n) (m_Key o)) (or_str (m_Value n) (m_Value o))
                (or_time (m_CreatedAt n) (m_CreatedAt o)) now
  end.

(** [Save] writes every field and sets [UpdatedAt]. *)
Definition stamp_save {R} (t : table R) (now : time) : R -> R :=
  match t in table R return R -> R with
  | TUsers => fun u =>
      mkUser (u_ID u) (u_Email u) (u_Password u) (u_Name u) (u_CreatedAt u) now (u_DeletedAt u)
  | TTokens => fun r =>
      mkToken (rt_ID r) (rt_UserID r) (rt_TokenHash r) (rt_ExpiresAt r) (rt_CreatedAt r) now
  | TCounters => fun c => mkCounter (c_ID c) (c_Value c) (c_CreatedAt c) now
  | TMessages => fun m => mkMessage (m_ID m) (m_Key m) (m_Value m) (m_CreatedAt m) now
  end.

(** A table with a [gorm.DeletedAt] column is deleted from by stamping it. *)
Definition soft_delete {R} (t : table R) : option (time -> R -> R) :=
  match t in table R return option (time -> R -> R) with
  | TUsers => Some (fun now u =>
      mkUser (u_ID u) (u_Email u) (u_Password u) (u_Name u) (u_CreatedAt u) (u_UpdatedAt u) (Some now))
  | _ => None
  end.

(** ** The contract *)

Definition ErrRecordNotFound : error := EString 501 "record not found".
Definition ErrDuplicatedKey : error := EString 502 "duplicated key not allowed".

(** Any other failure: a lost connection, a cancelled statement, a full disk. *)
Definition driver_error (e : error) : Prop :=
  errors_Is e ErrRecordNotFound = false /\ errors_Is e ErrDuplicatedKey = false.

(** Row [x] of table [t] is one the predicate selects. *)
Definition selected {R} (t : table R) (p : R -> bool) (db : Tables) (x : R) : Prop :=
  exists k, rows t db !! k = Some x /\ visible t x = true /\ p x = true.

(** The unique index holds: two rows with the same indexed value are one. *)
Definition unique_ok {R} (t : table R) (m : gmap UUID R) : Prop :=
  map_Forall (fun i x => map_Forall (fun j y => same_key t x y = true -> i = j) m) m.

(** Inserting [r] collides with the primary key or the unique index. *)
Definition collides {R} (t : table R) (r : R) (m : gmap UUID R) : Prop :=
  m !! pk t r <> None \/ exists k y, m !! k = Some y /\ same_key t r y = true.

(** ORDER BY k1 DESC, k2 DESC *)
Definition desc (a b : Z * Z) : Prop := b.1 < a.1 \/ (a.1 = b.1 /\ b.2 <= a.2).

#[export] Instance desc_dec : RelDecision desc.
Proof. intros a b. unfold desc. apply _. Defined.

Definition select_rows {R} (t : table R) (p : R -> bool) (db : Tables) : gmap UUID R :=
  filter (fun kx => visible t kx.2 && p kx.2 = true) (rows t db).

Definition delete_rows {R} (t : table R) (p : R -> bool) (now : time) (m : gmap UUID R) : gmap UUID R :=
  match soft_delete t with
  | Some mark => (fun x => if visible t x && p x then mark now x else x) <$> m
  | None => filter (fun kx => visible t kx.2 && p kx.2 = false) m
  end.

Definition update_rows {R} (t : table R) (p : R -> bool) (now : time) (r : R) (m : gmap UUID R) : gmap UUID R :=
  (fun x => if visible t x && p x then merge_row t now r x else x) <$> m.

(** What executing a statement on [db] may return, and the tables it leaves.  The lock
    a [First] takes shows in what the statements of others have to wait for, which is
    in Isolation.v; its own answer is the same. *)
Definition gorm_spec {A} (q : stmt A) (db : Tables) : result A -> Tables -> Prop :=
  match q in stmt A return result A -> Tables -> Prop with
  | First t p _ => fun r db' =>
      db' = db /\
      match r with
      | Ok x => selected t p db x /\ (forall y, selected t p db y -> (pk t x <= pk t y)%N)
      | Err e =>
          (e = ErrRecordNotFound /\ forall y, ~ selected t p db y) \/ driver_error e
      end
  | Find t p order limit offset => fun r db' =>
      db' = db /\
      match r with
      | Ok l =>
          exists full, full ≡ₚ (map_to_list (select_rows t p db)).*2 /\
                       StronglySorted (fun a b => desc (order a) (order b)) full /\
                       l = take (Z.to_nat limit) (drop (Z.to_nat offset) full)
      | Err e => driver_error e
      end
  | Count t p => fun r db' =>
      db' = db /\
      match r with
      | Ok n => n = Z.of_nat (size (select_rows t p db))
      | Err e => driver_error e
      end
  | Create t r => fun res db' =>
      match res with
      | Ok x => ~ collides t r (rows t db) /\
                exists now, x = stamp_create t now r /\
                            db' = set_rows t (<[pk t r := x]> (rows t db)) db
      | Err e => db' = db /\
                 ((e = ErrDuplicatedKey /\ collides t r (rows t db)) \/ driver_error e)
      end
  | Updates t p r => fun res db' =>
      match res with
      | Ok n => n = Z.of_nat (size (select_rows t p db)) /\
                exists now, unique_ok t (update_rows t p now r (rows t db)) /\
                            db' = set_rows t (update_rows t p now r (rows t db)) db
      | Err e => db' = db /\
                 ((e = ErrDuplicatedKey /\
                   exists now, ~ unique_ok t (update_rows t p now r (rows t db))) \/ driver_error e)
      end
  | Save t r => fun res db' =>
      match res with
      | Ok x => exists now, x = stamp_save t now r /\
                            unique_ok t (<[pk t r := x]> (rows t db)) /\
                            db' = set_rows t (<[pk t r := x]> (rows t db)) db
      | Err e => db' = db /\
                 ((e = ErrDuplicatedKey /\
                   exists now, ~ unique_ok t (<[pk t r := stamp_save t now r]> (rows t db))) \/ driver_error e)
      end
  | Delete t p => fun res db' =>
      match res with
      | Ok n => n = Z.of_nat (size (select_rows t p db)) /\
                exists now, db' = set_rows t (delete_rows t p now (rows t db)) db
      | Err e => db' = db /\ driver_error e
      end
  end.

(** A statement that reports an error has changed nothing. *)
Lemma gorm_spec_err {A} (q : stmt A) db e db' :
  gorm_spec q db (Err e) db' -> db' = db.
Proof. destruct q; simpl; intros; tauto. Qed.

Lemma rows_set_rows {R} (t : table R) m db : rows t (set_rows t m db) = m.
Proof. by destruct t. Qed.

(** *** The unique index is kept by the map operations *)

Lemma same_key_sym {R} (t : table R) x y : same_key t x y = same_key t y x.
Proof. destruct t; try done; apply String.eqb_sym. Qed.

Lemma unique_ok_insert {R} (t : table R) r m :
  ~ collides t r m -> unique_ok t m -> unique_ok t (<[pk t r := r]> m).
Proof.
  intros Hc Hm i x Hx j y Hy Hk.
  apply lookup_insert_Some in Hx as [[<- <-]|[Hi Hx]]; apply lookup_insert_Some in Hy as [[<- <-]|[Hj Hy]];
    [done| | |by eapply Hm].
  - destruct Hc. right. eauto.
  - destruct Hc. right. rewrite same_key_sym in Hk. eauto.
Qed.

Lemma unique_ok_filter {R} (t : table R) (p : R -> bool) b m :
  unique_ok t m -> unique_ok t (filter (fun kx => p kx.2 = b) m).
Proof.
  intros Hm i x [Hx _]%map_lookup_filter_Some j y [Hy _]%map_lookup_filter_Some. by apply (Hm i x Hx j y).
Qed.

Lemma unique_ok_fmap {R} (t : table R) (f : R -> R) m :
  (forall x y, same_key t (f x) (f y) = same_key t x y) -> unique_ok t m -> unique_ok t (f <$> m).
Proof.
  intros Hf Hm i x Hx j y Hy. apply lookup_fmap_Some in Hx as (x' & <- & Hx), Hy as (y' & <- & Hy).
  rewrite Hf. by apply (Hm i x' Hx j y').
Qed.

(** ** An executor in memory *)

Module Memory.

#[local] Instance pk_le_dec {R} (t : table R) : RelDecision (fun a b => N.le (pk t a) (pk t b)).
Proof. intros a b. apply _. Defined.

#[local] Instance order_dec {R} (order : R -> Z * Z) : RelDecision (fun a b => desc (order a) (order b)).
Proof. intros a b. apply _. Defined.

#[local] Instance unique_ok_dec {R} (t : table R) m : Decision (unique_ok t m).
Proof. unfold unique_ok. apply _. Defined.

Definition first_row {R} (t : table R) (m : gmap UUID R) : option R :=
  match merge_sort (fun a b => N.le (pk t a) (pk t b)) (map_to_list m).*2 with
  | x :: _ => Some x
  | [] => None
  end.

Definition collides_b {R} (t : table R) (r : R) (m : gmap UUID R) : bool :=
  match m !! pk t r with
  | Some _ => true
  | None => existsb (fun kx => same_key t r kx.2) (map_to_list m)
  end.

(** The statement at instant [now], when the driver does not fail. *)
Definition exec {A} (now : time) (q : stmt A) (db : Tables) : result A * Tables :=
  match q in stmt A return result A * Tables with
  | First t p _ =>
      (match first_row t (select_rows t p db) with
       | Some x => Ok x
       | None => Err ErrRecordNotFound
       end, db)
  | Find t p order limit offset =>
      let full := merge_sort (fun a b => desc (order a) (order b))
                             (map_to_list (select_rows t p db)).*2 in
      (Ok (take (Z.to_nat limit) (drop (Z.to_nat offset) full)), db)
  | Count t p => (Ok (Z.of_nat (size (select_rows t p db))), db)
  | Create t r =>
      if collides_b t r (rows t db) then (Err ErrDuplicatedKey, db)
      else let x := stamp_create t now r in
           (Ok x, set_rows t (<[pk t r := x]> (rows t db)) db)
  | Updates t p r =>
      let m := update_rows t p now r (rows t db) in
      if decide (unique_ok t m)
      then (Ok (Z.of_nat (size (select_rows t p db))), set_rows t m db)
      else (Err ErrDuplicatedKey, db)
  | Save t r =>
      let x := stamp_save t now r in
      let m := <[pk t r := x]> (rows t db) in
      if decide (unique_ok t m) then (Ok x, set_rows t m db) else (Err ErrDuplicatedKey, db)
  | Delete t p =>
      (Ok (Z.of_nat (size (select_rows t p db))),
       set_rows t (delete_rows t p now (rows t db)) db)
  end.

Lemma select_rows_elem {R} (t : table R) p db x :
  x ∈ (map_to_list (select_rows t p db)).*2 <-> selected t p db x.
Proof.
  rewrite list_elem_of_fmap. unfold selected, select_rows. split.
  - intros ([k y] & -> & Hy%elem_of_map_to_list). apply map_lookup_filter_Some in Hy as [Hk Hp].
    apply andb_true_iff in Hp. by exists k.
  - intros (k & Hk & Hv & Hp). exists (k, x). split; [done|].
    apply elem_of_map_to_list, map_lookup_filter_Some. split; [done|]. simpl. by rewrite Hv, Hp.
Qed.

#[local] Instance pk_le_total {R} (t : table R) : Total (fun a b => N.le (pk t a) (pk t b)).
Proof. intros a b. apply N.le_ge_cases. Qed.

#[local] Instance pk_le_trans {R} (t : table R) : Transitive (fun a b => N.le (pk t a) (pk t b)).
Proof. intros a b c. apply N.le_trans. Qed.

#[local] Instance desc_order_total {R} (order : R -> Z * Z) :
  Total (fun a b => desc (order a) (order b)).
Proof. intros a b. unfold desc. lia. Qed.

#[local] Instance desc_order_trans {R} (order : R -> Z * Z) :
  Transitive (fun a b => desc (order a) (order b)).
Proof. intros a b c. unfold desc. lia. Qed.

Lemma first_row_spec {R} (t : table R) p db :
  match first_row t (select_rows t p db) with
  | Some x => selected t p db x /\ (forall y, selected t p db y -> (pk t x <= pk t y)%N)
  | None => forall y, ~ selected t p db y
  end.
Proof.
  unfold first_row. set (l := (map_to_list _).*2).
  pose proof (merge_sort_Permutation (fun a b => N.le (pk t a) (pk t b)) l) as Hp.
  pose proof (StronglySorted_merge_sort (fun a b => N.le (pk t a) (pk t b)) l) as Hs.
  destruct (merge_sort _ l) as [|x l'].
  - intros y Hy. apply select_rows_elem in Hy. apply Permutation_nil_l in Hp. subst l.
    rewrite <- Hp in Hy. by apply not_elem_of_nil in Hy.
  - split.
    + apply select_rows_elem. fold l. rewrite <- Hp. left.
    + intros y Hy. apply select_rows_elem in Hy. fold l in Hy. rewrite <- Hp in Hy.
      apply elem_of_cons in Hy as [->|Hy]; [done|].
      apply StronglySorted_inv in Hs as [_ Hs]. rewrite Forall_forall in Hs. by apply Hs.
Qed.

Lemma collides_b_spec {R} (t : table R) r m :
  collides_b t r m = true <-> collides t r m.
Proof.
  unfold collides_b, collides. destruct (m !! pk t r) as [y|].
  - split; [by left|done].
  - rewrite existsb_exists. split.
    + intros ([k y] & Hin & Hk). right. exists k, y. split; [|done].
      apply elem_of_map_to_list. by apply list_elem_of_In.
    + intros [?|(k & y & Hy & Hk)]; [done|]. exists (k, y). split; [|done].
      apply list_elem_of_In. by apply elem_of_map_to_list.
Qed.

(** The in-memory executor honours the contract. *)
Lemma exec_ok {A} now (q : stmt A) db :
  gorm_spec q db (exec now q db).1 (exec now q db).2.
Proof.
  destruct q as [R t p fu|R t p o lim off|R t p|R t r|R t p r|R t r|R t p]; simpl.
  - split; [done|]. pose proof (first_row_spec t p db). destruct (first_row _ _); auto.
  - split; [done|]. exists (merge_sort (fun a b => desc (o a) (o b)) (map_to_list (select_rows t p db)).*2).
    split; [apply merge_sort_Permutation|]. split; [|done].
    by apply (StronglySorted_merge_sort (fun a b => desc (o a) (o b))).
  - done.
  - destruct (collides_b t r (rows t db)) eqn:E; simpl.
    + split; [done|]. left. split; [done|]. by apply collides_b_spec.
    + split; [|by exists now]. intros Hc%collides_b_spec. congruence.
  - case_decide; simpl; [eauto|]. split; [done|]. left. eauto.
  - case_decide; simpl; [eauto|]. split; [done|]. left. eauto.
  - eauto.
Qed.
End Memory.
