(* ===== verification/Effects.v ===== *)
(** * Programs with effects

    A service method is a [prog]: a tree of the effects it performs (reading the
    clock, minting an id, polling the context, executing a statement, logging,
    ...) with transactions as blocks.  [run] executes a program sequentially;
    the environment record gives every answer the program does not compute
    itself: third-party code and oracles indexed by the number of effects
    performed so far.  [wp] is the weakest precondition of [run].  Interleavings of
    several programs over one database are in Threads.v. *)

From S2P Require Import Prelude GoStd Apperr Model Gorm.

(** ** Effects *)

Inductive level := Debug | Info | Warn | LError.

(** The two handles a repository can get hold of: the connection pool and the
    transaction of the running [Transaction] block. *)
Inductive conn := Pool | InTx.

#[export] Instance conn_eq_dec : EqDecision conn.
Proof. solve_decision. Defined.

Inductive op : Type -> Type :=
  | OpNow : op time                                         (* time.Now *)
  | OpUUID : op UUID                                        (* uuid.New *)
  | OpRand (n : nat) : op (result bytes)                    (* crypto/rand.Read *)
  | OpDone : op (option ctx_error)                          (* select on ctx.Done() *)
  | OpAlloc : op addr                                       (* the address of a new object *)
  | OpBcryptGenerate (pw : bytes) (cost : Z) : op (result bytes)
  | OpBcryptCompare (hash pw : bytes) : op (option error)
  | OpOnceGet : op (option bytes)                           (* the sync.OnceValue cell *)
  | OpOnceSet (h : bytes) : op unit
  | OpSql {A} (c : conn) (q : stmt A) : op (result A)
  | OpLog (l : level) (msg : string) (attrs : list (string * string)) : op unit
  | OpSpanError (err : error) (description : string) : op unit. (* tracing.RecordError *)

Inductive prog : Type -> Type :=
  | Ret {A} (a : A) : prog A
  | Do {X A} (o : op X) (k : X -> prog A) : prog A
  | Trans {X A} (c : conn) (body : conn -> prog (result X)) (k : result X -> prog A) : prog A.

Fixpoint bind {A B} (m : prog A) : (A -> prog B) -> prog B :=
  match m in prog A return (A -> prog B) -> prog B with
  | Ret a => fun f => f a
  | Do o k => fun f => Do o (fun x => bind (k x) f)
  | Trans c body k => fun f => Trans c body (fun x => bind (k x) f)
  end.

Definition perform {X} (o : op X) : prog X := Do o Ret.

(** [c.Transaction(body)] *)
Definition Transaction {X} (c : conn) (body : conn -> prog (result X)) : prog (result X) :=
  Trans c body Ret.

Declare Scope prog_scope.
Delimit Scope prog_scope with prog.

Notation "'let*' x := m 'in' k" := (bind m (fun x => k))
  (at level 10, x name, m at level 100, k at level 200) : prog_scope.

(** [v, err := m; if err != nil { return h }; k] *)
Notation "'let!' x := m 'onerr' e => h 'in' k" :=
  (bind m (fun r => match r with Ok x => k | Err e => h end))
  (at level 10, x name, e name, m at level 100, h at level 200, k at level 200) : prog_scope.

#[global] Open Scope prog_scope.

(** ** The environment *)

Record env := mkEnv {
  (* oracles: the answer to the n-th effect *)
  env_now : nat -> time;
  env_uuid : nat -> UUID;
  env_rand : nat -> nat -> result bytes;
  env_done : nat -> option ctx_error;
  env_begin : nat -> option error;
  env_commit : nat -> option error;
  (* gorm and the database *)
  env_sql : forall A, nat -> stmt A -> Tables -> result A * Tables;
  (* golang.org/x/crypto/bcrypt *)
  env_bcrypt_generate : nat -> bytes -> Z -> result bytes;
  env_bcrypt_compare : bytes -> bytes -> option error
}.

(** ** State *)

Inductive event :=
  | EvLog (l : level) (msg : string) (attrs : list (string * string))
  | EvBcryptGenerate (cost : Z)
  | EvBcryptCompare (hash pw : bytes)
  | EvSpanError (err : error) (description : string).

Record state := mkState {
  st_n : nat;                     (* effects performed so far *)
  st_addr : addr;                 (* next heap address *)
  st_once : option bytes;         (* the dummy password hash, once computed *)
  st_db : Tables;                 (* committed contents *)
  st_work : Tables;               (* contents as the open transaction sees them *)
  st_trace : list event
}.

Definition tick (s : state) : state :=
  mkState (S (st_n s)) (st_addr s) (st_once s) (st_db s) (st_work s) (st_trace s).
Definition with_addr (a : addr) (s : state) : state :=
  mkState (st_n s) a (st_once s) (st_db s) (st_work s) (st_trace s).
Definition with_once (o : option bytes) (s : state) : state :=
  mkState (st_n s) (st_addr s) o (st_db s) (st_work s) (st_trace s).
Definition with_db (d : Tables) (s : state) : state :=
  mkState (st_n s) (st_addr s) (st_once s) d (st_work s) (st_trace s).
Definition with_work (w : Tables) (s : state) : state :=
  mkState (st_n s) (st_addr s) (st_once s) (st_db s) w (st_trace s).
Definition emit (ev : event) (s : state) : state :=
  mkState (st_n s) (st_addr s) (st_once s) (st_db s) (st_work s) (st_trace s ++ [ev]).

(** The tables a handle works on. *)
Definition view (c : conn) (s : state) : Tables :=
  match c with Pool => st_db s | InTx => st_work s end.
Definition with_view (c : conn) (d : Tables) (s : state) : state :=
  match c with Pool => with_db d s | InTx => with_work d s end.

(** ** Sequential execution *)

Definition exec_op (e : env) {X} (o : op X) (s : state) : X * state :=
  let n := st_n s in
  let s := tick s in
  match o in op X return X * state with
  | OpNow => (env_now e n, s)
  | OpUUID => (env_uuid e n, s)
  | OpRand len => (env_rand e n len, s)
  | OpDone => (env_done e n, s)
  | OpAlloc => (st_addr s, with_addr (N.succ (st_addr s)) s)
  | OpBcryptGenerate pw cost => (env_bcrypt_generate e n pw cost, emit (EvBcryptGenerate cost) s)
  | OpBcryptCompare hash pw => (env_bcrypt_compare e hash pw, emit (EvBcryptCompare hash pw) s)
  | OpOnceGet => (st_once s, s)
  | OpOnceSet h => (tt, with_once (Some h) s)
  | OpSql c q =>
      let '(r, db') := env_sql e _ n q (view c s) in (r, with_view c db' s)
  | OpLog l msg attrs => (tt, emit (EvLog l msg attrs) s)
  | OpSpanError err description => (tt, emit (EvSpanError err description) s)
  end.

(** A transaction on the pool works on a copy of the committed tables, which
    replaces them if the body succeeds and the commit does; on a handle that is
    already a transaction, [Transaction] sets a savepoint instead. *)
Definition open_tx (c : conn) (s : state) : state :=
  match c with Pool => with_work (st_db s) s | InTx => s end.

Definition close_tx (e : env) (c : conn) (before : state) {X} (r : result X) (s : state) : result X * state :=
  match c, r with
  | Pool, Ok x =>
      match env_commit e (st_n s) with
      | None => (Ok x, with_work (st_work before) (with_db (st_work s) (tick s)))
      | Some err => (Err err, with_work (st_work before) (tick s))
      end
  | Pool, Err err => (Err err, with_work (st_work before) (tick s))
  | InTx, Ok x => (Ok x, tick s)
  | InTx, Err err => (Err err, with_work (st_work before) (tick s))
  end.

Fixpoint run {A} (e : env) (m : prog A) (s : state) : A * state :=
  match m in prog A return A * state with
  | Ret a => (a, s)
  | Do o k => let '(x, s') := exec_op e o s in run e (k x) s'
  | Trans c body k =>
      match env_begin e (st_n s) with
      | Some err => run e (k (Err err)) (tick s)
      | None =>
          let '(r, s1) := run e (body InTx) (open_tx c (tick s)) in
          let '(r', s2) := close_tx e c s r s1 in
          run e (k r') s2
      end
  end.

Lemma run_bind {A B} e (m : prog A) (f : A -> prog B) s :
  run e (bind m f) s = let '(a, s') := run e m s in run e (f a) s'.
Proof.
  revert s. induction m as [A a|X A o k IH|X A c body _ k IH]; intros s; simpl.
  - done.
  - destruct (exec_op e o s) as [x s']. apply IH.
  - destruct (env_begin e (st_n s)); [apply IH|].
    destruct (run e (body InTx) _) as [r s1]. destruct (close_tx e c s r s1) as [r' s2]. apply IH.
Qed.

(** ** States up to the counters

    Two states are equivalent when they differ at most in the number of effects
    performed and in the next heap address. *)

#[export] Instance state_equiv : Equiv state := fun s s' =>
  st_once s = st_once s' /\ st_db s = st_db s' /\
  st_work s = st_work s' /\ st_trace s = st_trace s'.

#[export] Instance state_equivalence : Equivalence (≡@{state}).
Proof.
  split.
  - by intros s.
  - by intros s s' (? & ? & ? & ?).
  - intros s1 s2 s3 (? & ? & ? & ?) (? & ? & ? & ?). repeat split; congruence.
Qed.

#[export] Instance st_db_proper : Proper ((≡) ==> (=)) st_db.
Proof. by intros s s' (? & ? & ? & ?). Qed.
#[export] Instance st_work_proper : Proper ((≡) ==> (=)) st_work.
Proof. by intros s s' (? & ? & ? & ?). Qed.
#[export] Instance st_trace_proper : Proper ((≡) ==> (=)) st_trace.
Proof. by intros s s' (? & ? & ? & ?). Qed.
#[export] Instance st_once_proper : Proper ((≡) ==> (=)) st_once.
Proof. by intros s s' (? & ? & ? & ?). Qed.
#[export] Instance view_proper c : Proper ((≡) ==> (=)) (view c).
Proof. intros s s' (? & ? & ? & ?). by destruct c. Qed.
#[export] Instance with_db_proper d : Proper ((≡) ==> (≡)) (with_db d).
Proof. by intros s s' (? & ? & ? & ?). Qed.
#[export] Instance with_work_proper d : Proper ((≡) ==> (≡)) (with_work d).
Proof. by intros s s' (? & ? & ? & ?). Qed.
#[export] Instance with_view_proper c d : Proper ((≡) ==> (≡)) (with_view c d).
Proof. intros s s' (? & ? & ? & ?). by destruct c. Qed.
#[export] Instance emit_proper ev : Proper ((≡) ==> (≡)) (emit ev).
Proof. intros s s' (? & ? & ? & Ht). repeat split; simpl; congruence. Qed.
#[export] Instance with_once_proper o : Proper ((≡) ==> (≡)) (with_once o).
Proof. by intros s s' (? & ? & ? & ?). Qed.

#[export] Instance tick_proper : Proper ((≡) ==> (≡)) tick.
Proof. by intros s s' (? & ? & ? & ?). Qed.

Lemma tick_equiv s : tick s ≡ s.
Proof. done. Qed.
Lemma with_addr_equiv a s : with_addr a s ≡ s.
Proof. done. Qed.
Lemma view_with_view c d s : view c (with_view c d s) = d.
Proof. by destruct c. Qed.
Lemma with_view_view c s : with_view c (view c s) s ≡ s.
Proof. by destruct c. Qed.
Lemma with_view_twice c d d' s : with_view c d (with_view c d' s) ≡ with_view c d s.
Proof. by destruct c. Qed.

#[export] Hint Rewrite view_with_view with_view_twice : go.

(** ** Weakest preconditions *)

Definition wp {A} (e : env) (m : prog A) (Q : A -> state -> Prop) (s : state) : Prop :=
  Q (run e m s).1 (run e m s).2.

Lemma wp_run {A} e (m : prog A) Q s r s' : wp e m Q s -> run e m s = (r, s') -> Q r s'.
Proof. unfold wp. intros H Hr. by rewrite Hr in H. Qed.

Lemma wp_ret {A} e (a : A) Q s : Q a s -> wp e (Ret a) Q s.
Proof. done. Qed.

Lemma wp_bind {A B} e (m : prog A) (f : A -> prog B) Q s :
  wp e m (fun a s' => wp e (f a) Q s') s -> wp e (bind m f) Q s.
Proof. unfold wp. rewrite run_bind. by destruct (run e m s). Qed.

Lemma wp_mono {A} e (m : prog A) (P Q : A -> state -> Prop) s :
  wp e m P s -> (forall a s', P a s' -> Q a s') -> wp e m Q s.
Proof. unfold wp. auto. Qed.

Lemma wp_perform {X} e (o : op X) Q s :
  Q (exec_op e o s).1 (exec_op e o s).2 -> wp e (perform o) Q s.
Proof. unfold wp, perform. simpl. by destruct (exec_op e o s). Qed.

(** Effects that only read the environment. *)
Definition silent {X} (o : op X) : Prop :=
  match o with
  | OpNow | OpUUID | OpRand _ | OpDone | OpAlloc | OpOnceGet => True
  | _ => False
  end.

Lemma wp_silent {X} e (o : op X) s :
  silent o -> wp e (perform o) (fun _ s' => s' ≡ s) s.
Proof. intros Ho. apply wp_perform. by destruct o. Qed.

(** The contract of gorm is the law the repositories rely on. *)
Class GormLaws (e : env) : Prop :=
  gorm_ok : forall A n (q : stmt A) db, gorm_spec q db (env_sql e A n q db).1 (env_sql e A n q db).2.

Lemma wp_sql `{!GormLaws e} {A} c (q : stmt A) s :
  wp e (perform (OpSql c q))
     (fun r s' => exists db', gorm_spec q (view c s) r db' /\ s' ≡ with_view c db' s) s.
Proof.
  apply wp_perform. simpl.
  pose proof (gorm_ok A (st_n s) q (view c (tick s))) as Hg.
  destruct (env_sql e A (st_n s) q (view c (tick s))) as [r db']; simpl in *.
  exists db'. split; [by destruct c|]. by destruct c.
Qed.

(** What the services rely on of bcrypt: the hash of a password is not empty and
    compares equal to that password. *)
Class BcryptLaws (e : env) : Prop :=
  bcrypt_law n pw cost h :
    env_bcrypt_generate e n pw cost = Ok h -> h <> [] /\ env_bcrypt_compare e h pw = None.

(** The clock reads a date between 1970 and the year 142 million. *)
Class ClockLaws (e : env) : Prop := clock_range n : 0 <= env_now e n < 2 ^ 52 * Second.

(** The body of a transaction on the pool starts from the committed tables; only
    if it succeeds, and the commit does, are they replaced. *)
Lemma wp_transaction {X} e (body : conn -> prog (result X)) Q s :
  (forall err s', s' ≡ s -> Q (Err err) s') ->
  (forall s1, s1 ≡ with_work (st_db s) s ->
    wp e (body InTx)
       (fun r s2 =>
          (forall err s', s' ≡ with_work (st_work s) s2 -> Q (Err err) s') /\
          forall x s', r = Ok x ->
            s' ≡ with_work (st_work s) (with_db (st_work s2) s2) -> Q (Ok x) s') s1) ->
  wp e (Transaction Pool body) Q s.
Proof.
  intros Hbegin Hbody. unfold wp, Transaction. simpl.
  destruct (env_begin e (st_n s)) as [err|]; [by apply Hbegin|].
  specialize (Hbody (with_work (st_db (tick s)) (tick s)) ltac:(done)). unfold wp in Hbody.
  destruct (run e (body InTx) _) as [r s2]; simpl in *. destruct Hbody as [Herr Hok].
  destruct r as [x|err]; simpl; [|by apply Herr].
  destruct (env_commit e (st_n s2)); simpl; [by apply Herr|by apply Hok].
Qed.

(** On a handle that already is a transaction, a failed body is rolled back to
    the savepoint and nothing else happens. *)
Lemma wp_savepoint {X} e (body : conn -> prog (result X)) Q s :
  (forall err s', s' ≡ s -> Q (Err err) s') ->
  (forall s1, s1 ≡ s ->
    wp e (body InTx)
       (fun r s2 =>
          (forall err s', s' ≡ with_work (st_work s) s2 -> Q (Err err) s') /\
          forall x s', r = Ok x -> s' ≡ s2 -> Q (Ok x) s') s1) ->
  wp e (Transaction InTx body) Q s.
Proof.
  intros Hbegin Hbody. unfold wp, Transaction. simpl.
  destruct (env_begin e (st_n s)) as [err|]; [by apply Hbegin|].
  specialize (Hbody (tick s) ltac:(done)). unfold wp in Hbody.
  destruct (run e (body InTx) _) as [r s2]; simpl in *. destruct Hbody as [Herr Hok].
  destruct r as [x|err]; simpl; [by apply Hok|by apply Herr].
Qed.

(** [wp_call H] runs the first call of a program by its specification [H]. *)
Tactic Notation "wp_call" uconstr(lem) :=
  apply wp_bind; eapply wp_mono; [apply lem; try apply _|cbv beta].
Ltac wp_quiet := wp_call (@wp_silent); [exact I|].
