(* ===== verification/Threads.v ===== *)
(** * Threads: programs that run side by side

    Requests are programs over one shared state.  An atomic step is one effect or
    one whole transaction: that transactions are serialisable is assumed here.  (Where
    the program asks for a lock to get by with less, the statements interleave:
    Isolation.v.)  A schedule is the list of the threads that take the steps.

    [settled] and [once] are preconditions that every interleaving respects: a
    settled program leaves the committed tables alone from now on, and a program
    that commits at most once has one step, at most, that changes them.
    [linearises] puts the changes that threads of the second kind make in a row. *)

From S2P Require Import Prelude GoStd Apperr Model Gorm Effects.

(** ** Steps *)

Section steps.
Context (e : env).

(** One step of a program, or [None] if it has returned. *)
Definition step1 {A} (p : prog A) (s : state) : option (prog A * state) :=
  match p in prog A return option (prog A * state) with
  | Ret _ => None
  | Do o k => let '(x, s') := exec_op e o s in Some (k x, s')
  | Trans c body k => let '(r, s') := run e (Transaction c body) s in Some (k r, s')
  end.

(** A step of one program is a step of its sequential execution. *)
Lemma step1_run {A} (p : prog A) s p' s' : step1 p s = Some (p', s') -> run e p s = run e p' s'.
Proof.
  destruct p as [A a|X A o k|X A c body k]; [done|..].
  - simpl. destruct (exec_op e o s). by intros [= <- <-].
  - cbn [step1]. intros H. change (Trans c body k) with (bind (Transaction c body) k). rewrite run_bind.
    destruct (run e (Transaction c body) s). by injection H as <- <-.
Qed.

Definition pool (A : Type) : Type := list (prog A) * state.

(** Thread [i] takes a step, if there is one to take. *)
Definition pstep {A} (c : pool A) (i : nat) : pool A :=
  match c.1 !! i with
  | Some p => match step1 p c.2 with
              | Some (p', s') => (<[i := p']> c.1, s')
              | None => c
              end
  | None => c
  end.

Definition interleave {A} (sched : list nat) (c : pool A) : pool A := fold_left pstep sched c.

Definition answer {A} (p : prog A) : option A := match p with Ret a => Some a | _ => None end.

Definition ok_answer {A} (p : prog (result A)) : option A :=
  match answer p with Some (Ok x) => Some x | _ => None end.
End steps.

Lemma length_interleave {A} e sched (c : pool A) : length (interleave e sched c).1 = length c.1.
Proof.
  revert c. induction sched as [|i sched IH]; intros c; [done|]. unfold interleave in *. cbn [fold_left]. rewrite IH.
  unfold pstep. repeat case_match; simpl; by rewrite ?length_insert.
Qed.

(** A single thread, scheduled often enough, returns what [run] returns. *)
Lemma alone_terminates {A} e (p : prog A) s :
  exists n, interleave e (replicate n 0%nat) ([p], s) = ([Ret (run e p s).1], (run e p s).2).
Proof.
  revert s. induction p as [A a|X A o k IH|X A c body _ k IH]; intros s.
  - by exists 0%nat.
  - destruct (exec_op e o s) as [x s'] eqn:Ho. destruct (IH x s') as [n Hn]. exists (S n).
    simpl. unfold pstep. simpl. rewrite Ho. exact Hn.
  - destruct (run e (Transaction c body) s) as [r s'] eqn:Ho. destruct (IH r s') as [n Hn]. exists (S n).
    assert (Hr : run e (Trans c body k) s = run e (k r) s').
    { change (Trans c body k) with (bind (Transaction c body) k). by rewrite run_bind, Ho. }
    rewrite Hr, <- Hn. unfold interleave. cbn [replicate fold_left]. f_equal.
    unfold pstep. cbn [fst snd lookup list_lookup step1]. by rewrite Ho.
Qed.

(** ** Preconditions for every interleaving

    [H] says of which tables a step may be taken; [linearises] uses it for those
    that occur in an execution, so that what a thread has read is known to have
    been true once. *)

Section preconditions.
Context (e : env) (H : Tables -> Prop).

(** From here on the committed tables stay as they are, and the answer is in [Q]. *)
Fixpoint settled {A} (p : prog A) : (A -> Prop) -> Prop :=
  match p in prog A return (A -> Prop) -> Prop with
  | Ret a => fun Q => Q a
  | Do o k => fun Q => forall s, H (st_db s) ->
      st_db (exec_op e o s).2 = st_db s /\ settled (k (exec_op e o s).1) Q
  | Trans c body k => fun Q => forall s, H (st_db s) ->
      st_db (run e (Transaction c body) s).2 = st_db s /\ settled (k (run e (Transaction c body) s).1) Q
  end.

(** At most one step changes the committed tables.  If none has, the answer is in
    [Q]; the one that does makes a change that [R] relates to the answer. *)
Fixpoint once {A} (p : prog A) : (A -> Prop) -> (A -> Tables -> Tables -> Prop) -> Prop :=
  match p in prog A return (A -> Prop) -> (A -> Tables -> Tables -> Prop) -> Prop with
  | Ret a => fun Q R => Q a
  | Do o k => fun Q R => forall s, H (st_db s) ->
      let x := exec_op e o s in
      (st_db x.2 = st_db s /\ once (k x.1) Q R) \/ settled (k x.1) (fun a => R a (st_db s) (st_db x.2))
  | Trans c body k => fun Q R => forall s, H (st_db s) ->
      let x := run e (Transaction c body) s in
      (st_db x.2 = st_db s /\ once (k x.1) Q R) \/ settled (k x.1) (fun a => R a (st_db s) (st_db x.2))
  end.

Lemma settled_mono {A} (p : prog A) (Q Q' : A -> Prop) :
  settled p Q -> (forall a, Q a -> Q' a) -> settled p Q'.
Proof using Type.
  induction p as [A a|X A o k IH|X A c body _ k IH]; simpl; [auto|..];
    intros Hp HQ s Hs; destruct (Hp s Hs) as [Hd Hk]; (split; [done|]); by eapply IH.
Qed.

Lemma settled_bind {A B} (p : prog A) (f : A -> prog B) Q :
  settled p (fun a => settled (f a) Q) -> settled (bind p f) Q.
Proof using Type.
  revert f. induction p as [A a|X A o k IH|X A c body _ k IH]; simpl; [auto|..];
    intros f Hp s Hs; destruct (Hp s Hs) as [Hd Hk]; (split; [done|]); by apply IH.
Qed.

Lemma once_mono {A} (p : prog A) (Q Q' : A -> Prop) (R R' : A -> Tables -> Tables -> Prop) :
  once p Q R -> (forall a, Q a -> Q' a) -> (forall a d d', R a d d' -> R' a d d') -> once p Q' R'.
Proof using Type.
  induction p as [A a|X A o k IH|X A c body _ k IH]; simpl; [auto|..];
    intros Hp HQ HR s Hs; (destruct (Hp s Hs) as [[Hd Hk]|Hk]; [left; split; [done|]; by eapply IH|right]);
    eapply settled_mono; eauto.
Qed.

(** A settled program commits at most never. *)
Lemma settled_once {A} (p : prog A) Q R : settled p Q -> once p Q R.
Proof using Type.
  induction p as [A a|X A o k IH|X A c body _ k IH]; simpl; [auto|..];
    intros Hp s Hs; destruct (Hp s Hs) as [Hd Hk]; left; auto.
Qed.

(** Sequencing: whichever part commits, the other does not. *)
Lemma once_bind {A B} (p : prog A) (f : A -> prog B) Q R Q' R' :
  once p Q R -> (forall a, Q a -> once (f a) Q' R') ->
  (forall a d d', R a d d' -> settled (f a) (fun b => R' b d d')) ->
  once (bind p f) Q' R'.
Proof using Type.
  revert f Q' R'. induction p as [A a|X A o k IH|X A c body _ k IH]; simpl; [auto|..];
    intros f Q' R' Hp HQ HR s Hs; (destruct (Hp s Hs) as [[Hd Hk]|Hk]; [left; split; [done|]; by eapply IH|right]);
    apply settled_bind; eapply settled_mono; [exact Hk| |exact Hk|]; eauto.
Qed.

(** A first part that never commits. *)
Lemma once_after {A B} (p : prog A) (f : A -> prog B) Q Q' R' :
  settled p Q -> (forall a, Q a -> once (f a) Q' R') -> once (bind p f) Q' R'.
Proof using Type.
  intros Hp HQ. eapply (once_bind p f Q (fun _ _ _ => False)); [by apply settled_once|exact HQ|done].
Qed.

Lemma settled_answer {A} (p : prog A) Q a : settled p Q -> answer p = Some a -> Q a.
Proof using Type. destruct p; simpl; [|done..]. by intros Hq [= <-]. Qed.

Lemma once_answer {A} (p : prog A) Q R a : once p Q R -> answer p = Some a -> Q a.
Proof using Type. destruct p; simpl; [|done..]. by intros Hq [= <-]. Qed.

(** A settled program can answer, if there are tables for it to run on. *)
Lemma settled_answers {A} (p : prog A) Q s : H (st_db s) -> settled p Q -> exists a, Q a.
Proof using Type.
  revert s. induction p as [A a|X A o k IH|X A c body _ k IH]; simpl; [eauto|..];
    intros s Hs Hp; destruct (Hp s Hs) as [Hd Hk]; (eapply IH; [|exact Hk]); by rewrite Hd.
Qed.
End preconditions.

(** *** Single steps *)

Section leaves.
Context (e : env) (H : Tables -> Prop).

Lemma settled_op {X} (o : op X) (Q : X -> Prop) :
  (forall s, H (st_db s) -> st_db (exec_op e o s).2 = st_db s /\ Q (exec_op e o s).1) -> settled e H (perform o) Q.
Proof using Type. done. Qed.

(** A statement that only reads answers for tables that have been. *)
Definition read_only {A} (q : stmt A) : bool :=
  match q with First _ _ _ | Find _ _ _ _ _ | Count _ _ => true | _ => false end.

Lemma settled_read `{!GormLaws e} {A} (q : stmt A) :
  read_only q = true ->
  settled e H (perform (OpSql Pool q)) (fun r => exists past, H past /\ gorm_spec q past r past).
Proof using Type.
  intros Hq s Hs. simpl. pose proof (gorm_ok (e := e) A (st_n s) q (st_db s)) as Hg.
  destruct (env_sql e A (st_n s) q (st_db s)) as [r d]. simpl in *.
  assert (d = st_db s) as -> by (destruct q; try done; apply Hg). split; [done|]. by exists (st_db s).
Qed.

(** Any other statement changes the tables as its contract says, or not at all. *)
Lemma once_statement `{!GormLaws e} {A} (q : stmt A) :
  once e H (perform (OpSql Pool q)) (fun r => is_ok r = false)
    (fun r d d' => exists x, r = Ok x /\ gorm_spec q d (Ok x) d').
Proof using Type.
  intros s Hs. simpl. pose proof (gorm_ok (e := e) A (st_n s) q (st_db s)) as Hg.
  destruct (env_sql e A (st_n s) q (st_db s)) as [[x|err] d]; simpl in *; [right; by exists x|left].
  split; [|done]. by eapply gorm_spec_err.
Qed.

(** A transaction is one step; [wp] says what it does. *)
Lemma once_transaction {X} (body : conn -> prog (result X)) (P : Tables -> X -> Tables -> Prop) :
  (forall s, H (st_db s) -> wp e (Transaction Pool body) (fun r s' =>
     match r with Ok x => P (st_db s) x (st_db s') | Err _ => st_db s' = st_db s end) s) ->
  once e H (Transaction Pool body) (fun r => is_ok r = false) (fun r d d' => exists x, r = Ok x /\ P d x d').
Proof using Type.
  intros Hwp. unfold Transaction. cbn [once]. intros s Hs. specialize (Hwp s Hs). unfold wp in Hwp.
  change (Trans Pool body Ret) with (Transaction Pool body).
  destruct (run e (Transaction Pool body) s) as [[x|err] s']; [right|left]; simpl in *; [by exists x|by split].
Qed.
End leaves.

(** ** Putting the changes in a row *)

(** A sequence of changes, each by a thread, from some tables to others. *)
Inductive chain : Tables -> list (nat * (Tables * Tables)) -> Tables -> Prop :=
  | chain_nil d : chain d [] d
  | chain_snoc d log d1 d2 i : chain d log d1 -> chain d (log ++ [(i, (d1, d2))]) d2.

(** The log is a path: what one change leaves is what the next finds. *)
Lemma chain_app_inv d l1 l2 d2 : chain d (l1 ++ l2) d2 -> exists d1, chain d l1 d1 /\ chain d1 l2 d2.
Proof.
  revert d2. induction l2 as [|x l2 IH] using rev_ind; intros d2 H.
  - rewrite app_nil_r in H. exists d2. split; [done|constructor].
  - rewrite app_assoc in H. remember ((l1 ++ l2) ++ [x]) as l eqn:Hl. destruct H as [d|d log d1 d2 i H1]; [by destruct (l1 ++ l2)|].
    apply app_inj_tail in Hl as [-> <-]. destruct (IH _ H1) as (d3 & H3 & H4). exists d3. split; [done|by constructor].
Qed.

Lemma chain_middle d l1 i a b l2 d' :
  chain d (l1 ++ (i, (a, b)) :: l2) d' -> chain d l1 a /\ chain b l2 d'.
Proof.
  rewrite (app_assoc l1 [_] l2 : l1 ++ (i, (a, b)) :: l2 = (l1 ++ [(i, (a, b))]) ++ l2).
  intros (d1 & H1 & H2)%chain_app_inv. remember (l1 ++ [(i, (a, b))]) as l eqn:Hl. destruct H1 as [d|d log d2 d3 j H3]; [by destruct l1|].
  apply app_inj_tail in Hl as [-> [= -> -> ->]]. by split.
Qed.

Lemma chain_invariant (P : Tables -> Prop) d log d' :
  chain d log d' -> (forall i a b, (i, (a, b)) ∈ log -> P a -> P b) -> P d -> P d'.
Proof.
  induction 1 as [|d log d1 d2 i Hch IH]; intros Hstep Hd; [done|].
  apply (Hstep i d1 d2); [apply elem_of_app; right; by apply list_elem_of_singleton|].
  apply IH; [|done]. intros j a b Hin. eapply Hstep. apply elem_of_app. by left.
Qed.

(** Of two entries one is first. *)
Lemma entries_in_turn {X} (x y : X) l :
  x ∈ l -> y ∈ l -> x <> y -> exists l1 l2 l3, l = l1 ++ x :: l2 ++ y :: l3 \/ l = l1 ++ y :: l2 ++ x :: l3.
Proof.
  intros (l1 & l2 & ->)%list_elem_of_split Hy Hne. apply elem_of_app in Hy as [Hy|Hy].
  - apply list_elem_of_split in Hy as (l3 & l4 & ->). exists l3, l4, l2. right. by rewrite <- app_assoc.
  - apply elem_of_cons in Hy as [->|Hy]; [done|]. apply list_elem_of_split in Hy as (l3 & l4 & ->).
    exists l1, l3, l4. by left.
Qed.

Lemma logged (log : list (nat * (Tables * Tables))) i x : (i, x) ∈ log -> i ∈ log.*1.
Proof. intros Hin. apply list_elem_of_fmap. by exists (i, x). Qed.

(** The tables that occur while [sched] runs. *)
Definition occurs (e : env) {A} (sched : list nat) (c : pool A) (d : Tables) : Prop :=
  exists n, d = st_db (interleave e (take n sched) c).2.

Section linearises.
Context (e : env) {A : Type}.

(** What a thread may answer without having changed anything, and with what change. *)
Record contract := mkContract { ct_quiet : A -> Prop; ct_commit : A -> Tables -> Tables -> Prop }.

(** Where a thread is, as far as the log tells. *)
Definition on_track (H : Tables -> Prop) (log : list (nat * (Tables * Tables))) (i : nat) (ct : contract) (p : prog A) : Prop :=
  (forall d d', (i, (d, d')) ∈ log -> settled e H p (fun a => ct_commit ct a d d')) /\
  ((i ∉ log.*1) -> once e H p (ct_quiet ct) (ct_commit ct)).

Definition linear (H : Tables -> Prop) (cts : list contract) (d0 : Tables)
    (log : list (nat * (Tables * Tables))) (c : pool A) : Prop :=
  chain d0 log (st_db c.2) /\ NoDup log.*1 /\ Forall (fun i => i < length cts)%nat log.*1 /\ length c.1 = length cts /\
  (forall i ct p, cts !! i = Some ct -> c.1 !! i = Some p -> on_track H log i ct p).

Lemma settled_step1 H (p : prog A) Q s p' s' :
  H (st_db s) -> settled e H p Q -> step1 e p s = Some (p', s') -> st_db s' = st_db s /\ settled e H p' Q.
Proof using Type.
  intros Hs Hp Hst. destruct p as [B a|X B o k|X B c body k]; [done|..]; cbn [step1 settled] in *; specialize (Hp s Hs).
  - destruct (exec_op e o s). by injection Hst as <- <-.
  - destruct (run e (Transaction c body) s). by injection Hst as <- <-.
Qed.

Lemma once_step1 H (p : prog A) Q R s p' s' :
  H (st_db s) -> once e H p Q R -> step1 e p s = Some (p', s') ->
  (st_db s' = st_db s /\ once e H p' Q R) \/ settled e H p' (fun a => R a (st_db s) (st_db s')).
Proof using Type.
  intros Hs Hp Hst. destruct p as [B a|X B o k|X B c body k]; [done|..]; cbn [step1 once] in *; specialize (Hp s Hs).
  - destruct (exec_op e o s). by injection Hst as <- <-.
  - destruct (run e (Transaction c body) s). by injection Hst as <- <-.
Qed.

Lemma linear_step H cts d0 log c i :
  H (st_db c.2) -> linear H cts d0 log c -> exists log', linear H cts d0 log' (pstep e c i).
Proof using Type.
  intros Hs Hlin. pose proof Hlin as (Hch & Hnd & Hlt & Hlen & Hth). unfold pstep.
  destruct (c.1 !! i) as [p|] eqn:Hp; [|by exists log].
  destruct (step1 e p c.2) as [[p' s']|] eqn:Hst; [|by exists log].
  destruct (cts !! i) as [ct|] eqn:Hct.
  2: { apply lookup_ge_None in Hct. apply lookup_lt_Some in Hp. lia. }
  pose proof (lookup_lt_Some _ _ _ Hp) as Hi. destruct (Hth i ct p Hct Hp) as [Hset Honce].
  assert (Hsame : st_db s' = st_db c.2 -> on_track H log i ct p' ->
    linear H cts d0 log (<[i := p']> c.1, s')).
  { intros Hd Htr. split; [simpl; by rewrite Hd|]. split; [done|]. split; [done|]. split; [simpl; by rewrite length_insert|].
    intros j ct' q Hctj [(-> & <- & _)|[Hne Hq]]%list_lookup_insert_Some; [|by apply Hth].
    by assert (ct' = ct) as -> by congruence. }
  destruct (decide (i ∈ log.*1)) as [Hin|Hout].
  - exists log. apply list_elem_of_fmap in Hin as ([i' [d d']] & -> & Hin). simpl in *.
    destruct (settled_step1 _ _ _ _ _ _ Hs (Hset d d' Hin) Hst) as [Hd _]. apply Hsame; [done|]. split.
    + intros d1 d1' H1. by eapply (settled_step1 _ _ _ _ _ _ Hs (Hset _ _ H1) Hst).
    + intros Hout. exfalso. apply Hout. by eapply logged.
  - destruct (once_step1 _ _ _ _ _ _ _ Hs (Honce Hout) Hst) as [[Hd Ho]|Ho].
    + exists log. apply Hsame; [done|]. split; [|done]. intros d d' Hin. exfalso.
      apply Hout. by eapply logged.
    + exists (log ++ [(i, (st_db c.2, st_db s'))]). split; [by econstructor|]. split.
      { rewrite fmap_app. apply NoDup_app. split; [done|]. split; [|apply NoDup_singleton].
        intros j Hj ->%list_elem_of_singleton. done. }
      split; [rewrite fmap_app; apply Forall_app; split; [done|]; apply Forall_singleton; simpl; lia|].
      split; [simpl; by rewrite length_insert|].
      intros j ct' q Hctj [(-> & <- & _)|[Hne Hq]]%list_lookup_insert_Some.
      * assert (ct' = ct) as -> by congruence. split.
        -- intros d d' [Hin|[= -> ->]%list_elem_of_singleton]%elem_of_app; [|done].
           exfalso. apply Hout. by eapply logged.
        -- intros Hno. exfalso. apply Hno. rewrite fmap_app. apply elem_of_app. right. by apply list_elem_of_singleton.
      * destruct (Hth j ct' q Hctj Hq) as [H1 H2]. split.
        -- intros d d' [Hin|[= -> _ _]%list_elem_of_singleton]%elem_of_app; [by apply H1|done].
        -- intros Hno. apply H2. intros Hj. apply Hno. rewrite fmap_app. apply elem_of_app. by left.
Qed.

Lemma linear_interleave H cts d0 sched log c :
  (forall d, occurs e sched c d -> H d) -> linear H cts d0 log c ->
  exists log', linear H cts d0 log' (interleave e sched c).
Proof using Type.
  revert log c. induction sched as [|i sched IH]; intros log c Hocc Hlin; [by exists log|].
  destruct (linear_step H cts d0 log c i) as [log' Hlin']; [apply Hocc; by exists 0%nat|done|].
  apply (IH log' (pstep e c i)); [|done]. intros d [n ->]. apply Hocc. by exists (S n).
Qed.

(** Threads that commit at most once are, together, a sequence of their changes:
    each thread makes at most one; a thread that has answered answered for its
    change, or, if it made none, as it may without; and a thread on the way has an
    answer to give. *)
Lemma linearises (cts : list contract) (ps : list (prog A)) s sched :
  let H := occurs e sched (ps, s) in
  let final := interleave e sched (ps, s) in
  Forall2 (fun ct p => once e H p (ct_quiet ct) (ct_commit ct)) cts ps ->
  exists log, chain (st_db s) log (st_db final.2) /\ NoDup log.*1 /\
    (forall i d d', (i, (d, d')) ∈ log -> exists ct a, cts !! i = Some ct /\ ct_commit ct a d d' /\
       forall a', final.1 !! i ≫= answer = Some a' -> a' = a) /\
    (forall i ct a, cts !! i = Some ct -> final.1 !! i ≫= answer = Some a -> (i ∉ log.*1) -> ct_quiet ct a).
Proof using Type.
  intros H final Hps.
  destruct (linear_interleave H cts (st_db s) sched [] (ps, s)) as [log (Hch & Hnd & Hlt & Hlen & Hth)]; [done| |].
  { split; [constructor|]. split; [constructor|]. split; [constructor|]. split; [by rewrite (Forall2_length _ _ _ Hps)|].
    intros i ct p Hct Hp. split; [intros d d' Hin; by apply not_elem_of_nil in Hin|]. intros _.
    by eapply (Forall2_lookup_lr _ _ _ _ _ _ Hps). }
  fold final in Hch, Hlen, Hth. exists log. split; [done|]. split; [done|]. split.
  - intros i d d' Hin.
    assert (Hi : (i < length cts)%nat).
    { rewrite Forall_forall in Hlt. apply Hlt. by eapply logged. }
    destruct (lookup_lt_is_Some_2 cts i Hi) as [ct Hct].
    destruct (lookup_lt_is_Some_2 final.1 i ltac:(lia)) as [p Hp].
    destruct (Hth i ct p Hct Hp) as [Hset _]. specialize (Hset d d' Hin). exists ct. rewrite Hp. simpl.
    destruct (answer p) as [a|] eqn:Ha.
    + exists a. split; [done|]. split; [|by intros a' [= <-]]. by apply (settled_answer _ _ _ _ _ Hset).
    + assert (Hf : H (st_db final.2)) by (exists (length sched); by rewrite take_ge).
      destruct (settled_answers _ _ _ _ _ Hf Hset) as [a Hc]. by exists a.
  - intros i ct a Hct Ha Hout. destruct (final.1 !! i) as [p|] eqn:Hp; [|done].
    destruct (Hth i ct p Hct Hp) as [_ Ho]. by apply (once_answer _ _ _ _ _ _ (Ho Hout)).
Qed.
End linearises.
