(* ===== verification/Isolation.v ===== *)
(** * Isolation: transactions whose statements interleave

    Threads.v runs a transaction as one step.  Here its statements are steps of their
    own, as a database at READ COMMITTED runs them: a statement of a transaction sees
    what is committed when it runs, under the rows the transaction itself has written;
    what is written is published at the commit; and a row that was written, or read
    with [FOR UPDATE], stays locked until its transaction ends, so that a statement of
    anybody else that needs the lock has to wait.  The only isolation there is comes
    from these locks.  A read without a lock never waits and locks nothing. *)

From S2P Require Import Prelude GoStd Apperr Model Gorm Effects Threads.

(** ** Rows and locks *)

(** A row, by its table and its primary key. *)
Definition row_id : Type := nat * UUID.

Definition tag {R} (t : table R) : nat :=
  match t with TUsers => 0 | TTokens => 1 | TCounters => 2 | TMessages => 3 end.

(** An open transaction: the tables as its last statement left them, the rows of them
    it has written, and the rows it has locked. *)
Record transaction := mkTx { tx_own : Tables; tx_written : gset row_id; tx_locks : gset row_id }.

(** Of table [t]: the transaction's own version of the rows it wrote, the committed
    version of every other row. *)
Definition overlay {R} (t : table R) (w : gset row_id) (own db : Tables) : gmap UUID R :=
  filter (fun kx => (tag t, kx.1) ∈ w) (rows t own) ∪ filter (fun kx => (tag t, kx.1) ∉ w) (rows t db).

(** What a statement of the transaction sees, and what its commit publishes. *)
Definition visible_to (tx : transaction) (db : Tables) : Tables :=
  mkTables (overlay TUsers (tx_written tx) (tx_own tx) db) (overlay TTokens (tx_written tx) (tx_own tx) db)
           (overlay TCounters (tx_written tx) (tx_own tx) db) (overlay TMessages (tx_written tx) (tx_own tx) db).

Definition ids {R} (t : table R) (m : gmap UUID R) : gset row_id := set_map (fun k => (tag t, k)) (dom m).

(** The rows a statement that has answered [r] on the tables [db] has written. *)
Definition stmt_writes {A} (q : stmt A) (r : result A) (db : Tables) : gset row_id :=
  if is_ok r then
    match q with
    | First _ _ _ | Find _ _ _ _ _ | Count _ _ => ∅
    | Create t x | Save t x => {[ (tag t, pk t x) ]}
    | Updates t p _ | Delete t p => ids t (select_rows t p db)
    end
  else ∅.

(** The row a [SELECT ... FOR UPDATE] has read. *)
Definition reads_locked {A} (q : stmt A) : result A -> gset row_id :=
  match q in stmt A return result A -> gset row_id with
  | First t _ true => fun r => match r with Ok x => {[ (tag t, pk t x) ]} | Err _ => ∅ end
  | _ => fun _ => ∅
  end.

(** The rows the statement needs the lock of. *)
Definition stmt_locks {A} (q : stmt A) (r : result A) (db : Tables) : gset row_id := reads_locked q r ∪ stmt_writes q r db.

(** The rows of [db] that are in [w]. *)
Definition among {R} (t : table R) (w : gset row_id) (db : Tables) : list R :=
  (map_to_list (filter (fun kx => (tag t, kx.1) ∈ w) (rows t db))).*2.

(** A row just written, to be found in [db], would break a unique index together with
    one that the transaction [tx] has written and not yet committed. *)
Definition index_conflict {A} (q : stmt A) (r : result A) (before db : Tables) (tx : transaction) : bool :=
  match q with
  | Create t _ | Updates t _ _ | Save t _ =>
      existsb (fun x => existsb (same_key t x) (among t (tx_written tx) (tx_own tx))) (among t (stmt_writes q r before) db)
  | _ => false
  end.

(** The statement has to wait for one of the other transactions. *)
Definition must_wait {A} (q : stmt A) (r : result A) (before db : Tables) (others : list transaction) : bool :=
  existsb (fun tx => negb (bool_decide (stmt_locks q r before ## tx_locks tx)) || index_conflict q r before db tx) others.

(** ** Threads *)

(** A request is outside of any transaction, or has one open. *)
Inductive thread (A : Type) : Type :=
  | Outside (p : prog A)
  | Inside {X} (tx : transaction) (body : prog (result X)) (k : result X -> prog A).
Arguments Outside {A} p.
Arguments Inside {A X} tx body k.

Definition open_tx_of {A} (th : thread A) : option transaction :=
  match th with Outside _ => None | Inside tx _ _ => Some tx end.

Section steps.
Context (e : env).

(** A statement on the pool is a transaction of its own. *)
Definition autocommit {A} (others : list transaction) (q : stmt A) (s : state) : option (result A * state) :=
  let '(r, d) := env_sql e A (st_n s) q (st_db s) in
  if must_wait q r (st_db s) d others then None else Some (r, with_db d (tick s)).

(** A statement of the transaction [tx]. *)
Definition in_transaction {A} (others : list transaction) (tx : transaction) (q : stmt A) (s : state)
    : option (result A * transaction * state) :=
  let seen := visible_to tx (st_db s) in
  let '(r, d) := env_sql e A (st_n s) q seen in
  if must_wait q r seen d others then None
  else Some (r, mkTx d (tx_written tx ∪ stmt_writes q r seen) (tx_locks tx ∪ stmt_locks q r seen), tick s).

(** An effect of a request that has the transaction [tx] open, if it has one. *)
Definition op_step {X} (others : list transaction) (tx : option transaction) (o : op X) (s : state)
    : option (X * option transaction * state) :=
  match o in op X return option (X * option transaction * state) with
  | OpSql Pool q => '(r, s') ← autocommit (option_list tx ++ others) q s; Some (r, tx, s')
  | OpSql InTx q => tx ← tx; '(r, tx', s') ← in_transaction others tx q s; Some (r, Some tx', s')
  | o => let '(x, s') := exec_op e o s in Some (x, tx, s')
  end.

(** A step of the body of a transaction: an effect, or, once it has returned, the
    commit or the rollback, which release the locks.  No method of the repositories
    opens a block within a block ([Tx_WithinTx] joins the one that runs). *)
Definition body_step {A B} (others : list transaction) (tx : transaction) (b : prog B)
    : (transaction -> prog B -> thread A) -> (B -> option (thread A * state)) -> state -> option (thread A * state) :=
  match b in prog B return
    (transaction -> prog B -> thread A) -> (B -> option (thread A * state)) -> state -> option (thread A * state) with
  | Ret r => fun _ finish _ => finish r
  | Do o k => fun resume _ s =>
      '(x, tx', s') ← op_step others (Some tx) o s; Some (resume (default tx tx') (k x), s')
  | Trans _ _ _ => fun _ _ _ => None
  end.

(** [Commit], or [Rollback] if the body failed. *)
Definition end_tx {X} (tx : transaction) (r : result X) (s : state) : result X * state :=
  match r with
  | Ok x => match env_commit e (st_n s) with
            | None => (Ok x, with_db (visible_to tx (st_db s)) (tick s))
            | Some err => (Err err, tick s)
            end
  | Err err => (Err err, tick s)
  end.

(** A step outside of any transaction: an effect, or the beginning of a transaction. *)
Definition free_step {A} (others : list transaction) (p : prog A) (s : state) : option (thread A * state) :=
  match p in prog A return option (thread A * state) with
  | Ret _ => None
  | Do o k => '(x, _, s') ← op_step others None o s; Some (Outside (k x), s')
  | Trans Pool body k =>
      match env_begin e (st_n s) with
      | Some err => Some (Outside (k (Err err)), tick s)
      | None => Some (Inside (mkTx (st_db s) ∅ ∅) (body InTx) k, tick s)
      end
  | Trans InTx _ _ => None
  end.

Definition thread_step {A} (others : list transaction) (th : thread A) (s : state) : option (thread A * state) :=
  match th with
  | Outside p => free_step others p s
  | Inside tx body k =>
      body_step others tx body (fun tx' b => Inside tx' b k)
        (fun r => let '(r', s') := end_tx tx r s in Some (Outside (k r'), s')) s
  end.

Definition threads (A : Type) : Type := list (thread A) * state.

(** The transactions that are open besides thread [i]'s. *)
Definition others_of {A} (ths : list (thread A)) (i : nat) : list transaction :=
  omap open_tx_of (take i ths ++ drop (S i) ths).

(** Thread [i] takes a step, unless it has returned or has to wait. *)
Definition tstep {A} (c : threads A) (i : nat) : threads A :=
  match c.1 !! i with
  | Some th => match thread_step (others_of c.1 i) th c.2 with
               | Some (th', s') => (<[i := th']> c.1, s')
               | None => c
               end
  | None => c
  end.

Definition run_threads {A} (sched : list nat) (c : threads A) : threads A := fold_left tstep sched c.
End steps.

Definition returned {A} (th : thread A) : option A := match th with Outside p => answer p | Inside _ _ _ => None end.

Definition succeeded {A} (th : thread (result A)) : option A :=
  match returned th with Some (Ok x) => Some x | _ => None end.

(** ** What a transaction sees *)

Lemma overlay_nothing {R} (t : table R) own db : overlay t ∅ own db = rows t db.
Proof.
  unfold overlay. apply map_eq. intros k. rewrite lookup_union, !map_lookup_filter.
  destruct (rows t own !! k), (rows t db !! k); simpl; rewrite ?option_guard_False, ?option_guard_True by set_solver; done.
Qed.

(** A transaction that has written nothing sees what is committed. *)
Lemma visible_nothing tx db : tx_written tx = ∅ -> visible_to tx db = db.
Proof. intros Hw. unfold visible_to. rewrite Hw, !overlay_nothing. by destruct db. Qed.

(** One that has written one row puts that row in place. *)
Lemma overlay_row {R} (t : table R) k x own db :
  rows t own !! k = Some x -> overlay t {[ (tag t, k) ]} own db = <[k := x]> (rows t db).
Proof.
  intros Hx. unfold overlay. apply map_eq. intros j. rewrite lookup_union, !map_lookup_filter.
  destruct (decide (j = k)) as [->|Hne].
  - rewrite lookup_insert_eq, Hx. simpl. rewrite option_guard_True by set_solver. by rewrite union_Some_l.
  - rewrite lookup_insert_ne by done. destruct (rows t own !! j), (rows t db !! j); simpl;
      rewrite ?option_guard_False, ?option_guard_True by set_solver; done.
Qed.

Lemma overlay_other {R S} (t : table R) (t' : table S) k own db :
  tag t <> tag t' -> overlay t {[ (tag t', k) ]} own db = rows t db.
Proof.
  intros Hne. rewrite <- (overlay_nothing t own db). unfold overlay. f_equal; apply map_filter_ext; intros i x _; set_solver.
Qed.

Lemma visible_row {R} (t : table R) tx k x db :
  tx_written tx = {[ (tag t, k) ]} -> rows t (tx_own tx) !! k = Some x ->
  visible_to tx db = set_rows t (<[k := x]> (rows t db)) db.
Proof.
  intros Hw Hx. unfold visible_to. rewrite Hw.
  destruct t; rewrite (overlay_row _ _ _ _ _ Hx), !overlay_other by done; by destruct db.
Qed.

(** ** Locks are exclusive *)

(** No two open transactions hold the lock of one row. *)
Definition exclusive {A} (ths : list (thread A)) : Prop :=
  forall i j tx tx', i <> j -> ths !! i ≫= open_tx_of = Some tx -> ths !! j ≫= open_tx_of = Some tx' ->
    tx_locks tx ## tx_locks tx'.

Lemma others_of_elem {A} (ths : list (thread A)) i j tx :
  i <> j -> ths !! j ≫= open_tx_of = Some tx -> tx ∈ others_of ths i.
Proof.
  intros Hne. rewrite bind_Some. intros (th & Hj & Htx). apply list_elem_of_omap. exists th. split; [|done].
  apply elem_of_app. destruct (decide (j < i)%nat).
  - left. apply list_elem_of_lookup. exists j. by rewrite lookup_take_lt.
  - right. apply list_elem_of_lookup. exists (j - S i)%nat. rewrite lookup_drop. by replace (S i + (j - S i))%nat with j by lia.
Qed.

Lemma must_wait_false {A} (q : stmt A) r before db others tx :
  must_wait q r before db others = false -> tx ∈ others -> stmt_locks q r before ## tx_locks tx.
Proof.
  intros Hw Hin. destruct (decide (stmt_locks q r before ## tx_locks tx)) as [|Hn]; [done|].
  assert (Ht : must_wait q r before db others = true); [|congruence].
  apply existsb_exists. exists tx. split; [by apply list_elem_of_In|]. by rewrite bool_decide_false.
Qed.

(** Whatever a step adds to the locks of its transaction nobody else holds. *)
Lemma thread_step_locks e {A} others (th : thread A) s th' s' tx' :
  thread_step e others th s = Some (th', s') -> open_tx_of th' = Some tx' ->
  forall tx, tx ∈ others ->
    (match open_tx_of th with Some tx0 => tx_locks tx0 ## tx_locks tx | None => True end) -> tx_locks tx' ## tx_locks tx.
Proof.
  assert (Hop : forall X (o : op X) tx0 x tx1, op_step e others (Some tx0) o s = Some (x, Some tx1, s') ->
    forall tx, tx ∈ others -> tx_locks tx0 ## tx_locks tx -> tx_locks tx1 ## tx_locks tx).
  { intros X o tx0 x tx1 Ho tx Hin Hd. destruct o as [| | | | | | | | |Y c q| |]; simpl in Ho; try by simplify_eq.
    destruct c; simpl in Ho.
    - unfold autocommit in Ho. destruct (env_sql _ _ _ _ _) as [r d]. destruct (must_wait _ _ _ _ _); [done|]. by simplify_eq/=.
    - unfold in_transaction in Ho. destruct (env_sql _ _ _ _ _) as [r d]. destruct (must_wait _ _ _ _ _) eqn:Hw; simplify_eq/=.
      pose proof (must_wait_false _ _ _ _ _ _ Hw Hin). set_solver. }
  destruct th as [p|X tx0 body k]; simpl; intros Hs Htx tx Hin Hd.
  - destruct p as [B a|Y B o k|Y B c body k]; simpl in Hs; [done|..].
    + apply bind_Some in Hs as ([[x o'] s1] & _ & Hs). by simplify_eq/=.
    + destruct c; [|done]. destruct (env_begin e (st_n s)); simplify_eq/=. set_solver.
  - assert (Hb : forall B (b : prog B) (resume : transaction -> prog B -> thread A) finish,
      (forall t b', open_tx_of (resume t b') = Some t) -> (forall r th1 s1, finish r = Some (th1, s1) -> open_tx_of th1 = None) ->
      body_step e others tx0 b resume finish s = Some (th', s') -> tx_locks tx' ## tx_locks tx).
    { intros B b resume finish Hr Hf Hb. destruct b as [B r|Y B o k'|Y B c body' k']; simpl in Hb; [|..|done].
      - apply Hf in Hb. congruence.
      - apply bind_Some in Hb as ([[x o'] s1] & Ho & Hb). simplify_eq. rewrite Hr in Htx. simplify_eq.
        destruct o' as [tx1|]; [by eapply Hop|done]. }
    eapply Hb; [| |exact Hs]; simpl; [done|]. intros r th1 s1. destruct (end_tx e tx0 r s). by intros [= <- _].
Qed.

(** Whatever the requests do. *)
Lemma tstep_exclusive e {A} (c : threads A) i : exclusive c.1 -> exclusive (tstep e c i).1.
Proof.
  intros Hex. unfold tstep. destruct (c.1 !! i) as [th|] eqn:Hi; [|done].
  destruct (thread_step e (others_of c.1 i) th c.2) as [[th' s']|] eqn:Hs; [|done].
  pose proof (lookup_lt_Some _ _ _ Hi) as Hlt.
  assert (Hnew : forall j tx tx', i <> j -> open_tx_of th' = Some tx -> c.1 !! j ≫= open_tx_of = Some tx' -> tx_locks tx ## tx_locks tx').
  { intros j tx tx' Hne Htx Htx'. eapply thread_step_locks; [exact Hs|exact Htx|by eapply others_of_elem|].
    destruct (open_tx_of th) as [tx0|] eqn:H0; [|done]. apply (Hex i j); [done| |done]. by rewrite Hi. }
  intros a b tx tx' Hne. simpl. destruct (decide (i = a)) as [<-|Ha], (decide (i = b)) as [<-|Hb]; [done|..];
    rewrite ?list_lookup_insert_eq, ?list_lookup_insert_ne by done; simpl; intros Htx Htx'.
  - by eapply Hnew.
  - symmetry. by eapply Hnew.
  - by apply (Hex a b).
Qed.

Lemma outside_exclusive {A} (ps : list (prog A)) : exclusive (Outside <$> ps).
Proof. intros i j tx tx' _ Hi. rewrite list_lookup_fmap in Hi. by destruct (ps !! i). Qed.
