(* ===== verification/Repository.v ===== *)
(** * internal/repository: interfaces, the transaction context and the gorm
    implementations

    [Module Dbtx] is package dbtx.  The interfaces of
    internal/repository/interfaces are records of operations.  [Module GORM] holds
    the implementations, one definition per method.  What the services may rely
    on, and why the implementations provide it, is in RepositoryLaws.v. *)

From S2P Require Import Prelude GoStd Apperr Model Gorm Effects.

(** ** Contexts

    Of a [context.Context] the model keeps the value dbtx stores; cancellation
    is the effect [OpDone], which is shared by every derived context. *)
Record context := mkCtx { ctx_value : option conn }.

Definition Background : context := mkCtx None.

(** [select { case <-ctx.Done(): return ctx.Err() default: }] *)
Definition ctx_poll : prog (result unit) :=
  let* d := perform OpDone in
  Ret (match d with Some c => Err (ECtx c) | None => Ok tt end).

(** [fmt.Errorf(msg + ": %w", inner)] *)
Definition Errorf (msg : string) (inner : error) : prog error :=
  let* a := perform OpAlloc in Ret (EWrap a msg inner).

Module Dbtx.
Definition Into (ctx : context) (tx : conn) : context := mkCtx (Some tx).
Definition From_ (ctx : context) : option conn := ctx_value ctx.
Definition Conn (ctx : context) (fallback : conn) : conn :=
  match From_ ctx with Some tx => tx | None => fallback end.
End Dbtx.

(** The handle a call made with [ctx] works through. *)
Abbreviation conn_of ctx := (Dbtx.Conn ctx Pool).

(** The tables a call made with [ctx] sees. *)
Definition seen (ctx : context) (s : state) : Tables := view (conn_of ctx) s.

(** [s'] is [s] with table [t], as seen through [ctx], replaced by [m]. *)
Definition wrote {R} (ctx : context) (t : table R) (m : gmap UUID R) (s s' : state) : Prop :=
  s' ≡ with_view (conn_of ctx) (set_rows t m (seen ctx s)) s.

(** ** internal/repository/interfaces *)

Record UserRepository := mkUserRepo {
  ur_Create : context -> UserEntity -> prog (result UUID);
  ur_FindByID : context -> UUID -> prog (result (option UserEntity));
  ur_FindByEmail : context -> string -> prog (result (option UserEntity));
  ur_Update : context -> UUID -> UserEntity -> prog (result unit);
  ur_Delete : context -> UUID -> prog (result unit)
}.

Record RefreshTokenRepository := mkTokenRepo {
  tr_Create : context -> RefreshTokenEntity -> prog (result unit);
  tr_FindByTokenHash : context -> string -> prog (result (option RefreshTokenEntity));
  tr_ListActiveByUserID : context -> UUID -> time -> Z -> Z -> prog (result (list RefreshTokenEntity));
  tr_CountActiveByUserID : context -> UUID -> time -> prog (result Z);
  tr_DeleteByUserID : context -> UUID -> prog (result unit);
  tr_DeleteByTokenHash : context -> string -> prog (result unit);
  tr_DeleteExpired : context -> time -> prog (result Z)
}.

Record CounterRepository := mkCounterRepo {
  cr_GetCounter : context -> prog (result Z);
  cr_IncrementCounter : context -> prog (result Z)
}.

Record MessageRepository := mkMessageRepo {
  mr_GetMessage : context -> string -> prog (result (option string))
}.

Record TxManager := mkTxManager {
  tm_WithinTx : forall X, context -> (context -> prog (result X)) -> prog (result X)
}.

(** ** The [Where] clauses *)

Definition user_has_id (id : UUID) (u : UserEntity) : bool := (u_ID u =? id)%N.
Definition user_has_email (email : string) (u : UserEntity) : bool := String.eqb (u_Email u) email.
Definition token_has_hash (h : string) (r : RefreshTokenEntity) : bool := String.eqb (rt_TokenHash r) h.
Definition token_of_user (id : UUID) (r : RefreshTokenEntity) : bool := (rt_UserID r =? id)%N.
Definition token_active (id : UUID) (now : time) (r : RefreshTokenEntity) : bool :=
  token_of_user id r && (rt_ExpiresAt r >? now).
Definition token_expired (before : time) (r : RefreshTokenEntity) : bool := rt_ExpiresAt r <? before.
Definition newest_first (r : RefreshTokenEntity) : Z * Z := (rt_CreatedAt r, Z.of_N (rt_ID r)).
Definition message_has_key (key : string) (m : MessageEntity) : bool := String.eqb (m_Key m) key.
Definition any_row {R} (r : R) : bool := true.

(** ** The gorm implementations *)

Module GORM.
Section implementations.
(** The handle the repository was constructed with, and [uuid.UUID.String]. *)
Context (db : conn) (uuid_String : UUID -> string).

Definition sql {A} (ctx : context) (q : stmt A) : prog (result A) :=
  perform (OpSql (Dbtx.Conn ctx db) q).

(** *** implementations/user *)

Definition User_Create (ctx : context) (user : UserEntity) : prog (result UUID) :=
  let! _ := ctx_poll onerr err => Ret (Err err) in
  let! user := sql ctx (Create TUsers user) onerr err => Ret (Err err) in
  Ret (Ok (u_ID user)).

Definition User_FindByID (ctx : context) (id : UUID) : prog (result (option UserEntity)) :=
  let! _ := ctx_poll onerr err => Ret (Err err) in
  let! user := sql ctx (First TUsers (user_has_id id) false)
    onerr err =>
      if errors_Is err ErrRecordNotFound then Ret (Ok None)
      else let* err := Errorf "finding user by id" err in Ret (Err err) in
  Ret (Ok (Some user)).

Definition User_FindByEmail (ctx : context) (email : string) : prog (result (option UserEntity)) :=
  let! _ := ctx_poll onerr err => Ret (Err err) in
  let! user := sql ctx (First TUsers (user_has_email email) false)
    onerr err =>
      if errors_Is err ErrRecordNotFound then Ret (Ok None) else Ret (Err err) in
  Ret (Ok (Some user)).

Definition User_Update (ctx : context) (id : UUID) (user : UserEntity) : prog (result unit) :=
  let! _ := ctx_poll onerr err => Ret (Err err) in
  let! _ := sql ctx (Updates TUsers (user_has_id id) user) onerr err => Ret (Err err) in
  Ret (Ok tt).

Definition User_Delete (ctx : context) (id : UUID) : prog (result unit) :=
  let! _ := ctx_poll onerr err => Ret (Err err) in
  let! _ := sql ctx (Delete TUsers (user_has_id id)) onerr err => Ret (Err err) in
  Ret (Ok tt).

(** *** implementations/refresh_token *)

Definition Token_Create (ctx : context) (token : RefreshTokenEntity) : prog (result unit) :=
  let! _ := ctx_poll onerr err => Ret (Err err) in
  let! _ := sql ctx (Create TTokens token)
    onerr err => let* err := Errorf "creating refresh token" err in Ret (Err err) in
  Ret (Ok tt).

Definition Token_FindByTokenHash (ctx : context) (tokenHash : string)
  : prog (result (option RefreshTokenEntity)) :=
  let! _ := ctx_poll onerr err => Ret (Err err) in
  let! token := sql ctx (First TTokens (token_has_hash tokenHash) false)
    onerr err =>
      if errors_Is err ErrRecordNotFound then Ret (Ok None)
      else let* err := Errorf "finding refresh token" err in Ret (Err err) in
  Ret (Ok (Some token)).

Definition Token_ListActiveByUserID (ctx : context) (userID : UUID) (now : time) (limit offset : Z)
  : prog (result (list RefreshTokenEntity)) :=
  let! _ := ctx_poll onerr err => Ret (Err err) in
  let! tokens := sql ctx (Find TTokens (token_active userID now) newest_first limit offset)
    onerr err =>
      let* err := Errorf ("listing active refresh tokens for user " +:+ uuid_String userID) err in
      Ret (Err err) in
  Ret (Ok tokens).

Definition Token_CountActiveByUserID (ctx : context) (userID : UUID) (now : time) : prog (result Z) :=
  let! _ := ctx_poll onerr err => Ret (Err err) in
  let! total := sql ctx (Count TTokens (token_active userID now))
    onerr err =>
      let* err := Errorf ("counting active refresh tokens for user " +:+ uuid_String userID) err in
      Ret (Err err) in
  Ret (Ok total).

Definition Token_DeleteByUserID (ctx : context) (userID : UUID) : prog (result unit) :=
  let! _ := ctx_poll onerr err => Ret (Err err) in
  let! _ := sql ctx (Delete TTokens (token_of_user userID))
    onerr err =>
      let* err := Errorf ("deleting refresh tokens for user " +:+ uuid_String userID) err in
      Ret (Err err) in
  Ret (Ok tt).

Definition Token_DeleteByTokenHash (ctx : context) (tokenHash : string) : prog (result unit) :=
  let! _ := ctx_poll onerr err => Ret (Err err) in
  let! _ := sql ctx (Delete TTokens (token_has_hash tokenHash))
    onerr err => let* err := Errorf "deleting refresh token" err in Ret (Err err) in
  Ret (Ok tt).

Definition Token_DeleteExpired (ctx : context) (before : time) : prog (result Z) :=
  let! _ := ctx_poll onerr err => Ret (Err err) in
  let! affected := sql ctx (Delete TTokens (token_expired before))
    onerr err => let* err := Errorf "deleting expired refresh tokens" err in Ret (Err err) in
  Ret (Ok affected).

(** *** implementations/counter *)

Definition Counter_GetCounter (ctx : context) : prog (result Z) :=
  let! _ := ctx_poll onerr err => Ret (Err err) in
  let! counter := sql ctx (First TCounters any_row false) onerr err => Ret (Err err) in
  Ret (Ok (c_Value counter)).

(** The function literal that runs in the transaction: the row is read under a
    lock ([FOR UPDATE]) and written back. *)
Definition Counter_increment_tx (tx : conn) : prog (result CounterEntity) :=
  let! counter := perform (OpSql tx (First TCounters any_row true)) onerr err => Ret (Err err) in
  let counter := mkCounter (c_ID counter) (wrap64 (c_Value counter + 1))
                           (c_CreatedAt counter) (c_UpdatedAt counter) in
  perform (OpSql tx (Save TCounters counter)).

Definition Counter_IncrementCounter (ctx : context) : prog (result Z) :=
  let! _ := ctx_poll onerr err => Ret (Err err) in
  let! counter := Transaction (Dbtx.Conn ctx db) Counter_increment_tx onerr err => Ret (Err err) in
  Ret (Ok (c_Value counter)).

(** *** implementations/message *)

Definition Message_GetMessage (ctx : context) (key : string) : prog (result (option string)) :=
  let! _ := ctx_poll onerr err => Ret (Err err) in
  let! message := sql ctx (First TMessages (message_has_key key) false)
    onerr err =>
      if errors_Is err ErrRecordNotFound then Ret (Ok None)
      else let* err := Errorf "getting message" err in Ret (Err err) in
  Ret (Ok (Some (m_Value message))).

(** *** implementations/tx *)

Definition Tx_WithinTx X (ctx : context) (fn : context -> prog (result X)) : prog (result X) :=
  match Dbtx.From_ ctx with
  | Some _ => fn ctx
  | None => Transaction db (fun tx => fn (Dbtx.Into ctx tx))
  end.
End implementations.

Definition NewGORMUserRepository (db : conn) : UserRepository :=
  mkUserRepo (User_Create db) (User_FindByID db) (User_FindByEmail db) (User_Update db) (User_Delete db).

Definition NewGORMRefreshTokenRepository (db : conn) (uuid_String : UUID -> string)
  : RefreshTokenRepository :=
  mkTokenRepo (Token_Create db) (Token_FindByTokenHash db) (Token_ListActiveByUserID db uuid_String)
    (Token_CountActiveByUserID db uuid_String) (Token_DeleteByUserID db uuid_String)
    (Token_DeleteByTokenHash db) (Token_DeleteExpired db).

Definition NewGORMCounterRepository (db : conn) : CounterRepository :=
  mkCounterRepo (Counter_GetCounter db) (Counter_IncrementCounter db).

Definition NewGORMMessageRepository (db : conn) : MessageRepository :=
  mkMessageRepo (Message_GetMessage db).

Definition NewGORMTxManager (db : conn) : TxManager := mkTxManager (Tx_WithinTx db).
End GORM.
