(* ===== verification/RepositoryLaws.v ===== *)
(** * What the repositories promise the services, and why they keep it

    One class per interface of internal/repository/interfaces, stated as weakest
    preconditions over the tables seen through the caller's context; the gorm
    implementations are instances for every environment whose executor honours
    the contract of gorm. *)

From S2P Require Import Prelude GoStd Apperr Model Gorm Effects Repository.

(** ** The interfaces' contracts *)

(** A read: nothing changes, and a successful answer satisfies [P]. *)
Definition reads {A} (s : state) (P : A -> Prop) (r : result A) (s' : state) : Prop :=
  s' ≡ s /\ match r with Ok x => P x | Err _ => True end.

(** A write to table [t]: on success the rows seen through [ctx] are replaced by
    some [m] with [P x m]; on failure nothing changes. *)
Definition writes {A R} (ctx : context) (t : table R) (s : state)
    (P : A -> gmap UUID R -> Prop) (r : result A) (s' : state) : Prop :=
  match r with
  | Ok x => exists m, P x m /\ wrote ctx t m s s'
  | Err _ => s' ≡ s
  end.

(** The answer of a lookup by a unique column. *)
Definition lookup_spec {R} (t : table R) (p : R -> bool) (db : Tables) (o : option R) : Prop :=
  match o with
  | Some x => selected t p db x
  | None => forall x, ~ selected t p db x
  end.

Class UserRepositoryLaws (e : env) (repo : UserRepository) : Prop := {
  ur_Create_law ctx u s :
    wp e (ur_Create repo ctx u)
       (fun r s' =>
          writes ctx TUsers s (fun id m =>
            id = u_ID u /\ ~ collides TUsers u (t_users (seen ctx s)) /\
            exists now, m = <[u_ID u := stamp_create TUsers now u]> (t_users (seen ctx s))) r s' /\
          forall err, r = Err err -> errors_Is err ErrDuplicatedKey = true ->
            collides TUsers u (t_users (seen ctx s))) s;
  ur_FindByID_law ctx id s :
    wp e (ur_FindByID repo ctx id)
       (reads s (lookup_spec TUsers (user_has_id id) (seen ctx s))) s;
  ur_FindByEmail_law ctx email s :
    wp e (ur_FindByEmail repo ctx email)
       (reads s (lookup_spec TUsers (user_has_email email) (seen ctx s))) s;
  ur_Update_law ctx id u s :
    wp e (ur_Update repo ctx id u)
       (writes ctx TUsers s (fun _ m =>
          unique_ok TUsers m /\
          exists now, m = update_rows TUsers (user_has_id id) now u (t_users (seen ctx s)))) s;
  ur_Delete_law ctx id s :
    wp e (ur_Delete repo ctx id)
       (writes ctx TUsers s (fun _ m =>
          exists now, m = delete_rows TUsers (user_has_id id) now (t_users (seen ctx s)))) s
}.

(** Revoking is a real delete: the rows the clause selects are gone. *)
Definition revoked (p : RefreshTokenEntity -> bool) (m : gmap UUID RefreshTokenEntity)
  : gmap UUID RefreshTokenEntity := filter (fun kr => p kr.2 = false) m.

Definition active_tokens (id : UUID) (now : time) (m : gmap UUID RefreshTokenEntity)
  : gmap UUID RefreshTokenEntity := filter (fun kr => token_active id now kr.2 = true) m.

Class RefreshTokenRepositoryLaws (e : env) (repo : RefreshTokenRepository) : Prop := {
  tr_Create_law ctx tok s :
    wp e (tr_Create repo ctx tok)
       (writes ctx TTokens s (fun _ m =>
          ~ collides TTokens tok (t_tokens (seen ctx s)) /\
          exists now, m = <[rt_ID tok := stamp_create TTokens now tok]> (t_tokens (seen ctx s)))) s;
  tr_FindByTokenHash_law ctx h s :
    wp e (tr_FindByTokenHash repo ctx h)
       (reads s (lookup_spec TTokens (token_has_hash h) (seen ctx s))) s;
  tr_ListActiveByUserID_law ctx id now limit offset s :
    wp e (tr_ListActiveByUserID repo ctx id now limit offset)
       (reads s (fun l =>
          exists full, full ≡ₚ (map_to_list (active_tokens id now (t_tokens (seen ctx s)))).*2 /\
            StronglySorted (fun a b => desc (newest_first a) (newest_first b)) full /\
            l = take (Z.to_nat limit) (drop (Z.to_nat offset) full))) s;
  tr_CountActiveByUserID_law ctx id now s :
    wp e (tr_CountActiveByUserID repo ctx id now)
       (reads s (fun n => n = Z.of_nat (size (active_tokens id now (t_tokens (seen ctx s)))))) s;
  tr_DeleteByUserID_law ctx id s :
    wp e (tr_DeleteByUserID repo ctx id)
       (writes ctx TTokens s (fun _ m => m = revoked (token_of_user id) (t_tokens (seen ctx s)))) s;
  tr_DeleteByTokenHash_law ctx h s :
    wp e (tr_DeleteByTokenHash repo ctx h)
       (writes ctx TTokens s (fun _ m => m = revoked (token_has_hash h) (t_tokens (seen ctx s)))) s;
  tr_DeleteExpired_law ctx before s :
    wp e (tr_DeleteExpired repo ctx before)
       (writes ctx TTokens s (fun n m =>
          m = revoked (token_expired before) (t_tokens (seen ctx s)) /\
          n = Z.of_nat (size (t_tokens (seen ctx s))) - Z.of_nat (size m))) s
}.

(** The unit of work: what the body leaves is kept only if it succeeds. *)
Class TxManagerLaws (e : env) (tm : TxManager) : Prop := {
  tm_outermost_law X ctx (fn : context -> prog (result X)) Q s :
    ctx_value ctx = None ->
    (forall err s', s' ≡ s -> Q (Err err) s') ->
    (forall ctx' s1,
        conn_of ctx' = InTx -> s1 ≡ with_work (st_db s) s ->
        wp e (fn ctx')
           (fun r s2 =>
              (forall err s', s' ≡ with_work (st_work s) s2 -> Q (Err err) s') /\
              forall x s', r = Ok x ->
                s' ≡ with_work (st_work s) (with_db (st_work s2) s2) -> Q (Ok x) s') s1) ->
    wp e (tm_WithinTx tm X ctx fn) Q s;
  tm_nested_law X ctx tx (fn : context -> prog (result X)) Q s :
    ctx_value ctx = Some tx -> wp e (fn ctx) Q s -> wp e (tm_WithinTx tm X ctx fn) Q s
}.

(** ** Building blocks *)

Lemma wp_ctx_poll e s :
  wp e ctx_poll (fun r s' => s' ≡ s /\ forall err, r = Err err -> exists c, err = ECtx c) s.
Proof.
  unfold ctx_poll. wp_quiet. intros d s' Hs'. apply wp_ret. split; [done|].
  destruct d; intros err ?; simplify_eq; eauto.
Qed.

Lemma wp_Errorf e msg inner s :
  wp e (Errorf msg inner) (fun err s' => s' ≡ s /\ exists a, err = EWrap a msg inner) s.
Proof. unfold Errorf. wp_quiet. intros a s' Hs'. apply wp_ret. eauto. Qed.

(** Every repository method polls the context and then executes one statement. *)
Lemma wp_method `{!GormLaws e} {A B} ctx (q : stmt A) (h : error -> prog (result B)) k Q s :
  (forall c s', s' ≡ s -> Q (Err (ECtx c)) s') ->
  (forall s' r d,
      gorm_spec q (seen ctx s) r d -> s' ≡ with_view (conn_of ctx) d s ->
      wp e (match r with Ok x => k x | Err err => h err end) Q s') ->
  wp e (let! _ := ctx_poll onerr err => Ret (Err err) in
        let! x := GORM.sql Pool ctx q onerr err => h err in k x) Q s.
Proof.
  intros Hpoll Hsql. wp_call wp_ctx_poll. intros [u|err] s1 [Hs1 Herr].
  - wp_call @wp_sql. intros r s2 (d & Hg & Hs2). unfold seen in Hsql.
    eapply Hsql; rewrite Hs1 in *; done.
  - apply wp_ret. destruct (Herr err eq_refl) as [c ->]. by apply Hpoll.
Qed.

(** A failed statement has changed nothing, so a wrapped or plain error reports
    an unchanged state. *)
Lemma failed_state {A} ctx (q : stmt A) s s' err d :
  gorm_spec q (seen ctx s) (Err err) d -> s' ≡ with_view (conn_of ctx) d s -> s' ≡ s.
Proof. intros ->%gorm_spec_err ->. apply with_view_view. Qed.

Lemma wp_fail_wrapped {A} e msg inner (Q : result A -> state -> Prop) s :
  (forall err s', s' ≡ s -> (exists a, err = EWrap a msg inner) -> Q (Err err) s') ->
  wp e (let* err := Errorf msg inner in Ret (Err err)) Q s.
Proof. intros HQ. wp_call wp_Errorf. intros err s' [? ?]. apply wp_ret. by apply HQ. Qed.

Lemma delete_tokens p now m : delete_rows TTokens p now m = revoked p m.
Proof. reflexivity. Qed.

Lemma size_filter_complement {V} (p : V -> bool) (m : gmap UUID V) :
  size (filter (fun kv => p kv.2 = true) m) =
  (size m - size (filter (fun kv => p kv.2 = false) m))%nat /\
  (size (filter (fun kv => p kv.2 = false) m) <= size m)%nat.
Proof.
  induction m as [|k v m Hk IH] using map_ind.
  - by rewrite !map_filter_empty, map_size_empty.
  - rewrite map_size_insert_None by done. destruct (p v) eqn:Hp.
    + rewrite map_filter_insert_True by done.
      rewrite (map_filter_insert_False (fun kv => p kv.2 = false)) by (simpl; congruence).
      rewrite delete_id by done.
      rewrite map_size_insert_None by (apply map_lookup_filter_None; left; done). lia.
    + rewrite (map_filter_insert_False (fun kv => p kv.2 = true)) by (simpl; congruence).
      rewrite delete_id by done. rewrite map_filter_insert_True by done.
      rewrite map_size_insert_None by (apply map_lookup_filter_None; left; done). lia.
Qed.

(** The number of rows that a delete reports is how many fewer there are. *)
Lemma size_revoked p db :
  Z.of_nat (size (select_rows TTokens p db)) = Z.of_nat (size (t_tokens db)) - Z.of_nat (size (revoked p (t_tokens db))).
Proof.
  destruct (size_filter_complement p (t_tokens db)) as [Hs Hle]. fold (revoked p (t_tokens db)) in Hs, Hle.
  change (size (select_rows TTokens p db) = (size (t_tokens db) - size (revoked p (t_tokens db)))%nat) in Hs.
  rewrite Hs. lia.
Qed.

(** ** The gorm implementations keep the contracts *)

Lemma unchanged ctx s s' : s' ≡ with_view (conn_of ctx) (seen ctx s) s -> s' ≡ s.
Proof. intros ->. apply with_view_view. Qed.

(** A method that looks a row up reports a missing one as [Ok None], and any
    other failure as an error. *)
Lemma wp_lookup `{!GormLaws e} {R} ctx (t : table R) p (h : error -> prog (result (option R))) s :
  (forall err s1, wp e (h err) (fun r s2 => s2 ≡ s1 /\ exists err', r = Err err') s1) ->
  wp e (let! _ := ctx_poll onerr err => Ret (Err err) in
        let! x := GORM.sql Pool ctx (First t p false)
          onerr err => if errors_Is err ErrRecordNotFound then Ret (Ok None) else h err in
        Ret (Ok (Some x)))
     (reads s (lookup_spec t p (seen ctx s))) s.
Proof.
  intros Hh. apply (wp_method ctx (First t p false)); [done|].
  intros s' [x|err] d Hg Hs'.
  - apply wp_ret. destruct Hg as [-> [Hx _]]. split; [|done]. by eapply unchanged.
  - pose proof (failed_state _ _ _ _ _ _ Hg Hs') as Hsame.
    destruct Hg as [_ [[-> Hn]|[Hn _]]]; simpl; [by apply wp_ret|]. rewrite Hn.
    eapply wp_mono; [apply Hh|]. intros r s2 (Hs2 & err' & ->). split; [by rewrite Hs2|done].
Qed.

(** A method that writes and reports success or failure. *)
Lemma wp_write `{!GormLaws e} {A B R} ctx (t : table R) (q : stmt A) (g : A -> B)
    (h : error -> prog (result B)) (P : B -> gmap UUID R -> Prop) s :
  (forall err s1, wp e (h err) (fun r s2 => s2 ≡ s1 /\ exists err', r = Err err') s1) ->
  (forall x d, gorm_spec q (seen ctx s) (Ok x) d ->
     exists m, P (g x) m /\ d = set_rows t m (seen ctx s)) ->
  wp e (let! _ := ctx_poll onerr err => Ret (Err err) in
        let! x := GORM.sql Pool ctx q onerr err => h err in Ret (Ok (g x)))
     (writes ctx t s P) s.
Proof.
  intros Hh Hok. apply (wp_method ctx q); [done|]. intros s' [x|err] d Hg Hs'.
  - apply wp_ret. destruct (Hok x d Hg) as (m & Hm & ->). by exists m.
  - pose proof (failed_state _ _ _ _ _ _ Hg Hs') as Hsame.
    eapply wp_mono; [apply Hh|]. intros r s2 (Hs2 & err' & ->). simpl. by rewrite Hs2.
Qed.

(** The two ways the methods report a failed statement. *)
Lemma fails_plain {A} e err s1 :
  wp e (Ret (@Err A err)) (fun r s2 => s2 ≡ s1 /\ exists err', r = Err err') s1.
Proof. apply wp_ret. eauto. Qed.

Lemma fails_wrapped {A} e msg err s1 :
  wp e (let* err := Errorf msg err in Ret (@Err A err)) (fun r s2 => s2 ≡ s1 /\ exists err', r = Err err') s1.
Proof. apply wp_fail_wrapped. eauto. Qed.

#[export] Hint Resolve fails_plain fails_wrapped : go.

#[export] Instance GORM_UserRepositoryLaws `{!GormLaws e} :
  UserRepositoryLaws e (GORM.NewGORMUserRepository Pool).
Proof.
  split; intros ctx; simpl.
  - intros u s. apply (wp_method ctx (Create TUsers u)).
    + intros c s' Hs'. split; [done|]. intros err ?; by simplify_eq.
    + intros s' [x|err] d Hg Hs'; apply wp_ret.
      * destruct Hg as (Hc & now & -> & ->). split; [|done]. eexists. split; [|exact Hs']. eauto.
      * split; [exact (failed_state _ _ _ _ _ _ Hg Hs')|]. intros e' [= <-] Hdup.
        destruct Hg as (_ & [[_ ?]|[_ ?]]); [done|congruence].
  - intros id s. apply wp_lookup. eauto with go.
  - intros email s. apply wp_lookup. eauto with go.
  - intros id u s. apply (wp_write ctx TUsers (Updates TUsers (user_has_id id) u) (fun _ => tt)).
    + eauto with go.
    + intros x d (_ & now & Hu & ->). eauto 6.
  - intros id s. apply (wp_write ctx TUsers (Delete TUsers (user_has_id id)) (fun _ => tt)).
    + eauto with go.
    + intros x d (_ & now & ->). eauto.
Qed.

#[export] Instance GORM_RefreshTokenRepositoryLaws `{!GormLaws e} uuid_String :
  RefreshTokenRepositoryLaws e (GORM.NewGORMRefreshTokenRepository Pool uuid_String).
Proof.
  split; intros ctx; simpl.
  - intros tok s. apply (wp_write ctx TTokens (Create TTokens tok) (fun _ => tt)); [eauto with go|].
    intros x d (Hc & now & -> & ->). eauto 6.
  - intros h s. apply wp_lookup. eauto with go.
  - intros id now limit offset s.
    apply (wp_method ctx (Find TTokens (token_active id now) newest_first limit offset)); [done|].
    intros s' [x|err] d Hg Hs'.
    + apply wp_ret. destruct Hg as [-> Hx]. split; [by eapply unchanged|exact Hx].
    + pose proof (failed_state _ _ _ _ _ _ Hg Hs') as Hsame.
      apply wp_fail_wrapped. intros err' s2 Hs2 _. split; [by rewrite Hs2|done].
  - intros id now s. apply (wp_method ctx (Count TTokens (token_active id now))); [done|].
    intros s' [x|err] d Hg Hs'.
    + apply wp_ret. destruct Hg as [-> Hx]. split; [by eapply unchanged|exact Hx].
    + pose proof (failed_state _ _ _ _ _ _ Hg Hs') as Hsame.
      apply wp_fail_wrapped. intros err' s2 Hs2 _. split; [by rewrite Hs2|done].
  - intros id s. apply (wp_write ctx TTokens (Delete TTokens (token_of_user id)) (fun _ => tt)); [eauto with go|].
    intros x d (_ & now & ->). eauto.
  - intros h s. apply (wp_write ctx TTokens (Delete TTokens (token_has_hash h)) (fun _ => tt)); [eauto with go|].
    intros x d (_ & now & ->). eauto.
  - intros before s. apply (wp_write ctx TTokens (Delete TTokens (token_expired before)) (fun n => n)); [eauto with go|].
    intros n d (-> & now & ->). eexists. split; [split; [reflexivity|]|done].
    apply size_revoked.
Qed.

#[export] Instance GORM_TxManagerLaws e : TxManagerLaws e (GORM.NewGORMTxManager Pool).
Proof.
  split.
  - intros X ctx fn Q s Hctx Hb Hbody. simpl. unfold GORM.Tx_WithinTx, Dbtx.From_. rewrite Hctx.
    apply wp_transaction; [done|]. intros s1 Hs1. by apply Hbody.
  - intros X ctx tx fn Q s Hctx Hf. simpl. unfold GORM.Tx_WithinTx, Dbtx.From_. by rewrite Hctx.
Qed.
