(* ===== verification/Testbed.v ===== *)
(** * A concrete environment

    Instances of every parameter of the model, on which programs can be run:
    a clock that advances by a millisecond per effect, consecutive ids, an
    in-memory database that fails where it is told to, and a password hash that
    satisfies the laws asked of bcrypt.  The laws of the model's parameters are
    proved for them. *)

From S2P Require Import Prelude GoStd Apperr Model Gorm Effects.

(** The first instant of the clock: 2033-05-18T03:33:20Z. *)
Definition epoch : time := 2 * 10 ^ 9 * Second.

Definition toy_salt : bytes := to_bytes "$2a$10$".

Definition toy_generate (n : nat) (pw : bytes) (cost : Z) : result bytes :=
  if (72 <? Z.of_nat (length pw)) then Err (EString 600 "bcrypt: password length exceeds 72 bytes")
  else Ok (toy_salt ++ pw).

Definition toy_compare (hash pw : bytes) : option error :=
  if bool_decide (hash = toy_salt ++ pw) then None
  else Some (EString 601 "crypto/bcrypt: hashedPassword is not the hash of the given password").

Section env.
(** When the context is done, and which statement, begin or commit fails. *)
Context (done : nat -> option ctx_error) (fault : nat -> option error).

Definition toy_sql A (n : nat) (q : stmt A) (db : Tables) : result A * Tables :=
  match fault n with
  | Some err => (Err (EDriver 602 "driver: bad connection" (Some err)), db)
  | None => Memory.exec (epoch + Z.of_nat n * Millisecond) q db
  end.

Definition toy_env : env := {|
  env_now n := epoch + Z.of_nat n mod 10 ^ 9 * Millisecond;
  env_uuid n := N.of_nat (S n);
  env_rand n len := Ok (replicate len (to_byte (Z.of_nat n)));
  env_done := done;
  env_begin n := None;
  env_commit n := fault n;
  env_sql := toy_sql;
  env_bcrypt_generate := toy_generate;
  env_bcrypt_compare := toy_compare
|}.

Context (Hfault : forall n err, fault n = Some err -> driver_error err).

#[export] Instance toy_gorm_laws : GormLaws toy_env.
Proof using Hfault.
  intros A n q db. simpl. unfold toy_sql. destruct (fault n) as [err|] eqn:Hf; simpl.
  - assert (Hd : driver_error (EDriver 602 "driver: bad connection" (Some err))).
    { destruct (Hfault n err Hf) as [H1 H2]. by split. }
    destruct q; simpl; auto.
  - apply Memory.exec_ok.
Qed.

#[export] Instance toy_bcrypt_laws : BcryptLaws toy_env.
Proof.
  intros n pw cost h. simpl. unfold toy_generate, toy_compare.
  destruct (72 <? Z.of_nat (length pw)); [done|]. intros [= <-]. split; [done|].
  by rewrite bool_decide_true.
Qed.

#[export] Instance toy_clock_laws : ClockLaws toy_env.
Proof.
  intros n. simpl. unfold epoch, Second, Millisecond.
  pose proof (Z.mod_pos_bound (Z.of_nat n) (10 ^ 9) ltac:(lia)). lia.
Qed.
End env.

(** The environment in which nothing fails. *)
Definition never {A : Type} (n : nat) : option A := None.
Definition good_env : env := toy_env never never.

#[export] Instance good_gorm_laws : GormLaws good_env.
Proof. by apply toy_gorm_laws. Defined.
#[export] Instance good_bcrypt_laws : BcryptLaws good_env.
Proof. apply _. Defined.
#[export] Instance good_clock_laws : ClockLaws good_env.
Proof. apply _. Defined.

(** A state over the given tables. *)
Definition start (db : Tables) : state := mkState 0 heap_base None db empty_tables [].
