(* ===== verification/Token.v ===== *)
(** * internal/service/token: signed access and refresh tokens

    github.com/golang-jwt/jwt and github.com/google/uuid are parameters, with
    what the service relies on as the class [JWTLaws].  [TokenServiceLaws] is
    what the token service promises the user service; [tokenService] is an
    instance.  [ToyJWT] is a concrete signer that satisfies the laws. *)

From stdpp Require Import countable.
From S2P Require Import Prelude GoStd Apperr Model Gorm Effects RepositoryLaws Testbed.

(** ** github.com/golang-jwt/jwt *)

(** The signing method of a token's header. *)
Inductive jwt_method := HS256 | OtherHMAC | NotHMAC.

#[export] Instance jwt_method_eq_dec : EqDecision jwt_method.
Proof. solve_decision. Defined.

(** [token.Method.( *jwt.SigningMethodHMAC)] *)
Definition is_HMAC (m : jwt_method) : bool :=
  match m with HS256 | OtherHMAC => true | NotHMAC => false end.

(** A key function is given the header's method and answers with the key. *)
Record JWT := mkJWT {
  NewNumericDate : time -> time;
  SignedString : jwt_method -> TokenClaims -> bytes -> result string;
  ParseWithClaims : string -> (jwt_method -> result bytes) -> time -> result TokenClaims
}.

(** A token is refused from its expiry on. *)
Definition unexpired (c : TokenClaims) (now : time) : Prop :=
  match tc_ExpiresAt c with Some t => now < t | None => True end.

(** Claims that survive JSON: valid UTF-8 and dates in whole seconds that a
    float64 represents exactly. *)
Definition date_ok (d : option time) : Prop :=
  match d with Some t => t mod Second = 0 /\ 0 <= t < 2 ^ 53 * Second | None => True end.

Definition encodable (c : TokenClaims) : Prop :=
  Utf8.ValidString (tc_Email c) = true /\ Utf8.ValidString (tc_Name c) = true /\
  Utf8.ValidString (tc_ID c) = true /\ Utf8.ValidString (tc_Issuer c) = true /\
  date_ok (tc_ExpiresAt c) /\ date_ok (tc_IssuedAt c).

Class JWTLaws (j : JWT) := {
  (** The token has this method in its header, its signature verifies under this
      key and its payload decodes to these claims. *)
  signed : jwt_method -> bytes -> string -> TokenClaims -> Prop;
  date_law t : NewNumericDate j t = t / Second * Second;
  sign_law m c k tok :
    SignedString j m c k = Ok tok -> encodable c -> signed m k tok c /\ tok <> "";
  payload_law m m' k k' tok c c' : signed m k tok c -> signed m' k' tok c' -> c = c';
  parse_sound tok keyf now c :
    ParseWithClaims j tok keyf now = Ok c ->
    exists m k, keyf m = Ok k /\ signed m k tok c /\ unexpired c now;
  parse_complete m c k tok keyf now :
    SignedString j m c k = Ok tok -> encodable c ->
    keyf m = Ok k -> unexpired c now -> ParseWithClaims j tok keyf now = Ok c
}.

(** ** The interface [TokenService] *)

Record TokenService := mkTokenService {
  ts_GenerateAccessToken : UUID -> string -> string -> prog (result string);
  ts_GenerateRefreshToken : UUID -> prog (result string);
  ts_ValidateAccessToken : string -> prog (result TokenClaims);
  ts_ValidateRefreshToken : string -> prog (result TokenClaims)
}.

(** The user service relies on the token service not touching its state, and on
    what a validated refresh token says about its owner; [vouches] is what makes a
    refresh token valid for a user, minted here or not. *)
Class TokenServiceLaws (e : env) (ts : TokenService) := {
  access_for : string -> UUID -> string -> string -> Prop;
  refresh_for : string -> UUID -> Prop;
  vouches : string -> UUID -> Prop;
  ts_GenerateAccessToken_law uid email name s :
    wp e (ts_GenerateAccessToken ts uid email name)
       (reads s (fun tok => access_for tok uid email name)) s;
  ts_GenerateRefreshToken_law uid s :
    wp e (ts_GenerateRefreshToken ts uid) (reads s (fun tok => refresh_for tok uid)) s;
  ts_ValidateRefreshToken_law tok s :
    wp e (ts_ValidateRefreshToken ts tok)
       (reads s (fun c => vouches tok (tc_UserID c) /\ forall uid, refresh_for tok uid ->
          tc_UserID c = uid /\ tc_Email c = "" /\ tc_Name c = "")) s
}.

(** ** The implementation *)

Record TokenConfig := mkTokenConfig {
  AccessTokenSecret : string;
  AccessTokenExpiry : duration;
  RefreshTokenSecret : string;
  RefreshTokenExpiry : duration
}.

Definition issuer : string := "go-vite-react".

(** [token.Hash] *)
Definition Hash (token : string) : string :=
  Hex.EncodeToString (Sha256.Sum256 (to_bytes token)).

(** A digest is 64 digits long, so it is never the empty string. *)
Lemma Hash_length token : length (to_bytes (Hash token)) = 64%nat.
Proof.
  unfold Hash, Hex.EncodeToString. by rewrite to_of_bytes, Hex.encode_length, Sha256.Sum256_length.
Qed.

Lemma Hash_nonempty token : String.eqb (Hash token) "" = false.
Proof. apply String.eqb_neq. intros H. pose proof (Hash_length token) as Hl. by rewrite H in Hl. Qed.

Section tokenService.
Context (j : JWT) (uuid_String : UUID -> string) (config : TokenConfig).

Definition access_claims (userID : UUID) (email name : string) (t1 t2 : time) : TokenClaims :=
  mkClaims userID email name ""
    (Some (NewNumericDate j (time_Add t1 (AccessTokenExpiry config))))
    (Some (NewNumericDate j t2)) issuer.

Definition GenerateAccessToken (userID : UUID) (email name : string) : prog (result string) :=
  let* t1 := perform OpNow in
  let* t2 := perform OpNow in
  let claims := access_claims userID email name t1 t2 in
  Ret (SignedString j HS256 claims (to_bytes (AccessTokenSecret config))).

Definition refresh_claims (userID : UUID) (id : UUID) (now : time) : TokenClaims :=
  mkClaims userID "" "" (uuid_String id)
    (Some (NewNumericDate j (time_Add now (RefreshTokenExpiry config))))
    (Some (NewNumericDate j now)) issuer.

Definition GenerateRefreshToken (userID : UUID) : prog (result string) :=
  let* now := perform OpNow in
  let* id := perform OpUUID in
  let claims := refresh_claims userID id now in
  Ret (SignedString j HS256 claims (to_bytes (RefreshTokenSecret config))).

(** The key function of both validators; [a] is the address of its error. *)
Definition hmac_key (a : addr) (secret : string) (m : jwt_method) : result bytes :=
  if negb (is_HMAC m) then Err (EString a "invalid signing method")
  else Ok (to_bytes secret).

Definition ValidateAccessToken (tokenString : string) : prog (result TokenClaims) :=
  let* a := perform OpAlloc in
  if String.eqb tokenString "" then Ret (Err (EString a "token is empty"))
  else
    let* now := perform OpNow in
    let! claims := Ret (ParseWithClaims j tokenString (hmac_key a (AccessTokenSecret config)) now)
      onerr err => Ret (Err err) in
    Ret (Ok claims).

Definition ValidateRefreshToken (tokenString : string) : prog (result TokenClaims) :=
  let* a := perform OpAlloc in
  if String.eqb tokenString "" then Ret (Err (EString a "token is empty"))
  else
    let* now := perform OpNow in
    let! claims := Ret (ParseWithClaims j tokenString (hmac_key a (RefreshTokenSecret config)) now)
      onerr err => Ret (Err err) in
    Ret (Ok claims).

Definition NewTokenService : TokenService :=
  mkTokenService GenerateAccessToken GenerateRefreshToken ValidateAccessToken ValidateRefreshToken.
End tokenService.

(** ** github.com/google/uuid *)

Record UUIDLib := mkUUIDLib {
  uuid_String : UUID -> string;
  uuid_Parse : string -> result UUID
}.

Class UUIDLaws (u : UUIDLib) : Prop := {
  uuid_Parse_String id : uuid_Parse u (uuid_String u id) = Ok id;
  uuid_String_valid id : Utf8.ValidString (uuid_String u id) = true
}.

(** ** Properties of the implementation *)

Section properties.
Context (j : JWT) `{HJ : !JWTLaws j} (u : UUIDLib) `{!UUIDLaws u}.
Context (e : env) `{!ClockLaws e} (config : TokenConfig).

(** A lifetime is a positive [time.Duration]. *)
Definition ttl_ok (d : duration) : Prop := 0 <= d <= int64_max.

Lemma date_ok_rounded t : 0 <= t < 2 ^ 53 * Second -> date_ok (Some (NewNumericDate j t)).
Proof.
  rewrite date_law. unfold date_ok, Second. intros Ht. split; [by apply Z_mod_mult|].
  pose proof (Z.mul_div_le t (10 ^ 9) ltac:(lia)).
  pose proof (Z.div_pos t (10 ^ 9)). lia.
Qed.

Lemma access_claims_encodable uid email name n1 n2 :
  Utf8.ValidString email = true -> Utf8.ValidString name = true ->
  ttl_ok (AccessTokenExpiry config) ->
  encodable (access_claims j config uid email name (env_now e n1) (env_now e n2)).
Proof.
  intros He Hn Ht. pose proof (clock_range n1). pose proof (clock_range n2).
  unfold ttl_ok, int64_max, time_Add, Second in *.
  repeat (split; [done|]). unfold access_claims. cbn [tc_ExpiresAt tc_IssuedAt].
  split; apply date_ok_rounded; unfold time_Add, Second; lia.
Qed.

Lemma refresh_claims_encodable uid id n :
  ttl_ok (RefreshTokenExpiry config) ->
  encodable (refresh_claims j (uuid_String u) config uid id (env_now e n)).
Proof.
  intros Ht. pose proof (clock_range n).
  unfold ttl_ok, int64_max, time_Add, Second in *.
  split; [done|]. split; [done|]. split; [apply uuid_String_valid|]. split; [done|].
  unfold refresh_claims. cbn [tc_ExpiresAt tc_IssuedAt].
  split; apply date_ok_rounded; unfold time_Add, Second; lia.
Qed.

(** An access token that this configuration minted for this user, at readings of
    this clock. *)
Definition is_access_token (tok : string) (uid : UUID) (email name : string) : Prop :=
  exists n1 n2, SignedString j HS256 (access_claims j config uid email name (env_now e n1) (env_now e n2))
    (to_bytes (AccessTokenSecret config)) = Ok tok.

Definition is_refresh_token (tok : string) (uid : UUID) : Prop :=
  exists c, SignedString j HS256 c (to_bytes (RefreshTokenSecret config)) = Ok tok /\
    encodable c /\ tc_UserID c = uid /\ tc_Email c = "" /\ tc_Name c = "".

(** An HMAC under the refresh secret, over unexpired claims that name this user. *)
Definition vouching_token (tok : string) (uid : UUID) : Prop :=
  exists m c n, is_HMAC m = true /\ signed m (to_bytes (RefreshTokenSecret config)) tok c /\
    unexpired c (env_now e n) /\ tc_UserID c = uid.

#[export] Instance tokenService_laws (Hr : ttl_ok (RefreshTokenExpiry config)) :
  TokenServiceLaws e (NewTokenService j (uuid_String u) config).
Proof using All.
  refine {| access_for := is_access_token; refresh_for := is_refresh_token; vouches := vouching_token |}.
  - intros uid email name s. simpl. unfold GenerateAccessToken.
    apply wp_bind, wp_perform, wp_bind, wp_perform, wp_ret. cbn [exec_op fst snd].
    split; [done|]. case_match; [|done]. by eexists _, _.
  - intros uid s. simpl. unfold GenerateRefreshToken.
    apply wp_bind, wp_perform. cbn [exec_op fst snd].
    wp_quiet. intros id s2 Hs2. apply wp_ret.
    split; [by rewrite Hs2|]. case_match; [|done]. eexists. split; [eassumption|].
    split; [by apply refresh_claims_encodable|done].
  - intros tok s. simpl. unfold ValidateRefreshToken.
    wp_quiet. intros a s1 Hs1. case_match; [by apply wp_ret|].
    apply wp_bind, wp_perform. cbn [exec_op fst snd]. cbn [bind].
    destruct (ParseWithClaims _ _ _ _) as [c|err] eqn:Hp.
    + apply wp_ret. split; [exact Hs1|]. apply parse_sound in Hp as (m & k & Hk & Hs & Hexp).
      unfold hmac_key in Hk. destruct (is_HMAC m) eqn:Hm; [|done]. injection Hk as <-.
      split; [by exists m, c, (st_n s1)|]. intros uid (c' & Hsig & Henc & Hu & He & Hn).
      apply (sign_law (j := j)) in Hsig as [Hsig _]; [|done].
      rewrite (payload_law (j := j) _ _ _ _ _ _ _ Hs Hsig). done.
    + apply wp_ret. by split.
Defined.
End properties.

(** Validation changes nothing. *)
Lemma ValidateAccessToken_pure (j : JWT) (e : env) (config : TokenConfig) tok s :
  (run e (ValidateAccessToken j config tok) s).2 ≡ s.
Proof. unfold ValidateAccessToken. simpl. destruct (String.eqb tok ""); [done|]. simpl. by case_match. Qed.

(** What was signed under the access secret validates to its claims, in any
    environment whose clock has not reached their expiry. *)
Lemma validate_signed (j : JWT) {HJ : JWTLaws j} (e : env) (config : TokenConfig) c tok s :
  encodable c -> SignedString j HS256 c (to_bytes (AccessTokenSecret config)) = Ok tok ->
  unexpired c (env_now e (S (st_n s))) -> (run e (ValidateAccessToken j config tok) s).1 = Ok c.
Proof.
  intros Henc Hsig Hexp. destruct (sign_law _ _ _ _ Hsig Henc) as [_ Hne].
  unfold ValidateAccessToken. simpl. rewrite (proj2 (String.eqb_neq tok "") Hne). simpl.
  by rewrite (parse_complete _ _ _ _ (hmac_key _ _) (env_now e (S (st_n s))) Hsig Henc eq_refl Hexp).
Qed.

(** So a token minted under one environment is recognised under another. *)
Lemma validate_minted (j : JWT) {HJ : JWTLaws j} (u : UUIDLib) (e e' : env) {HC : ClockLaws e} (config : TokenConfig)
    tok uid email name s :
  Utf8.ValidString email = true -> Utf8.ValidString name = true -> ttl_ok (AccessTokenExpiry config) ->
  is_access_token j e config tok uid email name ->
  (forall n m, env_now e' n < NewNumericDate j (env_now e m + AccessTokenExpiry config)) ->
  exists c s', run e' (ValidateAccessToken j config tok) s = (Ok c, s') /\ tc_UserID c = uid.
Proof.
  intros He Hn Ht (n1 & n2 & Hsig) Hexp.
  pose proof (access_claims_encodable j e config uid email name n1 n2 He Hn Ht) as Henc.
  pose proof (validate_signed j e' config _ tok s Henc Hsig (Hexp _ _)) as Hv.
  destruct (run e' (ValidateAccessToken j config tok) s) as [r s']. simpl in Hv. subst r. by do 2 eexists.
Qed.

(** ** Theorems *)

(** An access token validates, under the configuration that minted it and as
    long as the clock has not reached its expiry, to the claims of the user it
    was minted for. *)
Theorem access_token_roundtrip (j : JWT) {HJ : JWTLaws j} (e : env) {HC : ClockLaws e}
    (config : TokenConfig) uid email name s s1 s2 tok :
  Utf8.ValidString email = true -> Utf8.ValidString name = true ->
  ttl_ok (AccessTokenExpiry config) ->
  run e (GenerateAccessToken j config uid email name) s = (Ok tok, s1) ->
  env_now e (S (st_n s2)) < NewNumericDate j (env_now e (st_n s) + AccessTokenExpiry config) ->
  exists c, (run e (ValidateAccessToken j config tok) s2).1 = Ok c /\
    tc_UserID c = uid /\ tc_Email c = email /\ tc_Name c = name.
Proof.
  intros He Hn Ht Hgen Hexp. unfold GenerateAccessToken in Hgen. simpl in Hgen.
  injection Hgen as Hsig _.
  pose proof (access_claims_encodable j e config uid email name (st_n s) (S (st_n s)) He Hn Ht) as Henc.
  eexists. split; [exact (validate_signed j e config _ tok s2 Henc Hsig Hexp)|done].
Qed.

(** A token that validates as an access token is not empty, carries an HMAC
    signature that verifies under the access secret, and has not expired. *)
Theorem access_token_sound (j : JWT) {HJ : JWTLaws j} (e : env) (config : TokenConfig) tok c s s' :
  run e (ValidateAccessToken j config tok) s = (Ok c, s') ->
  tok <> "" /\ unexpired c (env_now e (S (st_n s))) /\
  exists m, is_HMAC m = true /\ signed m (to_bytes (AccessTokenSecret config)) tok c.
Proof.
  unfold ValidateAccessToken. simpl. destruct (String.eqb_spec tok "") as [->|Hne]; simpl; [done|].
  destruct (ParseWithClaims _ _ _ _) as [c'|] eqn:Hp; simpl; intros [= <- _].
  apply parse_sound in Hp as (m & k & Hk & Hs & Hu). split; [done|]. split; [done|].
  exists m. unfold hmac_key in Hk. destruct (is_HMAC m); simpl in Hk; [|done].
  by injection Hk as <-.
Qed.

(** ** A concrete signer

    The token is the header, key and claims, written as a string of binary
    digits: it hides nothing, and satisfies every law. *)
Module ToyJWT.

#[export] Instance jwt_method_countable : Countable jwt_method.
Proof.
  refine (inj_countable'
    (fun m => match m with HS256 => 0 | OtherHMAC => 1 | NotHMAC => 2 end)%nat
    (fun n => match n with O => HS256 | 1 => OtherHMAC | _ => NotHMAC end)%nat _).
  by intros [].
Defined.

#[export] Instance claims_eq_dec : EqDecision TokenClaims.
Proof. solve_decision. Defined.

#[export] Instance claims_countable : Countable TokenClaims.
Proof.
  refine (inj_countable'
    (fun c => (tc_UserID c, tc_Email c, tc_Name c, tc_ID c, tc_ExpiresAt c, tc_IssuedAt c, tc_Issuer c))
    (fun '(a, b, c, d, e, f, g) => mkClaims a b c d e f g) _).
  by intros [].
Defined.

Fixpoint digits (p : positive) : string :=
  match p with
  | xH => "1"
  | xO p => String "0" (digits p)
  | xI p => String "2" (digits p)
  end.

Fixpoint undigits (s : string) : option positive :=
  match s with
  | EmptyString => None
  | String c s' =>
      if Ascii.eqb c "1" then (if String.eqb s' "" then Some xH else None)
      else if Ascii.eqb c "0" then xO <$> undigits s'
      else if Ascii.eqb c "2" then xI <$> undigits s'
      else None
  end.

Lemma undigits_digits p : undigits (digits p) = Some p.
Proof. induction p as [p IH|p IH|]; simpl; [by rewrite IH..|done]. Qed.

Definition Sign (m : jwt_method) (c : TokenClaims) (key : bytes) : result string :=
  Ok (digits (encode (m, of_bytes key, c))).

Definition unexpired_b (c : TokenClaims) (now : time) : bool :=
  match tc_ExpiresAt c with Some t => now <? t | None => true end.

Definition Parse (tok : string) (keyf : jwt_method -> result bytes) (now : time) : result TokenClaims :=
  match undigits tok ≫= decode with
  | Some (m, key, c) =>
      match keyf m with
      | Ok k =>
          if bool_decide (of_bytes k = key) && unexpired_b c now then Ok c
          else Err (EDriver 700 "token signature is invalid" None)
      | Err err => Err (EDriver 701 "token is unverifiable" (Some err))
      end
  | None => Err (EDriver 702 "token is malformed" None)
  end.

Definition jwt : JWT := mkJWT (fun t => t / Second * Second) Sign Parse.

Lemma unexpired_b_spec c now : unexpired_b c now = true <-> unexpired c now.
Proof. unfold unexpired_b, unexpired. destruct (tc_ExpiresAt c); [apply Z.ltb_lt|done]. Qed.

#[global] Instance laws : JWTLaws jwt.
Proof.
  refine {| signed m k tok c := (undigits tok ≫= decode) = Some (m, of_bytes k, c) |}.
  - done.
  - intros m c k tok [= <-] _. rewrite undigits_digits. simpl. rewrite decode_encode.
    split; [done|]. by destruct (encode _).
  - congruence.
  - intros tok keyf now c. simpl. unfold Parse. destruct (undigits tok ≫= decode) as [[[m key] c']|]; [|done].
    destruct (keyf m) as [k|] eqn:Hk; [|done]. case_bool_decide as Heq; simpl; [|done].
    destruct (unexpired_b c' now) eqn:Hu; [|done]. intros [= <-].
    exists m, k. rewrite Heq. split; [done|]. split; [done|]. by apply unexpired_b_spec.
  - intros m c k tok keyf now [= <-] _ Hk Hu. simpl. unfold Parse.
    rewrite undigits_digits. simpl. rewrite decode_encode, Hk.
    rewrite bool_decide_true by done. simpl. by rewrite (proj2 (unexpired_b_spec c now) Hu).
Defined.
End ToyJWT.

(** ** Witnesses *)

Definition toy_config : TokenConfig :=
  mkTokenConfig "access-secret" (15 * Minute) "refresh-secret" (168 * Hour).

Definition toy_uuid : UUIDLib := mkUUIDLib
  (fun id => ToyJWT.digits (N.succ_pos id))
  (fun s => match ToyJWT.undigits s with
            | Some p => Ok (Pos.pred_N p)
            | None => Err (EDriver 703 "invalid UUID" None)
            end).

Lemma digits_valid p f : Utf8.valid_fuel f (to_bytes (ToyJWT.digits p)) = true.
Proof.
  revert p. induction f as [|f IH]; intros p; [done|].
  destruct p; simpl; rewrite ?drop_0; [apply IH..|by destruct f].
Qed.

#[export] Instance toy_uuid_laws : UUIDLaws toy_uuid.
Proof.
  split.
  - intros id. simpl. rewrite ToyJWT.undigits_digits. by rewrite N.pos_pred_succ.
  - intros id. apply digits_valid.
Qed.

Lemma access_token_roundtrip_witness :
  exists tok s1,
    run good_env (GenerateAccessToken ToyJWT.jwt toy_config 7 "ann@example.org" "Ann") (start empty_tables)
      = (Ok tok, s1) /\
    exists c, (run good_env (ValidateAccessToken ToyJWT.jwt toy_config tok) s1).1 = Ok c /\
      tc_UserID c = 7%N /\ tc_Email c = "ann@example.org" /\ tc_Name c = "Ann".
Proof.
  eexists _, _. split; [reflexivity|].
  eapply (access_token_roundtrip ToyJWT.jwt good_env toy_config 7 _ _ (start empty_tables)).
  - reflexivity.
  - reflexivity.
  - by vm_compute.
  - reflexivity.
  - by vm_compute.
Defined.

Lemma access_token_sound_witness :
  exists tok s1 c s2,
    run good_env (GenerateAccessToken ToyJWT.jwt toy_config 7 "ann@example.org" "Ann") (start empty_tables)
      = (Ok tok, s1) /\
    run good_env (ValidateAccessToken ToyJWT.jwt toy_config tok) s1 = (Ok c, s2) /\
    tok <> "" /\ unexpired c (env_now good_env (S (st_n s1))) /\
    exists m, is_HMAC m = true /\ signed m (to_bytes (AccessTokenSecret toy_config)) tok c.
Proof.
  eexists _, _, _, _. split; [reflexivity|]. split; [vm_compute; reflexivity|].
  eapply access_token_sound. vm_compute. reflexivity.
Defined.
