(* ===== verification/Csrf.v ===== *)
(** * internal/service/csrf: stateless HMAC tokens

    A token is [nonce.issuedAt.signature], each part in hexadecimal.  The
    theorems: a generated token is accepted exactly within its lifetime, and an
    accepted token carries a valid HMAC over its nonce and issue time. *)

From S2P Require Import Prelude GoStd Apperr Model Gorm Effects Repository RepositoryLaws Testbed.

Definition clockSkew : duration := Minute.
Definition nonceLength : nat := 32.

Record csrfService := mkCSRF { csrf_secret : bytes; csrf_ttl : duration }.

Definition NewCSRFService (secret : string) (ttl : duration) : csrfService :=
  mkCSRF (to_bytes secret) ttl.

Definition sign (svc : csrfService) (nonce issuedAt : bytes) : bytes :=
  hmac_sha256 (csrf_secret svc) (nonce ++ issuedAt).

Definition GenerateToken (svc : csrfService) : prog (result string) :=
  let! nonce := perform (OpRand nonceLength)
    onerr err => let* err := Errorf "generating CSRF nonce" err in Ret (Err err) in
  let* now := perform OpNow in
  let issuedAt := BigEndian.PutUint64 (time_UnixSec now) in
  Ret (Ok (Hex.EncodeToString nonce +:+ "." +:+
           Hex.EncodeToString issuedAt +:+ "." +:+
           Hex.EncodeToString (sign svc nonce issuedAt))).

Definition ValidateToken (svc : csrfService) (token : string) : prog bool :=
  match strings_Split token "." with
  | [part0; part1; part2] =>
      match Hex.DecodeString part0 with
      | None => Ret false
      | Some nonce =>
          if negb (length nonce =? nonceLength)%nat then Ret false else
          match Hex.DecodeString part1 with
          | None => Ret false
          | Some issuedAt =>
              if negb (length issuedAt =? 8)%nat then Ret false else
              match Hex.DecodeString part2 with
              | None => Ret false
              | Some signature =>
                  if negb (hmac_Equal signature (sign svc nonce issuedAt)) then Ret false else
                  let* now := perform OpNow in
                  let age := time_Sub now (time_Unix (wrap64 (BigEndian.Uint64 issuedAt))) in
                  Ret ((age >=? - clockSkew) && (age <=? csrf_ttl svc))
              end
          end
      end
  | _ => Ret false
  end.

(** [crypto/rand.Read] fills the whole slice. *)
Class RandLaws (e : env) : Prop :=
  rand_law n len bs : env_rand e n len = Ok bs -> length bs = len.

#[export] Instance good_rand_laws : RandLaws good_env.
Proof. intros n len bs [= <-]. apply length_replicate. Defined.

(** ** The shape of a token *)

Lemma hex_no_dot bs : Forall (fun c => c <> "."%char) (Hex.encode bs).
Proof.
  eapply Forall_impl; [apply Hex.encode_lower_hex|]. intros c Hc ->. by vm_compute in Hc.
Qed.

Lemma split_token n i g :
  strings_Split (Hex.EncodeToString n +:+ "." +:+ Hex.EncodeToString i +:+ "." +:+ Hex.EncodeToString g) "."
  = [Hex.EncodeToString n; Hex.EncodeToString i; Hex.EncodeToString g].
Proof.
  unfold strings_Split, Hex.EncodeToString. rewrite !to_bytes_app, !to_of_bytes. simpl.
  rewrite split_on_app by apply hex_no_dot. rewrite split_on_app by apply hex_no_dot.
  by rewrite split_on_no_sep by apply hex_no_dot.
Qed.

(** What [ValidateToken] answers, by the parts of the token: the clock is read
    only once the signature has been verified. *)
Lemma ValidateToken_parts svc token p0 p1 p2 nonce issuedAt signature :
  strings_Split token "." = [p0; p1; p2] ->
  Hex.DecodeString p0 = Some nonce -> length nonce = nonceLength ->
  Hex.DecodeString p1 = Some issuedAt -> length issuedAt = 8%nat ->
  Hex.DecodeString p2 = Some signature ->
  ValidateToken svc token =
  if negb (hmac_Equal signature (sign svc nonce issuedAt)) then Ret false else
  let* now := perform OpNow in
  let age := time_Sub now (time_Unix (wrap64 (BigEndian.Uint64 issuedAt))) in
  Ret ((age >=? - clockSkew) && (age <=? csrf_ttl svc)).
Proof.
  intros Hs H0 Hl0 H1 Hl1 H2. unfold ValidateToken.
  by rewrite Hs, H0, Hl0, H1, Hl1, H2.
Qed.

(** Validation changes nothing. *)
Lemma ValidateToken_pure e svc token s : (run e (ValidateToken svc token) s).2 ≡ s.
Proof. unfold ValidateToken. by repeat case_match. Qed.

(** The issue time survives its encoding: it is cut down to whole seconds. *)
Lemma issued_roundtrip t :
  0 <= t < 2 ^ 52 * Second ->
  time_Unix (wrap64 (BigEndian.Uint64 (BigEndian.PutUint64 (time_UnixSec t)))) = t / Second * Second.
Proof.
  intros Ht. assert (0 <= t / Second < 2 ^ 52).
  { unfold Second in *. split; [apply Z.div_pos; lia|]. apply Z.div_lt_upper_bound; lia. }
  rewrite BigEndian.Uint64_PutUint64, wrap64_mod. unfold time_UnixSec.
  rewrite wrap64_id by (unfold in_int64, int64_min, int64_max; lia).
  apply time_Unix_small. lia.
Qed.

(** What validation answers, in any environment, to a token generated in another:
    its age is counted from the whole second it was issued in. *)
Lemma validate_generated (e e' : env) {HR : RandLaws e} {HC : ClockLaws e} svc s s1 s2 token :
  run e (GenerateToken svc) s = (Ok token, s1) ->
  (run e' (ValidateToken svc token) s2).1
  = bool_decide (- clockSkew <= time_Sub (env_now e' (st_n s2)) (env_now e (S (st_n s)) / Second * Second) <= csrf_ttl svc).
Proof.
  intros Hgen. pose proof (clock_range (S (st_n s))) as Hc. unfold GenerateToken in Hgen. simpl in Hgen.
  destruct (env_rand e (st_n s) nonceLength) as [nonce|err] eqn:Hr; simpl in Hgen; [|done].
  injection Hgen as <- _. apply rand_law in Hr.
  erewrite ValidateToken_parts;
    [|apply split_token|apply Hex.DecodeString_EncodeToString|done
     |apply Hex.DecodeString_EncodeToString|apply BigEndian.put_length
     |apply Hex.DecodeString_EncodeToString].
  unfold hmac_Equal. rewrite bool_decide_true by done. cbn [negb bind perform run exec_op fst].
  rewrite issued_roundtrip by done.
  case_bool_decide; [apply andb_true_intro|apply andb_false_iff]; rewrite Z.geb_leb, ?Z.leb_gt, ?Z.leb_le; lia.
Qed.

(** C33.  A generated token is accepted exactly while its age, counted from the
    whole second it was issued in, lies between minus the allowed clock skew and
    the configured lifetime. *)
Theorem csrf_roundtrip (e : env) {HR : RandLaws e} {HC : ClockLaws e} svc s s1 s2 token :
  in_int64 (csrf_ttl svc) ->
  env_now e (st_n s2) < 2 ^ 62 ->
  run e (GenerateToken svc) s = (Ok token, s1) ->
  let issued := env_now e (S (st_n s)) / Second * Second in
  (run e (ValidateToken svc token) s2).1
  = bool_decide (- clockSkew <= env_now e (st_n s2) - issued <= csrf_ttl svc).
Proof.
  intros Httl Hnow Hgen. pose proof (clock_range (S (st_n s))) as Hc.
  pose proof (clock_range (st_n s2)) as Hc2. cbv zeta. rewrite (validate_generated e e svc s s1 s2 token Hgen).
  assert (Hi : 0 <= env_now e (S (st_n s)) / Second * Second).
  { apply Z.mul_nonneg_nonneg; [apply Z.div_pos|]; unfold Second in *; lia. }
  revert Hi. generalize (env_now e (S (st_n s)) / Second * Second) as i. intros i Hi. apply bool_decide_ext.
  unfold time_Sub, sat64, in_int64, int64_min, int64_max, clockSkew, Minute, Second in *. lia.
Qed.

(** C18.  Whatever the input, a token that is accepted has three parts, the third
    of which decodes to the HMAC, under the service's secret, of the 32-byte nonce
    and the 8-byte issue time the other two decode to; and that issue time is
    neither too far in the future nor older than the lifetime. *)
Theorem csrf_accepts_only_signed (e : env) svc token s s' :
  run e (ValidateToken svc token) s = (true, s') ->
  exists p0 p1 p2 nonce issuedAt,
    strings_Split token "." = [p0; p1; p2] /\
    Hex.DecodeString p0 = Some nonce /\ length nonce = 32%nat /\
    Hex.DecodeString p1 = Some issuedAt /\ length issuedAt = 8%nat /\
    Hex.DecodeString p2 = Some (sign svc nonce issuedAt) /\
    - clockSkew <= time_Sub (env_now e (st_n s)) (time_Unix (wrap64 (BigEndian.Uint64 issuedAt))) <= csrf_ttl svc.
Proof.
  unfold ValidateToken.
  destruct (strings_Split token ".") as [|p0 [|p1 [|p2 [|? ?]]]] eqn:Hs; try done.
  destruct (Hex.DecodeString p0) as [nonce|] eqn:H0; [|done].
  destruct (Nat.eqb_spec (length nonce) nonceLength) as [Hl0|]; [|done]. simpl.
  destruct (Hex.DecodeString p1) as [issuedAt|] eqn:H1; [|done].
  destruct (Nat.eqb_spec (length issuedAt) 8) as [Hl1|]; [|done]. simpl.
  destruct (Hex.DecodeString p2) as [signature|] eqn:H2; [|done].
  unfold hmac_Equal. case_bool_decide as Hsig; [|done]. simpl. intros [= Hage _].
  apply andb_true_iff in Hage as [Hlo Hhi]. rewrite Z.geb_leb, Z.leb_le in Hlo. apply Z.leb_le in Hhi.
  exists p0, p1, p2, nonce, issuedAt. by rewrite <- Hsig.
Qed.

(** ** Witnesses *)

Definition toy_csrf : csrfService := NewCSRFService "csrf-secret" (12 * Hour).

(** One token, and the state its minting leaves. *)
Definition toy_csrf_run : result string * state :=
  Eval vm_compute in run good_env (GenerateToken toy_csrf) (start empty_tables).

Lemma toy_csrf_run_eq : run good_env (GenerateToken toy_csrf) (start empty_tables) = toy_csrf_run.
Proof. vm_compute. reflexivity. Qed.

Lemma csrf_roundtrip_witness :
  match toy_csrf_run with
  | (Ok token, s1) => (run good_env (ValidateToken toy_csrf token) s1).1 = true
  | _ => False
  end.
Proof.
  pose proof toy_csrf_run_eq as H. unfold toy_csrf_run in *. cbv beta iota.
  match type of H with _ = (Ok ?tok, ?s1) =>
    pose proof (csrf_roundtrip good_env toy_csrf (start empty_tables) s1 s1 tok) as Hrt
  end.
  specialize (Hrt ltac:(vm_compute; split; discriminate) ltac:(vm_compute; reflexivity) H).
  cbv zeta in Hrt. etransitivity; [exact Hrt|]. vm_compute. reflexivity.
Defined.

Lemma csrf_accepts_only_signed_witness :
  match toy_csrf_run with
  | (Ok token, s1) =>
      exists s2, run good_env (ValidateToken toy_csrf token) s1 = (true, s2) /\
        length (strings_Split token ".") = 3%nat
  | _ => False
  end.
Proof.
  unfold toy_csrf_run. eexists.
  match goal with |- ?r = _ /\ _ =>
    assert (H : r = (true, ltac:(let x := eval vm_compute in r.2 in exact x))) by (vm_compute; reflexivity)
  end.
  split; [exact H|].
  destruct (csrf_accepts_only_signed _ _ _ _ _ H) as (p0 & p1 & p2 & _ & _ & Hs & _).
  rewrite Hs. reflexivity.
Defined.
