(* ===== verification/UserService.v ===== *)
(** * internal/service/user: accounts and sessions

    One definition per method of [userService], over the interfaces of
    [Repository] and [Token].  UserSpec.v says what each method does to the tables
    on every branch, Accounts.v what that means for accounts and sessions. *)

From S2P Require Import Prelude GoStd Apperr Model Gorm Effects Repository RepositoryLaws Testbed Token.

Record userService := mkUserService {
  userRepository : UserRepository;
  refreshTokenRepository : RefreshTokenRepository;
  tokenService : TokenService;
  txManager : TxManager;
  refreshTokenTTL : duration
}.

Definition NewUserService := mkUserService.

(** [bcrypt.DefaultCost] *)
Definition DefaultCost : Z := 10.

(** [return apperr.Internal(fmt.Errorf(msg + ": %w", err))] *)
Definition fail_internal {A} (msg : string) (err : error) : prog (result A) :=
  let* wrapped := Errorf msg err in
  let* a := perform OpAlloc in
  Ret (Err (EApp (Internal a wrapped))).

(** [sync.OnceValue]: the hash is computed on the first call and kept. *)
Definition dummyPasswordHash : prog bytes :=
  let* cell := perform OpOnceGet in
  match cell with
  | Some hash => Ret hash
  | None =>
      let* r := perform (OpBcryptGenerate (to_bytes "timing-equalisation-placeholder") DefaultCost) in
      let hash := match r with Ok h => h | Err _ => [] end in
      let* _ := perform (OpOnceSet hash) in
      Ret hash
  end.

Section methods.
Context (u : UUIDLib) (svc : userService).

Definition StoreRefreshToken (ctx : context) (userID : UUID) (tokenStr : string) (expiresAt : time)
  : prog (result unit) :=
  let! _ := ctx_poll onerr err => Ret (Err err) in
  let* id := perform OpUUID in
  let record := mkToken id userID (Hash tokenStr) expiresAt time_zero time_zero in
  let! _ := tr_Create (refreshTokenRepository svc) ctx record
    onerr err => fail_internal "storing refresh token" err in
  Ret (Ok tt).

Definition RevokeRefreshTokens (ctx : context) (userID : UUID) : prog (result unit) :=
  let! _ := ctx_poll onerr err => Ret (Err err) in
  let! _ := tr_DeleteByUserID (refreshTokenRepository svc) ctx userID
    onerr err => fail_internal "revoking refresh tokens" err in
  Ret (Ok tt).

Definition issueTokens (ctx : context) (user : GetUser) : prog (result (string * string)) :=
  let! accessToken := ts_GenerateAccessToken (tokenService svc) (gu_ID user) (gu_Email user) (gu_Name user)
    onerr err => fail_internal "generating access token" err in
  let! refreshToken := ts_GenerateRefreshToken (tokenService svc) (gu_ID user)
    onerr err => fail_internal "generating refresh token" err in
  let* now := perform OpNow in
  let expiresAt := time_Add now (refreshTokenTTL svc) in
  let! _ := StoreRefreshToken ctx (gu_ID user) refreshToken expiresAt onerr err => Ret (Err err) in
  Ret (Ok (accessToken, refreshToken)).

(** Four methods write in a transaction; [<method>_tx] is the function literal that
    runs in it, with the variables it captures. *)
Definition register_tx (userEntity : UserEntity) (user : GetUser) (ctx : context) : prog (result (string * string)) :=
  let! _ := ur_Create (userRepository svc) ctx userEntity
    onerr createErr =>
      if errors_Is createErr ErrDuplicatedKey then Ret (Err (EApp ErrUserAlreadyExists))
      else fail_internal "creating user" createErr in
  issueTokens ctx user.

Definition Register (ctx : context) (req : RegisterUserRequest) : prog (result RegisterResponse) :=
  let! _ := ctx_poll onerr err => Ret (Err err) in
  let! existingUser := ur_FindByEmail (userRepository svc) ctx (rr_Email req)
    onerr err => fail_internal "checking existing user" err in
  match existingUser with
  | Some _ => Ret (Err (EApp ErrUserAlreadyExists))
  | None =>
      let! hashedPassword := perform (OpBcryptGenerate (to_bytes (rr_Password req)) DefaultCost)
        onerr err => fail_internal "hashing password" err in
      let* id := perform OpUUID in
      let userEntity := mkUser id (rr_Email req) hashedPassword (rr_Name req) time_zero time_zero None in
      let user := mkGetUser (u_ID userEntity) (u_Email userEntity) (u_Name userEntity) in
      let! pair := tm_WithinTx (txManager svc) _ ctx (register_tx userEntity user) onerr err => Ret (Err err) in
      Ret (Ok (mkAuth user pair.1 pair.2))
  end.

Definition Login (ctx : context) (req : LoginRequest) : prog (result LoginResponse) :=
  let! _ := ctx_poll onerr err => Ret (Err err) in
  let! user := ur_FindByEmail (userRepository svc) ctx (lr_Email req)
    onerr err => fail_internal "finding user by email" err in
  match user with
  | None =>
      let* hash := dummyPasswordHash in
      let* _ := perform (OpBcryptCompare hash (to_bytes (lr_Password req))) in
      Ret (Err (EApp ErrInvalidCredentials))
  | Some user =>
      let* err := perform (OpBcryptCompare (u_Password user) (to_bytes (lr_Password req))) in
      match err with
      | Some _ => Ret (Err (EApp ErrInvalidCredentials))
      | None =>
          let authenticated := mkGetUser (u_ID user) (u_Email user) (u_Name user) in
          let! pair := issueTokens ctx authenticated onerr err => Ret (Err err) in
          Ret (Ok (mkAuth authenticated pair.1 pair.2))
      end
  end.

(** [log.Warn] and [log.Error] are the request's logger. *)
Definition handleReuse (ctx : context) (userID : UUID) : prog error :=
  let* _ := perform (OpLog Warn
    "refresh token reuse detected, revoking every session for the user"
    [("user_id", uuid_String u userID)]) in
  let* r := RevokeRefreshTokens ctx userID in
  let* _ := match r with
            | Err err => perform (OpLog LError "revoking token family after refresh token reuse"
                           [("user_id", uuid_String u userID); ("error", error_string err)])
            | Ok _ => Ret tt
            end in
  Ret (EApp ErrRefreshTokenRevoked).

Definition rotate_tx (tokenHash : string) (user : GetUser) (ctx : context) : prog (result (string * string)) :=
  let! _ := tr_DeleteByTokenHash (refreshTokenRepository svc) ctx tokenHash
    onerr delErr => fail_internal "rotating refresh token" delErr in
  issueTokens ctx user.

Definition Refresh (ctx : context) (refreshToken : string) : prog (result RefreshResponse) :=
  let! _ := ctx_poll onerr err => Ret (Err err) in
  let! claims := ts_ValidateRefreshToken (tokenService svc) refreshToken
    onerr err =>
      let* a := perform OpAlloc in Ret (Err (EApp (WithCause a ErrInvalidRefreshToken err))) in
  let tokenHash := Hash refreshToken in
  let! stored := tr_FindByTokenHash (refreshTokenRepository svc) ctx tokenHash
    onerr err => fail_internal "verifying refresh token" err in
  match stored with
  | None => let* err := handleReuse ctx (tc_UserID claims) in Ret (Err err)
  | Some stored =>
      let* now := perform OpNow in
      if time_Before (rt_ExpiresAt stored) now then
        let* r := tr_DeleteByTokenHash (refreshTokenRepository svc) ctx tokenHash in
        let* _ := match r with
                  | Err delErr => perform (OpLog Warn "removing expired refresh token"
                      [("user_id", uuid_String u (rt_UserID stored)); ("error", error_string delErr)])
                  | Ok _ => Ret tt
                  end in
        Ret (Err (EApp ErrRefreshTokenExpired))
      else
        let user := mkGetUser (tc_UserID claims) (tc_Email claims) (tc_Name claims) in
        let! pair := tm_WithinTx (txManager svc) _ ctx (rotate_tx tokenHash user) onerr err => Ret (Err err) in
        Ret (Ok (mkPair pair.1 pair.2))
  end.

(** [GetUser] of the service; the response type has the same name. *)
Definition GetUserByID (ctx : context) (userID : string) : prog (result GetUser) :=
  let! _ := ctx_poll onerr err => Ret (Err err) in
  let! id := Ret (uuid_Parse u userID)
    onerr err => let* a := perform OpAlloc in Ret (Err (EApp (WithCause a ErrInvalidUserID err))) in
  let! user := ur_FindByID (userRepository svc) ctx id
    onerr err => fail_internal "finding user by id" err in
  match user with
  | None => Ret (Err (EApp ErrUserNotFound))
  | Some user => Ret (Ok (mkGetUser (u_ID user) (u_Email user) (u_Name user)))
  end.

Definition ListSessions (ctx : context) (userID : UUID) (currentRefreshToken : string) (page : Pagination)
  : prog (result SessionList) :=
  let! _ := ctx_poll onerr err => Ret (Err err) in
  let window := Normalized page in
  let* now := perform OpNow in
  let! total := tr_CountActiveByUserID (refreshTokenRepository svc) ctx userID now
    onerr err => fail_internal "counting active sessions" err in
  let! rows := tr_ListActiveByUserID (refreshTokenRepository svc) ctx userID now (Limit window) (Offset window)
    onerr err => fail_internal "listing active sessions" err in
  let currentHash := if String.eqb currentRefreshToken "" then "" else Hash currentRefreshToken in
  let sessions := (fun row =>
      mkSession (rt_ID row)
        (negb (String.eqb currentHash "") && String.eqb (rt_TokenHash row) currentHash)
        (rt_CreatedAt row) (rt_ExpiresAt row)) <$> rows in
  Ret (Ok (mkSessionList sessions (NewMeta (Page window) (Limit window) total))).

Definition change_password_tx (userID : UUID) (hashed : bytes) (user : GetUser) (ctx : context)
  : prog (result (string * string)) :=
  let! _ := ur_Update (userRepository svc) ctx userID (mkUser 0 "" hashed "" time_zero time_zero None)
    onerr updateErr => fail_internal "updating password" updateErr in
  let! _ := RevokeRefreshTokens ctx userID onerr revokeErr => Ret (Err revokeErr) in
  issueTokens ctx user.

Definition ChangePassword (ctx : context) (userID : UUID) (req : ChangePasswordRequest)
  : prog (result ChangePasswordResponse) :=
  let! _ := ctx_poll onerr err => Ret (Err err) in
  let! user := ur_FindByID (userRepository svc) ctx userID
    onerr err => fail_internal "finding user by id" err in
  match user with
  | None => Ret (Err (EApp ErrInvalidCredentials))
  | Some user =>
      let* cmp := perform (OpBcryptCompare (u_Password user) (to_bytes (cp_CurrentPassword req))) in
      match cmp with
      | Some _ => Ret (Err (EApp ErrInvalidCredentials))
      | None =>
          let! hashed := perform (OpBcryptGenerate (to_bytes (cp_NewPassword req)) DefaultCost)
            onerr err => fail_internal "hashing new password" err in
          let user := mkGetUser (u_ID user) (u_Email user) (u_Name user) in
          let! pair := tm_WithinTx (txManager svc) _ ctx (change_password_tx userID hashed user)
            onerr err => Ret (Err err) in
          Ret (Ok (mkPair pair.1 pair.2))
      end
  end.

Definition delete_account_tx (userID : UUID) (ctx : context) : prog (result unit) :=
  let! _ := RevokeRefreshTokens ctx userID onerr revokeErr => Ret (Err revokeErr) in
  let! _ := ur_Delete (userRepository svc) ctx userID
    onerr delErr => fail_internal "deleting user" delErr in
  Ret (Ok tt).

Definition DeleteAccount (ctx : context) (userID : UUID) : prog (result unit) :=
  let! _ := ctx_poll onerr err => Ret (Err err) in
  let! user := ur_FindByID (userRepository svc) ctx userID
    onerr err => fail_internal "finding user by id" err in
  match user with
  | None => Ret (Err (EApp ErrUserNotFound))
  | Some _ =>
      tm_WithinTx (txManager svc) _ ctx (delete_account_tx userID)
  end.

Definition PurgeExpiredRefreshTokens (ctx : context) : prog (result Z) :=
  let! _ := ctx_poll onerr err => Ret (Err err) in
  let* now := perform OpNow in
  let! removed := tr_DeleteExpired (refreshTokenRepository svc) ctx now
    onerr err => fail_internal "purging expired refresh tokens" err in
  Ret (Ok removed).
End methods.
