(* ===== verification/UserSpec.v ===== *)
(** * What the methods of the user service do to the tables

    The building blocks (issue, store, revoke) as weakest preconditions through
    any context, then one theorem per method called with a context that is not
    yet in a transaction. *)

From S2P Require Import Prelude GoStd Apperr Model Gorm Effects Repository RepositoryLaws Testbed Token UserService.

(** ** Vocabulary *)

(** [m'] is [m] plus one session of [uid], of which only the digest of [tok] is
    kept. *)
Definition new_session (uid : UUID) (tok : string) (expires : time)
    (m m' : gmap UUID RefreshTokenEntity) : Prop :=
  exists row, rt_UserID row = uid /\ rt_TokenHash row = Hash tok /\ rt_ExpiresAt row = expires /\
    ~ collides TTokens row m /\ m' = <[rt_ID row := row]> m.

(** The token pair is one for this user, and [m'] is [m] plus its session, which
    expires a refresh-token lifetime after some reading of the clock. *)
Definition issued (e : env) (svc : userService) {HT : TokenServiceLaws e (tokenService svc)}
    (user : GetUser) (pair : string * string) (m m' : gmap UUID RefreshTokenEntity) : Prop :=
  access_for pair.1 (gu_ID user) (gu_Email user) (gu_Name user) /\
  refresh_for pair.2 (gu_ID user) /\
  exists n, new_session (gu_ID user) pair.2 (env_now e n + refreshTokenTTL svc) m m'.

(** An error that reports a fault of the service, or a request that was given up. *)
Definition fault (err : error) : Prop :=
  (exists a cause, err = EApp (Internal a cause)) \/ (exists c, err = ECtx c).

#[export] Instance seen_proper ctx : Proper ((≡) ==> (=)) (seen ctx).
Proof. intros s s' Hs. unfold seen. by rewrite Hs. Qed.

#[export] Instance wrote_proper {R} ctx (t : table R) m : Proper ((≡) ==> (≡) ==> iff) (wrote ctx t m).
Proof.
  intros s1 s2 Hs t1 t2 Ht. unfold wrote. rewrite (seen_proper ctx _ _ Hs). by rewrite Hs, Ht.
Qed.

Lemma writes_from {A R} ctx (t : table R) s1 s P (r : result A) s' :
  s1 ≡ s -> writes ctx t s1 P r s' -> writes ctx t s P r s'.
Proof.
  intros Hs. destruct r; simpl; [|by rewrite Hs].
  intros (m & Hm & Hw). exists m. split; [done|]. by rewrite <- Hs.
Qed.

(** A call outside every transaction works on the committed tables. *)
Lemma seen_committed ctx s : ctx_value ctx = None -> seen ctx s = st_db s.
Proof. intros Hc. unfold seen, Dbtx.Conn, Dbtx.From_. by rewrite Hc. Qed.

Lemma wrote_committed {R} ctx (t : table R) m s s' :
  ctx_value ctx = None -> wrote ctx t m s s' -> s' ≡ with_db (set_rows t m (st_db s)) s.
Proof. intros Hc. unfold wrote, seen, Dbtx.Conn, Dbtx.From_. by rewrite Hc. Qed.

(** A call inside the transaction works on the transaction's tables. *)
Lemma seen_in_tx ctx s : conn_of ctx = InTx -> seen ctx s = st_work s.
Proof. intros Hc. unfold seen. by rewrite Hc. Qed.

Lemma wrote_in_tx {R} ctx (t : table R) m s s' :
  conn_of ctx = InTx -> wrote ctx t m s s' -> s' ≡ with_work (set_rows t m (st_work s)) s.
Proof. intros Hc. unfold wrote, seen. by rewrite Hc. Qed.

(** ** Building blocks *)

Lemma wp_poll {A} e (k : prog (result A)) Q s :
  (forall c s', s' ≡ s -> Q (Err (ECtx c)) s') ->
  (forall s', s' ≡ s -> wp e k Q s') ->
  wp e (let! _ := ctx_poll onerr err => Ret (Err err) in k) Q s.
Proof.
  intros Herr Hk. wp_call wp_ctx_poll. intros [[]|err] s1 [Hs1 Hc]; [by apply Hk|].
  destruct (Hc err eq_refl) as [c ->]. apply wp_ret. by apply Herr.
Qed.

Lemma wp_fail_internal {A} e msg err (Q : result A -> state -> Prop) s :
  (forall err' s', s' ≡ s -> fault err' -> Q (Err err') s') -> wp e (fail_internal msg err) Q s.
Proof.
  intros HQ. wp_call wp_Errorf. intros w s1 [Hs1 _]. wp_quiet. intros a s2 Hs2.
  apply wp_ret, HQ; [by rewrite Hs2|]. left. by exists a, w.
Qed.

Lemma fault_ctx c : fault (ECtx c).
Proof. right. by exists c. Qed.

#[export] Hint Resolve fault_ctx : go.

Section laws.
Context (e : env) (u : UUIDLib) (svc : userService).
Context `{HU : !UserRepositoryLaws e (userRepository svc)}
        `{HR : !RefreshTokenRepositoryLaws e (refreshTokenRepository svc)}
        `{HT : !TokenServiceLaws e (tokenService svc)}
        `{HM : !TxManagerLaws e (txManager svc)}.

Lemma wp_StoreRefreshToken ctx uid tok expires s :
  wp e (StoreRefreshToken svc ctx uid tok expires)
     (writes ctx TTokens s (fun _ => new_session uid tok expires (t_tokens (seen ctx s)))) s.
Proof using HR.
  apply wp_poll; [by intros|]. intros s1 Hs1. wp_quiet. intros id s2 Hs2.
  wp_call (tr_Create_law (e := e)). rewrite Hs1 in Hs2. intros [[]|err] s3 H3.
  - apply wp_ret. eapply writes_from in H3; [|exact Hs2].
    destruct H3 as (m & (Hc & now & ->) & Hw). rewrite Hs2 in *.
    eexists. split; [|exact Hw].
    exists (stamp_create TTokens now (mkToken id uid (Hash tok) expires time_zero time_zero)). by repeat split.
  - apply wp_fail_internal. intros err' s4 Hs4 _. simpl in *. by rewrite Hs4, H3.
Qed.

Lemma wp_RevokeRefreshTokens ctx uid s :
  wp e (RevokeRefreshTokens svc ctx uid)
     (writes ctx TTokens s (fun _ m => m = revoked (token_of_user uid) (t_tokens (seen ctx s)))) s.
Proof using HR.
  apply wp_poll; [by intros|]. intros s1 Hs1. wp_call (tr_DeleteByUserID_law (e := e)).
  intros [[]|err] s2 H2.
  - apply wp_ret. eapply writes_from in H2; [|exact Hs1]. destruct H2 as (m & -> & Hw).
    eexists. split; [|exact Hw]. by rewrite (seen_proper ctx _ _ Hs1).
  - apply wp_fail_internal. intros err' s3 Hs3 _. simpl in *. by rewrite Hs3, H2.
Qed.

Lemma wp_issueTokens ctx user s :
  wp e (issueTokens svc ctx user)
     (writes ctx TTokens s (fun pair => issued e svc user pair (t_tokens (seen ctx s)))) s.
Proof using HR.
  wp_call (ts_GenerateAccessToken_law (e := e)). intros [acc|err] s1 [Hs1 Hacc];
    [|apply wp_fail_internal; intros ? s' Hs' _; simpl; by rewrite Hs'].
  wp_call (ts_GenerateRefreshToken_law (e := e)). intros [ref|err] s2 [Hs2 Href];
    [|apply wp_fail_internal; intros ? s' Hs' _; simpl; by rewrite Hs', Hs2].
  rewrite Hs1 in Hs2. apply wp_bind, wp_perform. cbn [exec_op fst snd].
  assert (Hs3 : tick s2 ≡ s) by exact Hs2.
  wp_call wp_StoreRefreshToken. intros [[]|err] s4 H4; apply wp_ret;
    (eapply writes_from in H4; [|exact Hs3]); [|done].
  destruct H4 as (m & Hn & Hw). rewrite Hs3 in Hn. exists m. split; [|done].
  split; [done|]. split; [done|]. by exists (st_n s2).
Qed.
End laws.

(** ** Outcomes *)

(** A method that changes the tables only if it succeeds: [P] relates its answer
    to the tables it leaves, and an error leaves them as they were. *)
Definition commits {X} (db : Tables) (P : X -> Tables -> Prop) (r : result X) (db' : Tables) : Prop :=
  match r with Ok x => P x db' | Err _ => db' = db end.

(** Nothing committed and nothing logged between two states. *)
Definition quiet (s s' : state) : Prop := st_db s' = st_db s /\ st_trace s' = st_trace s.

Lemma quiet_equiv s s' : s' ≡ s -> quiet s s'.
Proof. intros Hs. split; by rewrite Hs. Qed.

#[export] Instance quiet_trans : Transitive quiet.
Proof. intros s1 s2 s3 [H1 H2] [H3 H4]. split; congruence. Qed.

#[export] Hint Resolve quiet_equiv : go.

(** The same of a body that runs inside a transaction, where a failure is left
    to the transaction to undo. *)
Definition works {X} (s1 : state) (P : X -> Tables -> Prop) (r : result X) (s2 : state) : Prop :=
  quiet s1 s2 /\ match r with Ok x => P x (st_work s2) | Err _ => True end.

Lemma wp_outermost {X} e tm `{!TxManagerLaws e tm} ctx (fn : context -> prog (result X)) P s :
  ctx_value ctx = None ->
  (forall ctx' s1, conn_of ctx' = InTx -> seen ctx' s1 = st_db s -> st_work s1 = st_db s -> st_db s1 = st_db s ->
     wp e (fn ctx') (works s1 P) s1) ->
  wp e (tm_WithinTx tm X ctx fn)
     (fun r s' => commits (st_db s) P r (st_db s') /\ st_trace s' = st_trace s) s.
Proof.
  intros Hc Hfn. apply tm_outermost_law; [done|by intros err s' ->|].
  intros ctx' s1 Hc' Hs1. eapply wp_mono; [apply Hfn; [done|by rewrite ?(seen_in_tx ctx') by done; rewrite Hs1..]|].
  intros r s2 [[Hdb Htr] HP].
  rewrite (st_db_proper _ _ Hs1) in Hdb. rewrite (st_trace_proper _ _ Hs1) in Htr. split.
  - intros err s' Hs'. simpl. rewrite (st_db_proper _ _ Hs'), (st_trace_proper _ _ Hs'). by split.
  - intros x s' -> Hs'. simpl. rewrite (st_db_proper _ _ Hs'), (st_trace_proper _ _ Hs'). by split.
Qed.

(** A write inside the transaction, as a step of its body. *)
Lemma writes_work {A R} ctx (t : table R) s P (r : result A) s' :
  conn_of ctx = InTx -> writes ctx t s P r s' ->
  quiet s s' /\
  match r with
  | Ok x => exists m, P x m /\ st_work s' = set_rows t m (st_work s)
  | Err _ => True
  end.
Proof.
  intros Hc. destruct r; simpl.
  - intros (m & Hm & Hw). apply wrote_in_tx in Hw; [|done]. split.
    + split; [by rewrite (st_db_proper _ _ Hw)|by rewrite (st_trace_proper _ _ Hw)].
    + exists m. by rewrite (st_work_proper _ _ Hw).
  - auto with go.
Qed.

Lemma writes_commits {A R} ctx (t : table R) s P (r : result A) s' :
  ctx_value ctx = None -> writes ctx t s P r s' ->
  commits (st_db s) (fun x db' => exists m, P x m /\ db' = set_rows t m (st_db s)) r (st_db s').
Proof.
  intros Hc. destruct r; simpl.
  - intros (m & Hm & Hw). apply wrote_committed in Hw; [|done]. exists m. by rewrite (st_db_proper _ _ Hw).
  - intros Hs. by rewrite Hs.
Qed.

Lemma works_fail {X} e msg err s1 s (P : X -> Tables -> Prop) :
  quiet s1 s -> wp e (fail_internal msg err) (works s1 P) s.
Proof.
  intros Hs. apply wp_fail_internal. intros err' s' Hs' _. split; [|done].
  etransitivity; eauto with go.
Qed.

Lemma wp_dummyPasswordHash e s :
  wp e dummyPasswordHash (fun _ s' => st_db s' = st_db s /\ (st_once s <> None -> s' ≡ s)) s.
Proof. unfold wp, dummyPasswordHash. simpl. by destruct (st_once s). Qed.

(** A hash whose comparison costs what the comparison with a stored password costs. *)
Definition at_default_cost (e : env) (h : bytes) : Prop := exists n pw, env_bcrypt_generate e n pw DefaultCost = Ok h.

Definition placeholder : bytes := to_bytes "timing-equalisation-placeholder".

(** The cell of [dummyPasswordHash] is empty or holds such a hash. *)
Definition placeholder_ok (e : env) (s : state) : Prop := forall h, st_once s = Some h -> at_default_cost e h.

Lemma placeholder_ok_equiv e s s' : s' ≡ s -> placeholder_ok e s -> placeholder_ok e s'.
Proof. intros Hs Hok h. rewrite (st_once_proper _ _ Hs). apply Hok. Qed.

(** The hash to compare with is the one in the cell, generated first if the cell was
    empty. *)
Lemma wp_placeholder e s :
  placeholder_ok e s -> (forall n, is_ok (env_bcrypt_generate e n placeholder DefaultCost) = true) ->
  wp e dummyPasswordHash (fun h s' => st_db s' = st_db s /\ st_once s' = Some h /\ at_default_cost e h /\
    exists made, st_trace s' = st_trace s ++ made /\
      match st_once s with Some h0 => h = h0 /\ made = [] | None => made = [EvBcryptGenerate DefaultCost] end) s.
Proof.
  intros Hok Haccept. unfold wp, dummyPasswordHash. change (to_bytes "timing-equalisation-placeholder") with placeholder.
  simpl. destruct (st_once s) as [h|] eqn:Ho; simpl.
  - split; [done|]. split; [done|]. split; [by apply Hok|]. exists []. by rewrite app_nil_r.
  - specialize (Haccept (S (st_n s))). destruct (env_bcrypt_generate e (S (st_n s)) placeholder DefaultCost) as [h|err] eqn:Hg; [|done].
    simpl. split; [done|]. split; [done|]. split; [exists (S (st_n s)), placeholder; exact Hg|]. by exists [EvBcryptGenerate DefaultCost].
Qed.

(** A refusal, and what it cost: one comparison of the password that was sent, with the
    stored hash or with the placeholder, both at the default cost; the placeholder is
    generated first where there was none. *)
Definition refused_after_work (e : env) (req : LoginRequest) (s s' : state) (err : error) : Prop :=
  err = EApp ErrInvalidCredentials /\
  exists h made, at_default_cost e h /\
    st_trace s' = st_trace s ++ made ++ [EvBcryptCompare h (to_bytes (lr_Password req))] /\
    (((exists row, selected TUsers (user_has_email (lr_Email req)) (st_db s) row /\ h = u_Password row) /\ made = []) \/
     ((forall row, ~ selected TUsers (user_has_email (lr_Email req)) (st_db s) row) /\
      match st_once s with Some h0 => h = h0 /\ made = [] | None => made = [EvBcryptGenerate DefaultCost] end)).

(** [hashed] is a bcrypt hash of [password] at the default cost, and verifies it. *)
Definition hash_of (e : env) (hashed : bytes) (password : string) : Prop :=
  (exists n, env_bcrypt_generate e n (to_bytes password) DefaultCost = Ok hashed) /\
  env_bcrypt_compare e hashed (to_bytes password) = None.

(** What a successful registration leaves. *)
Definition registered (e : env) (svc : userService) {HT : TokenServiceLaws e (tokenService svc)}
    (req : RegisterUserRequest) (db : Tables) (resp : RegisterResponse) (db' : Tables) : Prop :=
  exists row,
    u_Email row = rr_Email req /\ u_Name row = rr_Name req /\ u_DeletedAt row = None /\
    hash_of e (u_Password row) (rr_Password req) /\
    ar_User resp = mkGetUser (u_ID row) (u_Email row) (u_Name row) /\
    ~ collides TUsers row (t_users db) /\
    t_users db' = <[u_ID row := row]> (t_users db) /\
    issued e svc (ar_User resp) (ar_AccessToken resp, ar_RefreshToken resp) (t_tokens db) (t_tokens db') /\
    t_counters db' = t_counters db /\ t_messages db' = t_messages db.

(** What a successful login leaves. *)
Definition logged_in (e : env) (svc : userService) {HT : TokenServiceLaws e (tokenService svc)}
    (req : LoginRequest) (db : Tables) (resp : LoginResponse) (db' : Tables) : Prop :=
  exists row m,
    selected TUsers (user_has_email (lr_Email req)) db row /\
    env_bcrypt_compare e (u_Password row) (to_bytes (lr_Password req)) = None /\
    ar_User resp = mkGetUser (u_ID row) (u_Email row) (u_Name row) /\
    issued e svc (ar_User resp) (ar_AccessToken resp, ar_RefreshToken resp) (t_tokens db) m /\
    db' = set_rows TTokens m db.

(** The user rows after a password change. *)
Definition with_password (uid : UUID) (hashed : bytes) (now : time) (m : gmap UUID UserEntity)
  : gmap UUID UserEntity :=
  (fun x => if visible TUsers x && user_has_id uid x
            then mkUser (u_ID x) (u_Email x) hashed (u_Name x) (u_CreatedAt x) now (u_DeletedAt x)
            else x) <$> m.

Definition password_changed (e : env) (svc : userService) {HT : TokenServiceLaws e (tokenService svc)}
    (uid : UUID) (req : ChangePasswordRequest) (db : Tables) (pair : ChangePasswordResponse) (db' : Tables)
  : Prop :=
  exists row hashed now,
    selected TUsers (user_has_id uid) db row /\
    env_bcrypt_compare e (u_Password row) (to_bytes (cp_CurrentPassword req)) = None /\
    hash_of e hashed (cp_NewPassword req) /\
    t_users db' = with_password uid hashed now (t_users db) /\
    issued e svc (mkGetUser uid (u_Email row) (u_Name row)) (tp_AccessToken pair, tp_RefreshToken pair)
      (revoked (token_of_user uid) (t_tokens db)) (t_tokens db') /\
    t_counters db' = t_counters db /\ t_messages db' = t_messages db.

Lemma update_password uid hashed now m :
  hashed <> [] ->
  update_rows TUsers (user_has_id uid) now (mkUser 0 "" hashed "" time_zero time_zero None) m
  = with_password uid hashed now m.
Proof.
  intros Hh. unfold update_rows, with_password. apply map_fmap_ext. intros k x _. case_match; [|done].
  unfold merge_row. simpl. destruct hashed; [done|]. done.
Qed.

Lemma selected_id uid db row : selected TUsers (user_has_id uid) db row -> u_ID row = uid.
Proof. intros (_ & _ & _ & H%N.eqb_eq). exact H. Qed.

(** The answers of [Refresh] to a token whose claims name [user], with the tables
    each leaves and what it logs. *)
Definition reuse_warning (u : UUIDLib) (uid : UUID) : event :=
  EvLog Warn "refresh token reuse detected, revoking every session for the user"
    [("user_id", uuid_String u uid)].

Section refresh.
Context (e : env) (u : UUIDLib) (svc : userService) {HT : TokenServiceLaws e (tokenService svc)}.
Context (user : GetUser) (tok : string) (db : Tables).

Inductive refresh_outcome : result RefreshResponse -> Tables -> list event -> Prop :=
  | RefreshGivenUp err :
      fault err \/ (exists a cause, err = EApp (WithCause a ErrInvalidRefreshToken cause)) ->
      refresh_outcome (Err err) db []
  | RefreshReused :
      (forall row, ~ selected TTokens (token_has_hash (Hash tok)) db row) ->
      refresh_outcome (Err (EApp ErrRefreshTokenRevoked))
        (set_rows TTokens (revoked (token_of_user (gu_ID user)) (t_tokens db)) db) [reuse_warning u (gu_ID user)]
  | RefreshReusedKept err :
      (forall row, ~ selected TTokens (token_has_hash (Hash tok)) db row) ->
      refresh_outcome (Err (EApp ErrRefreshTokenRevoked)) db
        [reuse_warning u (gu_ID user);
         EvLog LError "revoking token family after refresh token reuse"
           [("user_id", uuid_String u (gu_ID user)); ("error", error_string err)]]
  | RefreshExpired row n :
      selected TTokens (token_has_hash (Hash tok)) db row -> rt_ExpiresAt row < env_now e n ->
      refresh_outcome (Err (EApp ErrRefreshTokenExpired))
        (set_rows TTokens (revoked (token_has_hash (Hash tok)) (t_tokens db)) db) []
  | RefreshExpiredKept row n err :
      selected TTokens (token_has_hash (Hash tok)) db row -> rt_ExpiresAt row < env_now e n ->
      refresh_outcome (Err (EApp ErrRefreshTokenExpired)) db
        [EvLog Warn "removing expired refresh token"
           [("user_id", uuid_String u (rt_UserID row)); ("error", error_string err)]]
  | RefreshRotated row n pair m :
      selected TTokens (token_has_hash (Hash tok)) db row -> env_now e n <= rt_ExpiresAt row ->
      issued e svc user (tp_AccessToken pair, tp_RefreshToken pair)
        (revoked (token_has_hash (Hash tok)) (t_tokens db)) m ->
      refresh_outcome (Ok pair) (set_rows TTokens m db) []
  | RefreshNotRotated row n err :
      selected TTokens (token_has_hash (Hash tok)) db row -> env_now e n <= rt_ExpiresAt row ->
      refresh_outcome (Err err) db [].

Lemma refresh_outcome_ok pair db' tr :
  refresh_outcome (Ok pair) db' tr ->
  exists row n m,
    selected TTokens (token_has_hash (Hash tok)) db row /\ env_now e n <= rt_ExpiresAt row /\
    issued e svc user (tp_AccessToken pair, tp_RefreshToken pair)
      (revoked (token_has_hash (Hash tok)) (t_tokens db)) m /\
    db' = set_rows TTokens m db.
Proof. inversion 1; subst. eauto 10. Qed.

Lemma refresh_outcome_unknown r db' tr :
  (forall row, ~ selected TTokens (token_has_hash (Hash tok)) db row) ->
  refresh_outcome r db' tr ->
  exists err, r = Err err /\
    ((db' = db /\ (fault err \/ exists a cause, err = EApp (WithCause a ErrInvalidRefreshToken cause))) \/
     (err = EApp ErrRefreshTokenRevoked /\
      (db' = set_rows TTokens (revoked (token_of_user (gu_ID user)) (t_tokens db)) db \/
       exists msg attrs, EvLog LError msg attrs ∈ tr))).
Proof.
  intros Hnone Ho. inversion Ho; subst; try (exfalso; by eapply Hnone); eexists; (split; [done|]).
  - by left.
  - right. auto.
  - right. split; [done|]. right. do 2 eexists. right. left.
Qed.
End refresh.

Section methods.
Context (e : env) (u : UUIDLib) (svc : userService).
Context `{HU : !UserRepositoryLaws e (userRepository svc)}
        `{HR : !RefreshTokenRepositoryLaws e (refreshTokenRepository svc)}
        `{HT : !TokenServiceLaws e (tokenService svc)}
        `{HM : !TxManagerLaws e (txManager svc)}
        `{HB : !BcryptLaws e}.
Context (ctx : context) (Hctx : ctx_value ctx = None).

(** The last step of a transaction body: the tokens of [user]. *)
Lemma works_issue s1 s ctx' user P :
  conn_of ctx' = InTx -> quiet s1 s ->
  (forall pair m, issued e svc user pair (t_tokens (st_work s)) m -> P pair (set_rows TTokens m (st_work s))) ->
  wp e (issueTokens svc ctx' user) (works s1 P) s.
Proof using HR.
  intros Hc Hs HP. eapply wp_mono; [apply (wp_issueTokens e svc ctx' user)|]. intros r s' Hw.
  apply writes_work in Hw as [Hdb Hr]; [|done]. split; [by etransitivity|].
  destruct r as [pair|]; [|done]. destruct Hr as (m & Hm & ->). apply HP.
  by rewrite <- (seen_in_tx ctx').
Qed.

(** The transactions of the methods: what they do to the tables [db] they start on.
    [in_tx fn P db]: so does [fn], run in any transaction that starts on [db]. *)
Definition in_tx {X} (fn : context -> prog (result X)) (P : X -> Tables -> Prop) (db : Tables) : Prop :=
  forall ctx' s, conn_of ctx' = InTx -> seen ctx' s = db -> st_work s = db -> st_db s = db ->
    wp e (fn ctx') (works s P) s.

Lemma in_tx_commits {X} (fn : context -> prog (result X)) P s :
  in_tx fn P (st_db s) ->
  wp e (tm_WithinTx (txManager svc) X ctx fn)
     (fun r s' => commits (st_db s) P r (st_db s') /\ st_trace s' = st_trace s) s.
Proof using HM Hctx. intros Hfn. by apply wp_outermost. Qed.

Lemma in_tx_register req hashed id db :
  hash_of e hashed (rr_Password req) ->
  let user := mkUser id (rr_Email req) hashed (rr_Name req) time_zero time_zero None in
  let gu := mkGetUser id (rr_Email req) (rr_Name req) in
  in_tx (register_tx svc user gu) (fun pair => registered e svc req db (mkAuth gu pair.1 pair.2)) db.
Proof using HU HR.
  intros Hcmp user gu ctx' s Hc' Hseen Hw Hd. wp_call (ur_Create_law (e := e)). intros [id'|err] s5 [H5 _].
  - apply writes_work in H5 as [Hd5 (m & (-> & Hcol & now & ->) & Hw5)]; [|done].
    apply works_issue; [done|done|]. intros [acc ref] m Hm. rewrite Hw5, Hw, Hseen in *.
    exists (stamp_create TUsers now user). by conj.
  - case_match; [apply wp_ret; split; [auto with go|done]|]. apply works_fail. auto with go.
Qed.

Lemma in_tx_rotate tokenHash user db :
  in_tx (rotate_tx svc tokenHash user) (fun pair db' => exists m,
    issued e svc user pair (revoked (token_has_hash tokenHash) (t_tokens db)) m /\ db' = set_rows TTokens m db) db.
Proof using HR.
  intros ctx' s Hc' Hseen Hw Hd. wp_call (tr_DeleteByTokenHash_law (e := e)). intros r s5 H5.
  apply writes_work in H5 as [Hd5 H5]; [|done]. destruct r as [[]|err]; [|by apply works_fail].
  destruct H5 as (m & -> & Hw5). rewrite Hseen, Hw in Hw5. apply works_issue; [done|done|].
  intros pair m Hm. rewrite Hw5 in *. by exists m.
Qed.

(** What changing a password to one with the hash [hashed] does to the tables. *)
Definition password_replaced uid hashed user (db : Tables) (pair : string * string) (db' : Tables) : Prop :=
  exists now, t_users db' = with_password uid hashed now (t_users db) /\
    issued e svc user pair (revoked (token_of_user uid) (t_tokens db)) (t_tokens db') /\
    t_counters db' = t_counters db /\ t_messages db' = t_messages db.

Lemma in_tx_change_password uid hashed user db :
  hashed <> [] -> in_tx (change_password_tx svc uid hashed user) (password_replaced uid hashed user db) db.
Proof using HU HR.
  intros Hne ctx' s Hc' Hseen Hw Hd. wp_call (ur_Update_law (e := e)). intros r s5 H5.
  apply writes_work in H5 as [Hd5 H5]; [|done]. destruct r as [[]|err]; [|by apply works_fail].
  destruct H5 as (m & (_ & now & ->) & Hw5). rewrite Hseen, Hw, update_password in Hw5 by done.
  wp_call (wp_RevokeRefreshTokens e svc). intros r s6 H6. apply writes_work in H6 as [Hd6 H6]; [|done].
  destruct r as [[]|err]; [|by apply wp_ret; split; [etransitivity|]].
  destruct H6 as (m & -> & Hw6). rewrite (seen_in_tx ctx'), Hw5 in Hw6 by done.
  apply works_issue; [done|by etransitivity|]. intros pair m Hm. rewrite Hw6 in *. exists now. by conj.
Qed.

Definition account_deleted uid (db db' : Tables) : Prop :=
  exists now, db' = mkTables (delete_rows TUsers (user_has_id uid) now (t_users db))
                      (revoked (token_of_user uid) (t_tokens db)) (t_counters db) (t_messages db).

Lemma in_tx_delete_account uid db :
  in_tx (delete_account_tx svc uid) (fun _ => account_deleted uid db) db.
Proof using HU HR.
  intros ctx' s Hc' Hseen Hw Hd. wp_call (wp_RevokeRefreshTokens e svc). intros r s5 H5.
  apply writes_work in H5 as [Hd5 H5]; [|done]. destruct r as [[]|err]; [|by apply wp_ret].
  destruct H5 as (m & -> & Hw5). rewrite Hseen, Hw in Hw5.
  wp_call (ur_Delete_law (e := e)). intros r s6 H6. apply writes_work in H6 as [Hd6 H6]; [|done].
  destruct r as [[]|err]; [|apply works_fail; by etransitivity].
  apply wp_ret. split; [by etransitivity|]. destruct H6 as (m & (now & ->) & ->).
  rewrite (seen_in_tx ctx'), Hw5 by done. by exists now.
Qed.

Lemma wp_Register req s :
  wp e (Register svc ctx req)
     (fun r s' => commits (st_db s) (registered e svc req (st_db s)) r (st_db s')) s.
Proof using HU HR HT HM HB Hctx.
  apply wp_poll; [by intros c s' ->|]. intros s1 Hs1.
  wp_call (ur_FindByEmail_law (e := e)). intros [[row|]|err] s2 [Hs2 _]; rewrite Hs1 in Hs2;
    [by apply wp_ret; rewrite Hs2| |by apply wp_fail_internal; intros ? s' -> _; rewrite Hs2].
  apply wp_bind, wp_perform. cbn [exec_op fst snd].
  destruct (env_bcrypt_generate e _ _ _) as [hashed|err] eqn:Hgen;
    [|by apply wp_fail_internal; intros ? s' -> _; simpl; rewrite Hs2].
  assert (Hcmp : hash_of e hashed (rr_Password req))
    by (split; [by eexists|by eapply bcrypt_law]).
  clear Hgen. wp_quiet. intros id s3 Hs3.
  assert (Hdb3 : st_db s3 = st_db s) by (rewrite (st_db_proper _ _ Hs3); simpl; by rewrite Hs2).
  clear Hs3 Hs2 Hs1. rewrite <- Hdb3.
  wp_call (in_tx_commits _ _ s3 (in_tx_register req hashed id _ Hcmp)).
  by intros [[acc ref]|err] s4 [H4 _]; apply wp_ret.
Qed.

Lemma wp_Login req s :
  wp e (Login svc ctx req)
     (fun r s' => commits (st_db s) (logged_in e svc req (st_db s)) r (st_db s')) s.
Proof using HU HR HT HM HB Hctx.
  apply wp_poll; [by intros c s' ->|]. intros s1 Hs1.
  wp_call (ur_FindByEmail_law (e := e)). intros [[row|]|err] s2 [Hs2 Hrow];
    rewrite ?(seen_committed ctx) in Hrow by done; rewrite Hs1 in *;
    [| |by apply wp_fail_internal; intros ? s' -> _; rewrite Hs2].
  - apply wp_bind, wp_perform. cbn [exec_op fst snd].
    destruct (env_bcrypt_compare e _ _) eqn:Hcmp; [by apply wp_ret; simpl; rewrite Hs2|].
    wp_call (wp_issueTokens e svc). intros r s3 H3. apply writes_commits in H3; [|done].
    rewrite (seen_committed ctx) in H3 by done.
    cbn [st_db emit tick] in H3. rewrite (st_db_proper _ _ Hs2) in H3.
    destruct r as [[acc ref]|err]; apply wp_ret; [|done].
    destruct H3 as (m & Hm & ->). exists row, m. by conj.
  - wp_call wp_dummyPasswordHash. intros h s3 [Hs3 _].
    apply wp_bind, wp_perform, wp_ret. simpl. by rewrite Hs3, Hs2.
Qed.

Lemma wp_ChangePassword uid req s :
  wp e (ChangePassword svc ctx uid req)
     (fun r s' => commits (st_db s) (password_changed e svc uid req (st_db s)) r (st_db s')) s.
Proof using HU HR HT HM HB Hctx.
  apply wp_poll; [by intros c s' ->|]. intros s1 Hs1.
  wp_call (ur_FindByID_law (e := e)). intros [[row|]|err] s2 [Hs2 Hrow];
    rewrite ?(seen_committed ctx) in Hrow by done; rewrite Hs1 in *;
    [|by apply wp_ret; rewrite Hs2|by apply wp_fail_internal; intros ? s' -> _; rewrite Hs2].
  apply wp_bind, wp_perform. cbn [exec_op fst snd].
  destruct (env_bcrypt_compare e _ _) eqn:Hcmp; [by apply wp_ret; simpl; rewrite Hs2|].
  apply wp_bind, wp_perform. cbn [exec_op fst snd].
  destruct (env_bcrypt_generate e _ _ _) as [hashed|err] eqn:Hgen;
    [|by apply wp_fail_internal; intros ? s' -> _; simpl; rewrite Hs2].
  assert (Hnew : hash_of e hashed (cp_NewPassword req))
    by (split; [by eexists|by eapply bcrypt_law]).
  apply bcrypt_law in Hgen as [Hne _]. set (s3 := emit _ _).
  assert (Hdb3 : st_db s3 = st_db s) by (simpl; by rewrite Hs2). rewrite <- Hdb3 in *.
  wp_call (in_tx_commits _ _ s3 (in_tx_change_password uid hashed (mkGetUser (u_ID row) (u_Email row) (u_Name row)) _ Hne)).
  intros [[acc ref]|err] s4 [H4 _]; apply wp_ret; [|done]. destruct H4 as (now & Hu & Hi & Ht & Hm).
  rewrite (selected_id _ _ _ Hrow) in Hi. exists row, hashed, now. by conj.
Qed.

Lemma wp_DeleteAccount uid s :
  wp e (DeleteAccount svc ctx uid)
     (fun r s' => commits (st_db s) (fun _ db' =>
        (exists row, selected TUsers (user_has_id uid) (st_db s) row) /\
        account_deleted uid (st_db s) db') r (st_db s')) s.
Proof using HU HR HM Hctx.
  apply wp_poll; [by intros c s' ->|]. intros s1 Hs1.
  wp_call (ur_FindByID_law (e := e)). intros [[row|]|err] s2 [Hs2 Hrow];
    rewrite ?(seen_committed ctx) in Hrow by done; rewrite Hs1 in *;
    [|by apply wp_ret; rewrite Hs2|by apply wp_fail_internal; intros ? s' -> _; rewrite Hs2].
  rewrite <- (st_db_proper _ _ Hs2) in *.
  eapply wp_mono; [apply (in_tx_commits _ _ s2 (in_tx_delete_account uid _))|].
  intros [x|err] s' [H _]; [|done]. split; [by exists row|exact H].
Qed.

Lemma wp_PurgeExpired s :
  wp e (PurgeExpiredRefreshTokens svc ctx)
     (fun r s' => commits (st_db s) (fun n db' =>
        exists k, db' = set_rows TTokens (revoked (token_expired (env_now e k)) (t_tokens (st_db s))) (st_db s) /\
          n = Z.of_nat (size (t_tokens (st_db s))) - Z.of_nat (size (t_tokens db'))) r (st_db s')) s.
Proof using HR Hctx.
  apply wp_poll; [by intros c s' ->|]. intros s1 Hs1.
  apply wp_bind, wp_perform. cbn [exec_op fst snd].
  wp_call (tr_DeleteExpired_law (e := e)). intros r s2 H2. apply writes_commits in H2; [|done].
  rewrite (seen_committed ctx) in H2 by done. change (st_db (tick s1)) with (st_db s1) in H2.
  rewrite (st_db_proper _ _ Hs1) in H2. destruct r as [n|err].
  - apply wp_ret. destruct H2 as (m & [-> ->] & Hdb). exists (st_n s1). by rewrite Hdb.
  - apply wp_fail_internal. by intros err' s' -> _.
Qed.

Lemma wp_GetUserByID id s :
  wp e (GetUserByID u svc ctx id)
     (fun r s' => s' ≡ s /\
        match r with
        | Ok user => exists uid row, uuid_Parse u id = Ok uid /\
            selected TUsers (user_has_id uid) (st_db s) row /\
            user = mkGetUser uid (u_Email row) (u_Name row)
        | Err err => fault err \/
            (exists a cause, uuid_Parse u id = Err cause /\ err = EApp (WithCause a ErrInvalidUserID cause)) \/
            (err = EApp ErrUserNotFound /\
             exists uid, uuid_Parse u id = Ok uid /\ forall row, ~ selected TUsers (user_has_id uid) (st_db s) row)
        end) s.
Proof using HU Hctx.
  apply wp_poll; [auto with go|]. intros s1 Hs1. apply wp_bind, wp_ret.
  destruct (uuid_Parse u id) as [uid|cause] eqn:Hp.
  - wp_call (ur_FindByID_law (e := e)). intros [[row|]|err] s2 [Hs2 Hrow];
      rewrite ?(seen_committed ctx) in Hrow by done; rewrite Hs1 in *.
    + apply wp_ret. split; [done|]. exists uid, row. conj; [done..|].
      by rewrite (selected_id _ _ _ Hrow).
    + apply wp_ret. split; [done|]. right; right. split; [done|]. by exists uid.
    + apply wp_fail_internal. intros err' s' Hs' Hf. split; [by rewrite Hs'|by left].
  - wp_quiet. intros a s2 Hs2. apply wp_ret. split; [by rewrite Hs2|]. right; left. by exists a, cause.
Qed.

(** The page of sessions that starts at the window's offset. *)
Lemma wp_ListSessions uid current page s :
  wp e (ListSessions svc ctx uid current page)
     (fun r s' => s' ≡ s /\ forall list, r = Ok list ->
        exists k full, let active := active_tokens uid (env_now e k) (t_tokens (st_db s)) in
          full ≡ₚ (map_to_list active).*2 /\
          StronglySorted (fun a b => desc (newest_first a) (newest_first b)) full /\
          sl_Meta list = mkMeta (Page (Normalized page)) (Limit (Normalized page)) (Z.of_nat (size active)) /\
          sl_Sessions list =
            (fun row => mkSession (rt_ID row)
               (bool_decide (current <> "") && String.eqb (rt_TokenHash row) (Hash current))
               (rt_CreatedAt row) (rt_ExpiresAt row))
            <$> take (Z.to_nat (Limit (Normalized page))) (drop (Z.to_nat (Offset page)) full)) s.
Proof using HR Hctx.
  apply wp_poll; [by intros|]. intros s1 Hs1.
  apply wp_bind, wp_perform. cbn [exec_op fst snd]. set (s2 := tick s1).
  assert (Hs2 : s2 ≡ s) by exact Hs1.
  wp_call (tr_CountActiveByUserID_law (e := e)).
  intros [total|err] s3 [Hs3 Hn]; rewrite ?(seen_committed ctx) in Hn by done;
    rewrite ?(st_db_proper _ _ Hs2) in Hn; rewrite Hs2 in Hs3;
    [|by apply wp_fail_internal; intros ? s' Hs' _; rewrite Hs', Hs3].
  wp_call (tr_ListActiveByUserID_law (e := e)).
  intros [rows|err] s4 [Hs4 Hl]; rewrite ?(seen_committed ctx) in Hl by done;
    rewrite ?(st_db_proper _ _ Hs3) in Hl; rewrite Hs3 in Hs4;
    [|by apply wp_fail_internal; intros ? s' Hs' _; rewrite Hs', Hs4].
  apply wp_ret. split; [done|]. intros list [= <-]. destruct Hl as (full & Hp & Hsort & ->).
  exists (st_n s1), full. cbv zeta. split; [done|]. split; [done|]. split; [by rewrite Hn|]. cbn [sl_Sessions].
  assert (Hoff : Offset (Normalized page) = Offset page) by (unfold Offset; by rewrite Normalized_idemp).
  rewrite Hoff.
  apply list_fmap_ext. intros _ row _. f_equal. destruct (String.eqb_spec current "") as [->|Hne]; [done|].
  rewrite bool_decide_true by done. rewrite Hash_nonempty. done.
Qed.

(** The outcome of a refresh at a state: what it left, and what it logged. *)
Definition refreshes user tok (s : state) (r : result RefreshResponse) (s' : state) : Prop :=
  exists tr, st_trace s' = st_trace s ++ tr /\ refresh_outcome e u svc user tok (st_db s) r (st_db s') tr.

Lemma refreshes_silent user tok s s' r :
  quiet s s' -> refresh_outcome e u svc user tok (st_db s) r (st_db s) [] -> refreshes user tok s r s'.
Proof. intros [Hd Ht] Ho. exists []. rewrite app_nil_r, Hd. by split. Qed.

Lemma wp_handleReuse user tok s0 s :
  s ≡ s0 -> (forall row, ~ selected TTokens (token_has_hash (Hash tok)) (st_db s0) row) ->
  wp e (let* err := handleReuse u svc ctx (gu_ID user) in Ret (Err err)) (refreshes user tok s0) s.
Proof using HR Hctx.
  intros Hs Hnone. apply wp_bind. unfold handleReuse.
  apply wp_bind, wp_perform. cbn [exec_op fst snd].
  wp_call (wp_RevokeRefreshTokens e svc). set (s1 := emit _ _).
  assert (Hd : st_db s1 = st_db s0) by exact (st_db_proper _ _ Hs).
  assert (Ht : st_trace s1 = st_trace s0 ++ [reuse_warning u (gu_ID user)])
    by (simpl; by rewrite (st_trace_proper _ _ Hs)).
  intros [[]|err] s2 H2.
  - apply wp_bind, wp_ret, wp_ret, wp_ret. destruct H2 as (m & -> & Hw).
    apply wrote_committed in Hw; [|done]. rewrite (seen_committed ctx) in Hw by done. rewrite Hd in Hw.
    exists [reuse_warning u (gu_ID user)]. rewrite (st_db_proper _ _ Hw), (st_trace_proper _ _ Hw).
    split; [exact Ht|]. by apply RefreshReused.
  - apply wp_bind, wp_perform. cbn [exec_op fst snd]. apply wp_ret, wp_ret. simpl in H2.
    eexists. simpl. rewrite (st_db_proper _ _ H2), (st_trace_proper _ _ H2), Hd, Ht, <- app_assoc.
    split; [reflexivity|]. by apply RefreshReusedKept.
Qed.

Lemma wp_expired user tok s0 s row n :
  s ≡ s0 -> selected TTokens (token_has_hash (Hash tok)) (st_db s0) row -> rt_ExpiresAt row < env_now e n ->
  wp e (let* r := tr_DeleteByTokenHash (refreshTokenRepository svc) ctx (Hash tok) in
        let* _ := match r with
                  | Err delErr => perform (OpLog Warn "removing expired refresh token"
                      [("user_id", uuid_String u (rt_UserID row)); ("error", error_string delErr)])
                  | Ok _ => Ret tt
                  end in
        Ret (Err (EApp ErrRefreshTokenExpired))) (refreshes user tok s0) s.
Proof using HR Hctx.
  intros Hs Hrow Hexp. wp_call (tr_DeleteByTokenHash_law (e := e)). intros [[]|err] s2 H2.
  - apply wp_bind, wp_ret, wp_ret. destruct H2 as (m & -> & Hw).
    apply wrote_committed in Hw; [|done]. rewrite (seen_committed ctx) in Hw by done.
    exists []. rewrite (st_db_proper _ _ Hw), (st_trace_proper _ _ Hw), app_nil_r. simpl.
    rewrite (st_db_proper _ _ Hs), (st_trace_proper _ _ Hs). split; [done|]. by eapply RefreshExpired.
  - apply wp_bind, wp_perform. cbn [exec_op fst snd]. apply wp_ret. simpl in H2. eexists. simpl.
    rewrite (st_db_proper _ _ H2), (st_trace_proper _ _ H2), (st_db_proper _ _ Hs), (st_trace_proper _ _ Hs).
    split; [reflexivity|]. by eapply RefreshExpiredKept.
Qed.

Lemma wp_rotate user tok s0 s row n :
  s ≡ s0 -> selected TTokens (token_has_hash (Hash tok)) (st_db s0) row -> env_now e n <= rt_ExpiresAt row ->
  wp e (let! pair := tm_WithinTx (txManager svc) _ ctx (rotate_tx svc (Hash tok) user) onerr err => Ret (Err err) in
        Ret (Ok (mkPair pair.1 pair.2))) (refreshes user tok s0) s.
Proof using HR HT HM Hctx.
  intros Hs Hrow Hexp. wp_call (in_tx_commits _ _ s (in_tx_rotate (Hash tok) user _)).
  intros [[acc ref]|err] s5 [H5 Htr]; apply wp_ret; exists [];
    rewrite Htr, (st_trace_proper _ _ Hs), app_nil_r; split; try done.
  - destruct H5 as (m & Hm & ->). rewrite (st_db_proper _ _ Hs) in *. by eapply RefreshRotated.
  - simpl in H5. rewrite H5, (st_db_proper _ _ Hs). by eapply RefreshNotRotated.
Qed.

(** The user of a refresh is the one the token's claims name, unless it is given up
    before the claims are read; for a token minted by this service those are an id,
    and no email or name. *)
Lemma wp_Refresh_claims tok s :
  wp e (Refresh u svc ctx tok) (fun r s' =>
    (exists err, r = Err err /\ quiet s s' /\
       (fault err \/ exists a cause, err = EApp (WithCause a ErrInvalidRefreshToken cause))) \/
    exists user, refreshes user tok s r s' /\ vouches (ts := tokenService svc) tok (gu_ID user) /\
      forall uid, refresh_for (ts := tokenService svc) tok uid -> user = mkGetUser uid "" "") s.
Proof using HR HT HM Hctx.
  apply wp_poll; [intros c s' Hs'; left; eauto 6 with go|].
  intros s1 Hs1. wp_call (ts_ValidateRefreshToken_law (e := e)). intros [claims|err] s2 [Hs2 Hcl].
  2: { wp_quiet. intros a s3 Hs3. apply wp_ret. left. eexists. split; [done|].
       split; [apply quiet_equiv; by rewrite Hs3, Hs2|]. right. by exists a, err. }
  rewrite Hs1 in Hs2. set (user := mkGetUser (tc_UserID claims) (tc_Email claims) (tc_Name claims)).
  eapply wp_mono with (P := refreshes user tok s);
    [|intros r s' Hr; right; exists user; split; [done|]; split; [by apply Hcl|]; intros uid (Hu & He & Hn)%Hcl;
      subst user; by rewrite Hu, He, Hn].
  wp_call (tr_FindByTokenHash_law (e := e)). intros [[row|]|err] s3 [Hs3 Hrow];
    rewrite ?(seen_committed ctx) in Hrow by done; rewrite ?(st_db_proper _ _ Hs2) in Hrow; rewrite Hs2 in Hs3.
  - apply wp_bind, wp_perform. cbn [exec_op fst snd]. set (s4 := tick s3).
    assert (Hs4 : s4 ≡ s) by exact Hs3. unfold time_Before.
    destruct (Z.ltb_spec (rt_ExpiresAt row) (env_now e (st_n s3))) as [Hexp|Hexp].
    + by eapply wp_expired.
    + by eapply wp_rotate.
  - by apply (wp_handleReuse user).
  - apply wp_fail_internal. intros err' s4 Hs4 Hf. apply refreshes_silent.
    + apply quiet_equiv. by rewrite Hs4.
    + apply RefreshGivenUp. by left.
Qed.

Lemma wp_Refresh tok s :
  wp e (Refresh u svc ctx tok) (fun r s' =>
    exists user, refreshes user tok s r s' /\
      forall uid, refresh_for (ts := tokenService svc) tok uid ->
        refreshes (mkGetUser uid "" "") tok s r s') s.
Proof using HR HT HM Hctx.
  eapply wp_mono; [apply wp_Refresh_claims|].
  intros r s' [(err & -> & Hq & Herr)|(user & H & _ & Hu)].
  { exists (mkGetUser 0 "" ""). split; [|intros uid _]; (apply refreshes_silent; [done|by apply RefreshGivenUp]). }
  exists user. split; [done|]. by intros uid ->%Hu.
Qed.

(** Credentials that do not verify get one answer, after one comparison of the
    password that was sent with a hash at the default cost. *)
Lemma wp_Login_refused req s :
  placeholder_ok e s ->
  (forall n, is_ok (env_bcrypt_generate e n placeholder DefaultCost) = true) ->
  (forall row, selected TUsers (user_has_email (lr_Email req)) (st_db s) row ->
     at_default_cost e (u_Password row) /\ env_bcrypt_compare e (u_Password row) (to_bytes (lr_Password req)) <> None) ->
  wp e (Login svc ctx req)
     (fun r s' => exists err, r = Err err /\ st_db s' = st_db s /\ placeholder_ok e s' /\
        (refused_after_work e req s s' err \/ (fault err /\ st_trace s' = st_trace s))) s.
Proof using HU Hctx.
  intros Honce Haccept Hbad. apply wp_poll.
  { intros c s' Hs'. exists (ECtx c). split; [done|]. rewrite (st_db_proper _ _ Hs'), (st_trace_proper _ _ Hs').
    split; [done|]. split; [by eapply placeholder_ok_equiv|]. right. auto with go. }
  intros s1 Hs1. wp_call (ur_FindByEmail_law (e := e)).
  intros [[row|]|err] s2 [Hs2 Hrow]; rewrite ?(seen_committed ctx) in Hrow by done;
    rewrite ?(st_db_proper _ _ Hs1) in Hrow; rewrite Hs1 in Hs2.
  - apply wp_bind, wp_perform. cbn [exec_op fst snd]. destruct (Hbad row Hrow) as [Hcost Hcmp].
    destruct (env_bcrypt_compare e _ _); [|done].
    apply wp_ret. eexists. split; [done|]. split; [exact (st_db_proper _ _ Hs2)|].
    split; [exact (placeholder_ok_equiv e s _ Hs2 Honce)|]. left. split; [done|]. exists (u_Password row), [].
    split; [done|]. simpl. rewrite (st_trace_proper _ _ Hs2). split; [done|]. left. split; [by exists row|done].
  - apply wp_bind. eapply wp_mono; [apply (wp_placeholder e s2); [by eapply placeholder_ok_equiv|done]|].
    intros h s3 (Hdb & Hcell & Hcost & made & Htr & Hmade). apply wp_bind, wp_perform, wp_ret.
    rewrite (st_db_proper _ _ Hs2) in Hdb. rewrite (st_trace_proper _ _ Hs2) in Htr.
    rewrite (st_once_proper _ _ Hs2) in Hmade. eexists. split; [done|]. split; [done|].
    split; [intros h'; simpl; rewrite Hcell; by intros [= <-]|]. left. split; [done|]. exists h, made. split; [done|].
    simpl. rewrite Htr, <- app_assoc. split; [done|]. right. by split.
  - apply wp_fail_internal. intros err' s' Hs' Hf. exists err'. split; [done|].
    assert (Heq : s' ≡ s) by (by rewrite Hs'). rewrite (st_db_proper _ _ Heq), (st_trace_proper _ _ Heq).
    split; [done|]. split; [by eapply placeholder_ok_equiv|]. auto.
Qed.
End methods.
