(* ===== verification/Accounts.v ===== *)
(** * Theorems about accounts and sessions

    What each method of the user service promises, for every environment and
    every implementation of its dependencies that keeps their contracts; then the
    invariant of every reachable database.  The witnesses run the service over
    the gorm repositories and the token service of this library. *)

From S2P Require Import Prelude GoStd Apperr Model Gorm Effects Repository RepositoryLaws Testbed Token UserService UserSpec.

(** ** Facts about the token table *)

Lemma revoked_lookup p (m : gmap UUID RefreshTokenEntity) k row :
  revoked p m !! k = Some row <-> m !! k = Some row /\ p row = false.
Proof. unfold revoked. by rewrite map_lookup_filter_Some. Qed.

(** After revoking a user's sessions and opening one, that one is all there is. *)
Lemma only_session uid tok expires m m' k row :
  new_session uid tok expires (revoked (token_of_user uid) m) m' ->
  m' !! k = Some row -> rt_UserID row = uid -> rt_TokenHash row = Hash tok.
Proof.
  intros (new & Hu & Hh & _ & _ & ->) [[<- <-]|[_ Hk]]%lookup_insert_Some Huid; [done|].
  apply revoked_lookup in Hk as [_ Hp]. unfold token_of_user in Hp. by apply N.eqb_neq in Hp.
Qed.

(** After retiring a digest and storing another, the retired one is gone. *)
Lemma digest_retired uid tok tok' expires db m db' :
  new_session uid tok' expires (revoked (token_has_hash (Hash tok)) (t_tokens db)) m ->
  Hash tok' <> Hash tok -> t_tokens db' = m ->
  forall row, ~ selected TTokens (token_has_hash (Hash tok)) db' row.
Proof.
  intros (new & _ & Hh & _ & _ & ->) Hne Hdb row (k & Hk & _ & Hp). simpl in Hk. rewrite Hdb in Hk.
  apply lookup_insert_Some in Hk as [[_ <-]|[_ Hk]].
  - apply String.eqb_eq in Hp. congruence.
  - apply revoked_lookup in Hk as [_ Hk]. congruence.
Qed.

(** ** Facts about the user table after a deletion *)

Section deletion.
Context (uid : UUID) (now : time) (m : gmap UUID UserEntity).

Lemma deleted_gone tokens counters messages row :
  ~ selected TUsers (user_has_id uid)
      (mkTables (delete_rows TUsers (user_has_id uid) now m) tokens counters messages) row.
Proof.
  intros (k & Hk & Hv & Hp). unfold delete_rows in Hk. cbn in Hk. apply lookup_fmap_Some in Hk as (x & <- & Hx).
  destruct (visible TUsers x && user_has_id uid x) eqn:Hb.
  - simpl in Hb. by rewrite Hb in Hv.
  - simpl in Hb. rewrite Hb in Hv, Hp. unfold visible in Hv. by rewrite Hv, Hp in Hb.
Qed.

Lemma deleted_others k row :
  user_has_id uid row = false ->
  delete_rows TUsers (user_has_id uid) now m !! k = Some row <-> m !! k = Some row.
Proof.
  intros Hid. unfold delete_rows. cbn [soft_delete]. rewrite lookup_fmap_Some. split.
  - intros (x & Hf & Hx). destruct (visible TUsers x && user_has_id uid x) eqn:Hb; [|by subst].
    subst row. apply andb_true_iff in Hb as [_ Hb]. unfold user_has_id in *. simpl in *. congruence.
  - intros Hx. exists row. by rewrite Hid, andb_false_r.
Qed.

Lemma deleted_email k row :
  m !! k = Some row ->
  exists row', delete_rows TUsers (user_has_id uid) now m !! k = Some row' /\ u_Email row' = u_Email row.
Proof.
  intros Hk. unfold delete_rows. cbn [soft_delete]. rewrite lookup_fmap, Hk. eexists. split; [reflexivity|].
  by case_match.
Qed.
End deletion.

(** ** Every method, outside a transaction *)

Section theorems.
Context (e : env) (u : UUIDLib) (svc : userService).
Context {HU : UserRepositoryLaws e (userRepository svc)}
        {HR : RefreshTokenRepositoryLaws e (refreshTokenRepository svc)}
        {HT : TokenServiceLaws e (tokenService svc)}
        {HM : TxManagerLaws e (txManager svc)}
        {HB : BcryptLaws e}.
Context (ctx : context).

(** C6.  Registration is all or nothing.  On success exactly one user row was
    added, with the requested email and name, a bcrypt hash of the password, and
    an id and email no row (deleted ones included) had before; with it exactly one
    session, stored as the digest of the refresh token that is returned.  On any
    error the tables are as they were. *)
Theorem register_atomic req s r s' :
  ctx_value ctx = None -> run e (Register svc ctx req) s = (r, s') ->
  match r with
  | Ok resp => registered e svc req (st_db s) resp (st_db s')
  | Err _ => st_db s' = st_db s
  end.
Proof using HU HR HT HM HB. intros Hc Hr. exact (wp_run _ _ _ _ _ _ (wp_Register e svc ctx Hc req s) Hr). Qed.

(** C13.  A login that succeeds verified the password of a live account with that
    email and added exactly one session for it; a login that fails changes
    nothing. *)
Theorem login_verifies req s r s' :
  ctx_value ctx = None -> run e (Login svc ctx req) s = (r, s') ->
  match r with
  | Ok resp => logged_in e svc req (st_db s) resp (st_db s')
  | Err _ => st_db s' = st_db s
  end.
Proof using HU HR HT HM HB. intros Hc Hr. exact (wp_run _ _ _ _ _ _ (wp_Login e svc ctx Hc req s) Hr). Qed.

(** C28.  Refreshing with a token minted for a user has one of seven outcomes,
    decided by whether its digest is stored and has expired: rotation replaces
    that digest by the digest of the new token and touches nothing else; a digest
    that is not stored ends every session of the user; an expired one is removed;
    a failure leaves the tables as they were. *)
Theorem refresh_outcomes tok uid s r s' :
  ctx_value ctx = None -> refresh_for (ts := tokenService svc) tok uid ->
  run e (Refresh u svc ctx tok) s = (r, s') ->
  exists tr, st_trace s' = st_trace s ++ tr /\
    refresh_outcome e u svc (mkGetUser uid "" "") tok (st_db s) r (st_db s') tr.
Proof using HR HT HM.
  intros Hc Htok Hr. destruct (wp_run _ _ _ _ _ _ (wp_Refresh e u svc ctx Hc tok s) Hr) as (user & _ & H).
  by apply H.
Qed.

(** C7.  A refresh token is single use: presenting one again after it was rotated
    never succeeds, and unless the request is given up before the lookup it ends
    every session of its user, the rotated one included (or logs that it could
    not). *)
Theorem refresh_single_use tok uid s pair s1 r s2 :
  ctx_value ctx = None -> refresh_for (ts := tokenService svc) tok uid ->
  run e (Refresh u svc ctx tok) s = (Ok pair, s1) ->
  Hash (tp_RefreshToken pair) <> Hash tok ->
  run e (Refresh u svc ctx tok) s1 = (r, s2) ->
  exists err, r = Err err /\
    ((err = EApp ErrRefreshTokenRevoked /\
      ((forall k row, t_tokens (st_db s2) !! k = Some row -> rt_UserID row <> uid) \/
       exists tr msg attrs, st_trace s2 = st_trace s1 ++ tr /\ EvLog LError msg attrs ∈ tr)) \/
     ((fault err \/ exists a cause, err = EApp (WithCause a ErrInvalidRefreshToken cause)) /\
      st_db s2 = st_db s1)).
Proof using HR HT HM.
  intros Hc Htok H1 Hne H2.
  destruct (wp_run _ _ _ _ _ _ (wp_Refresh e u svc ctx Hc tok s) H1) as (_ & _ & (tr & _ & Ho)%(fun f => f uid Htok)).
  assert (Hnone : forall row, ~ selected TTokens (token_has_hash (Hash tok)) (st_db s1) row).
  { apply refresh_outcome_ok in Ho as (row & n & m & _ & _ & (_ & _ & k & Hnew) & ->).
    by eapply digest_retired. }
  destruct (wp_run _ _ _ _ _ _ (wp_Refresh e u svc ctx Hc tok s1) H2)
    as (_ & _ & (tr2 & Ht2 & Ho2)%(fun f => f uid Htok)).
  destruct (refresh_outcome_unknown _ _ _ _ _ _ _ _ _ Hnone Ho2) as (err & -> & Hcase).
  exists err. split; [done|]. destruct Hcase as [[Hdb Hf]|[-> [Hdb|(msg & attrs & Hlog)]]]; [by right|left..].
  - split; [done|]. left. intros k row. rewrite Hdb. simpl. rewrite revoked_lookup.
    intros [_ Hk]. by apply N.eqb_neq in Hk.
  - split; [done|]. right. by exists tr2, msg, attrs.
Qed.

(** C10.  A password change that succeeds was authorised by the current password;
    it replaces the hash of the live account, and nothing else of any account,
    by a bcrypt hash of the new password, and leaves exactly one session of the
    user: the one whose token is returned.  On any error both the hash and the
    sessions are as they were. *)
Theorem change_password_ends_sessions uid req s r s' :
  ctx_value ctx = None -> run e (ChangePassword svc ctx uid req) s = (r, s') ->
  match r with
  | Ok tp =>
      password_changed e svc uid req (st_db s) tp (st_db s') /\
      forall k row, t_tokens (st_db s') !! k = Some row -> rt_UserID row = uid ->
        rt_TokenHash row = Hash (tp_RefreshToken tp)
  | Err _ => st_db s' = st_db s
  end.
Proof using HU HR HT HM HB.
  intros Hc Hr. pose proof (wp_run _ _ _ _ _ _ (wp_ChangePassword e svc ctx Hc uid req s) Hr) as H.
  destruct r as [tp|]; [|done]. split; [exact H|].
  destruct H as (row & hashed & now & _ & _ & _ & _ & (_ & _ & n & Hnew) & _ & _).
  intros k row'. by eapply only_session.
Qed.

(** C37.  Deleting an account that succeeds leaves no live user with that id and no
    session of theirs; every other account and session is untouched, and the
    deleted row keeps its email, which stays taken.  On any error nothing has
    changed. *)
Theorem delete_account_complete uid s r s' :
  ctx_value ctx = None -> run e (DeleteAccount svc ctx uid) s = (r, s') ->
  match r with
  | Ok _ =>
      (exists row, selected TUsers (user_has_id uid) (st_db s) row) /\
      (forall row, ~ selected TUsers (user_has_id uid) (st_db s') row) /\
      (forall k row, u_ID row <> uid ->
         t_users (st_db s') !! k = Some row <-> t_users (st_db s) !! k = Some row) /\
      (forall k row, t_users (st_db s) !! k = Some row ->
         exists row', t_users (st_db s') !! k = Some row' /\ u_Email row' = u_Email row) /\
      (forall k row, t_tokens (st_db s') !! k = Some row <->
         t_tokens (st_db s) !! k = Some row /\ rt_UserID row <> uid)
  | Err _ => st_db s' = st_db s
  end.
Proof using HU HR HM.
  intros Hc Hr. pose proof (wp_run _ _ _ _ _ _ (wp_DeleteAccount e svc ctx Hc uid s) Hr) as H.
  destruct r as [[]|]; [|done]. destruct H as (Hrow & now & ->). split; [done|].
  cbn [t_users t_tokens]. conj.
  - by apply deleted_gone.
  - intros k row Hid. apply deleted_others. by apply N.eqb_neq.
  - apply deleted_email.
  - intros k row. rewrite revoked_lookup. unfold token_of_user. by rewrite N.eqb_neq.
Qed.

(** The address of a deleted account cannot be registered again: the attempt
    fails and changes nothing. *)
Theorem deleted_email_stays_taken uid row req s s1 r s2 :
  ctx_value ctx = None ->
  selected TUsers (user_has_id uid) (st_db s) row -> rr_Email req = u_Email row ->
  run e (DeleteAccount svc ctx uid) s = (Ok tt, s1) ->
  run e (Register svc ctx req) s1 = (r, s2) ->
  is_ok r = false /\ st_db s2 = st_db s1.
Proof using HU HR HT HM HB.
  intros Hc (k & Hk & _) Hem H1 H2.
  pose proof (wp_run _ _ _ _ _ _ (wp_DeleteAccount e svc ctx Hc uid s) H1) as (_ & now & Hdb).
  pose proof (wp_run _ _ _ _ _ _ (wp_Register e svc ctx Hc req s1) H2) as H.
  destruct r as [resp|]; [exfalso|done]. destruct H as (new & He & _ & _ & _ & _ & Hcol & _).
  apply Hcol. right. rewrite Hdb. cbn [t_users].
  destruct (deleted_email uid now _ _ _ Hk) as (row' & Hk' & He'). exists k, row'. split; [done|].
  apply String.eqb_eq. congruence.
Qed.

(** C38.  The sessions reported are the page, of the normalised window, of the live
    sessions of the user listed newest first, with the total of all of them; a
    session is marked current exactly when the presented token is not empty and
    its digest is the one stored. *)
Theorem list_sessions_page uid current page s list s' :
  ctx_value ctx = None -> run e (ListSessions svc ctx uid current page) s = (Ok list, s') ->
  s' ≡ s /\ exists n full, let active := active_tokens uid (env_now e n) (t_tokens (st_db s)) in
    full ≡ₚ (map_to_list active).*2 /\
    StronglySorted (fun a b => desc (newest_first a) (newest_first b)) full /\
    sl_Meta list = mkMeta (Page (Normalized page)) (Limit (Normalized page)) (Z.of_nat (size active)) /\
    sl_Sessions list =
      (fun row => mkSession (rt_ID row)
         (bool_decide (current <> "") && String.eqb (rt_TokenHash row) (Hash current))
         (rt_CreatedAt row) (rt_ExpiresAt row))
      <$> take (Z.to_nat (Limit (Normalized page))) (drop (Z.to_nat (Offset page)) full).
Proof using HR.
  intros Hc Hr. destruct (wp_run _ _ _ _ _ _ (wp_ListSessions e svc ctx Hc uid current page s) Hr) as [Hs H].
  split; [done|]. by apply H.
Qed.

(** The sweep removes exactly the sessions that expired before some reading of
    the clock, reports how many went, and leaves everything else alone. *)
Theorem purge_removes_expired s r s' :
  ctx_value ctx = None -> run e (PurgeExpiredRefreshTokens svc ctx) s = (r, s') ->
  match r with
  | Ok n => exists k,
      (forall id row, t_tokens (st_db s') !! id = Some row <->
         t_tokens (st_db s) !! id = Some row /\ env_now e k <= rt_ExpiresAt row) /\
      n = Z.of_nat (size (t_tokens (st_db s))) - Z.of_nat (size (t_tokens (st_db s'))) /\
      t_users (st_db s') = t_users (st_db s)
  | Err _ => st_db s' = st_db s
  end.
Proof using HR.
  intros Hc Hr. pose proof (wp_run _ _ _ _ _ _ (wp_PurgeExpired e svc ctx Hc s) Hr) as H.
  destruct r as [n|]; [|done]. destruct H as (k & Hdb & Hn). exists k. split; [|split; [exact Hn|by rewrite Hdb]].
  intros id row. rewrite Hdb. simpl. rewrite revoked_lookup. unfold token_expired. by rewrite Z.ltb_ge.
Qed.
End theorems.

(** ** The invariant of the database *)

Section invariant.
Context (e : env) (u : UUIDLib) (svc : userService).
Context {HU : UserRepositoryLaws e (userRepository svc)}
        {HR : RefreshTokenRepositoryLaws e (refreshTokenRepository svc)}
        {HT : TokenServiceLaws e (tokenService svc)}
        {HM : TxManagerLaws e (txManager svc)}
        {HB : BcryptLaws e}.

(** User rows are filed under their id, no two share an email, and what is stored
    of a password is a bcrypt hash at the default cost. *)
Definition users_ok (m : gmap UUID UserEntity) : Prop :=
  map_Forall (fun k x => u_ID x = k) m /\ unique_ok TUsers m /\
  map_Forall (fun _ x => exists n pw, env_bcrypt_generate e n (to_bytes pw) DefaultCost = Ok (u_Password x)) m.

(** Session rows are filed under their id, no two share a digest, and what is
    stored of a token is the digest of a refresh token of the row's user. *)
Definition sessions_ok (m : gmap UUID RefreshTokenEntity) : Prop :=
  map_Forall (fun k x => rt_ID x = k) m /\ unique_ok TTokens m /\
  map_Forall (fun _ x => exists tok, refresh_for (ts := tokenService svc) tok (rt_UserID x) /\
                                     rt_TokenHash x = Hash tok) m.

Definition tables_ok (db : Tables) : Prop := users_ok (t_users db) /\ sessions_ok (t_tokens db).

Lemma sessions_ok_revoked p m : sessions_ok m -> sessions_ok (revoked p m).
Proof using Type.
  intros (Hk & Hu & Hd). split; [|split].
  - intros k x [Hx _]%revoked_lookup. by apply Hk.
  - by apply unique_ok_filter.
  - intros k x [Hx _]%revoked_lookup. by eapply Hd.
Qed.

Lemma sessions_ok_issued user tp m m' :
  sessions_ok m -> issued e svc user tp m m' -> sessions_ok m'.
Proof using Type.
  intros (Hk & Hu & Hd) (_ & Hr & n & row & Hid & Hh & _ & Hc & ->). split; [|split].
  - apply map_Forall_insert_2; [done|exact Hk].
  - by apply (unique_ok_insert TTokens).
  - apply map_Forall_insert_2; [exists tp.2; by rewrite Hid|exact Hd].
Qed.

Lemma users_ok_password uid hashed now m pw n :
  env_bcrypt_generate e n (to_bytes pw) DefaultCost = Ok hashed ->
  users_ok m -> users_ok (with_password uid hashed now m).
Proof using Type.
  intros Hgen (Hk & Hu & Hp). unfold with_password. split; [|split].
  - intros k x (y & <- & Hy)%lookup_fmap_Some. specialize (Hk k y Hy). by case_match.
  - apply unique_ok_fmap; [|done]. intros x y. by repeat case_match.
  - intros k x (y & <- & Hy)%lookup_fmap_Some. specialize (Hp k y Hy). case_match; [by exists n, pw|done].
Qed.

Lemma users_ok_delete uid now m : users_ok m -> users_ok (delete_rows TUsers (user_has_id uid) now m).
Proof using Type.
  intros (Hk & Hu & Hp). unfold delete_rows. cbn [soft_delete]. split; [|split].
  - intros k x (y & <- & Hy)%lookup_fmap_Some. specialize (Hk k y Hy). by case_match.
  - apply unique_ok_fmap; [|done]. intros x y. by repeat case_match.
  - intros k x (y & <- & Hy)%lookup_fmap_Some. specialize (Hp k y Hy). by case_match.
Qed.

(** What the writing methods leave is a database again. *)
Lemma registered_ok req db resp db' : tables_ok db -> registered e svc req db resp db' -> tables_ok db'.
Proof using Type.
  intros [(Hk & Hq & Hp) Hs] (row & _ & _ & _ & [[n Hg] _] & _ & Hc & Hdb & Hi & _). split.
  - rewrite Hdb. split; [|split].
    + by apply map_Forall_insert_2.
    + by apply (unique_ok_insert TUsers).
    + apply map_Forall_insert_2; [by eauto|exact Hp].
  - by eapply sessions_ok_issued.
Qed.

Lemma replaced_ok uid hashed pw user pair db now db' :
  tables_ok db -> hash_of e hashed pw -> t_users db' = with_password uid hashed now (t_users db) ->
  issued e svc user pair (revoked (token_of_user uid) (t_tokens db)) (t_tokens db') -> tables_ok db'.
Proof using Type.
  intros [Hu Hs] [[n Hg] _] Hdb Hi. split.
  - rewrite Hdb. by eapply users_ok_password.
  - eapply sessions_ok_issued; [|exact Hi]. by apply sessions_ok_revoked.
Qed.

Lemma deleted_ok uid db db' : tables_ok db -> account_deleted uid db db' -> tables_ok db'.
Proof using Type.
  intros [Hu Hs] [now ->]. split; [by apply users_ok_delete|by apply sessions_ok_revoked].
Qed.

(** The calls the HTTP layer and the janitor make. *)
Inductive call :=
  | CallRegister (req : RegisterUserRequest)
  | CallLogin (req : LoginRequest)
  | CallRefresh (tok : string)
  | CallRevoke (uid : UUID)
  | CallGetUser (id : string)
  | CallListSessions (uid : UUID) (current : string) (page : Pagination)
  | CallChangePassword (uid : UUID) (req : ChangePasswordRequest)
  | CallDeleteAccount (uid : UUID)
  | CallPurge.

(** The state a call leaves, answered or refused. *)
Definition after (c : call) (s : state) : state :=
  match c with
  | CallRegister req => (run e (Register svc Background req) s).2
  | CallLogin req => (run e (Login svc Background req) s).2
  | CallRefresh tok => (run e (Refresh u svc Background tok) s).2
  | CallRevoke uid => (run e (RevokeRefreshTokens svc Background uid) s).2
  | CallGetUser id => (run e (GetUserByID u svc Background id) s).2
  | CallListSessions uid current page => (run e (ListSessions svc Background uid current page) s).2
  | CallChangePassword uid req => (run e (ChangePassword svc Background uid req) s).2
  | CallDeleteAccount uid => (run e (DeleteAccount svc Background uid) s).2
  | CallPurge => (run e (PurgeExpiredRefreshTokens svc Background) s).2
  end.

(** The states the service can be in, from a database that satisfies [init]. *)
Inductive reachable (init : Tables -> Prop) : state -> Prop :=
  | reachable_init s : init (st_db s) -> reachable init s
  | reachable_call s c : reachable init s -> reachable init (after c s).

Lemma commits_ok {X} db (P : X -> Tables -> Prop) r db' :
  commits db P r db' -> tables_ok db -> (forall x, P x db' -> tables_ok db') -> tables_ok db'.
Proof using Type. destruct r as [x|]; simpl; [eauto|by intros ->]. Qed.

Lemma refresh_ok user tok db r db' tr :
  refresh_outcome e u svc user tok db r db' tr -> tables_ok db -> tables_ok db'.
Proof using Type.
  intros Ho [Hu Hs].
  inversion Ho; subst; (split; [done|]); simpl; try done; try (by apply sessions_ok_revoked).
  eapply sessions_ok_issued; [|eassumption]. by apply sessions_ok_revoked.
Qed.

Lemma after_ok c s : tables_ok (st_db s) -> tables_ok (st_db (after c s)).
Proof using All.
  intros Hok. pose proof Hok as [Hu Hs]. destruct c; cbn [after].
  - eapply commits_ok; [apply (wp_Register e svc Background eq_refl req s)|done|].
    intros resp H. by eapply registered_ok.
  - eapply commits_ok; [apply (wp_Login e svc Background eq_refl req s)|done|].
    intros resp (row & m & _ & _ & _ & Hi & ->). split; [done|]. by eapply sessions_ok_issued.
  - destruct (wp_Refresh e u svc Background eq_refl tok s) as (user & (tr & _ & Ho) & _).
    by eapply refresh_ok.
  - eapply commits_ok;
      [eapply (writes_commits Background TTokens); [done|apply (wp_RevokeRefreshTokens e svc Background uid s)]|done|].
    intros [] (m & -> & ->). split; [done|]. by apply sessions_ok_revoked.
  - destruct (wp_GetUserByID e u svc Background eq_refl id s) as [Heq _]. by rewrite (st_db_proper _ _ Heq).
  - destruct (wp_ListSessions e svc Background eq_refl uid current page s) as [Heq _].
    by rewrite (st_db_proper _ _ Heq).
  - eapply commits_ok; [apply (wp_ChangePassword e svc Background eq_refl uid req s)|done|].
    intros tp (row & hashed & now & _ & _ & Hh & Hdb & Hi & _). by eapply replaced_ok.
  - eapply commits_ok; [apply (wp_DeleteAccount e svc Background eq_refl uid s)|done|].
    intros [] [_ Hd]. by eapply deleted_ok.
  - eapply commits_ok; [apply (wp_PurgeExpired e svc Background eq_refl s)|done|].
    intros n (k & -> & _). split; [done|]. by apply sessions_ok_revoked.
Qed.

(** C29.  An unknown email and a wrong password cannot be told apart: both are answered
    with the same error after exactly one bcrypt comparison of the password that was
    sent with a hash at the default cost, the stored one or the placeholder, and leave
    the tables alone; only the first unknown email ever also pays for generating the
    placeholder, at that cost.  The other answers report a fault or a cancelled
    request, before any comparison. *)
Theorem login_refusal_uniform ctx req s r s' :
  ctx_value ctx = None -> tables_ok (st_db s) -> placeholder_ok e s ->
  (forall n, is_ok (env_bcrypt_generate e n placeholder DefaultCost) = true) ->
  (forall row, selected TUsers (user_has_email (lr_Email req)) (st_db s) row ->
     env_bcrypt_compare e (u_Password row) (to_bytes (lr_Password req)) <> None) ->
  run e (Login svc ctx req) s = (r, s') ->
  exists err, r = Err err /\ st_db s' = st_db s /\ placeholder_ok e s' /\
    (refused_after_work e req s s' err \/ (fault err /\ st_trace s' = st_trace s)).
Proof using HU.
  intros Hc [(_ & _ & Hcost) _] Ho Haccept Hbad Hr.
  refine (wp_run _ _ _ _ _ _ (wp_Login_refused e svc ctx Hc req s Ho Haccept _) Hr).
  intros row Hrow. split; [|by apply Hbad]. destruct Hrow as (k & Hk & _). destruct (Hcost k row Hk) as (n & pw & Hg).
  by exists n, (to_bytes pw).
Qed.

(** C11.  In every state the service can reach, by any sequence of calls with any
    arguments and any failures of its dependencies: rows are filed under their id,
    no two accounts share an email, no two sessions share a digest, every stored
    password is a bcrypt hash and every stored session is the digest of a refresh
    token minted for the row's user. *)
Theorem reachable_tables_ok s : reachable (eq empty_tables) s -> tables_ok (st_db s).
Proof using All.
  induction 1 as [s Hs|s c _ IH]; [|by apply after_ok].
  rewrite <- Hs. split; simpl; (split; [|split]); intros k x; by rewrite lookup_empty.
Qed.
End invariant.

(** ** Witnesses

    The service over the gorm repositories and the token service, in the
    environment in which nothing fails. *)

Definition toy_service : userService := NewUserService
  (GORM.NewGORMUserRepository Pool)
  (GORM.NewGORMRefreshTokenRepository Pool (uuid_String toy_uuid))
  (NewTokenService ToyJWT.jwt (uuid_String toy_uuid) toy_config)
  (GORM.NewGORMTxManager Pool)
  (RefreshTokenExpiry toy_config).

Lemma toy_ttl : ttl_ok (RefreshTokenExpiry toy_config).
Proof. by vm_compute. Qed.

#[export] Instance toy_users : UserRepositoryLaws good_env (userRepository toy_service) :=
  GORM_UserRepositoryLaws.
#[export] Instance toy_sessions : RefreshTokenRepositoryLaws good_env (refreshTokenRepository toy_service) :=
  GORM_RefreshTokenRepositoryLaws (uuid_String toy_uuid).
#[export] Instance toy_tokens : TokenServiceLaws good_env (tokenService toy_service) :=
  tokenService_laws ToyJWT.jwt toy_uuid good_env toy_config toy_ttl.
#[export] Instance toy_tx : TxManagerLaws good_env (txManager toy_service) :=
  GORM_TxManagerLaws good_env.

Definition ann : RegisterUserRequest := mkRegisterReq "ann@example.org" "correct horse" "Ann".

(** Ann registers, ... *)
Definition ann_run := Eval vm_compute in run good_env (Register toy_service Background ann) (start empty_tables).
Lemma ann_run_eq : run good_env (Register toy_service Background ann) (start empty_tables) = ann_run.
Proof. vm_compute. reflexivity. Qed.

Definition ann_state : state := Eval vm_compute in ann_run.2.
Definition ann_response : RegisterResponse := Eval vm_compute in
  match ann_run.1 with Ok resp => resp | Err _ => mkAuth (mkGetUser 0 "" "") "" "" end.
Definition ann_id : UUID := Eval vm_compute in gu_ID (ar_User ann_response).
Definition ann_token : string := ar_RefreshToken ann_response.

Lemma register_atomic_witness :
  registered good_env toy_service ann empty_tables ann_response (st_db ann_state).
Proof.
  exact (register_atomic good_env toy_service Background ann (start empty_tables) _ _ eq_refl ann_run_eq).
Defined.

(** A property of every selected row of a concrete table is decided by computing. *)
Lemma every_selected {R} (t : table R) (p : R -> bool) db (Q : R -> Prop) :
  map_Forall (fun _ x => visible t x && p x = true -> Q x) (rows t db) ->
  forall x, selected t p db x -> Q x.
Proof. intros H x (k & Hk & Hv & Hp). apply (H k x Hk). by rewrite Hv, Hp. Qed.

Lemma ann_token_minted : refresh_for (ts := tokenService toy_service) ann_token ann_id.
Proof.
  destruct (wp_run _ _ _ _ _ _ (wp_Register good_env toy_service Background eq_refl ann (start empty_tables)) ann_run_eq)
    as (row & _ & _ & _ & _ & _ & _ & _ & (_ & Hr & _) & _).
  exact Hr.
Qed.

(** ... signs in, ... *)
Definition ann_login : LoginRequest := mkLoginReq "ann@example.org" "correct horse".
Definition login_run := Eval vm_compute in run good_env (Login toy_service Background ann_login) ann_state.
Lemma login_run_eq : run good_env (Login toy_service Background ann_login) ann_state = login_run.
Proof. vm_compute. reflexivity. Qed.

Lemma login_verifies_witness :
  match login_run with
  | (Ok resp, s') => logged_in good_env toy_service ann_login (st_db ann_state) resp (st_db s')
  | (Err _, _) => False
  end.
Proof. exact (login_verifies good_env toy_service Background ann_login ann_state _ _ eq_refl login_run_eq). Defined.

(** ... or fails to, with an unknown address, with a wrong password, and with the unknown
    address again, now that the placeholder exists. *)
Definition refuse (email : string) (s : state) : result LoginResponse * state :=
  run good_env (Login toy_service Background (mkLoginReq email "x")) s.
Definition unknown_run := Eval vm_compute in refuse "bob@example.org" ann_state.
Definition wrong_run := Eval vm_compute in refuse "ann@example.org" unknown_run.2.
Definition again_run := Eval vm_compute in refuse "bob@example.org" wrong_run.2.
Lemma unknown_run_eq : refuse "bob@example.org" ann_state = unknown_run.
Proof. vm_compute. reflexivity. Qed.
Lemma wrong_run_eq : refuse "ann@example.org" unknown_run.2 = wrong_run.
Proof. vm_compute. reflexivity. Qed.
Lemma again_run_eq : refuse "bob@example.org" wrong_run.2 = again_run.
Proof. vm_compute. reflexivity. Qed.

Lemma ann_state_ok : tables_ok good_env toy_service (st_db ann_state).
Proof.
  change ann_state with (after good_env toy_uuid toy_service (CallRegister ann) (start empty_tables)).
  apply (after_ok good_env toy_uuid toy_service). split; (split; [|split]); intros k x; simpl; by rewrite lookup_empty.
Qed.

Lemma toy_placeholder n : is_ok (env_bcrypt_generate good_env n placeholder DefaultCost) = true.
Proof. vm_compute. reflexivity. Qed.

Lemma login_refusal_uniform_witness :
  placeholder_ok good_env again_run.2 /\
  drop (length (st_trace ann_state)) (st_trace again_run.2) =
    [EvBcryptGenerate DefaultCost; EvBcryptCompare (toy_salt ++ placeholder) (to_bytes "x");
     EvBcryptCompare (toy_salt ++ to_bytes (rr_Password ann)) (to_bytes "x");
     EvBcryptCompare (toy_salt ++ placeholder) (to_bytes "x")].
Proof.
  split; [|vm_compute; reflexivity].
  assert (H0 : placeholder_ok good_env ann_state) by (intros h; vm_compute; discriminate).
  destruct (login_refusal_uniform good_env toy_service Background (mkLoginReq "bob@example.org" "x") ann_state _ _
    eq_refl ann_state_ok H0 toy_placeholder
    ltac:(apply every_selected; apply (bool_decide_unpack _); vm_compute; exact I) unknown_run_eq) as (e1 & _ & D1 & H1 & _).
  destruct (login_refusal_uniform good_env toy_service Background (mkLoginReq "ann@example.org" "x") unknown_run.2 _ _
    eq_refl (eq_ind _ (tables_ok good_env toy_service) ann_state_ok _ (eq_sym D1)) H1 toy_placeholder
    ltac:(apply every_selected; apply (bool_decide_unpack _); vm_compute; exact I) wrong_run_eq) as (e2 & _ & D2 & H2 & _).
  destruct (login_refusal_uniform good_env toy_service Background (mkLoginReq "bob@example.org" "x") wrong_run.2 _ _
    eq_refl (eq_ind _ (tables_ok good_env toy_service) ann_state_ok _ (eq_sym (eq_trans D2 D1))) H2 toy_placeholder
    ltac:(apply every_selected; apply (bool_decide_unpack _); vm_compute; exact I) again_run_eq) as (e3 & _ & _ & H3 & _).
  exact H3.
Defined.

(** Her token is exchanged once, and not twice. *)
Definition refresh_run := Eval vm_compute in run good_env (Refresh toy_uuid toy_service Background ann_token) ann_state.
Lemma refresh_run_eq : run good_env (Refresh toy_uuid toy_service Background ann_token) ann_state = refresh_run.
Proof. vm_compute. reflexivity. Qed.

Definition refresh_pair : TokenPair := Eval vm_compute in
  match refresh_run.1 with Ok tp => tp | Err _ => mkPair "" "" end.
Definition refresh_state : state := Eval vm_compute in refresh_run.2.

Lemma refresh_outcomes_witness :
  is_ok refresh_run.1 = true /\ exists tr, st_trace refresh_state = st_trace ann_state ++ tr /\
    refresh_outcome good_env toy_uuid toy_service (mkGetUser ann_id "" "") ann_token
      (st_db ann_state) refresh_run.1 (st_db refresh_state) tr.
Proof.
  split; [reflexivity|].
  exact (refresh_outcomes good_env toy_uuid toy_service Background ann_token ann_id ann_state _ _
           eq_refl ann_token_minted refresh_run_eq).
Defined.

Definition replay_run := Eval vm_compute in run good_env (Refresh toy_uuid toy_service Background ann_token) refresh_state.
Lemma replay_run_eq : run good_env (Refresh toy_uuid toy_service Background ann_token) refresh_state = replay_run.
Proof. vm_compute. reflexivity. Qed.

Lemma refresh_single_use_witness :
  (exists err, replay_run.1 = Err err) /\ t_tokens (st_db replay_run.2) = ∅.
Proof.
  split; [|reflexivity].
  destruct (refresh_single_use good_env toy_uuid toy_service Background ann_token ann_id ann_state
    refresh_pair refresh_state _ _ eq_refl ann_token_minted refresh_run_eq
    ltac:(apply (bool_decide_unpack _); vm_compute; exact I) replay_run_eq) as (err & Herr & _).
  by exists err.
Defined.

(** She changes her password, ... *)
Definition ann_change : ChangePasswordRequest := mkChangeReq "correct horse" "battery staple".
Definition change_run := Eval vm_compute in run good_env (ChangePassword toy_service Background ann_id ann_change) ann_state.
Lemma change_run_eq : run good_env (ChangePassword toy_service Background ann_id ann_change) ann_state = change_run.
Proof. vm_compute. reflexivity. Qed.

Lemma change_password_ends_sessions_witness :
  match change_run with
  | (Ok tp, s') => password_changed good_env toy_service ann_id ann_change (st_db ann_state) tp (st_db s')
  | (Err _, _) => False
  end.
Proof.
  exact (proj1 (change_password_ends_sessions good_env toy_service Background ann_id ann_change ann_state _ _
                  eq_refl change_run_eq)).
Defined.

(** ... looks at her sessions, ... *)
Definition list_run := Eval vm_compute in
  run good_env (ListSessions toy_service Background ann_id ann_token (mkPagination 1 10)) ann_state.
Lemma list_run_eq :
  run good_env (ListSessions toy_service Background ann_id ann_token (mkPagination 1 10)) ann_state = list_run.
Proof. vm_compute. reflexivity. Qed.

Lemma list_sessions_page_witness :
  match list_run with
  | (Ok l, s') => s' ≡ ann_state /\ se_Current <$> sl_Sessions l = [true] /\ mt_Total (sl_Meta l) = 1
  | (Err _, _) => False
  end.
Proof.
  split; [|by split].
  exact (proj1 (list_sessions_page good_env toy_service Background ann_id ann_token (mkPagination 1 10)
                  ann_state _ _ eq_refl list_run_eq)).
Defined.

(** ... the janitor finds nothing to sweep, ... *)
Definition purge_run := Eval vm_compute in run good_env (PurgeExpiredRefreshTokens toy_service Background) ann_state.
Lemma purge_run_eq : run good_env (PurgeExpiredRefreshTokens toy_service Background) ann_state = purge_run.
Proof. vm_compute. reflexivity. Qed.

Lemma purge_removes_expired_witness :
  purge_run.1 = Ok 0 /\ exists k, forall id row, t_tokens (st_db purge_run.2) !! id = Some row <->
    t_tokens (st_db ann_state) !! id = Some row /\ env_now good_env k <= rt_ExpiresAt row.
Proof.
  split; [reflexivity|].
  destruct (purge_removes_expired good_env toy_service Background ann_state _ _ eq_refl purge_run_eq) as (k & H & _).
  by exists k.
Defined.

(** ... and she leaves: nobody can have her address after that. *)
Definition delete_run := Eval vm_compute in run good_env (DeleteAccount toy_service Background ann_id) ann_state.
Lemma delete_run_eq : run good_env (DeleteAccount toy_service Background ann_id) ann_state = delete_run.
Proof. vm_compute. reflexivity. Qed.

Lemma delete_account_complete_witness :
  delete_run.1 = Ok tt /\ forall row, ~ selected TUsers (user_has_id ann_id) (st_db delete_run.2) row.
Proof.
  split; [reflexivity|].
  exact (proj1 (proj2 (delete_account_complete good_env toy_service Background ann_id ann_state _ _ eq_refl delete_run_eq))).
Defined.

Definition ann_row : UserEntity := Eval vm_compute in
  match t_users (st_db ann_state) !! ann_id with Some row => row | None => mkUser 0 "" [] "" 0 0 None end.

Lemma deleted_email_stays_taken_witness :
  (run good_env (Register toy_service Background ann) delete_run.2).1 = Err (EApp ErrUserAlreadyExists) /\
  is_ok (run good_env (Register toy_service Background ann) delete_run.2).1 = false.
Proof.
  split; [by vm_compute|].
  exact (proj1 (deleted_email_stays_taken good_env toy_service Background ann_id ann_row ann ann_state
    delete_run.2 _ _ eq_refl ltac:(exists ann_id; repeat split; vm_compute; reflexivity) eq_refl
    delete_run_eq (surjective_pairing _))).
Defined.

Lemma reachable_tables_ok_witness :
  tables_ok good_env toy_service
    (st_db (after good_env toy_uuid toy_service CallPurge (after good_env toy_uuid toy_service (CallRegister ann) (start empty_tables)))).
Proof.
  apply (reachable_tables_ok good_env toy_uuid toy_service).
  apply reachable_call, reachable_call, reachable_init. reflexivity.
Defined.
