(* ===== verification/Lts.v ===== *)
(** * Labelled transition systems and forward simulations

    The vocabulary of the refinement theorems: executions of a transition system
    as sequences of labels, invariants by induction over them, and a class of
    forward simulations, each of which carries every execution of an
    implementation over to its specification with the same labels. *)

From S2P Require Import Prelude.

(** A system over the labels [X]: what it can be in, and what it can do. *)
Record lts (X : Type) := mkLts {
  lts_state : Type;
  lts_step : lts_state -> X -> lts_state -> Prop
}.
Arguments mkLts {X} _ _.
Arguments lts_state {X} _.
Arguments lts_step {X} _ _ _ _.

Section executions.
Context {X : Type} (L : lts X).

Inductive executes : lts_state L -> list X -> lts_state L -> Prop :=
  | executes_nil s : executes s [] s
  | executes_cons s1 l s2 ls s3 :
      lts_step L s1 l s2 -> executes s2 ls s3 -> executes s1 (l :: ls) s3.

Lemma executes_app s1 ls s2 ls' s3 :
  executes s1 ls s2 -> executes s2 ls' s3 -> executes s1 (ls ++ ls') s3.
Proof. induction 1; simpl; [done|]. intros H'. econstructor; eauto. Qed.

Lemma executes_app_inv s1 ls ls' s3 :
  executes s1 (ls ++ ls') s3 -> exists s2, executes s1 ls s2 /\ executes s2 ls' s3.
Proof.
  revert s1. induction ls as [|l ls IH]; intros s1 H; simpl in H.
  - exists s1. split; [constructor|done].
  - inversion H as [|? ? s2 ? ? Hstep Hrest]; subst.
    destruct (IH s2 Hrest) as (s & H1 & H2). exists s. split; [by econstructor|done].
Qed.

(** A step that happens in an execution, with what came before and after it. *)
Lemma executes_middle s1 ls l ls' s4 :
  executes s1 (ls ++ l :: ls') s4 ->
  exists s2 s3, executes s1 ls s2 /\ lts_step L s2 l s3 /\ executes s3 ls' s4.
Proof.
  intros (s2 & H1 & H2)%executes_app_inv. inversion H2; subst. by do 2 eexists.
Qed.

(** A property kept by every step whose label satisfies [P] holds along every
    execution made of such steps. *)
Definition stable_under (P : X -> Prop) (I : lts_state L -> Prop) : Prop :=
  forall s l s', P l -> I s -> lts_step L s l s' -> I s'.

Definition stable : (lts_state L -> Prop) -> Prop := stable_under (fun _ => True).

Lemma executes_stable_under P I s ls s' :
  stable_under P I -> executes s ls s' -> Forall P ls -> I s -> I s'.
Proof. intros HI. induction 1; [done|]. intros [HP HPs]%Forall_cons Hs. by eauto. Qed.

Lemma executes_stable I s ls s' : stable I -> executes s ls s' -> I s -> I s'.
Proof. intros HI Hex. eapply executes_stable_under; [done..|]. by apply Forall_true. Qed.
End executions.

(** Every step of [C] out of a state related to one of [A] can be answered by [A]
    with the same label. *)
Class ForwardSimulation {X} (C A : lts X) (R : lts_state C -> lts_state A -> Prop) : Prop :=
  simulates c l c' a :
    R c a -> lts_step C c l c' -> exists a', lts_step A a l a' /\ R c' a'.

Lemma executes_simulated {X} (C A : lts X) R `{!ForwardSimulation C A R} c ls c' a :
  R c a -> executes C c ls c' -> exists a', executes A a ls a' /\ R c' a'.
Proof.
  intros HR H. revert a HR. induction H as [c|c l c1 ls c' Hstep _ IH]; intros a HR.
  - exists a. split; [constructor|done].
  - destruct (simulates c l c1 a HR Hstep) as (a1 & Ha & H1).
    destruct (IH a1 H1) as (a' & Hex & H'). exists a'. split; [by econstructor|done].
Qed.
