(* ===== verification/AccountMachine.v ===== *)
(** * What the user service promises: an abstract machine

    The machine knows live accounts, the addresses and ids ever given out, and
    which token digests open a session of whom until when.  A step answers one
    call; it says nothing of rows, transactions, timestamps or statements, and
    allows every call to fail without effect.  Refinement.v proves that the
    service implements it. *)

From S2P Require Import Prelude GoStd Apperr Model Gorm Effects Repository RepositoryLaws Testbed Token UserService UserSpec Accounts Lts.

Record account := mkAccount {
  ac_Email : string;
  ac_Name : string;
  ac_Secret : bytes                     (* what the password is verified against *)
}.

Record session := mkAbsSession {
  ss_Owner : UUID;
  ss_Expires : time
}.

Record world := mkWorld {
  w_live : gmap UUID account;
  w_ids : gset UUID;                    (* every id an account ever had *)
  w_taken : gset string;                (* every address an account ever had *)
  w_sessions : gmap string session      (* by the digest of the refresh token *)
}.

Definition initial : world := mkWorld ∅ ∅ ∅ ∅.

(** What each call answers. *)
Definition reply (c : call) : Type :=
  match c with
  | CallRegister _ => result RegisterResponse
  | CallLogin _ => result LoginResponse
  | CallRefresh _ => result RefreshResponse
  | CallRevoke _ => result unit
  | CallGetUser _ => result GetUser
  | CallListSessions _ _ _ => result SessionList
  | CallChangePassword _ _ => result ChangePasswordResponse
  | CallDeleteAccount _ => result unit
  | CallPurge => result Z
  end.

(** A call and its answer: the label of a step. *)
Definition exchange : Type := { c : call & reply c }.

Section machine.
(** Which passwords a secret accepts; which refresh tokens were minted for whom;
    what the clock may read; how ids are written; how long a session lasts. *)
Context (accepts : bytes -> string -> Prop) (minted : string -> UUID -> Prop) (reading : time -> Prop)
        (parses : string -> UUID -> Prop) (ttl : duration).

(** The sessions of everyone but [uid]. *)
Definition others (uid : UUID) (m : gmap string session) : gmap string session :=
  filter (fun ds => ss_Owner ds.2 <> uid) m.

(** [m'] is [m] with a session of [uid] opened by [tok]. *)
Definition opens (uid : UUID) (tok : string) (m m' : gmap string session) : Prop :=
  minted tok uid /\
  exists now, reading now /\ m !! Hash tok = None /\ m' = <[Hash tok := mkAbsSession uid (now + ttl)]> m.

Definition with_sessions (m : gmap string session) (w : world) : world :=
  mkWorld (w_live w) (w_ids w) (w_taken w) m.

Definition with_live (m : gmap UUID account) (w : world) : world :=
  mkWorld m (w_ids w) (w_taken w) (w_sessions w).

Definition user_of (uid : UUID) (a : account) : GetUser := mkGetUser uid (ac_Email a) (ac_Name a).

Definition signs_up (w : world) (req : RegisterUserRequest) (resp : RegisterResponse) (w' : world) : Prop :=
  exists uid secret m,
    let a := mkAccount (rr_Email req) (rr_Name req) secret in
    accepts secret (rr_Password req) /\
    (uid ∉ w_ids w) /\ (rr_Email req ∉ w_taken w) /\
    ar_User resp = user_of uid a /\
    opens uid (ar_RefreshToken resp) (w_sessions w) m /\
    w' = mkWorld (<[uid := a]> (w_live w)) ({[uid]} ∪ w_ids w) ({[rr_Email req]} ∪ w_taken w) m.

Definition signs_in (w : world) (req : LoginRequest) (resp : LoginResponse) (w' : world) : Prop :=
  exists uid a m,
    w_live w !! uid = Some a /\ ac_Email a = lr_Email req /\ accepts (ac_Secret a) (lr_Password req) /\
    ar_User resp = user_of uid a /\
    opens uid (ar_RefreshToken resp) (w_sessions w) m /\ w' = with_sessions m w.

Definition rotates (w : world) (tok : string) (tp : TokenPair) (w' : world) : Prop :=
  exists ss now m,
    w_sessions w !! Hash tok = Some ss /\ (forall uid, minted tok uid -> uid = ss_Owner ss) /\
    reading now /\ now <= ss_Expires ss /\
    opens (ss_Owner ss) (tp_RefreshToken tp) (delete (Hash tok) (w_sessions w)) m /\
    w' = with_sessions m w.

(** A refused refresh: nothing happens, or a replay ends the sessions of the user
    the token was minted for, or a session past its end is removed. *)
Definition refuses (w : world) (tok : string) (err : error) (w' : world) : Prop :=
  w' = w \/
  (err = EApp ErrRefreshTokenRevoked /\ w_sessions w !! Hash tok = None /\
   exists uid, (forall uid', minted tok uid' -> uid' = uid) /\ w' = with_sessions (others uid (w_sessions w)) w) \/
  (err = EApp ErrRefreshTokenExpired /\
   exists ss now, w_sessions w !! Hash tok = Some ss /\ reading now /\ ss_Expires ss < now /\
     w' = with_sessions (delete (Hash tok) (w_sessions w)) w).

Definition changes_password (w : world) (uid : UUID) (req : ChangePasswordRequest) (tp : TokenPair) (w' : world)
  : Prop :=
  exists a secret m,
    w_live w !! uid = Some a /\ accepts (ac_Secret a) (cp_CurrentPassword req) /\
    accepts secret (cp_NewPassword req) /\
    opens uid (tp_RefreshToken tp) (others uid (w_sessions w)) m /\
    w' = with_sessions m (with_live (<[uid := mkAccount (ac_Email a) (ac_Name a) secret]> (w_live w)) w).

Definition leaves (w : world) (uid : UUID) (w' : world) : Prop :=
  is_Some (w_live w !! uid) /\
  w' = with_sessions (others uid (w_sessions w)) (with_live (delete uid (w_live w)) w).

Definition sweeps (w : world) (n : Z) (w' : world) : Prop :=
  exists now, reading now /\
    w' = with_sessions (filter (fun ds => now <= ss_Expires ds.2) (w_sessions w)) w /\
    n = Z.of_nat (size (w_sessions w)) - Z.of_nat (size (w_sessions w')).

Definition shows (w : world) (id : string) (user : GetUser) : Prop :=
  exists uid a, parses id uid /\ w_live w !! uid = Some a /\ user = user_of uid a.

Definition lists (w : world) (uid : UUID) (l : SessionList) : Prop :=
  exists now, reading now /\
    mt_Total (sl_Meta l) =
      Z.of_nat (size (filter (fun ds => ss_Owner ds.2 = uid /\ now < ss_Expires ds.2) (w_sessions w))).

Definition step (w : world) (x : exchange) (w' : world) : Prop :=
  match x with
  | existT (CallRegister req) (Ok resp) => signs_up w req resp w'
  | existT (CallLogin req) (Ok resp) => signs_in w req resp w'
  | existT (CallRefresh tok) (Ok tp) => rotates w tok tp w'
  | existT (CallRefresh tok) (Err err) => refuses w tok err w'
  | existT (CallRevoke uid) (Ok _) => w' = with_sessions (others uid (w_sessions w)) w
  | existT (CallGetUser id) (Ok user) => shows w id user /\ w' = w
  | existT (CallListSessions uid _ _) (Ok l) => lists w uid l /\ w' = w
  | existT (CallChangePassword uid req) (Ok tp) => changes_password w uid req tp w'
  | existT (CallDeleteAccount uid) (Ok _) => leaves w uid w'
  | existT CallPurge (Ok n) => sweeps w n w'
  | _ => w' = w
  end.

Definition machine : lts exchange := mkLts world step.

(** ** Invariants

    Sessions belong to live accounts, and a live account's id and address are
    among those given out; no two live accounts share an address. *)
Definition world_ok (w : world) : Prop :=
  map_Forall (fun _ ss => is_Some (w_live w !! ss_Owner ss)) (w_sessions w) /\
  map_Forall (fun uid a => uid ∈ w_ids w /\ ac_Email a ∈ w_taken w) (w_live w) /\
  (forall uid uid' a a', w_live w !! uid = Some a -> w_live w !! uid' = Some a' ->
     ac_Email a = ac_Email a' -> uid = uid').

Lemma initial_ok : world_ok initial.
Proof. split; [|split]; intros k x; simpl; by rewrite lookup_empty. Qed.

Lemma others_lookup uid m d ss :
  others uid m !! d = Some ss <-> m !! d = Some ss /\ ss_Owner ss <> uid.
Proof. unfold others. by rewrite map_lookup_filter_Some. Qed.

Lemma world_ok_sessions w m :
  world_ok w -> map_Forall (fun _ ss => is_Some (w_live w !! ss_Owner ss)) m -> world_ok (with_sessions m w).
Proof. by intros (_ & Hl & He) Hm. Qed.

Lemma sessions_filter (P : gmap UUID account) (f : string * session -> Prop) `{!forall x, Decision (f x)} (m : gmap string session) :
  map_Forall (fun _ ss => is_Some (P !! ss_Owner ss)) m ->
  map_Forall (fun _ ss => is_Some (P !! ss_Owner ss)) (filter f m).
Proof. intros Hm d ss [Hd _]%map_lookup_filter_Some. by eapply Hm. Qed.

Lemma sessions_opens (P : gmap UUID account) uid tok m m' :
  is_Some (P !! uid) -> opens uid tok m m' ->
  map_Forall (fun _ ss => is_Some (P !! ss_Owner ss)) m ->
  map_Forall (fun _ ss => is_Some (P !! ss_Owner ss)) m'.
Proof. intros HP (_ & now & _ & _ & ->) Hm. by apply map_Forall_insert_2. Qed.

Lemma step_ok : stable machine world_ok.
Proof.
  intros w [c r] w' _ Hw Hstep. pose proof Hw as (Hs & Hl & He).
  destruct c; destruct r as [x|err]; simpl in Hstep; try (by subst).
  - destruct Hstep as (uid & secret & m & Hacc & Hid & Hem & _ & Ho & ->).
    assert (Hnone : w_live w !! uid = None).
    { destruct (w_live w !! uid) eqn:Hu; [|done]. by apply Hl in Hu as [??]. }
    split; [|split]; simpl.
    + eapply sessions_opens; [|exact Ho|]; [by rewrite lookup_insert_eq|].
      intros d ss Hd%Hs. by apply lookup_insert_is_Some'; right.
    + apply map_Forall_insert_2; [set_solver|]. intros k a [Hk1 Hk2]%Hl. set_solver.
    + intros k k' a a' [[<- <-]|[_ Ha]]%lookup_insert_Some [[<- <-]|[_ Ha']]%lookup_insert_Some; simpl; intros Heq;
        [done|apply Hl in Ha'|apply Hl in Ha|by eauto]; destruct Hem; destruct_and?; congruence.
  - destruct Hstep as (uid & a & m & Ha & _ & _ & _ & Ho & ->).
    apply world_ok_sessions; [done|]. by eapply sessions_opens; [eexists| |].
  - destruct Hstep as (ss & now & m & Hss & _ & _ & _ & Ho & ->).
    apply world_ok_sessions; [done|]. eapply sessions_opens; [by eapply Hs|exact Ho|].
    by apply map_Forall_delete.
  - destruct Hstep as [->|[(_ & _ & uid & _ & ->)|(_ & ss & now & _ & _ & _ & ->)]]; [done| |];
      apply world_ok_sessions; try done; [by apply sessions_filter|by apply map_Forall_delete].
  - subst. apply world_ok_sessions; [done|by apply sessions_filter].
  - by destruct Hstep as [_ ->].
  - by destruct Hstep as [_ ->].
  - destruct Hstep as (a & secret & m & Ha & _ & _ & Ho & ->). split; [|split]; simpl.
    + eapply sessions_opens; [by rewrite lookup_insert_eq|exact Ho|].
      apply sessions_filter. intros d ss Hd%Hs. apply lookup_insert_is_Some'. by right.
    + apply map_Forall_insert_2; [by apply (Hl uid a)|exact Hl].
    + intros k k' b b' [[<- <-]|[_ Hb]]%lookup_insert_Some [[<- <-]|[_ Hb']]%lookup_insert_Some; simpl; eauto.
  - destruct Hstep as [[a Ha] ->]. split; [|split]; simpl.
    + intros d ss [Hd Ho]%others_lookup. rewrite lookup_delete_ne by done. by eapply Hs.
    + by apply map_Forall_delete.
    + intros k k' b b' [_ Hb]%lookup_delete_Some [_ Hb']%lookup_delete_Some. by eapply He.
  - destruct Hstep as (now & _ & -> & _). apply world_ok_sessions; [done|by apply sessions_filter].
Qed.

(** The cases of a step, by call and answer, with its equations substituted. *)
Ltac open_step c r H :=
  destruct c; destruct r as [?x|?err]; simpl in H; try (by subst);
  unfold signs_up, signs_in, rotates, refuses, changes_password, leaves, sweeps, shows, lists in H;
  repeat match goal with
  | H : _ \/ _ |- _ => destruct H
  | H : exists _, _ |- _ => destruct H
  | H : _ /\ _ |- _ => destruct H
  end; subst; simpl; try done.

(** ** What no later call can undo *)

(** An address that was registered is taken for good. *)
Lemma taken_stable email : stable machine (fun w => email ∈ w_taken w).
Proof.
  intros w [c r] w' _ Hw Hstep. open_step c r Hstep.
  apply elem_of_union. by right.
Qed.

Lemma register_needs_free_email w req resp w' :
  step w (existT (CallRegister req) (Ok resp)) w' -> (rr_Email req ∉ w_taken w) /\ (rr_Email req ∈ w_taken w').
Proof. intros (uid & secret & m & _ & _ & Hem & _ & _ & ->). split; [done|]. simpl.
  apply elem_of_union_l, elem_of_singleton_2. done. Qed.

(** An id whose account was deleted belongs to nobody for good. *)
Definition departed (uid : UUID) (w : world) : Prop := world_ok w /\ (uid ∈ w_ids w) /\ w_live w !! uid = None.

Lemma departed_stable uid : stable machine (departed uid).
Proof.
  intros w x w' _ (Hok & Hid & Hu) Hstep. split; [by eapply step_ok|].
  destruct x as [c r]. open_step c r Hstep.
  - split; [by apply elem_of_union_r|]. by rewrite lookup_insert_ne by congruence.
  - split; [done|]. rewrite lookup_insert_ne; congruence.
  - split; [done|]. rewrite lookup_delete_None. by right.
Qed.

(** An answer that acts for the account [uid]. *)
Definition acts_for (uid : UUID) (x : exchange) : Prop :=
  match x with
  | existT (CallRegister _) (Ok resp) => gu_ID (ar_User resp) = uid
  | existT (CallLogin _) (Ok resp) => gu_ID (ar_User resp) = uid
  | existT (CallRefresh tok) (Ok _) => minted tok uid
  | existT (CallGetUser _) (Ok user) => gu_ID user = uid
  | existT (CallChangePassword uid' _) (Ok _) => uid' = uid
  | existT (CallDeleteAccount uid') (Ok _) => uid' = uid
  | _ => False
  end.

Lemma departed_never_acts uid w x w' : departed uid w -> step w x w' -> ~ acts_for uid x.
Proof.
  intros ((Hs & _) & Hid & Hu) Hstep Hact. destruct x as [c r].
  open_step c r Hstep; simpl in Hact; subst;
    repeat match goal with
    | H : ar_User _ = user_of _ _ |- _ => rewrite H in *; clear H
    end; simpl in *; try congruence.
  - match goal with
    | Hss : w_sessions w !! _ = Some ?ss, Hown : forall uid, minted _ uid -> _ |- _ =>
        destruct (Hs _ _ Hss) as [a Ha]; apply Hown in Hact; congruence
    end.
  - match goal with H : is_Some _ |- _ => destruct H as [? ?] end. congruence.
Qed.

Lemma leaving_departs w uid w' :
  world_ok w -> step w (existT (CallDeleteAccount uid) (Ok tt)) w' -> departed uid w'.
Proof.
  intros Hok Hstep. split; [by eapply step_ok|]. destruct Hok as (_ & Hl & _).
  destruct Hstep as [[a Ha] ->]. simpl. split; [by apply (Hl uid a)|by apply lookup_delete_eq].
Qed.

(** ** What ends a token *)

(** The answer hands out a token with this digest. *)
Definition hands_out (digest : string) (x : exchange) : Prop :=
  match x with
  | existT (CallRegister _) (Ok resp) => Hash (ar_RefreshToken resp) = digest
  | existT (CallLogin _) (Ok resp) => Hash (ar_RefreshToken resp) = digest
  | existT (CallRefresh _) (Ok tp) => Hash (tp_RefreshToken tp) = digest
  | existT (CallChangePassword _ _) (Ok tp) => Hash (tp_RefreshToken tp) = digest
  | _ => False
  end.

(** The answer says that [tok], a token of [uid], is of no use any more: it was
    exchanged, or its owner signed out, changed the password or left. *)
Definition ends (tok : string) (uid : UUID) (x : exchange) : Prop :=
  match x with
  | existT (CallRefresh tok') (Ok _) => tok' = tok
  | existT (CallRevoke uid') (Ok _) => uid' = uid
  | existT (CallChangePassword uid' _) (Ok _) => uid' = uid
  | existT (CallDeleteAccount uid') (Ok _) => uid' = uid
  | _ => False
  end.

Definition closed (tok : string) (uid : UUID) (w : world) : Prop :=
  forall ss, w_sessions w !! Hash tok = Some ss -> ss_Owner ss <> uid.

Lemma opens_lookup uid tok m m' d ss :
  opens uid tok m m' -> Hash tok <> d -> m' !! d = Some ss -> m !! d = Some ss.
Proof. intros (_ & now & _ & _ & ->) Hne [[??]|[_ ?]]%lookup_insert_Some; congruence. Qed.

Lemma ends_closed tok uid w x w' :
  step w x w' -> ends tok uid x -> ~ hands_out (Hash tok) x -> closed tok uid w'.
Proof.
  intros Hstep Hends Hnot ss Hss. destruct x as [c r].
  open_step c r Hstep; simpl in Hends, Hnot, Hss; subst.
  - eapply opens_lookup in Hss; [|done..]. by rewrite lookup_delete_eq in Hss.
  - by apply others_lookup in Hss as [_ ?].
  - eapply opens_lookup in Hss; [|done..]. by apply others_lookup in Hss as [_ ?].
  - by apply others_lookup in Hss as [_ ?].
Qed.

Lemma closed_stable tok uid : stable_under machine (fun x => ~ hands_out (Hash tok) x) (closed tok uid).
Proof.
  intros w x w' Hnot Hw Hstep ss Hss. apply (Hw ss). destruct x as [c r].
  open_step c r Hstep; simpl in Hnot, Hss;
    try (eapply opens_lookup in Hss; [|done..]); try done.
  - by apply lookup_delete_Some in Hss as [_ ?].
  - by apply others_lookup in Hss as [? _].
  - by apply lookup_delete_Some in Hss as [_ ?].
  - by apply others_lookup in Hss as [? _].
  - by apply others_lookup in Hss as [? _].
  - by apply others_lookup in Hss as [? _].
  - by apply map_lookup_filter_Some in Hss as [? _].
Qed.

Lemma closed_refuses tok uid w tp w' :
  closed tok uid w -> minted tok uid -> ~ step w (existT (CallRefresh tok) (Ok tp)) w'.
Proof.
  intros Hw Hm (ss & now & m & Hss & Hown & _). apply (Hw ss Hss). symmetry. by apply Hown.
Qed.

(** ** The same along executions *)

Lemma register_once w ls req resp ls' req' r w' :
  rr_Email req' = rr_Email req ->
  executes machine w (ls ++ existT (CallRegister req) (Ok resp) :: ls' ++ [existT (CallRegister req') r]) w' ->
  is_ok r = false.
Proof.
  intros Hem (w1 & w2 & _ & Hreg & (w3 & w4 & Hmid & Hlast & _)%executes_middle)%executes_middle.
  destruct r as [resp'|]; [exfalso|done].
  apply register_needs_free_email in Hreg as [_ Hin]. apply register_needs_free_email in Hlast as [Hout _].
  apply Hout. rewrite Hem. by eapply (executes_stable machine (fun w : world => rr_Email req ∈ w_taken w)); [apply taken_stable| |].
Qed.

Lemma departed_for_good w ls uid ls' x w' :
  world_ok w ->
  executes machine w (ls ++ existT (CallDeleteAccount uid) (Ok tt) :: ls' ++ [x]) w' -> ~ acts_for uid x.
Proof.
  intros Hok (w1 & w2 & Hpre & Hdel & (w3 & w4 & Hmid & Hlast & _)%executes_middle)%executes_middle.
  eapply departed_never_acts; [|exact Hlast].
  eapply executes_stable; [apply departed_stable|exact Hmid|]. eapply leaving_departs; [|exact Hdel].
  by eapply executes_stable; [apply step_ok|exact Hpre|].
Qed.

Lemma ended_for_good w ls x ls' tok uid r w' :
  minted tok uid -> ends tok uid x -> Forall (fun x => ~ hands_out (Hash tok) x) (x :: ls') ->
  executes machine w (ls ++ x :: ls' ++ [existT (CallRefresh tok) r]) w' -> is_ok r = false.
Proof.
  intros Hm Hends [Hnot Hnots]%Forall_cons
    (w1 & w2 & _ & Hx & (w3 & w4 & Hmid & Hlast & _)%executes_middle)%executes_middle.
  destruct r as [tp|]; [exfalso|done]. eapply closed_refuses; [|exact Hm|exact Hlast].
  eapply executes_stable_under; [apply closed_stable|exact Hmid|exact Hnots|]. by eapply ends_closed.
Qed.
End machine.
