(* ===== verification/Refinement.v ===== *)
(** * The user service implements the account machine

    [world_of] reads a world of AccountMachine.v off the tables.  Every call of the
    service is a step of the machine between the worlds of the tables before and
    after it, so that what the machine can never do the service can never do. *)

From S2P Require Import Prelude GoStd Apperr Model Gorm Effects Repository RepositoryLaws Testbed Token UserService UserSpec Accounts Lts AccountMachine.

(** ** The world of the tables *)

Definition account_of (x : UserEntity) : account := mkAccount (u_Email x) (u_Name x) (u_Password x).
Definition session_of (x : RefreshTokenEntity) : session := mkAbsSession (rt_UserID x) (rt_ExpiresAt x).

Definition live_of (m : gmap UUID UserEntity) : gmap UUID account :=
  omap (fun x => if visible TUsers x then Some (account_of x) else None) m.

Definition taken_of (m : gmap UUID UserEntity) : gset string := map_to_set (fun _ x => u_Email x) m.

Definition sessions_of (m : gmap UUID RefreshTokenEntity) : gmap string session :=
  list_to_map ((fun kx => (rt_TokenHash kx.2, session_of kx.2)) <$> map_to_list m).

Definition world_of (db : Tables) : world :=
  mkWorld (live_of (t_users db)) (dom (t_users db)) (taken_of (t_users db)) (sessions_of (t_tokens db)).

(** *** Accounts *)

Lemma live_of_lookup m uid a :
  live_of m !! uid = Some a <-> exists x, m !! uid = Some x /\ visible TUsers x = true /\ account_of x = a.
Proof.
  unfold live_of. rewrite lookup_omap_Some. split; intros (x & H).
  - exists x. destruct H as [H ?]. case_match; naive_solver.
  - exists x. destruct H as (? & -> & <-). done.
Qed.

Lemma taken_of_elem m email : (email ∈ taken_of m) <-> exists uid x, m !! uid = Some x /\ u_Email x = email.
Proof. unfold taken_of. by rewrite elem_of_map_to_set. Qed.

Lemma live_of_insert uid x m :
  visible TUsers x = true -> live_of (<[uid := x]> m) = <[uid := account_of x]> (live_of m).
Proof. intros Hv. unfold live_of. by rewrite omap_insert, Hv. Qed.

Lemma taken_of_insert uid x m :
  m !! uid = None -> taken_of (<[uid := x]> m) = {[u_Email x]} ∪ taken_of m.
Proof. intros Hm. unfold taken_of. by rewrite map_to_set_insert_L. Qed.

Lemma taken_of_fmap (f : UserEntity -> UserEntity) m :
  (forall x, u_Email (f x) = u_Email x) -> taken_of (f <$> m) = taken_of m.
Proof.
  intros Hf. apply set_eq. intros email. rewrite !taken_of_elem. split.
  - intros (uid & y & (x & <- & Hx)%lookup_fmap_Some & <-). exists uid, x. by rewrite Hf.
  - intros (uid & x & Hx & <-). exists uid, (f x). rewrite lookup_fmap, Hx. by rewrite Hf.
Qed.

(** *** Sessions *)

Lemma hashes_nodup m : unique_ok TTokens m -> NoDup ((fun kx => rt_TokenHash kx.2) <$> map_to_list m).
Proof.
  intros Hu. apply NoDup_fmap_2_strong; [|apply NoDup_map_to_list].
  intros [k x] [k' x'] Hx%elem_of_map_to_list Hx'%elem_of_map_to_list Hh. simpl in Hh.
  assert (k = k') as <- by (apply (Hu k x Hx k' x' Hx'); by apply String.eqb_eq). congruence.
Qed.

Lemma sessions_of_lookup m d ss :
  unique_ok TTokens m ->
  sessions_of m !! d = Some ss <-> exists k x, m !! k = Some x /\ rt_TokenHash x = d /\ session_of x = ss.
Proof.
  intros Hu. unfold sessions_of. rewrite <- elem_of_list_to_map.
  - rewrite list_elem_of_fmap. split.
    + intros ([k x] & [= -> ->] & Hx%elem_of_map_to_list). by exists k, x.
    + intros (k & x & Hx & <- & <-). exists (k, x). split; [done|]. by apply elem_of_map_to_list.
  - rewrite <- list_fmap_compose. by apply hashes_nodup.
Qed.

Lemma sessions_of_size m : unique_ok TTokens m -> size (sessions_of m) = size m.
Proof.
  intros Hu. rewrite <- (length_map_to_list (sessions_of m)), <- (length_map_to_list m). unfold sessions_of.
  rewrite map_to_list_to_map; [by rewrite length_fmap|]. rewrite <- list_fmap_compose. by apply hashes_nodup.
Qed.

Lemma sessions_of_filter (p : RefreshTokenEntity -> bool) (P : string * session -> Prop)
    `{!forall x, Decision (P x)} m :
  unique_ok TTokens m -> (forall x, p x = false <-> P (rt_TokenHash x, session_of x)) ->
  sessions_of (revoked p m) = filter P (sessions_of m).
Proof.
  intros Hu Hp. apply map_eq. intros d. apply option_eq. intros ss.
  rewrite map_lookup_filter_Some, !sessions_of_lookup by (done || by apply unique_ok_filter). split.
  - intros (k & x & [Hx Hpx]%revoked_lookup & <- & <-). split; [by exists k, x|]. by apply Hp.
  - intros [(k & x & Hx & <- & <-) HP]. exists k, x. by rewrite revoked_lookup, Hp.
Qed.

Lemma sessions_of_user uid m :
  unique_ok TTokens m -> sessions_of (revoked (token_of_user uid) m) = others uid (sessions_of m).
Proof. intros Hu. apply sessions_of_filter; [done|]. intros x. apply N.eqb_neq. Qed.

Lemma sessions_of_digest digest m :
  unique_ok TTokens m -> sessions_of (revoked (token_has_hash digest) m) = delete digest (sessions_of m).
Proof.
  intros Hu. rewrite (sessions_of_filter _ (fun ds => ds.1 <> digest)); [|done|intros x; apply String.eqb_neq].
  apply map_eq. intros d. apply option_eq. intros ss.
  rewrite map_lookup_filter_Some, lookup_delete_Some. simpl. split; intros [H1 H2]; by split; try apply not_eq_sym.
Qed.

Lemma sessions_of_insert x m :
  unique_ok TTokens m -> ~ collides TTokens x m ->
  sessions_of (<[rt_ID x := x]> m) = <[rt_TokenHash x := session_of x]> (sessions_of m) /\
  sessions_of m !! rt_TokenHash x = None.
Proof.
  intros Hu Hc. assert (Hfree : forall k y, m !! k = Some y -> rt_TokenHash y <> rt_TokenHash x).
  { intros k y Hy Hh. apply Hc. right. exists k, y. split; [done|]. by apply String.eqb_eq. }
  assert (Hnew : m !! rt_ID x = None).
  { apply eq_None_not_Some. intros [y Hy]. apply Hc. left. simpl. congruence. }
  split.
  - apply map_eq. intros d. apply option_eq. intros ss.
    rewrite lookup_insert_Some, !sessions_of_lookup; [|done|by apply (unique_ok_insert TTokens)]. split.
    + intros (k & y & [[<- <-]|[_ Hy]]%lookup_insert_Some & <- & <-); [by left|right].
      split; [by apply not_eq_sym, (Hfree k)|]. by exists k, y.
    + intros [[<- <-]|[Hd (k & y & Hy & Hh & Hs)]]; [exists (rt_ID x), x; by rewrite lookup_insert_eq|].
      exists k, y. rewrite lookup_insert_ne by congruence. done.
  - apply eq_None_not_Some. intros (ss & (k & y & Hy & Hh & _)%sessions_of_lookup); [by eapply Hfree|done].
Qed.

Lemma active_revoked uid now m :
  active_tokens uid now m = revoked (fun x => negb (token_active uid now x)) m.
Proof. apply map_filter_ext. intros k x _. simpl. by destruct (token_active uid now x). Qed.

(** *** Changes to the user table *)

Definition filed (m : gmap UUID UserEntity) : Prop := map_Forall (fun k x => u_ID x = k) m.

Lemma live_of_password uid row hashed now m :
  filed m -> m !! uid = Some row -> visible TUsers row = true ->
  live_of (with_password uid hashed now m) = <[uid := mkAccount (u_Email row) (u_Name row) hashed]> (live_of m).
Proof.
  intros Hf Hrow Hv. unfold with_password, live_of. apply map_eq. intros k.
  rewrite lookup_omap, lookup_fmap. destruct (decide (k = uid)) as [->|Hne].
  - rewrite lookup_insert_eq, Hrow. unfold user_has_id. cbn [fmap option_fmap option_map].
    rewrite (Hf _ _ Hrow), N.eqb_refl, Hv. simpl. unfold visible in Hv. by rewrite Hv.
  - rewrite lookup_insert_ne by done. rewrite lookup_omap. destruct (m !! k) as [x|] eqn:Hx; [|done].
    unfold user_has_id. cbn [fmap option_fmap option_map]. rewrite (Hf _ _ Hx).
    rewrite (proj2 (N.eqb_neq k uid)) by done. by rewrite andb_false_r.
Qed.

Lemma live_of_delete uid now m :
  filed m -> live_of (delete_rows TUsers (user_has_id uid) now m) = delete uid (live_of m).
Proof.
  intros Hf. unfold delete_rows, live_of. cbn [soft_delete]. apply map_eq. intros k.
  rewrite lookup_omap, lookup_fmap. destruct (decide (k = uid)) as [->|Hne].
  - rewrite lookup_delete_eq. destruct (m !! uid) as [x|] eqn:Hx; [|done].
    unfold user_has_id. cbn [fmap option_fmap option_map]. rewrite (Hf _ _ Hx), N.eqb_refl, andb_true_r.
    destruct (visible TUsers x) eqn:Hv; simpl; [done|]. unfold visible in Hv. by rewrite Hv.
  - rewrite lookup_delete_ne by done. rewrite lookup_omap. destruct (m !! k) as [x|] eqn:Hx; [|done].
    unfold user_has_id. cbn [fmap option_fmap option_map]. rewrite (Hf _ _ Hx).
    rewrite (proj2 (N.eqb_neq k uid)) by done. by rewrite andb_false_r.
Qed.

(** ** The service as a transition system *)

Section refinement.
Context (e : env) (u : UUIDLib) (svc : userService).
Context {HU : UserRepositoryLaws e (userRepository svc)}
        {HR : RefreshTokenRepositoryLaws e (refreshTokenRepository svc)}
        {HT : TokenServiceLaws e (tokenService svc)}
        {HM : TxManagerLaws e (txManager svc)}
        {HB : BcryptLaws e}.

Definition ask (c : call) : prog (reply c) :=
  match c return prog (reply c) with
  | CallRegister req => Register svc Background req
  | CallLogin req => Login svc Background req
  | CallRefresh tok => Refresh u svc Background tok
  | CallRevoke uid => RevokeRefreshTokens svc Background uid
  | CallGetUser id => GetUserByID u svc Background id
  | CallListSessions uid current page => ListSessions svc Background uid current page
  | CallChangePassword uid req => ChangePassword svc Background uid req
  | CallDeleteAccount uid => DeleteAccount svc Background uid
  | CallPurge => PurgeExpiredRefreshTokens svc Background
  end.

(** A token whose digest is stored is the token that was stored, and not another
    with the same SHA-256 digest: it was minted for the user of the row. *)
Definition genuine (c : call) (db : Tables) : Prop :=
  match c with
  | CallRefresh tok => forall row, selected TTokens (token_has_hash (Hash tok)) db row ->
      refresh_for (ts := tokenService svc) tok (rt_UserID row)
  | _ => True
  end.

Lemma collision_free_genuine c db :
  (forall tok tok', c = CallRefresh tok -> Hash tok' = Hash tok -> tok' = tok) ->
  tables_ok e svc db -> genuine c db.
Proof using Type.
  intros Hinj (_ & _ & _ & Hd). destruct c; try exact I. intros row (k & Hk & _ & Hh%String.eqb_eq).
  destruct (Hd k row Hk) as (tok' & Hr & Hh'). by rewrite <- (Hinj tok tok' eq_refl) by congruence.
Qed.

(** A step is a call that runs to its answer. *)
Definition service : lts exchange := mkLts state (fun s x s' =>
  genuine (projT1 x) (st_db s) /\ run e (ask (projT1 x)) s = (projT2 x, s')).

(** The machine, with the secrets, tokens, clock and ids of the service. *)
Definition accepts (h : bytes) (pw : string) : Prop := env_bcrypt_compare e h (to_bytes pw) = None.
Definition reading (t : time) : Prop := exists n, t = env_now e n.
Definition parses (id : string) (uid : UUID) : Prop := uuid_Parse u id = Ok uid.

Abbreviation minted := (fun tok uid => refresh_for (ts := tokenService svc) tok uid).
Abbreviation promised := (machine accepts minted reading parses (refreshTokenTTL svc)).

(** *** One step at a time *)

Context (db : Tables) (Hok : tables_ok e svc db).

Lemma session_selected tok row :
  selected TTokens (token_has_hash (Hash tok)) db row ->
  sessions_of (t_tokens db) !! Hash tok = Some (session_of row).
Proof using Hok.
  intros (k & Hk & _ & Hh%String.eqb_eq). apply sessions_of_lookup; [apply Hok|]. by exists k, row.
Qed.

Lemma session_unselected tok :
  (forall row, ~ selected TTokens (token_has_hash (Hash tok)) db row) ->
  sessions_of (t_tokens db) !! Hash tok = None.
Proof using Hok.
  intros Hno. apply eq_None_not_Some. intros (ss & (k & row & Hk & Hh & _)%sessions_of_lookup); [|apply Hok].
  apply (Hno row). exists k. split; [exact Hk|]. split; [done|]. by apply String.eqb_eq.
Qed.

Lemma account_selected uid row :
  selected TUsers (user_has_id uid) db row -> live_of (t_users db) !! uid = Some (account_of row).
Proof using Hok.
  intros (k & Hk & Hv & Hid%N.eqb_eq). apply live_of_lookup. exists row. split; [|done].
  destruct Hok as ((Hf & _) & _). rewrite (Hf _ _ Hk) in Hid. by subst.
Qed.

Lemma issued_opens user tp m m' :
  unique_ok TTokens m -> issued e svc user tp m m' ->
  opens minted reading (refreshTokenTTL svc) (gu_ID user) tp.2 (sessions_of m) (sessions_of m').
Proof using Type.
  intros Hu (_ & Hr & n & row & Hid & Hh & Hx & Hc & ->). split; [done|].
  destruct (sessions_of_insert row m Hu Hc) as [-> Hnone]. rewrite Hh in *.
  exists (env_now e n). split; [by exists n|]. split; [done|]. unfold session_of. by rewrite Hid, Hx.
Qed.

Lemma refines_register req resp db' :
  registered e svc req db resp db' ->
  signs_up accepts minted reading (refreshTokenTTL svc) (world_of db) req resp (world_of db').
Proof using Hok.
  intros (row & He & Hn & Hd & [_ Hcmp] & Hresp & Hc & Hdb & Hi & _).
  assert (Hnew : t_users db !! u_ID row = None).
  { apply eq_None_not_Some. intros [y Hy]. apply Hc. left. simpl. congruence. }
  assert (Hv : visible TUsers row = true) by (simpl; by rewrite Hd).
  apply issued_opens in Hi; [|apply Hok]. rewrite Hresp in Hi. simpl in Hi.
  exists (u_ID row), (u_Password row), (sessions_of (t_tokens db')). cbv zeta. rewrite <- He, <- Hn. conj; try done.
  - simpl. by apply not_elem_of_dom.
  - simpl. rewrite taken_of_elem. intros (k & y & Hy & Hem). apply Hc. right. exists k, y.
    split; [done|]. by apply String.eqb_eq.
  - unfold world_of. by rewrite Hdb, live_of_insert, taken_of_insert, dom_insert_L.
Qed.

Lemma refines_login req resp db' :
  logged_in e svc req db resp db' ->
  signs_in accepts minted reading (refreshTokenTTL svc) (world_of db) req resp (world_of db').
Proof using Hok.
  intros (row & m & (k & Hk & Hv & He%String.eqb_eq) & Hcmp & Hresp & Hi & ->).
  assert (Hid : u_ID row = k) by (destruct Hok as ((Hf & _) & _); by apply Hf).
  apply issued_opens in Hi; [|apply Hok]. rewrite Hresp in Hi. simpl in Hi.
  exists (u_ID row), (account_of row), (sessions_of m). conj; try done.
  simpl. apply live_of_lookup. exists row. by rewrite Hid.
Qed.

Lemma refines_change_password uid req tp db' :
  password_changed e svc uid req db tp db' ->
  changes_password accepts minted reading (refreshTokenTTL svc) (world_of db) uid req tp (world_of db').
Proof using Hok.
  intros (row & hashed & now & Hrow & Hcur & [_ Hnew] & Hdb & Hi & _).
  pose proof Hrow as (k & Hk & Hv & Hid%N.eqb_eq).
  assert (k = uid) as -> by (destruct Hok as ((Hf & _) & _); rewrite <- (Hf _ _ Hk); done).
  pose proof Hok as ((Hf & _) & (_ & Hu & _)).
  apply issued_opens in Hi; [|by apply unique_ok_filter]. rewrite sessions_of_user in Hi by done.
  exists (account_of row), hashed, (sessions_of (t_tokens db')). conj; try done.
  - by apply account_selected.
  - unfold world_of. rewrite Hdb, (live_of_password uid row) by done. unfold with_password at 1 2.
    rewrite dom_fmap_L, taken_of_fmap by (intros x; by case_match). done.
Qed.

Lemma refines_delete uid db' :
  (exists row, selected TUsers (user_has_id uid) db row) /\
  (exists now, db' = mkTables (delete_rows TUsers (user_has_id uid) now (t_users db))
                       (revoked (token_of_user uid) (t_tokens db)) (t_counters db) (t_messages db)) ->
  leaves (world_of db) uid (world_of db').
Proof using Hok.
  intros [[row Hrow] [now ->]]. pose proof Hok as ((Hf & _) & (_ & Hu & _)). split.
  - exists (account_of row). by apply account_selected.
  - unfold world_of. cbn [t_users t_tokens]. rewrite live_of_delete, sessions_of_user by done.
    unfold delete_rows. cbn [soft_delete]. rewrite dom_fmap_L, taken_of_fmap by (intros x; by case_match). done.
Qed.

Lemma refines_revoke uid :
  world_of (set_rows TTokens (revoked (token_of_user uid) (t_tokens db)) db)
  = with_sessions (others uid (sessions_of (t_tokens db))) (world_of db).
Proof using Hok. unfold world_of. cbn. rewrite sessions_of_user; [done|apply Hok]. Qed.

Lemma refines_purge k :
  sweeps reading (world_of db) (Z.of_nat (size (t_tokens db)) -
    Z.of_nat (size (revoked (token_expired (env_now e k)) (t_tokens db))))
    (world_of (set_rows TTokens (revoked (token_expired (env_now e k)) (t_tokens db)) db)).
Proof using Hok.
  pose proof Hok as (_ & (_ & Hu & _)). exists (env_now e k). split; [by exists k|]. split.
  - unfold world_of. cbn. rewrite (sessions_of_filter _ (fun ds => env_now e k <= ss_Expires ds.2)); [done|done|].
    intros x. apply Z.ltb_ge.
  - unfold world_of. cbn. rewrite !sessions_of_size; [done|by apply unique_ok_filter|done].
Qed.

Lemma refines_list uid l k :
  mt_Total (sl_Meta l) = Z.of_nat (size (active_tokens uid (env_now e k) (t_tokens db))) ->
  lists reading (world_of db) uid l.
Proof using Hok.
  intros Hl. exists (env_now e k). split; [by exists k|]. rewrite Hl. f_equal. f_equal.
  pose proof Hok as (_ & (_ & Hu & _)). simpl.
  rewrite <- (sessions_of_filter (fun x => negb (token_active uid (env_now e k) x))); [|done|].
  - rewrite active_revoked, sessions_of_size; [done|by apply unique_ok_filter].
  - intros x. simpl. unfold token_active, token_of_user. rewrite negb_false_iff, andb_true_iff, N.eqb_eq, Z.gtb_lt. done.
Qed.

Lemma refines_get_user id uid row :
  parses id uid -> selected TUsers (user_has_id uid) db row ->
  shows parses (world_of db) id (mkGetUser uid (u_Email row) (u_Name row)).
Proof using Hok. intros Hp Hrow. exists uid, (account_of row). conj; try done. by apply account_selected. Qed.

(** The owner of the session a refresh rotates is the user the claims name. *)
Lemma refines_rotation user tok tp db' tr :
  genuine (CallRefresh tok) db -> (forall uid, minted tok uid -> user = mkGetUser uid "" "") ->
  refresh_outcome e u svc user tok db (Ok tp) db' tr ->
  rotates minted reading (refreshTokenTTL svc) (world_of db) tok tp (world_of db').
Proof using Hok.
  intros Hg Huser Ho. apply refresh_outcome_ok in Ho as (row & n & m & Hrow & Hn & Hi & ->).
  pose proof Hok as (_ & (_ & Hu & _)).
  apply issued_opens in Hi; [|by apply unique_ok_filter]. rewrite sessions_of_digest in Hi by done.
  pose proof (Huser _ (Hg row Hrow)) as ->.
  exists (session_of row), (env_now e n), (sessions_of m). conj; try done.
  - by apply session_selected.
  - intros uid Hm. by specialize (Huser uid Hm) as [= <-].
  - by exists n.
Qed.

Lemma refines_refusal user tok err db' tr :
  (forall uid, minted tok uid -> user = mkGetUser uid "" "") ->
  refresh_outcome e u svc user tok db (Err err) db' tr ->
  refuses minted reading (world_of db) tok err (world_of db').
Proof using Hok.
  intros Huser Ho. pose proof Hok as (_ & (_ & Hu & _)).
  inversion Ho; subst; try (by left); right.
  - left. split; [done|]. split; [by apply session_unselected|].
    exists (gu_ID user). split; [by intros uid ->%Huser|]. apply refines_revoke.
  - right. split; [done|]. exists (session_of row), (env_now e n). split; [by apply session_selected|].
    split; [by exists n|]. split; [done|]. unfold world_of. cbn. by rewrite sessions_of_digest.
Qed.
End refinement.

(** ** The simulation *)

Section simulation.
Context (e : env) (u : UUIDLib) (svc : userService).
Context {HU : UserRepositoryLaws e (userRepository svc)}
        {HR : RefreshTokenRepositoryLaws e (refreshTokenRepository svc)}
        {HT : TokenServiceLaws e (tokenService svc)}
        {HM : TxManagerLaws e (txManager svc)}
        {HB : BcryptLaws e}.

Abbreviation minted := (fun tok uid => refresh_for (ts := tokenService svc) tok uid).
Abbreviation promised := (machine (accepts e) minted (reading e) (parses u) (refreshTokenTTL svc)).

Lemma ask_after c s : after e u svc c s = (run e (ask u svc c) s).2.
Proof. by destruct c. Qed.

Lemma service_step s x s' :
  tables_ok e svc (st_db s) -> lts_step (service e u svc) s x s' ->
  lts_step promised (world_of (st_db s)) x (world_of (st_db s')).
Proof using All.
  intros Hok [Hg Hr]. destruct x as [c r]. simpl in Hg, Hr.
  destruct c; simpl in r, Hr; unfold lts_step; simpl.
  - pose proof (wp_run _ _ _ _ _ _ (wp_Register e svc Background eq_refl req s) Hr) as H.
    destruct r as [resp|err]; simpl in H; [by apply (refines_register e svc)|by rewrite H].
  - pose proof (wp_run _ _ _ _ _ _ (wp_Login e svc Background eq_refl req s) Hr) as H.
    destruct r as [resp|err]; simpl in H; [by apply (refines_login e svc)|by rewrite H].
  - destruct (wp_run _ _ _ _ _ _ (wp_Refresh_claims e u svc Background eq_refl tok s) Hr)
      as [(err & -> & [Hq _] & _)|(user & (tr & _ & Ho) & _ & Huser)]; [left; by rewrite Hq|].
    destruct r as [tp|err]; [by eapply (refines_rotation e u svc)|by eapply (refines_refusal e u svc)].
  - pose proof (writes_commits Background TTokens _ _ _ _ eq_refl
      (wp_run _ _ _ _ _ _ (wp_RevokeRefreshTokens e svc Background uid s) Hr)) as H.
    destruct r as [[]|err]; simpl in H; [|by rewrite H].
    destruct H as (m & -> & ->). by apply (refines_revoke e svc).
  - destruct (wp_run _ _ _ _ _ _ (wp_GetUserByID e u svc Background eq_refl id s) Hr) as [Hs H].
    rewrite (st_db_proper _ _ Hs). destruct r as [user|err]; [|done]. split; [|done].
    destruct H as (uid & row & Hp & Hrow & ->). by apply (refines_get_user e u svc).
  - destruct (wp_run _ _ _ _ _ _ (wp_ListSessions e svc Background eq_refl uid current page s) Hr) as [Hs H].
    rewrite (st_db_proper _ _ Hs). destruct r as [l|err]; [|done]. split; [|done].
    destruct (H l eq_refl) as (k & full & _ & _ & Hm & _). apply (refines_list e svc _ Hok _ _ k). by rewrite Hm.
  - pose proof (wp_run _ _ _ _ _ _ (wp_ChangePassword e svc Background eq_refl uid req s) Hr) as H.
    destruct r as [tp|err]; simpl in H; [by apply (refines_change_password e svc)|by rewrite H].
  - pose proof (wp_run _ _ _ _ _ _ (wp_DeleteAccount e svc Background eq_refl uid s) Hr) as H.
    destruct r as [[]|err]; simpl in H; [by apply (refines_delete e svc)|by rewrite H].
  - pose proof (wp_run _ _ _ _ _ _ (wp_PurgeExpired e svc Background eq_refl s) Hr) as H.
    destruct r as [n|err]; simpl in H; [|by rewrite H].
    destruct H as (k & Hdb & ->). rewrite Hdb. by apply (refines_purge e svc).
Qed.

(** The tables represent their world, while they satisfy their invariant. *)
Definition represents (s : state) (w : world) : Prop := tables_ok e svc (st_db s) /\ w = world_of (st_db s).

#[export] Instance service_simulation : ForwardSimulation (service e u svc) promised represents.
Proof using All.
  intros s x s' w [Hok ->] Hstep. exists (world_of (st_db s')). split; [by apply service_step|]. split; [|done].
  destruct Hstep as [_ Hr]. replace s' with (after e u svc (projT1 x) s); [by apply after_ok|].
  rewrite ask_after. destruct x as [c r]. simpl in *. by rewrite Hr.
Qed.
End simulation.

(** ** What the service promises *)

Section promises.
Context (e : env) (u : UUIDLib) (svc : userService).
Context {HU : UserRepositoryLaws e (userRepository svc)}
        {HR : RefreshTokenRepositoryLaws e (refreshTokenRepository svc)}
        {HT : TokenServiceLaws e (tokenService svc)}
        {HM : TxManagerLaws e (txManager svc)}
        {HB : BcryptLaws e}.

Abbreviation minted := (fun tok uid => refresh_for (ts := tokenService svc) tok uid).
Abbreviation promised := (machine (accepts e) minted (reading e) (parses u) (refreshTokenTTL svc)).
Abbreviation serves := (executes (service e u svc)).

Lemma world_of_empty : world_of empty_tables = initial.
Proof. reflexivity. Qed.

Lemma empty_tables_ok : tables_ok e svc empty_tables.
Proof using Type. split; simpl; (split; [|split]); intros k x; by rewrite lookup_empty. Qed.

Lemma serves_promised s xs s' :
  tables_ok e svc (st_db s) -> serves s xs s' ->
  executes promised (world_of (st_db s)) xs (world_of (st_db s')) /\ tables_ok e svc (st_db s').
Proof using All.
  intros Hok Hex.
  by destruct (executes_simulated (service e u svc) promised (represents e svc) s xs s' _ (conj Hok eq_refl) Hex)
    as (w & Hw & [? ->]).
Qed.

(** C1.  The service implements the account machine: every sequence of calls, with
    the answers the service gives and whatever its dependencies do, is an execution
    of the machine between the worlds read off the tables. *)
Theorem service_refines_machine s xs s' :
  tables_ok e svc (st_db s) -> serves s xs s' ->
  executes promised (world_of (st_db s)) xs (world_of (st_db s')).
Proof using All. by intros Hok [Hex _]%serves_promised. Qed.

(** C8.  No session outlives its account: after any sequence of calls every stored
    session belongs to an account that exists and was not deleted, and no two such
    accounts share an address. *)
Theorem no_orphan_sessions s xs s' :
  st_db s = empty_tables -> serves s xs s' ->
  (forall k row, t_tokens (st_db s') !! k = Some row ->
     exists x, t_users (st_db s') !! rt_UserID row = Some x /\ u_DeletedAt x = None) /\
  (forall uid uid' a a', live_of (t_users (st_db s')) !! uid = Some a ->
     live_of (t_users (st_db s')) !! uid' = Some a' -> ac_Email a = ac_Email a' -> uid = uid').
Proof using All.
  intros Hs Hex. apply serves_promised in Hex as [Hw Hok']; [|rewrite Hs; apply empty_tables_ok].
  rewrite Hs, world_of_empty in Hw.
  destruct (executes_stable _ _ _ _ _ (step_ok _ _ _ _ _) Hw initial_ok) as (Hsess & _ & Hem).
  split; [|exact Hem]. intros k row Hk.
  destruct (Hsess (rt_TokenHash row) (session_of row)) as [a (x & Hx & Hv & _)%live_of_lookup].
  - apply sessions_of_lookup; [apply Hok'|]. by exists k, row.
  - exists x. split; [exact Hx|]. simpl in Hv. by destruct (u_DeletedAt x).
Qed.

(** An address is registered once: after a registration succeeds no later one
    with the same address does, whatever happens in between, the deletion of the
    account included. *)
Theorem address_registers_once s xs req resp ys req' r s' :
  tables_ok e svc (st_db s) -> rr_Email req' = rr_Email req ->
  serves s (xs ++ existT (CallRegister req) (Ok resp) :: ys ++ [existT (CallRegister req') r]) s' ->
  is_ok r = false.
Proof using All. intros Hok Hem [Hex _]%serves_promised; [by eapply register_once|done]. Qed.

(** C16.  A deleted account is gone for good: no later call signs its id in, shows
    it, refreshes one of its tokens, changes its password or deletes it again. *)
Theorem deleted_account_gone_for_good s xs uid ys x s' :
  st_db s = empty_tables ->
  serves s (xs ++ existT (CallDeleteAccount uid) (Ok tt) :: ys ++ [x]) s' ->
  ~ acts_for minted uid x.
Proof using All.
  intros Hs Hex. apply serves_promised in Hex as [Hex _]; [|rewrite Hs; apply empty_tables_ok].
  rewrite Hs, world_of_empty in Hex. eapply departed_for_good; [apply initial_ok|exact Hex].
Qed.

(** C9.  Once a user's refresh token has been exchanged, or the user has signed out,
    changed the password or left, presenting it never succeeds again, however many
    calls later, unless a token with the same digest is handed out anew. *)
Theorem ended_token_never_refreshes s xs x ys tok uid r s' :
  tables_ok e svc (st_db s) -> refresh_for (ts := tokenService svc) tok uid -> ends tok uid x ->
  Forall (fun y => ~ hands_out (Hash tok) y) (x :: ys) ->
  serves s (xs ++ x :: ys ++ [existT (CallRefresh tok) r]) s' ->
  is_ok r = false.
Proof using All.
  intros Hok Hm Hends Hnot [Hex _]%serves_promised; [|done].
  exact (ended_for_good (accepts e) minted (reading e) (parses u) (refreshTokenTTL svc)
           _ _ _ _ _ _ _ _ Hm Hends Hnot Hex).
Qed.
End promises.

(** ** Witnesses

    Ann registers, refreshes, leaves, and tries again. *)

Abbreviation toy_lts := (service good_env toy_uuid toy_service).

Lemma ann_registers :
  lts_step toy_lts (start empty_tables) (existT (CallRegister ann) (Ok ann_response)) ann_state.
Proof. split; [exact I|]. vm_compute. reflexivity. Qed.

Lemma ann_genuine : genuine good_env toy_service (CallRefresh ann_token) (st_db ann_state).
Proof.
  intros row Hrow. assert (Hu : rt_UserID row = ann_id).
  { revert row Hrow. apply every_selected. apply (bool_decide_unpack _). vm_compute. exact I. }
  rewrite Hu. exact ann_token_minted.
Qed.

Lemma ann_refreshes :
  lts_step toy_lts ann_state (existT (CallRefresh ann_token) (Ok refresh_pair)) refresh_state.
Proof. split; [exact ann_genuine|]. vm_compute. reflexivity. Qed.

Lemma ann_leaves :
  lts_step toy_lts ann_state (existT (CallDeleteAccount ann_id) (Ok tt)) delete_run.2.
Proof. split; [exact I|]. vm_compute. reflexivity. Qed.

(** The token is spent: its digest is nowhere, so presenting it again is genuine. *)
Lemma spent_genuine : genuine good_env toy_service (CallRefresh ann_token) (st_db refresh_state).
Proof.
  intros row Hrow. exfalso. revert row Hrow. apply every_selected.
  apply (bool_decide_unpack _). vm_compute. exact I.
Qed.

Lemma ann_replays :
  lts_step toy_lts refresh_state (existT (CallRefresh ann_token) replay_run.1) replay_run.2.
Proof. split; [exact spent_genuine|]. vm_compute. reflexivity. Qed.

Lemma toy_start_ok : tables_ok good_env toy_service (st_db (start empty_tables)).
Proof. apply empty_tables_ok. Qed.

Lemma service_refines_machine_witness :
  executes (machine (accepts good_env) (fun tok uid => refresh_for (ts := tokenService toy_service) tok uid)
      (reading good_env) (parses toy_uuid) (refreshTokenTTL toy_service))
    initial
    [existT (CallRegister ann) (Ok ann_response); existT (CallRefresh ann_token) (Ok refresh_pair)]
    (world_of (st_db refresh_state)).
Proof.
  apply (service_refines_machine good_env toy_uuid toy_service (start empty_tables) _ refresh_state toy_start_ok).
  econstructor; [exact ann_registers|]. econstructor; [exact ann_refreshes|]. constructor.
Defined.

Lemma no_orphan_sessions_witness :
  size (t_tokens (st_db refresh_state)) = 1%nat /\
  forall k row, t_tokens (st_db refresh_state) !! k = Some row ->
    exists x, t_users (st_db refresh_state) !! rt_UserID row = Some x /\ u_DeletedAt x = None.
Proof.
  split; [by vm_compute|].
  refine (proj1 (no_orphan_sessions good_env toy_uuid toy_service (start empty_tables)
    [existT (CallRegister ann) (Ok ann_response); existT (CallRefresh ann_token) (Ok refresh_pair)] _ eq_refl _)).
  econstructor; [exact ann_registers|]. econstructor; [exact ann_refreshes|]. constructor.
Defined.

Definition again_run := Eval vm_compute in run good_env (Register toy_service Background ann) delete_run.2.

Lemma ann_tries_again :
  lts_step toy_lts delete_run.2 (existT (CallRegister ann) again_run.1) again_run.2.
Proof. split; [exact I|]. vm_compute. reflexivity. Qed.

Lemma address_registers_once_witness : is_ok again_run.1 = false.
Proof.
  apply (address_registers_once good_env toy_uuid toy_service (start empty_tables) []
    ann ann_response [existT (CallDeleteAccount ann_id) (Ok tt)] ann again_run.1 again_run.2 toy_start_ok eq_refl).
  simpl. econstructor; [exact ann_registers|]. econstructor; [exact ann_leaves|].
  econstructor; [exact ann_tries_again|]. constructor.
Defined.

(** After Ann left, her credentials sign nobody in. *)
Definition stale_run := Eval vm_compute in run good_env (Login toy_service Background ann_login) delete_run.2.

Lemma ann_signs_in_late :
  lts_step toy_lts delete_run.2 (existT (CallLogin ann_login) stale_run.1) stale_run.2.
Proof. split; [exact I|]. vm_compute. reflexivity. Qed.

Lemma deleted_account_gone_for_good_witness :
  ~ acts_for (fun tok uid => refresh_for (ts := tokenService toy_service) tok uid) ann_id
      (existT (CallLogin ann_login) stale_run.1).
Proof.
  apply (deleted_account_gone_for_good good_env toy_uuid toy_service (start empty_tables)
    [existT (CallRegister ann) (Ok ann_response)] ann_id [] _ stale_run.2 eq_refl).
  simpl. econstructor; [exact ann_registers|]. econstructor; [exact ann_leaves|].
  econstructor; [exact ann_signs_in_late|]. constructor.
Defined.

Lemma ended_token_never_refreshes_witness : is_ok replay_run.1 = false.
Proof.
  apply (ended_token_never_refreshes good_env toy_uuid toy_service (start empty_tables)
    [existT (CallRegister ann) (Ok ann_response)]
    (existT (CallRefresh ann_token) (Ok refresh_pair)) [] ann_token ann_id replay_run.1 replay_run.2
    toy_start_ok ann_token_minted eq_refl).
  - constructor; [|constructor]. unfold hands_out. apply (bool_decide_unpack _). vm_compute. exact I.
  - simpl. econstructor; [exact ann_registers|]. econstructor; [exact ann_refreshes|].
    econstructor; [exact ann_replays|]. constructor.
Defined.
