(* ===== verification/Counters.v ===== *)
(** * internal/service/counter and internal/service/message

    The services that pass a repository's answer on, and the contracts of their
    repositories with the gorm implementations as instances. *)

From S2P Require Import Prelude GoStd Apperr Model Gorm Effects Repository RepositoryLaws Testbed UserService UserSpec.

(** ** The services *)

Record counterService := mkCounterService { counter_repo : CounterRepository }.
Definition NewCounterService := mkCounterService.

Record messageService := mkMessageService { message_repo : MessageRepository }.
Definition NewMessageService := mkMessageService.

Definition counter_GetCounter (s : counterService) (ctx : context) : prog (result GetCounter) :=
  let! value := cr_GetCounter (counter_repo s) ctx
    onerr err => fail_internal "reading counter" err in
  Ret (Ok (mkGetCounter value)).

Definition counter_IncrementCounter (s : counterService) (ctx : context) : prog (result GetCounter) :=
  let! value := cr_IncrementCounter (counter_repo s) ctx
    onerr err => fail_internal "incrementing counter" err in
  Ret (Ok (mkGetCounter value)).

(** A nil message is a success without content. *)
Definition message_GetMessage (s : messageService) (ctx : context) : prog (result (option GetMessage)) :=
  let! message := mr_GetMessage (message_repo s) ctx "default"
    onerr err => fail_internal "reading message" err in
  match message with
  | None => Ret (Ok None)
  | Some message => Ret (Ok (Some (mkGetMessage message)))
  end.

(** ** The contracts of the repositories *)

(** The row [First] finds: the visible one with the least primary key. *)
Definition first_of {R} (t : table R) (p : R -> bool) (db : Tables) (x : R) : Prop :=
  selected t p db x /\ forall y, selected t p db y -> (pk t x <= pk t y)%N.

Class CounterRepositoryLaws (e : env) (repo : CounterRepository) : Prop := {
  cr_GetCounter_law ctx s :
    wp e (cr_GetCounter repo ctx)
       (reads s (fun v => exists c, first_of TCounters any_row (seen ctx s) c /\ v = c_Value c)) s;
  cr_IncrementCounter_law ctx s :
    ctx_value ctx = None ->
    wp e (cr_IncrementCounter repo ctx)
       (fun r s' => st_trace s' = st_trace s /\ commits (st_db s) (fun v db' => exists c now,
          first_of TCounters any_row (st_db s) c /\ v = wrap64 (c_Value c + 1) /\
          db' = set_rows TCounters
                  (<[c_ID c := mkCounter (c_ID c) v (c_CreatedAt c) now]> (t_counters (st_db s))) (st_db s))
          r (st_db s')) s
}.

Class MessageRepositoryLaws (e : env) (repo : MessageRepository) : Prop :=
  mr_GetMessage_law ctx key s :
    wp e (mr_GetMessage repo ctx key)
       (reads s (fun o => match o with
          | Some v => exists m, first_of TMessages (message_has_key key) (seen ctx s) m /\ v = m_Value m
          | None => forall m, ~ selected TMessages (message_has_key key) (seen ctx s) m
          end)) s.

(** The increment: what the transaction commits. *)
Definition incremented (db : Tables) (c' : CounterEntity) (db' : Tables) : Prop :=
  exists c now, first_of TCounters any_row db c /\
    c' = mkCounter (c_ID c) (wrap64 (c_Value c + 1)) (c_CreatedAt c) now /\
    db' = set_rows TCounters (<[c_ID c := c']> (t_counters db)) db.

Lemma wp_increment_tx `{!GormLaws e} s :
  wp e (Transaction Pool GORM.Counter_increment_tx)
     (fun r s' => st_trace s' = st_trace s /\ commits (st_db s) (incremented (st_db s)) r (st_db s')) s.
Proof.
  apply wp_transaction.
  { intros err s' Hs'. by rewrite Hs'. }
  intros s2 Hs2. unfold GORM.Counter_increment_tx. wp_call @wp_sql. intros r s3 (d & Hg & Hs3).
  assert (Hv : view InTx s2 = st_db s) by (simpl; by rewrite Hs2).
  rewrite Hv in Hg. destruct r as [c|err].
  - destruct Hg as [-> Hc]. simpl in Hs3. rewrite Hs2 in Hs3.
    eapply wp_mono; [apply wp_sql|]. intros r s4 (d & Hg & Hs4).
    rewrite (view_proper InTx _ _ Hs3) in Hg. simpl in Hg, Hs4. split.
    + intros err s' ->. simpl. by rewrite Hs4, Hs3.
    + intros c' s' -> ->. destruct Hg as (now & -> & _ & ->). simpl.
      rewrite (st_work_proper _ _ Hs4), (st_trace_proper _ _ Hs4). simpl.
      rewrite (st_trace_proper _ _ Hs3). split; [done|]. exists c, now. by split.
  - destruct Hg as [-> _]. apply wp_ret. split; [|done]. intros err' s' ->. simpl.
    by rewrite Hs3, Hs2.
Qed.

#[export] Instance GORM_CounterRepositoryLaws `{!GormLaws e} :
  CounterRepositoryLaws e (GORM.NewGORMCounterRepository Pool).
Proof.
  split.
  - intros ctx s. apply (wp_method ctx (First TCounters any_row false)); [done|].
    intros s' [c|err] d Hg Hs'; apply wp_ret.
    + destruct Hg as [-> Hc]. split; [by eapply unchanged|]. by exists c.
    + split; [by eapply failed_state|done].
  - intros ctx s Hctx. apply wp_poll; [by intros c s' ->|]. intros s1 Hs1.
    unfold Dbtx.Conn, Dbtx.From_. rewrite Hctx. wp_call wp_increment_tx.
    rewrite (st_db_proper _ _ Hs1), (st_trace_proper _ _ Hs1).
    intros [c'|err] s' [Ht H]; apply wp_ret; (split; [done|]); [|done].
    destruct H as (c & now & Hc & -> & ->). by exists c, now.
Qed.

#[export] Instance GORM_MessageRepositoryLaws `{!GormLaws e} :
  MessageRepositoryLaws e (GORM.NewGORMMessageRepository Pool).
Proof.
  intros ctx key s. apply (wp_method ctx (First TMessages (message_has_key key) false)); [done|].
  intros s' [m|err] d Hg Hs'.
  - apply wp_ret. destruct Hg as [-> Hm]. split; [by eapply unchanged|]. by exists m.
  - pose proof (failed_state _ _ _ _ _ _ Hg Hs') as Hsame.
    destruct Hg as [_ [[-> Hn]|[Hn _]]]; simpl; [by apply wp_ret|]. rewrite Hn.
    apply wp_fail_wrapped. intros err' s2 Hs2 _. split; [by rewrite Hs2|done].
Qed.

(** ** Theorems *)

(** Incrementing the counter writes one row, the counter with the least id:
    its value becomes the next 64-bit integer, which is what the caller gets.  On
    any error nothing has changed and the caller sees an opaque server error. *)
Theorem increment_counter_atomic (e : env) svc {HL : CounterRepositoryLaws e (counter_repo svc)} ctx s r s' :
  ctx_value ctx = None -> run e (counter_IncrementCounter svc ctx) s = (r, s') ->
  match r with
  | Ok g => exists c now, first_of TCounters any_row (st_db s) c /\ gc_Value g = wrap64 (c_Value c + 1) /\
      st_db s' = set_rows TCounters
        (<[c_ID c := mkCounter (c_ID c) (gc_Value g) (c_CreatedAt c) now]> (t_counters (st_db s))) (st_db s)
  | Err err => st_db s' = st_db s /\ client_view err = (500, "Internal server error", ∅)
  end.
Proof.
  intros Hc. revert r s'. cut (wp e (counter_IncrementCounter svc ctx) (fun r s' => match r with
    | Ok g => exists c now, first_of TCounters any_row (st_db s) c /\ gc_Value g = wrap64 (c_Value c + 1) /\
        st_db s' = set_rows TCounters
          (<[c_ID c := mkCounter (c_ID c) (gc_Value g) (c_CreatedAt c) now]> (t_counters (st_db s))) (st_db s)
    | Err err => st_db s' = st_db s /\ client_view err = (500, "Internal server error", ∅)
    end) s).
  { intros H r s' Hr. exact (wp_run _ _ _ _ _ _ H Hr). }
  wp_call (cr_IncrementCounter_law (e := e)); [exact Hc|]. intros [v|err] s1 [_ H].
  - apply wp_ret. destruct H as (c & now & Hf & -> & ->). by exists c, now.
  - wp_call wp_Errorf. intros w s2 [Hs2 _]. wp_quiet. intros a s3 Hs3. apply wp_ret.
    split; [|done]. rewrite (st_db_proper _ _ Hs3), (st_db_proper _ _ Hs2). exact H.
Qed.

(** A deadline that expires before the counter is read is reported as an
    internal error, status 500, although the chain still carries the deadline,
    which on its own is answered with 504. *)
Theorem counter_deadline_is_500 (e : env) ctx s :
  env_done e (st_n s) = Some DeadlineExceeded ->
  exists err, (run e (counter_GetCounter (NewCounterService (GORM.NewGORMCounterRepository Pool)) ctx) s).1 = Err err /\
    errors_Is err (ECtx DeadlineExceeded) = true /\ HTTPStatus err = 500 /\
    HTTPStatus (ECtx DeadlineExceeded) = 504.
Proof. intros Hd. eexists. simpl. rewrite Hd. simpl. by rewrite ?orb_true_r. Qed.

(** The message shown is the one stored under the key "default" with the least
    id; without one the answer is a success without content. *)
Theorem message_is_default (e : env) svc {HL : MessageRepositoryLaws e (message_repo svc)} ctx s o s' :
  run e (message_GetMessage svc ctx) s = (Ok o, s') ->
  s' ≡ s /\
  match o with
  | Some g => exists m, first_of TMessages (message_has_key "default") (seen ctx s) m /\ gm_Content g = m_Value m
  | None => forall m, ~ selected TMessages (message_has_key "default") (seen ctx s) m
  end.
Proof.
  intros Hr. revert Hr. cut (wp e (message_GetMessage svc ctx) (fun r s' => forall o, r = Ok o -> s' ≡ s /\
    match o with
    | Some g => exists m, first_of TMessages (message_has_key "default") (seen ctx s) m /\ gm_Content g = m_Value m
    | None => forall m, ~ selected TMessages (message_has_key "default") (seen ctx s) m
    end) s).
  { intros H Hr. exact (wp_run _ _ _ _ _ _ H Hr _ eq_refl). }
  wp_call (mr_GetMessage_law (e := e)). intros [[v|]|err] s1 [Hs1 H].
  - apply wp_ret. intros o' [= <-]. destruct H as (m & Hm & ->). split; [done|]. by exists m.
  - apply wp_ret. by intros o' [= <-].
  - by apply wp_fail_internal.
Qed.

(** ** Witnesses *)

Definition toy_counters : Tables := mkTables ∅ ∅ {[3%N := mkCounter 3 41 epoch epoch]}
  {[4%N := mkMessage 4 "default" "Welcome" epoch epoch]}.
Definition toy_counter_service : counterService := NewCounterService (GORM.NewGORMCounterRepository Pool).
Definition toy_message_service : messageService := NewMessageService (GORM.NewGORMMessageRepository Pool).

Definition increment_run := Eval vm_compute in
  run good_env (counter_IncrementCounter toy_counter_service Background) (start toy_counters).

Lemma increment_counter_atomic_witness :
  increment_run.1 = Ok (mkGetCounter 42) /\
  exists c now, first_of TCounters any_row toy_counters c /\ 42 = wrap64 (c_Value c + 1) /\
    st_db increment_run.2 = set_rows TCounters
      (<[c_ID c := mkCounter (c_ID c) 42 (c_CreatedAt c) now]> (t_counters toy_counters)) toy_counters.
Proof.
  split; [reflexivity|].
  exact (increment_counter_atomic good_env toy_counter_service Background (start toy_counters)
           (Ok (mkGetCounter 42)) increment_run.2 eq_refl ltac:(vm_compute; reflexivity)).
Defined.

Lemma counter_deadline_is_500_witness :
  exists err, (run (toy_env (fun _ => Some DeadlineExceeded) never)
    (counter_GetCounter (NewCounterService (GORM.NewGORMCounterRepository Pool)) Background) (start toy_counters)).1 = Err err /\
    errors_Is err (ECtx DeadlineExceeded) = true /\ HTTPStatus err = 500 /\ HTTPStatus (ECtx DeadlineExceeded) = 504.
Proof.
  apply (counter_deadline_is_500 (toy_env (fun _ => Some DeadlineExceeded) never) Background (start toy_counters)).
  reflexivity.
Defined.

Lemma message_is_default_witness :
  exists g s', run good_env (message_GetMessage toy_message_service Background) (start toy_counters) = (Ok (Some g), s') /\
    s' ≡ start toy_counters /\ gm_Content g = "Welcome".
Proof.
  eexists _, _. split; [vm_compute; reflexivity|]. split; [|reflexivity].
  exact (proj1 (message_is_default good_env toy_message_service Background (start toy_counters)
                  (Some (mkGetMessage "Welcome")) _ ltac:(vm_compute; reflexivity))).
Defined.
