(* ===== verification/Concurrency.v ===== *)
(** * The user service under concurrency

    Any number of calls to the service, over the gorm repositories and the token
    service, whose steps interleave in any way.  Every method commits at most once;
    [call_commit] says what, and which of its checks were made on tables that may
    have changed since.  The theorems: overlapping calls come to a sequence of these
    commits; the invariant of the database survives all of them; an address is
    still registered once; and what does not survive: a sign-in that overlaps the
    deletion of its account leaves a session that works. *)

From S2P Require Import Prelude GoStd Apperr Model Gorm Effects Threads Repository RepositoryLaws Testbed Token UserService UserSpec Accounts Lts AccountMachine Refinement.

(** ** Building blocks *)

(** The service as the container wires it up. *)
Definition gorm_service (j : JWT) (u : UUIDLib) (config : TokenConfig) : userService :=
  NewUserService (GORM.NewGORMUserRepository Pool) (GORM.NewGORMRefreshTokenRepository Pool (uuid_String u))
    (NewTokenService j (uuid_String u) config) (GORM.NewGORMTxManager Pool) (RefreshTokenExpiry config).

(** An answer that reports an error. *)
Abbreviation failed := (fun r => is_ok r = false).

Section blocks.
Context (e : env) {HG : GormLaws e} (H : Tables -> Prop).

Lemma settled_silent {X} (o : op X) : silent o -> settled e H (perform o) (fun _ => True).
Proof using Type. intros Ho s _. by destruct o. Qed.

Lemma settled_log level msg attrs : settled e H (perform (OpLog level msg attrs)) (fun _ => True).
Proof using Type. by apply settled_op. Qed.

Lemma settled_any {A} (p : prog A) Q : settled e H p Q -> settled e H p (fun _ => True).
Proof using Type. intros Hp. by eapply settled_mono. Qed.

Lemma settled_poll : settled e H ctx_poll (fun _ => True).
Proof using Type. apply settled_bind. eapply settled_mono; [by apply settled_silent|done]. Qed.

Lemma settled_Errorf msg err : settled e H (Errorf msg err) (fun _ => True).
Proof using Type. apply settled_bind. eapply settled_mono; [by apply settled_silent|done]. Qed.

Lemma settled_fail {A} msg err : settled e H (fail_internal (A := A) msg err) failed.
Proof using Type.
  apply settled_bind. eapply settled_mono; [apply settled_Errorf|]. intros w _.
  apply settled_bind. eapply settled_mono; [by apply settled_silent|done].
Qed.

Lemma once_fail {A} msg err R : once e H (fail_internal (A := A) msg err) failed R.
Proof using Type. apply settled_once, settled_fail. Qed.

(** The two ways a repository reports a failed statement. *)
Definition reports {B} (h : error -> prog (result B)) : Prop := forall err, settled e H (h err) failed.

Lemma reports_plain {B} : reports (fun err => Ret (@Err B err)).
Proof using Type. done. Qed.

Lemma reports_wrapped {B} msg : reports (fun err => let* err := Errorf msg err in Ret (@Err B err)).
Proof using Type. intros err. apply settled_bind. by eapply settled_mono; [apply settled_Errorf|]. Qed.

(** A method that looks a row up. *)
Lemma settled_lookup {R} (t : table R) p (h : error -> prog (result (option R))) :
  reports h ->
  settled e H (let! _ := ctx_poll onerr err => Ret (Err err) in
        let! x := GORM.sql Pool Background (First t p false)
          onerr err => if errors_Is err ErrRecordNotFound then Ret (Ok None) else h err in
        Ret (Ok (Some x)))
    (fun r => forall o, r = Ok o -> exists past, H past /\ lookup_spec t p past o).
Proof using HG.
  intros Hh. apply settled_bind. eapply settled_mono; [apply settled_poll|]. intros [u|err] _; [|done].
  apply settled_bind. eapply settled_mono; [by apply settled_read|].
  intros [x|err] (past & Hp & _ & Hx).
  - intros o [= <-]. exists past. split; [done|]. by destruct Hx.
  - destruct Hx as [[-> Hn]|[Hn _]]; [intros o [= <-]; by exists past|]. rewrite Hn.
    eapply settled_mono; [apply Hh|]. by intros [|].
Qed.

(** A method that writes. *)
Lemma once_write {A B} (q : stmt A) (g : A -> B) (h : error -> prog (result B)) :
  reports h ->
  once e H (let! _ := ctx_poll onerr err => Ret (Err err) in
        let! x := GORM.sql Pool Background q onerr err => h err in Ret (Ok (g x)))
    failed (fun r d d' => exists x, r = Ok (g x) /\ gorm_spec q d (Ok x) d').
Proof using HG.
  intros Hh. eapply once_after; [apply settled_poll|]. intros [u|err] _; [|done].
  eapply once_bind; [exact (once_statement e H q)| |].
  - intros [x|err] Hr; [done|]. apply settled_once, Hh.
  - intros r d d' (x & -> & Hg). by exists x.
Qed.

(** A transaction of the service, by what it does to the tables it starts on. *)
Lemma once_within {X} (fn : context -> prog (result X)) (P : Tables -> X -> Tables -> Prop) :
  (forall db, in_tx e fn (P db) db) ->
  once e H (GORM.Tx_WithinTx Pool X Background fn) failed (fun r d d' => exists x, r = Ok x /\ P d x d').
Proof using Type.
  intros Hfn. apply once_transaction. intros s _.
  eapply wp_mono; [apply (wp_outermost e (GORM.NewGORMTxManager Pool) Background fn); [done|apply Hfn]|].
  by intros r s' [Hr _].
Qed.
End blocks.

Create HintDb threads.
#[export] Hint Resolve settled_log settled_poll settled_Errorf settled_fail once_fail reports_plain reports_wrapped : threads.

(** ** The methods *)

Section methods.
Context (e : env) (u : UUIDLib) (j : JWT) (config : TokenConfig).
Context {HG : GormLaws e} {HC : ClockLaws e} {HB : BcryptLaws e} {HJ : JWTLaws j} {HUU : UUIDLaws u}.
Context (Httl : ttl_ok (RefreshTokenExpiry config)).

Abbreviation svc := (gorm_service j u config).

#[local] Instance svc_users : UserRepositoryLaws e (userRepository svc) := GORM_UserRepositoryLaws.
#[local] Instance svc_sessions : RefreshTokenRepositoryLaws e (refreshTokenRepository svc) :=
  GORM_RefreshTokenRepositoryLaws (uuid_String u).
#[local] Instance svc_tokens : TokenServiceLaws e (tokenService svc) := tokenService_laws j u e config Httl.
#[local] Instance svc_tx : TxManagerLaws e (txManager svc) := GORM_TxManagerLaws e.

Section one_call.
Context (H : Tables -> Prop).

Lemma settled_access uid email name :
  settled e H (ts_GenerateAccessToken (tokenService svc) uid email name)
    (fun r => forall tok, r = Ok tok -> access_for (ts := tokenService svc) tok uid email name).
Proof using Type.
  intros s1 _. split; [done|]. intros s2 _. split; [done|]. intros tok Htok. do 2 eexists. exact Htok.
Qed.

Lemma settled_refresh uid :
  settled e H (ts_GenerateRefreshToken (tokenService svc) uid)
    (fun r => forall tok, r = Ok tok -> refresh_for (ts := tokenService svc) tok uid).
Proof using HC HUU.
  intros s1 _. split; [done|]. intros s2 _. split; [done|]. intros tok Htok. eexists. split; [exact Htok|].
  split; [|done]. by apply refresh_claims_encodable.
Qed.

Lemma settled_validate tok :
  settled e H (ts_ValidateRefreshToken (tokenService svc) tok)
    (fun r => forall c, r = Ok c -> forall uid, refresh_for (ts := tokenService svc) tok uid ->
       mkGetUser (tc_UserID c) (tc_Email c) (tc_Name c) = mkGetUser uid "" "").
Proof using Type.
  intros s1 _. split; [done|]. cbn [fst snd exec_op]. destruct (String.eqb tok ""); [done|].
  intros s2 _. split; [done|]. cbn [fst snd exec_op bind].
  destruct (ParseWithClaims j tok _ _) as [c|err] eqn:Hp; [|done]. intros c' [= <-] uid (c0 & Hsig & Henc & Hu & He & Hn).
  apply (sign_law (j := j)) in Hsig as [Hsig _]; [|done].
  apply parse_sound in Hp as (m & k & _ & Hs & _).
  rewrite (payload_law (j := j) _ _ _ _ _ _ _ Hs Hsig). by rewrite Hu, He, Hn.
Qed.

(** [let! x := m onerr err => fail_internal msg err in k x], the usual call. *)
Lemma once_call {A B} (m : prog (result A)) msg (k : A -> prog (result B)) Q R :
  settled e H m (fun r => forall x, r = Ok x -> Q x) ->
  (forall x, Q x -> once e H (k x) failed R) ->
  once e H (let! x := m onerr err => fail_internal msg err in k x) failed R.
Proof using Type.
  intros Hm Hk. eapply once_after; [exact Hm|]. intros [x|err] HQ; [by apply Hk, HQ|auto with threads].
Qed.

(** The same of a method that only reads. *)
Lemma settled_call {A B} (m : prog (result A)) msg (k : A -> prog (result B)) Q P :
  settled e H m (fun r => forall x, r = Ok x -> Q x) ->
  (forall x, Q x -> settled e H (k x) P) -> (forall err, P (Err err)) ->
  settled e H (let! x := m onerr err => fail_internal msg err in k x) P.
Proof using Type.
  intros Hm Hk HP. apply settled_bind. eapply settled_mono; [exact Hm|]. intros [x|err] HQ; [by apply Hk, HQ|].
  eapply settled_mono; [apply settled_fail|]. by intros [x|err'] Hr.
Qed.

Lemma settled_try {B} (k : prog (result B)) P :
  (forall err, P (Err err)) -> settled e H k P ->
  settled e H (let! _ := ctx_poll onerr err => Ret (Err err) in k) P.
Proof using Type.
  intros HP Hk. apply settled_bind. eapply settled_mono; [apply settled_poll|]. intros [x|err] _; [done|apply HP].
Qed.

Lemma once_poll {B} (k : prog (result B)) R :
  once e H k failed R -> once e H (let! _ := ctx_poll onerr err => Ret (Err err) in k) failed R.
Proof using Type. intros Hk. eapply once_after; [auto with threads|]. by intros [x|err] _. Qed.

Lemma once_StoreRefreshToken uid tok expires :
  once e H (StoreRefreshToken svc Background uid tok expires) failed
    (fun r d d' => r = Ok tt /\ exists m, new_session uid tok expires (t_tokens d) m /\ d' = set_rows TTokens m d).
Proof using HG.
  apply once_poll. eapply once_after; [by apply settled_silent|]. intros id _.
  eapply once_bind; [apply (once_write e H (Create TTokens _) (fun _ => tt)); auto with threads| |].
  - intros [x|err] Hr; [done|auto with threads].
  - intros r d d' (x & -> & Hc & now & -> & ->). split; [done|]. eexists. split; [|reflexivity].
    exists (stamp_create TTokens now (mkToken id uid (Hash tok) expires time_zero time_zero)). by repeat split.
Qed.

Lemma once_RevokeRefreshTokens uid :
  once e H (RevokeRefreshTokens svc Background uid) failed
    (fun r d d' => r = Ok tt /\ d' = set_rows TTokens (revoked (token_of_user uid) (t_tokens d)) d).
Proof using HG.
  apply once_poll.
  eapply once_bind; [apply (once_write e H (Delete TTokens (token_of_user uid)) (fun _ => tt)); auto with threads| |].
  - intros [x|err] Hr; [done|auto with threads].
  - intros r d d' (x & -> & _ & now & ->). by split.
Qed.

Lemma once_issueTokens user :
  once e H (issueTokens svc Background user) failed
    (fun r d d' => exists pair m, r = Ok pair /\ issued e svc user pair (t_tokens d) m /\ d' = set_rows TTokens m d).
Proof using HG HC HUU.
  eapply once_call; [apply settled_access|]. intros acc Hacc.
  eapply once_call; [apply settled_refresh|]. intros ref Href.
  eapply once_after; [by apply (settled_op e H OpNow (fun t => exists n, t = env_now e n)); intros s _; split; [|by eexists]|].
  intros now [n ->]. eapply once_bind; [apply once_StoreRefreshToken| |].
  - by intros [[]|err] Hr.
  - intros r d d' (-> & m & Hn & ->). exists (acc, ref), m. split; [done|]. split; [|done].
    split; [exact Hacc|]. split; [exact Href|]. by exists n.
Qed.

(** ** What a call may commit

    [H] holds of the tables that have occurred: a check that a method makes outside
    its transaction was true of some of them. *)

Definition checked {R} (t : table R) (p : R -> bool) (row : R) : Prop := exists past, H past /\ selected t p past row.
Definition unseen {R} (t : table R) (p : R -> bool) : Prop := exists past, H past /\ forall row, ~ selected t p past row.

(** The user a refresh token was minted for, if it was. *)
Definition owner_of (tok : string) (user : GetUser) : Prop :=
  forall uid, refresh_for (ts := tokenService svc) tok uid -> user = mkGetUser uid "" "".

(** The change that goes with an answer. *)
Definition call_commit (c : call) : reply c -> Tables -> Tables -> Prop :=
  match c with
  | CallRegister req => fun r d d' => exists resp, r = Ok resp /\ registered e svc req d resp d'
  | CallLogin req => fun r d d' => exists resp row m,
      r = Ok resp /\ checked TUsers (user_has_email (lr_Email req)) row /\
      env_bcrypt_compare e (u_Password row) (to_bytes (lr_Password req)) = None /\
      ar_User resp = mkGetUser (u_ID row) (u_Email row) (u_Name row) /\
      issued e svc (ar_User resp) (ar_AccessToken resp, ar_RefreshToken resp) (t_tokens d) m /\
      d' = set_rows TTokens m d
  | CallRefresh tok => fun r d d' => exists user, owner_of tok user /\
      ((exists tp row n m, r = Ok tp /\ checked TTokens (token_has_hash (Hash tok)) row /\
          env_now e n <= rt_ExpiresAt row /\
          issued e svc user (tp_AccessToken tp, tp_RefreshToken tp) (revoked (token_has_hash (Hash tok)) (t_tokens d)) m /\
          d' = set_rows TTokens m d) \/
       (r = Err (EApp ErrRefreshTokenRevoked) /\ unseen TTokens (token_has_hash (Hash tok)) /\
          d' = set_rows TTokens (revoked (token_of_user (gu_ID user)) (t_tokens d)) d) \/
       (exists row n, r = Err (EApp ErrRefreshTokenExpired) /\ checked TTokens (token_has_hash (Hash tok)) row /\
          rt_ExpiresAt row < env_now e n /\
          d' = set_rows TTokens (revoked (token_has_hash (Hash tok)) (t_tokens d)) d))
  | CallRevoke uid => fun r d d' => r = Ok tt /\ d' = set_rows TTokens (revoked (token_of_user uid) (t_tokens d)) d
  | CallGetUser _ | CallListSessions _ _ _ => fun _ _ _ => False
  | CallChangePassword uid req => fun r d d' => exists tp row hashed,
      r = Ok tp /\ checked TUsers (user_has_id uid) row /\
      env_bcrypt_compare e (u_Password row) (to_bytes (cp_CurrentPassword req)) = None /\
      hash_of e hashed (cp_NewPassword req) /\
      password_replaced e svc uid hashed (mkGetUser uid (u_Email row) (u_Name row)) d (tp_AccessToken tp, tp_RefreshToken tp) d'
  | CallDeleteAccount uid => fun r d d' => exists row,
      r = Ok tt /\ checked TUsers (user_has_id uid) row /\ account_deleted uid d d'
  | CallPurge => fun r d d' => exists k n,
      r = Ok n /\ d' = set_rows TTokens (revoked (token_expired (env_now e k)) (t_tokens d)) d /\
      n = Z.of_nat (size (t_tokens d)) - Z.of_nat (size (t_tokens d'))
  end.

(** The answers that go with no change. *)
Definition call_quiet (c : call) : reply c -> Prop :=
  match c with
  | CallGetUser id => fun r => forall user, r = Ok user -> exists uid row,
      uuid_Parse u id = Ok uid /\ checked TUsers (user_has_id uid) row /\ user = mkGetUser uid (u_Email row) (u_Name row)
  | CallListSessions uid _ _ => fun r => forall l, r = Ok l -> exists n counted listed,
      let active := token_active uid (env_now e n) in
      H counted /\ mt_Total (sl_Meta l) = Z.of_nat (size (select_rows TTokens active counted)) /\
      H listed /\ Forall (fun s => exists row, selected TTokens active listed row /\ se_ID s = rt_ID row) (sl_Sessions l)
  | _ => failed
  end.

Lemma once_lookup {R B} (t : table R) p (h : error -> prog (result (option R))) msg (k : option R -> prog (result B)) Q :
  reports e H h ->
  (forall row, checked t p row -> once e H (k (Some row)) failed Q) ->
  (unseen t p -> once e H (k None) failed Q) ->
  once e H (let! o := (let! _ := ctx_poll onerr err => Ret (Err err) in
        let! x := GORM.sql Pool Background (First t p false)
          onerr err => if errors_Is err ErrRecordNotFound then Ret (Ok None) else h err in
        Ret (Ok (Some x))) onerr err => fail_internal msg err in k o) failed Q.
Proof using HG.
  intros Hh Hs Hn. eapply once_call; [by apply settled_lookup|].
  intros o (past & Hp & Hx). destruct o as [row|]; [apply Hs|apply Hn]; exact (ex_intro _ past (conj Hp Hx)).
Qed.

(** The hash of a new password. *)
Lemma settled_generate password :
  settled e H (perform (OpBcryptGenerate (to_bytes password) DefaultCost))
    (fun r => forall x, r = Ok x -> x <> [] /\ hash_of e x password).
Proof using HB.
  apply settled_op. intros s _. split; [done|]. intros x Hx. cbn [exec_op fst] in Hx.
  pose proof Hx as [Hne Hc]%bcrypt_law. split; [done|]. split; [by eexists|done].
Qed.

Lemma once_Register req :
  once e H (Register svc Background req) (call_quiet (CallRegister req)) (call_commit (CallRegister req)).
Proof using HG HC HB HUU.
  apply once_poll. apply (once_lookup TUsers (user_has_email (rr_Email req)) (fun err => Ret (Err err))); [auto with threads|done|].
  intros _. eapply once_call; [apply settled_generate|].
  intros hashed [_ Hh]. eapply once_after; [by apply settled_silent|]. intros id _.
  eapply once_bind; [apply (once_within e H _ _ (fun db => in_tx_register e svc req hashed id db Hh))| |].
  - by intros [x|err] Hr.
  - intros r d d' ([acc ref] & -> & Hx). by eexists.
Qed.

Lemma once_Login req :
  once e H (Login svc Background req) (call_quiet (CallLogin req)) (call_commit (CallLogin req)).
Proof using HG HC HUU.
  apply once_poll. apply (once_lookup TUsers (user_has_email (lr_Email req)) (fun err => Ret (Err err))); [auto with threads|..].
  - intros row Hrow.
    eapply once_after; [apply (settled_op e H (OpBcryptCompare (u_Password row) _) (fun r => r = env_bcrypt_compare e (u_Password row) (to_bytes (lr_Password req)))); done|].
    intros [err|] Hcmp; [done|]. eapply once_bind; [apply once_issueTokens| |].
    + by intros [x|err] Hr.
    + intros r d d' (pair & m & -> & Hi & ->). eexists _, row, m. split; [reflexivity|]. by destruct pair.
  - intros _. apply settled_once. apply settled_bind.
    eapply settled_mono with (Q := fun _ => True); [|intros h _; by apply settled_bind, settled_op].
    apply settled_bind, settled_op. intros s _. split; [done|]. cbn [exec_op fst].
    destruct (st_once _) as [h|]; [exact I|]. apply settled_bind, settled_op. intros s1 _. split; [done|].
    by apply settled_bind, settled_op.
Qed.

Lemma once_DeleteByTokenHash h :
  once e H (tr_DeleteByTokenHash (refreshTokenRepository svc) Background h) failed
    (fun r d d' => r = Ok tt /\ d' = set_rows TTokens (revoked (token_has_hash h) (t_tokens d)) d).
Proof using HG.
  eapply once_mono; [apply (once_write e H (Delete TTokens (token_has_hash h)) (fun _ => tt)); auto with threads|done|].
  intros r d d' (x & -> & _ & now & ->). by split.
Qed.

Lemma once_handleReuse uid :
  once e H (handleReuse u svc Background uid) (fun err => err = EApp ErrRefreshTokenRevoked)
    (fun err d d' => err = EApp ErrRefreshTokenRevoked /\
       d' = set_rows TTokens (revoked (token_of_user uid) (t_tokens d)) d).
Proof using HG.
  eapply once_after; [apply settled_log|]. intros _ _.
  eapply once_bind; [apply once_RevokeRefreshTokens| |].
  - intros [x|err] Hr; [done|]. eapply once_after; [apply settled_log|]. by intros _ _.
  - by intros r d d' [-> ->].
Qed.

Lemma settled_now : settled e H (perform OpNow) (fun t => exists n, t = env_now e n).
Proof using Type. apply settled_op. intros s _. split; [done|by eexists]. Qed.

Lemma once_Refresh tok :
  once e H (Refresh u svc Background tok) (call_quiet (CallRefresh tok)) (call_commit (CallRefresh tok)).
Proof using HG HC HJ HUU.
  apply once_poll. eapply once_after; [apply settled_validate|]. intros [claims|err] Hcl.
  2: { eapply once_after; [by apply settled_silent|]. by intros a _. }
  specialize (Hcl claims eq_refl). set (user := mkGetUser _ _ _) in Hcl.
  apply (once_lookup TTokens (token_has_hash (Hash tok)) (fun err => let* err := Errorf _ err in Ret (Err err)));
    [auto with threads|intros row Hrow|intros Hnone].
  - eapply once_after; [apply settled_now|]. intros now [n ->]. unfold time_Before.
    destruct (Z.ltb_spec (rt_ExpiresAt row) (env_now e n)) as [Hexp|Hexp].
    + eapply once_bind; [apply once_DeleteByTokenHash| |].
      * intros [x|err] Hr; [done|]. eapply once_after; [apply settled_log|]. by intros _ _.
      * intros r d d' [-> ->]. exists user. split; [done|]. right; right. by exists row, n.
    + eapply once_bind; [apply (once_within e H _ _ (in_tx_rotate e svc (Hash tok) user))| |].
      * by intros [x|err] Hr.
      * intros r d d' ([acc ref] & -> & m & Hi & ->). exists user. split; [done|]. left.
        by exists (mkPair acc ref), row, n, m.
  - eapply once_bind; [apply (once_handleReuse (gu_ID user))| |].
    + by intros err ->.
    + intros err d d' [-> ->]. exists user. split; [done|]. right; left. done.
Qed.

Lemma settled_GetUserByID id : settled e H (GetUserByID u svc Background id) (call_quiet (CallGetUser id)).
Proof using HG.
  apply settled_try; [done|]. apply settled_bind.
  change (settled e H (Ret ?r) ?Q) with (Q r). cbv beta. destruct (uuid_Parse u id) as [uid|err] eqn:Hp.
  - eapply settled_call; [by apply settled_lookup, reports_wrapped| |done].
    intros o (past & Hpast & Hx). destruct o as [row|]; [|done].
    intros user [= <-]. exists uid, row. split; [done|]. split; [exact (ex_intro _ past (conj Hpast Hx))|]. f_equal. by eapply selected_id.
  - apply settled_bind. eapply settled_mono; [by apply settled_silent|done].
Qed.

Lemma settled_ListSessions uid current page :
  settled e H (ListSessions svc Background uid current page) (call_quiet (CallListSessions uid current page)).
Proof using HG.
  apply settled_try; [done|]. apply settled_bind. eapply settled_mono; [apply settled_now|]. intros now [n ->].
  eapply settled_call; [| |done].
  { apply (settled_try _ (fun r => forall x, r = Ok x -> exists past, H past /\
      x = Z.of_nat (size (select_rows TTokens (token_active uid (env_now e n)) past)))); [done|].
    apply settled_bind. eapply settled_mono; [by apply settled_read|]. intros [x|err] (past & Hp & _ & Hx).
    - intros y [= <-]. by exists past.
    - eapply settled_mono; [apply reports_wrapped|]. by intros [|]. }
  intros total (counted & Hc & ->). eapply settled_call; [| |done].
  { apply (settled_try _ (fun r => forall x, r = Ok x -> exists past, H past /\
      Forall (selected TTokens (token_active uid (env_now e n)) past) x)); [done|].
    apply settled_bind. eapply settled_mono; [by apply settled_read|]. intros [x|err] (past & Hp & _ & Hx).
    - intros y [= <-]. exists past. split; [done|]. destruct Hx as (full & Hperm & _ & ->).
      apply Forall_take, Forall_drop, Forall_forall. intros row Hrow. rewrite Hperm in Hrow.
      by apply Memory.select_rows_elem in Hrow.
    - eapply settled_mono; [apply reports_wrapped|]. by intros [|]. }
  intros rows (listed & Hl & Hrows). intros l [= <-]. exists n, counted, listed. split; [done|]. split; [done|]. split; [done|].
  apply Forall_fmap. eapply Forall_impl; [exact Hrows|]. intros row Hrow. by exists row.
Qed.

Lemma once_ChangePassword uid req :
  once e H (ChangePassword svc Background uid req) (call_quiet (CallChangePassword uid req))
    (call_commit (CallChangePassword uid req)).
Proof using HG HC HB HUU.
  apply once_poll.
  apply (once_lookup TUsers (user_has_id uid) (fun err => let* err := Errorf _ err in Ret (Err err)));
    [auto with threads|intros row Hrow|done].
  eapply once_after; [apply (settled_op e H (OpBcryptCompare (u_Password row) _) (fun r => r = env_bcrypt_compare e (u_Password row) (to_bytes (cp_CurrentPassword req)))); done|].
  intros [err|] Hcmp; [done|]. eapply once_call; [apply settled_generate|]. intros hashed [Hne Hh].
  assert (Hid : u_ID row = uid) by (destruct Hrow as (past & _ & Hrow); by eapply selected_id).
  eapply once_bind; [apply (once_within e H _ _ (fun db => in_tx_change_password e svc uid hashed _ db Hne))| |].
  - by intros [x|err] Hr.
  - intros r d d' (pair & -> & Hx). exists (mkPair pair.1 pair.2), row, hashed. rewrite Hid in Hx.
    do 4 (split; [done|]). by destruct pair.
Qed.

Lemma once_DeleteAccount uid :
  once e H (DeleteAccount svc Background uid) (call_quiet (CallDeleteAccount uid)) (call_commit (CallDeleteAccount uid)).
Proof using HG.
  apply once_poll.
  apply (once_lookup TUsers (user_has_id uid) (fun err => let* err := Errorf _ err in Ret (Err err)));
    [auto with threads|intros row Hrow|done].
  eapply once_mono; [apply (once_within e H _ _ (in_tx_delete_account e svc uid))|done|].
  intros r d d' ([] & -> & Hd). by exists row.
Qed.

Lemma once_Purge :
  once e H (PurgeExpiredRefreshTokens svc Background) (call_quiet CallPurge) (call_commit CallPurge).
Proof using HG.
  apply once_poll. eapply once_after; [apply settled_now|]. intros now [n ->].
  eapply once_bind; [apply (once_write e H (Delete TTokens (token_expired (env_now e n))) id); auto with threads| |].
  - by intros [x|err] Hr; [|auto with threads].
  - intros r d d' (x & -> & -> & now & ->). exists n. eexists. split; [reflexivity|]. split; [done|].
    by rewrite size_revoked.
Qed.

(** Every call commits at most once, and what [call_commit] says. *)
Lemma once_ask c : once e H (ask u svc c) (call_quiet c) (call_commit c).
Proof using HG HC HB HJ HUU.
  destruct c; cbn [ask].
  - apply once_Register.
  - apply once_Login.
  - apply once_Refresh.
  - eapply once_mono; [apply once_RevokeRefreshTokens|done|done].
  - apply settled_once, settled_GetUserByID.
  - apply settled_once, settled_ListSessions.
  - apply once_ChangePassword.
  - apply once_DeleteAccount.
  - apply once_Purge.
Qed.
End one_call.

(** *** Every commit keeps the invariant *)

Lemma commit_ok H c r d d' : call_commit H c r d d' -> tables_ok e svc d -> tables_ok e svc d'.
Proof using Type.
  intros Hc Hok. pose proof Hok as [Hu Hs]. destruct c; cbn [call_commit] in Hc.
  - destruct Hc as (resp & -> & Hc). by eapply registered_ok.
  - destruct Hc as (resp & row & m & _ & _ & _ & _ & Hi & ->). split; [done|]. by eapply sessions_ok_issued.
  - destruct Hc as (user & _ & [(tp & row & n & m & _ & _ & _ & Hi & ->)|[(_ & _ & ->)|(row & n & _ & _ & _ & ->)]]);
      (split; [done|]); [|by apply sessions_ok_revoked..].
    eapply sessions_ok_issued; [|exact Hi]. by apply sessions_ok_revoked.
  - destruct Hc as [_ ->]. split; [done|]. by apply sessions_ok_revoked.
  - done.
  - done.
  - destruct Hc as (tp & row & hashed & _ & _ & _ & Hh & now & Hdb & Hi & _). by eapply replaced_ok.
  - destruct Hc as (row & _ & _ & Hd). by eapply deleted_ok.
  - destruct Hc as (k & n & _ & -> & _). split; [done|]. by apply sessions_ok_revoked.
Qed.

(** *** A registered address stays taken *)

Definition address_taken (email : string) (db : Tables) : Prop :=
  exists k row, t_users db !! k = Some row /\ u_Email row = email.

Lemma commit_keeps_addresses H c r d d' email :
  call_commit H c r d d' -> address_taken email d -> address_taken email d'.
Proof using Type.
  intros Hc (k & row & Hk & He). destruct c; cbn [call_commit] in Hc.
  - destruct Hc as (resp & -> & new & _ & _ & _ & _ & _ & Hcol & Hdb & _). exists k, row. split; [|done].
    rewrite Hdb. rewrite lookup_insert_ne; [done|]. intros <-. apply Hcol. left. simpl. by rewrite Hk.
  - destruct Hc as (resp & new & m & _ & _ & _ & _ & _ & ->). by exists k, row.
  - destruct Hc as (user & _ & [(tp & new & n & m & _ & _ & _ & _ & ->)|[(_ & _ & ->)|(new & n & _ & _ & _ & ->)]]);
      by exists k, row.
  - destruct Hc as [_ ->]. by exists k, row.
  - done.
  - done.
  - destruct Hc as (tp & old & hashed & _ & _ & _ & _ & now & Hdb & _).
    unfold address_taken. rewrite Hdb. unfold with_password. eexists k, _. rewrite lookup_fmap, Hk.
    split; [reflexivity|]. by case_match.
  - destruct Hc as (old & _ & _ & now & ->). destruct (deleted_email uid now _ _ _ Hk) as (row' & Hk' & He').
    exists k, row'. split; [exact Hk'|congruence].
  - destruct Hc as (n & x & _ & -> & _). by exists k, row.
Qed.

Lemma register_takes H req r d d' :
  call_commit H (CallRegister req) r d d' -> ~ address_taken (rr_Email req) d /\ address_taken (rr_Email req) d'.
Proof using Type.
  intros (resp & -> & row & He & _ & _ & _ & _ & Hcol & Hdb & _). split.
  - intros (k & x & Hk & Hx). apply Hcol. right. exists k, x. split; [exact Hk|]. apply String.eqb_eq. congruence.
  - exists (u_ID row), row. by rewrite Hdb, lookup_insert_eq.
Qed.

(** ** Threads that each serve a call *)

Definition serve (c : call) : prog exchange := let* r := ask u svc c in Ret (existT c r).

Definition promise (H : Tables -> Prop) (c : call) : contract := mkContract
  (fun x : exchange => projT1 x = c /\ call_quiet H (projT1 x) (projT2 x))
  (fun x d d' => projT1 x = c /\ call_commit H (projT1 x) (projT2 x) d d').

Lemma once_serve H c : once e H (serve c) (ct_quiet (promise H c)) (ct_commit (promise H c)).
Proof using HG HB. by eapply once_bind; [apply (once_ask H c)|..]. Qed.

Section execution.
Context (calls : list call) (s : state) (sched : list nat).

Let init : pool exchange := (serve <$> calls, s).
Let final : pool exchange := interleave e sched init.
Let seen_then : Tables -> Prop := occurs e sched init.

(** The log has, once, each call that changed something, with a change that goes
    with its answer, if it has answered; the other answers go with no change. *)
Definition explains (log : list (nat * (Tables * Tables))) : Prop :=
  (forall i d d', (i, (d, d')) ∈ log -> exists x : exchange,
     calls !! i = Some (projT1 x) /\ call_commit seen_then (projT1 x) (projT2 x) d d' /\
     forall y, final.1 !! i ≫= answer = Some y -> y = x) /\
  (forall i c x, calls !! i = Some c -> final.1 !! i ≫= answer = Some x -> (i ∉ log.*1) ->
     projT1 x = c /\ call_quiet seen_then (projT1 x) (projT2 x)).

(** Overlapping calls come to a sequence of their commits. *)
Lemma calls_linearise : exists log, chain (st_db s) log (st_db final.2) /\ NoDup log.*1 /\ explains log.
Proof using HG HB.
  destruct (linearises e (promise seen_then <$> calls) (serve <$> calls) s sched) as (log & Hch & Hnd & Hlog & Hout).
  { apply Forall2_fmap, Forall_Forall2_diag, Forall_forall. intros c _. apply once_serve. }
  exists log. split; [done|]. split; [done|]. split.
  - intros i d d' Hin. destruct (Hlog i d d' Hin) as (ct & x & Hct & Hc & Hans).
    apply list_lookup_fmap_Some in Hct as (c & -> & Hi). destruct Hc as [<- Hc]. by exists x.
  - intros i c x Hi Hx Hno. apply (Hout i (promise seen_then c) x); [|done..]. by rewrite list_lookup_fmap, Hi.
Qed.

(** A thread whose answer goes with a change is in the log. *)
Lemma committed log i x :
  explains log ->
  final.1 !! i = Some (Ret x) -> ~ call_quiet seen_then (projT1 x) (projT2 x) ->
  exists d d', (i, (d, d')) ∈ log /\ call_commit seen_then (projT1 x) (projT2 x) d d'.
Proof using Type.
  intros [Hlog Hout] Hi Hnq. assert (Ha : final.1 !! i ≫= answer = Some x) by (by rewrite Hi).
  destruct (decide (i ∈ log.*1)) as [Hin|Hin].
  - apply list_elem_of_fmap in Hin as ([i' [d d']] & -> & Hin). exists d, d'. split; [done|].
    destruct (Hlog _ _ _ Hin) as (y & _ & Hc & Hy). by rewrite (Hy _ Ha).
  - assert (Hlt : (i < length calls)%nat).
    { apply lookup_lt_Some in Hi. unfold final in Hi. rewrite length_interleave in Hi. simpl in Hi.
      by rewrite length_fmap in Hi. }
    destruct (lookup_lt_is_Some_2 calls i Hlt) as [c Hc]. by destruct (Hout _ _ _ Hc Ha Hin) as [_ ?].
Qed.

Lemma one_registration log i1 a1 b1 i2 a2 b2 l1 l2 l3 req1 r1 req2 r2 d d' :
  explains log ->
  log = l1 ++ (i1, (a1, b1)) :: l2 ++ (i2, (a2, b2)) :: l3 -> chain d log d' ->
  rr_Email req1 = rr_Email req2 ->
  call_commit seen_then (CallRegister req1) r1 a1 b1 -> call_commit seen_then (CallRegister req2) r2 a2 b2 -> False.
Proof using Type.
  intros [Hlog _] Hl Hch Hem [_ H1]%register_takes [H2 _]%register_takes. apply H2. rewrite <- Hem, Hl in *.
  apply chain_middle in Hch as [_ [Hch _]%chain_middle].
  eapply chain_invariant; [exact Hch| |exact H1]. intros i a b Hin.
  destruct (Hlog i a b) as (x & _ & Hc & _); [|by eapply commit_keeps_addresses].
  rewrite elem_of_app, elem_of_cons, elem_of_app. auto.
Qed.
End execution.

(** *** Calls that check what they change

    A registration, a sign-out everywhere and a purge check and change in one
    transaction, or check nothing. *)

Definition self_contained (c : call) : bool :=
  match c with CallRegister _ | CallRevoke _ | CallPurge => true | _ => false end.

Abbreviation minted := (fun tok uid => refresh_for (ts := tokenService svc) tok uid).
Abbreviation promised := (machine (accepts e) minted (reading e) (parses u) (refreshTokenTTL svc)).

Lemma self_contained_step H (x : exchange) d d' :
  tables_ok e svc d -> self_contained (projT1 x) = true -> call_commit H (projT1 x) (projT2 x) d d' ->
  lts_step promised (world_of d) x (world_of d').
Proof using Type.
  intros Hok Hx Hc. destruct x as [c r]. destruct c; try done; cbn [projT1 projT2 call_commit] in *.
  - destruct Hc as (resp & -> & Hc). exact (refines_register e svc d Hok req resp d' Hc).
  - destruct Hc as [-> ->]. exact (refines_revoke e svc d Hok uid).
  - destruct Hc as (k & n & -> & -> & ->). exact (refines_purge e svc d Hok k).
Qed.

Lemma self_contained_quiet H (x : exchange) w :
  self_contained (projT1 x) = true -> call_quiet H (projT1 x) (projT2 x) -> lts_step promised w x w.
Proof using Type. destruct x as [c r]. by destruct c, r. Qed.
(** The answers of the threads [js]. *)
Definition picked (xs : list exchange) (js : list nat) : list exchange := omap (fun i => xs !! i) js.

Lemma picked_one xs i x : xs !! i = Some x -> picked xs [i] = [x].
Proof using Type. unfold picked, exchange in *. simpl. by intros ->. Qed.

Lemma picked_app xs js js' : picked xs (js ++ js') = picked xs js ++ picked xs js'.
Proof using Type. apply omap_app. Qed.

Lemma executes_quiet H xs js w :
  Forall (fun i => forall x, xs !! i = Some x -> self_contained (projT1 x) = true /\ call_quiet H (projT1 x) (projT2 x)) js ->
  executes promised w (picked xs js) w.
Proof using Type.
  induction 1 as [|i js Hi Hjs IH]; [constructor|]. unfold picked. cbn [omap list_omap].
  destruct (xs !! i) as [x|] eqn:Hx; [|exact IH].
  destruct (Hi x eq_refl). econstructor; [by eapply self_contained_quiet|exact IH].
Qed.

Lemma executes_commits H xs d log d' :
  chain d log d' -> tables_ok e svc d ->
  (forall i a b, (i, (a, b)) ∈ log -> exists x, xs !! i = Some x /\
     self_contained (projT1 x) = true /\ call_commit H (projT1 x) (projT2 x) a b) ->
  tables_ok e svc d' /\ executes promised (world_of d) (picked xs log.*1) (world_of d').
Proof using Type.
  induction 1 as [d|d log d1 d2 i Hch IH]; intros Hok Hlog; [split; [done|constructor]|].
  destruct IH as [Hok1 Hex]; [done|intros; apply Hlog, elem_of_app; by left|].
  destruct (Hlog i d1 d2) as (x & Hx & Hc & Hcom); [apply elem_of_app; right; by apply list_elem_of_singleton|].
  split; [by eapply commit_ok|]. rewrite fmap_app, picked_app. eapply executes_app; [exact Hex|].
  cbn [fmap list_fmap fst]. rewrite (picked_one _ _ _ Hx). econstructor; [by eapply self_contained_step|constructor].
Qed.

Lemma picked_seq pre xs : picked (pre ++ xs) (seq (length pre) (length xs)) = xs.
Proof using Type.
  revert pre. induction xs as [|x xs IH]; intros pre; [done|]. cbn [length seq].
  change (length pre :: ?l) with ([length pre] ++ l).
  rewrite picked_app, (picked_one _ (length pre) x) by (by apply list_lookup_middle).
  simpl. f_equal. specialize (IH (pre ++ [x])). rewrite <- app_assoc, length_app, Nat.add_1_r in IH. exact IH.
Qed.

(** Every thread is picked once. *)
Lemma picked_all xs js :
  NoDup js -> Forall (fun i => i < length xs)%nat js ->
  picked xs (js ++ filter (fun i => i ∉ js) (seq 0 (length xs))) ≡ₚ xs.
Proof using Type.
  intros Hnd Hlt.
  assert (Hp : js ++ filter (fun i => i ∉ js) (seq 0 (length xs)) ≡ₚ seq 0 (length xs)).
  { apply NoDup_Permutation; [|apply NoDup_seq|].
    - apply NoDup_app. split; [done|]. split; [|apply NoDup_filter, NoDup_seq].
      intros i Hi [Hno _]%list_elem_of_filter. done.
    - intros i. rewrite elem_of_app, list_elem_of_filter, elem_of_seq. split; [|destruct (decide (i ∈ js)); auto].
      intros [Hi|[_ Hi]]; [|done]. rewrite Forall_forall in Hlt. apply Hlt in Hi. lia. }
  pose proof (picked_seq [] xs : picked xs (seq 0 (length xs)) = xs) as Heq. unfold picked in *. by rewrite Hp, Heq.
Qed.
(** C5.  Registrations, sign-outs everywhere and purges are linearisable: when they
    overlap and all have answered, the same answers are given by the account
    machine, which takes the calls one after the other in some order, and ends in
    the world of the tables they left. *)
Theorem self_contained_linearisable calls s sched xs :
  tables_ok e svc (st_db s) -> forallb self_contained calls = true ->
  let final : pool exchange := interleave e sched (serve <$> calls, s) in
  final.1 = Ret <$> xs ->
  projT1 <$> xs = calls /\
  exists ys, ys ≡ₚ xs /\ executes promised (world_of (st_db s)) ys (world_of (st_db final.2)).
Proof using All.
  intros Hok Hself final Hxs. destruct (calls_linearise calls s sched) as (log & Hch & Hnd & [Hlog Hout]).
  fold final in Hlog, Hout, Hch. rewrite forallb_forall in Hself.
  assert (Hlen : length xs = length calls).
  { assert (Hl : length final.1 = length calls) by (unfold final; rewrite length_interleave; apply length_fmap).
    rewrite <- Hl, Hxs. symmetry. apply length_fmap. }
  assert (Hans : forall i x, xs !! i = Some x -> final.1 !! i ≫= answer = Some x).
  { intros i x Hx. rewrite Hxs, list_lookup_fmap. unfold exchange in *. by rewrite Hx. }
  assert (Hcall : forall i x, xs !! i = Some x -> calls !! i = Some (projT1 x)).
  { intros i x Hx. destruct (lookup_lt_is_Some_2 calls i) as [c Hc]; [rewrite <- Hlen; by eapply lookup_lt_Some|].
    destruct (decide (i ∈ log.*1)) as [Hin|Hin]; [|by destruct (Hout i c x Hc (Hans _ _ Hx) Hin) as [<- _]].
    apply list_elem_of_fmap in Hin as ([i' [a b]] & -> & Hin). simpl in *.
    destruct (Hlog _ _ _ Hin) as (y & Hy & _ & Hxy). by rewrite (Hxy x (Hans _ _ Hx)). }
  assert (Hsc : forall i x, xs !! i = Some x -> self_contained (projT1 x) = true).
  { intros i x Hx%Hcall. apply Hself, list_elem_of_In. by eapply list_elem_of_lookup_2. }
  split.
  - apply list_eq. intros i. rewrite list_lookup_fmap. unfold exchange in *.
    destruct (xs !! i) as [x|] eqn:Hx; [by rewrite (Hcall i x Hx)|].
    apply lookup_ge_None in Hx. symmetry. apply lookup_ge_None. by rewrite <- Hlen.
  - assert (Hlog' : forall i a b, (i, (a, b)) ∈ log -> exists x, xs !! i = Some x /\
       self_contained (projT1 x) = true /\ call_commit (occurs e sched (serve <$> calls, s)) (projT1 x) (projT2 x) a b).
    { intros i a b Hin. destruct (Hlog i a b Hin) as (y & Hy & Hc & Hxy).
      destruct (lookup_lt_is_Some_2 xs i) as [x Hx]; [rewrite Hlen; by eapply lookup_lt_Some|].
      exists x. split; [done|]. split; [by eapply Hsc|]. by rewrite (Hxy x (Hans _ _ Hx)). }
    exists (picked xs (log.*1 ++ filter (fun i => i ∉ log.*1) (seq 0 (length xs)))). split.
    + apply picked_all; [done|]. apply Forall_forall. intros i ([i' [a b]] & -> & Hin)%list_elem_of_fmap.
      destruct (Hlog' _ _ _ Hin) as (x & Hx & _). by eapply lookup_lt_Some.
    + destruct (executes_commits _ xs _ _ _ Hch Hok Hlog') as [_ Hex]. rewrite picked_app.
      eapply executes_app; [exact Hex|]. eapply executes_quiet, Forall_forall.
      intros i [Hno _]%list_elem_of_filter x Hx. split; [by eapply Hsc|].
      by destruct (Hout i (projT1 x) x (Hcall _ _ Hx) (Hans _ _ Hx) Hno) as [_ ?].
Qed.

(** C12.  The invariant of the database survives every interleaving: whatever calls
    overlap, and however their steps are scheduled, rows stay filed under their id,
    addresses and digests unique, passwords hashed and sessions the digests of
    tokens minted for their user. *)
Theorem concurrent_tables_ok calls s sched :
  tables_ok e svc (st_db s) -> tables_ok e svc (st_db (interleave e sched (serve <$> calls, s)).2).
Proof using HG HB.
  intros Hok. destruct (calls_linearise calls s sched) as (log & Hch & _ & [Hlog _]).
  eapply chain_invariant; [exact Hch| |exact Hok]. intros i a b Hin.
  destruct (Hlog i a b Hin) as (x & _ & Hc & _). by eapply commit_ok.
Qed.

(** C20.  However registrations overlap, with each other and with any other calls,
    at most one of those with the same address succeeds. *)
Theorem concurrent_registrations_unique calls s sched i1 i2 req1 req2 r1 r2 :
  let final : pool exchange := interleave e sched (serve <$> calls, s) in
  i1 <> i2 -> rr_Email req1 = rr_Email req2 ->
  final.1 !! i1 = Some (Ret (existT (CallRegister req1) r1)) ->
  final.1 !! i2 = Some (Ret (existT (CallRegister req2) r2)) ->
  is_ok r1 = false \/ is_ok r2 = false.
Proof using All.
  intros final Hne Hem H1 H2. destruct (calls_linearise calls s sched) as (log & Hch & _ & Hlog).
  destruct r1 as [x1|]; [|by left]. destruct r2 as [x2|]; [|by right]. exfalso.
  destruct (committed _ _ _ _ _ _ Hlog H1) as (a1 & b1 & Hin1 & Hc1); [done|].
  destruct (committed _ _ _ _ _ _ Hlog H2) as (a2 & b2 & Hin2 & Hc2); [done|].
  destruct (entries_in_turn _ _ _ Hin1 Hin2) as (l1 & l2 & l3 & [Hl|Hl]); [congruence|..].
  - by eapply one_registration.
  - by eapply one_registration with (req1 := req2) (req2 := req1).
Qed.
End methods.

(** ** What does not survive

    A sign-in checks the account, then stores the session outside any transaction,
    and the deletion of the account fits in between. *)

(** The schedule that lets thread 1 run while thread 0 has taken [k] steps. *)
Definition overtaken (k : nat) : list nat := replicate k 0%nat ++ replicate 40 1%nat ++ replicate 40 0%nat.

Abbreviation toy_serve := (serve toy_uuid ToyJWT.jwt toy_config).

(** A session can outlive its account: a sign-in overtaken by the deletion of
    the account, after it has checked the password, still stores its session.  Both
    calls succeed, no live account is left, and the session goes on being renewed,
    because a refresh never looks the user up. *)
Theorem login_outlives_deletion : exists sched resp,
  let calls : list call := [CallLogin ann_login; CallDeleteAccount ann_id] in
  let final : pool exchange := interleave good_env sched (toy_serve <$> calls : list (prog exchange), ann_state) in
  final.1 = [Ret (existT (CallLogin ann_login) (Ok resp)); Ret (existT (CallDeleteAccount ann_id) (Ok tt))] /\
  (forall row, ~ selected TUsers (user_has_id ann_id) (st_db final.2) row) /\
  is_ok (run good_env (Refresh toy_uuid toy_service Background (ar_RefreshToken resp)) final.2).1 = true.
Proof.
  exists (overtaken 4). eexists. cbv zeta. split; [vm_compute; reflexivity|]. split; [|vm_compute; reflexivity].
  intros row Hrow. revert row Hrow.
  apply (every_selected TUsers (user_has_id ann_id) _ (fun _ => False)), (bool_decide_unpack _). by vm_compute.
Qed.

(** ** Witnesses *)

(** Two registrations of one address and a purge, taking turns. *)
Definition rivals : list call := [CallRegister ann; CallRegister ann; CallPurge].
Definition turns : list nat := concat (replicate 40 [0%nat; 1%nat; 2%nat]).
Definition rivals_end := Eval vm_compute in interleave good_env turns (toy_serve <$> rivals, start empty_tables).
Lemma rivals_end_eq : interleave good_env turns (toy_serve <$> rivals, start empty_tables) = rivals_end.
Proof. vm_compute. reflexivity. Qed.
Definition rivals_answers : list exchange := Eval vm_compute in omap answer rivals_end.1.

Lemma self_contained_linearisable_witness :
  projT1 <$> rivals_answers = rivals /\
  map (fun x : exchange => match x with existT (CallRegister _) r => is_ok r | existT CallPurge r => is_ok r | _ => false end)
    rivals_answers = [true; false; true] /\
  exists ys, ys ≡ₚ rivals_answers.
Proof.
  destruct (self_contained_linearisable good_env toy_uuid ToyJWT.jwt toy_config toy_ttl rivals (start empty_tables) turns
    rivals_answers (empty_tables_ok _ _) eq_refl ltac:(rewrite rivals_end_eq; reflexivity)) as [H (ys & Hys & _)].
  split; [exact H|]. split; [reflexivity|by exists ys].
Defined.

Lemma concurrent_tables_ok_witness :
  size (t_users (st_db rivals_end.2)) = 1%nat /\ tables_ok good_env toy_service (st_db rivals_end.2).
Proof.
  split; [reflexivity|]. rewrite <- rivals_end_eq.
  exact (concurrent_tables_ok good_env toy_uuid ToyJWT.jwt toy_config toy_ttl rivals (start empty_tables) turns
    (empty_tables_ok _ _)).
Defined.

Lemma concurrent_registrations_unique_witness : exists r1 r2,
  rivals_end.1 !! 0%nat = Some (Ret (existT (CallRegister ann) r1)) /\
  rivals_end.1 !! 1%nat = Some (Ret (existT (CallRegister ann) r2)) /\
  (is_ok r1 = false \/ is_ok r2 = false).
Proof.
  eexists _, _. split; [reflexivity|]. split; [reflexivity|].
  pose proof (concurrent_registrations_unique good_env toy_uuid ToyJWT.jwt toy_config toy_ttl rivals (start empty_tables)
    turns 0 1 ann ann) as H. cbv zeta in H. rewrite rivals_end_eq in H. by apply H.
Defined.
