(* ===== verification/Availability.v ===== *)
(** * When the service may refuse

    The other specifications let every call fail, since everything it depends on
    may.  Here nothing does: no context is cancelled, no connection lost, no commit
    refused ([Faultless]).  The interfaces then promise in what cases, if any, they
    report an error, and the theorem says of every method the same: in such an
    environment an error has one of the reasons [justified] lists, so that a call
    with none of them succeeds.  Reasons that have to do with the clock or with new
    ids and tokens refer to the effects the call performed, and to no others. *)

From S2P Require Import Prelude GoStd Apperr Model Gorm Effects Repository RepositoryLaws Testbed Token UserService UserSpec Accounts Lts AccountMachine Refinement Concurrency.

(** ** An environment without faults *)

Class Faultless (e : env) : Prop := {
  never_done n : env_done e n = None;
  never_begin n : env_begin e n = None;
  never_commit n : env_commit e n = None;
  no_driver_error A n (q : stmt A) db err : (env_sql e A n q db).1 = Err err -> ~ driver_error err;
  bcrypt_accepts n pw : (length pw <= 72)%nat -> is_ok (env_bcrypt_generate e n pw DefaultCost) = true
}.

(** The answer is not an error, or it is one with reason [J]; a reason may refer to
    the number of effects performed when it is given, and holds from then on. *)
Definition fails_only {A} (J : nat -> error -> Prop) (r : result A) (s : state) : Prop :=
  match r with Ok _ => True | Err err => J (st_n s) err end.

Definition never_fails {A} : result A -> state -> Prop := fails_only (fun _ _ => False).

Definition lasting (J : nat -> error -> Prop) : Prop :=
  forall n n' err, (n <= n')%nat -> J n err -> J n' err.

Section wp.
Context (e : env).

Lemma wp_both {A} (p : prog A) P Q s : wp e p P s -> wp e p Q s -> wp e p (fun a s' => P a s' /\ Q a s') s.
Proof using Type. by split. Qed.

Lemma exec_op_later {X} (o : op X) s : (st_n s <= st_n (exec_op e o s).2)%nat.
Proof using Type. destruct o; simpl; try lia. destruct (env_sql e A (st_n s) q _) as [r d]. destruct c; simpl; lia. Qed.

(** Effects are counted up. *)
Lemma run_later {A} (p : prog A) s : (st_n s <= st_n (run e p s).2)%nat.
Proof using Type.
  revert s. induction p as [A a|X A o k IH|X A c body IHb k IH]; intros s; simpl; [done|..].
  - pose proof (exec_op_later o s). destruct (exec_op e o s) as [x s1]. specialize (IH x s1). simpl in *. lia.
  - destruct (env_begin e (st_n s)); [specialize (IH (Err e0) (tick s)); simpl in IH; lia|].
    specialize (IHb InTx (open_tx c (tick s))). destruct (run e (body InTx) _) as [r s1]. simpl in IHb.
    assert (Ho : (st_n s <= st_n (open_tx c (tick s)))%nat) by (destruct c; simpl; lia).
    destruct (close_tx e c s r s1) as [r' s2] eqn:Hc.
    assert (Hs2 : (st_n s1 <= st_n s2)%nat).
    { unfold close_tx in Hc. repeat case_match; simplify_eq; simpl; lia. }
    specialize (IH r' s2). lia.
Qed.

Lemma wp_later {A} (p : prog A) Q s : wp e p Q s -> wp e p (fun a s' => Q a s' /\ (st_n s <= st_n s')%nat) s.
Proof using Type. intros H. split; [exact H|apply run_later]. Qed.

Lemma fails_only_mono {A} (p : prog (result A)) (J J' : nat -> error -> Prop) s :
  wp e p (fails_only J) s -> (forall n err, (st_n s <= n)%nat -> J n err -> J' n err) -> wp e p (fails_only J') s.
Proof using Type.
  intros Hp HJ. eapply wp_mono; [apply wp_later, Hp|]. intros [x|err] s' [H Hn]; simpl in *; auto.
Qed.

Lemma serve_fail_internal {A} msg err (J : nat -> error -> Prop) s :
  (forall n err', (st_n s <= n)%nat -> fault err' -> J n err') -> wp e (fail_internal (A := A) msg err) (fails_only J) s.
Proof using Type.
  intros HJ. eapply wp_mono; [apply wp_later, (wp_fail_internal e msg err (fun r s' => exists err', r = Err err' /\ fault err'))|].
  - intros err' s' _ Hf. by exists err'.
  - intros r s' [(err' & -> & Hf) Hn]. by apply HJ.
Qed.

Context {HF : Faultless e}.

Lemma serve_poll {A} (k : prog (result A)) J s :
  (forall s', s' ≡ s -> (st_n s <= st_n s')%nat -> wp e k (fails_only J) s') ->
  wp e (let! _ := ctx_poll onerr err => Ret (Err err) in k) (fails_only J) s.
Proof using HF.
  intros Hk. apply wp_bind, wp_bind, wp_perform. cbn [exec_op fst snd]. rewrite never_done.
  apply wp_ret. apply Hk; [done|simpl; lia].
Qed.

(** A statement reports what its contract lets it, and no failure of the driver. *)
Lemma serve_method {HG : GormLaws e} {A B} ctx (q : stmt A) (h : error -> prog (result B)) k J s :
  (forall r d s', gorm_spec q (seen ctx s) r d -> (forall err, r = Err err -> ~ driver_error err) ->
     wp e (match r with Ok x => k x | Err err => h err end) (fails_only J) s') ->
  wp e (let! _ := ctx_poll onerr err => Ret (Err err) in
        let! x := GORM.sql Pool ctx q onerr err => h err in k x) (fails_only J) s.
Proof using HF.
  intros Hq. apply serve_poll. intros s1 Hs1 _. apply wp_bind, wp_perform. cbn [exec_op].
  change (view (conn_of ctx) (tick s1)) with (seen ctx s1). rewrite (seen_proper ctx _ _ Hs1).
  pose proof (gorm_ok A (st_n s1) q (seen ctx s)) as Hg. pose proof (no_driver_error A (st_n s1) q (seen ctx s)) as Hd.
  destruct (env_sql e A (st_n s1) q (seen ctx s)) as [r d]. simpl in *. by eapply Hq.
Qed.

(** A transaction fails only if its body does. *)
Lemma serve_transaction {X} (body : conn -> prog (result X)) J s :
  lasting J ->
  (forall s1, s1 ≡ with_work (st_db s) s -> (st_n s <= st_n s1)%nat -> wp e (body InTx) (fails_only J) s1) ->
  wp e (Transaction Pool body) (fails_only J) s.
Proof using HF.
  intros HJ Hb. specialize (Hb (open_tx Pool (tick s)) ltac:(done) ltac:(simpl; lia)). unfold wp, Transaction in *. cbn [run].
  rewrite never_begin. destruct (run e (body InTx) _) as [[x|err] s1]; simpl in *; [by rewrite never_commit|].
  by eapply HJ; [|exact Hb]; lia.
Qed.
End wp.

(** ** What the interfaces promise then *)

Class UserRepositoryServes (e : env) (repo : UserRepository) : Prop := {
  ur_Create_serves ctx x s :
    wp e (ur_Create repo ctx x) (fails_only (fun _ err => errors_Is err ErrDuplicatedKey = true)) s;
  ur_FindByID_serves ctx id s : wp e (ur_FindByID repo ctx id) never_fails s;
  ur_FindByEmail_serves ctx email s : wp e (ur_FindByEmail repo ctx email) never_fails s;
  ur_Update_serves ctx id x s :
    wp e (ur_Update repo ctx id x) (fails_only (fun _ _ => exists now,
      ~ unique_ok TUsers (update_rows TUsers (user_has_id id) now x (t_users (seen ctx s))))) s;
  ur_Delete_serves ctx id s : wp e (ur_Delete repo ctx id) never_fails s
}.

Class RefreshTokenRepositoryServes (e : env) (repo : RefreshTokenRepository) : Prop := {
  tr_Create_serves ctx x s :
    wp e (tr_Create repo ctx x) (fails_only (fun _ _ => collides TTokens x (t_tokens (seen ctx s)))) s;
  tr_FindByTokenHash_serves ctx h s : wp e (tr_FindByTokenHash repo ctx h) never_fails s;
  tr_ListActiveByUserID_serves ctx id now limit offset s :
    wp e (tr_ListActiveByUserID repo ctx id now limit offset) never_fails s;
  tr_CountActiveByUserID_serves ctx id now s : wp e (tr_CountActiveByUserID repo ctx id now) never_fails s;
  tr_DeleteByUserID_serves ctx id s : wp e (tr_DeleteByUserID repo ctx id) never_fails s;
  tr_DeleteByTokenHash_serves ctx h s : wp e (tr_DeleteByTokenHash repo ctx h) never_fails s;
  tr_DeleteExpired_serves ctx before s : wp e (tr_DeleteExpired repo ctx before) never_fails s
}.

Class TxManagerServes (e : env) (tm : TxManager) : Prop :=
  tm_serves X ctx (fn : context -> prog (result X)) J s :
    ctx_value ctx = None -> lasting J ->
    (forall ctx' s1, conn_of ctx' = InTx -> s1 ≡ with_work (st_db s) s -> (st_n s <= st_n s1)%nat ->
       wp e (fn ctx') (fails_only J) s1) ->
    wp e (tm_WithinTx tm X ctx fn) (fails_only J) s.

(** [mints_at n tok uid]: effect [n], or one right after it, gives this token;
    [stale_at n tok]: at effect [n] the token is none that is valid still. *)
Class TokenServiceServes (e : env) (ts : TokenService) : Type := {
  mints_at : nat -> string -> UUID -> Prop;
  stale_at : nat -> string -> Prop;
  ts_GenerateAccessToken_serves uid email name s : wp e (ts_GenerateAccessToken ts uid email name) never_fails s;
  ts_GenerateRefreshToken_serves uid s :
    wp e (ts_GenerateRefreshToken ts uid) (fun r s' => exists tok, r = Ok tok /\ mints_at (st_n s) tok uid) s;
  ts_ValidateRefreshToken_serves tok s :
    wp e (ts_ValidateRefreshToken ts tok) (fails_only (fun n' _ => exists n, (st_n s <= n < n')%nat /\ stale_at n tok)) s
}.

(** ** The gorm repositories do *)

Section gorm.
Context (e : env) {HG : GormLaws e} {HF : Faultless e}.

Lemma serve_statement {A B} ctx (q : stmt A) (g : A -> B) (h : error -> prog (result B)) J s :
  (forall err s1, wp e (h err) (fun r s2 => s2 ≡ s1 /\ exists err', r = Err err') s1) ->
  (forall err d n err', gorm_spec q (seen ctx s) (Err err) d -> ~ driver_error err -> J n err') ->
  wp e (let! _ := ctx_poll onerr err => Ret (Err err) in
        let! x := GORM.sql Pool ctx q onerr err => h err in Ret (Ok (g x))) (fails_only J) s.
Proof using HF HG.
  intros Hh HJ. apply (serve_method e ctx q). intros [x|err] d s' Hg Hd; [by apply wp_ret|].
  eapply wp_mono; [apply Hh|]. intros r s2 (_ & err' & ->). simpl. eauto.
Qed.

Lemma serve_lookup {R} ctx (t : table R) p (h : error -> prog (result (option R))) s :
  wp e (let! _ := ctx_poll onerr err => Ret (Err err) in
        let! x := GORM.sql Pool ctx (First t p false)
          onerr err => if errors_Is err ErrRecordNotFound then Ret (Ok None) else h err in
        Ret (Ok (Some x))) never_fails s.
Proof using HF HG.
  apply (serve_method e ctx (First t p false)). intros [x|err] d s' Hg Hd; [by apply wp_ret|].
  destruct Hg as [_ [[-> _]|Hdr]]; [by apply wp_ret|]. by destruct (Hd err).
Qed.

#[export] Instance GORM_UserRepositoryServes : UserRepositoryServes e (GORM.NewGORMUserRepository Pool).
Proof using HF HG.
  split; intros ctx; simpl.
  - intros x s. apply (serve_method e ctx (Create TUsers x)). intros [y|err] d s' Hg Hd; apply wp_ret; [done|].
    destruct Hg as [_ [[-> _]|Hdr]]; [done|]. by destruct (Hd err).
  - intros id s. apply serve_lookup.
  - intros email s. apply serve_lookup.
  - intros id x s. apply (serve_statement ctx (Updates TUsers (user_has_id id) x) (fun _ => tt)); [eauto with go|].
    intros err d n err' [_ [[_ Hu]|Hdr]] Hd; [exact Hu|done].
  - intros id s. apply (serve_statement ctx (Delete TUsers (user_has_id id)) (fun _ => tt)); [eauto with go|].
    by intros err d n err' [_ Hdr] Hd.
Qed.

#[export] Instance GORM_RefreshTokenRepositoryServes uuid_String :
  RefreshTokenRepositoryServes e (GORM.NewGORMRefreshTokenRepository Pool uuid_String).
Proof using HF HG.
  split; intros ctx; simpl.
  - intros x s. apply (serve_statement ctx (Create TTokens x) (fun _ => tt)); [eauto with go|].
    intros err d n err' [_ [[_ Hu]|Hdr]] Hd; [exact Hu|done].
  - intros h s. apply serve_lookup.
  - intros id now limit offset s.
    apply (serve_statement ctx (Find TTokens (token_active id now) newest_first limit offset) (fun l => l)); [eauto with go|].
    by intros err d n err' [_ Hdr] Hd.
  - intros id now s. apply (serve_statement ctx (Count TTokens (token_active id now)) (fun n => n)); [eauto with go|].
    by intros err d n err' [_ Hdr] Hd.
  - intros id s. apply (serve_statement ctx (Delete TTokens (token_of_user id)) (fun _ => tt)); [eauto with go|].
    by intros err d n err' [_ Hdr] Hd.
  - intros h s. apply (serve_statement ctx (Delete TTokens (token_has_hash h)) (fun _ => tt)); [eauto with go|].
    by intros err d n err' [_ Hdr] Hd.
  - intros before s. apply (serve_statement ctx (Delete TTokens (token_expired before)) (fun n => n)); [eauto with go|].
    by intros err d n err' [_ Hdr] Hd.
Qed.

#[export] Instance GORM_TxManagerServes : TxManagerServes e (GORM.NewGORMTxManager Pool).
Proof using HF.
  intros X ctx fn J s Hctx HJ Hfn. simpl. unfold GORM.Tx_WithinTx, Dbtx.From_. rewrite Hctx.
  apply (serve_transaction e); [done|]. intros s1 Hs1 Hn. by apply Hfn.
Qed.
End gorm.

(** ** The token service does

    HMAC-SHA256 signs any claims with any key. *)

Class Signs (j : JWT) : Prop := signs c key : is_ok (SignedString j HS256 c key) = true.

Section token.
Context (e : env) (j : JWT) {HJ : JWTLaws j} {HS : Signs j} (u : UUIDLib) (config : TokenConfig).

(** The token that [GenerateRefreshToken] answers, called at effect [n]. *)
Definition minted_at (n : nat) (tok : string) (uid : UUID) : Prop :=
  SignedString j HS256 (refresh_claims j (uuid_String u) config uid (env_uuid e (S n)) (env_now e n))
    (to_bytes (RefreshTokenSecret config)) = Ok tok.

(** No claims that have not expired at effect [n] were signed as this token. *)
Definition not_valid_at (n : nat) (tok : string) : Prop :=
  forall c, encodable c -> SignedString j HS256 c (to_bytes (RefreshTokenSecret config)) = Ok tok ->
    ~ unexpired c (env_now e n).

#[export] Instance tokenService_serves : TokenServiceServes e (NewTokenService j (uuid_String u) config).
Proof using HJ HS.
  refine {| mints_at := minted_at; stale_at := not_valid_at |}.
  - intros uid email name s. unfold wp. simpl. pose proof (signs (j := j)) as Hsig.
    specialize (Hsig (access_claims j config uid email name (env_now e (st_n s)) (env_now e (S (st_n s))))
                     (to_bytes (AccessTokenSecret config))).
    by destruct (SignedString _ _ _ _).
  - intros uid s. unfold wp, minted_at. simpl.
    pose proof (signs (j := j) (refresh_claims j (uuid_String u) config uid (env_uuid e (S (st_n s))) (env_now e (st_n s)))
                     (to_bytes (RefreshTokenSecret config))) as Hsig.
    destruct (SignedString _ _ _ _) as [tok|]; [by exists tok|done].
  - intros tok s. unfold wp. simpl. destruct (String.eqb_spec tok "") as [->|Hne]; simpl.
    + exists (st_n s). split; [lia|]. intros c Hc Hs _. by apply (sign_law (j := j)) in Hs as [_ ?].
    + destruct (ParseWithClaims _ _ _ _) as [c|err] eqn:Hp; simpl; [done|].
      exists (S (st_n s)). split; [lia|]. intros c Hc Hs Hu.
      by rewrite (parse_complete (j := j) _ _ _ _ _ _ Hs Hc eq_refl Hu) in Hp.
Defined.
End token.

(** ** The methods

    Against the interfaces: what they promise always, and what without faults. *)

Section methods.
Context (e : env) (u : UUIDLib) (svc : userService) {HF : Faultless e} {HB : BcryptLaws e}.
Context {HU : UserRepositoryLaws e (userRepository svc)} {SU : UserRepositoryServes e (userRepository svc)}
        {HR : RefreshTokenRepositoryLaws e (refreshTokenRepository svc)}
        {SR : RefreshTokenRepositoryServes e (refreshTokenRepository svc)}
        {HT : TokenServiceLaws e (tokenService svc)} {ST : TokenServiceServes e (tokenService svc)}
        {HM : TxManagerLaws e (txManager svc)} {SM : TxManagerServes e (txManager svc)}.

(** The row of a session of [uid], opened between the effects [n0] and [n1], would
    have the id or the digest of one in [m]. *)
Definition session_clash (n0 n1 : nat) (uid : UUID) (m : gmap UUID RefreshTokenEntity) : Prop :=
  exists n k tok, (n0 <= n /\ n <= k /\ k < n1)%nat /\ mints_at (ts := tokenService svc) n tok uid /\
    (m !! env_uuid e k <> None \/ exists i y, m !! i = Some y /\ rt_TokenHash y = Hash tok).

Lemma session_clash_within n0 n0' n1 n1' uid m :
  (n0 <= n0')%nat -> (n1' <= n1)%nat -> session_clash n0' n1' uid m -> session_clash n0 n1 uid m.
Proof using Type. intros H0 H1 (n & k & tok & Hk & Hm). exists n, k, tok. split; [lia|done]. Qed.

Lemma session_clash_revoked n0 n1 uid p m : session_clash n0 n1 uid (revoked p m) -> session_clash n0 n1 uid m.
Proof using Type.
  intros (n & k & tok & Hk & Ht & Hm). exists n, k, tok. split; [done|]. split; [done|].
  destruct Hm as [Hm|(i & y & [Hy _]%revoked_lookup & Hh)]; [left|by right; exists i, y].
  contradict Hm. apply eq_None_not_Some. intros [y [Hy _]%revoked_lookup]. by rewrite Hy in Hm.
Qed.

(** [bcrypt] refuses a password of more than 72 bytes. *)
Definition too_long (password : string) : Prop := (72 < length (to_bytes password))%nat.

(** The reasons a call may be answered with an error, if it starts in [s] and [n1]
    effects have been performed when it answers. *)
Definition justified (c : call) (s : state) (n1 : nat) (err : error) : Prop :=
  let db := st_db s in
  let clash := fun uid => session_clash (st_n s) n1 uid (t_tokens db) in
  match c with
  | CallRegister req =>
      (err = EApp ErrUserAlreadyExists /\
         ((exists k x, t_users db !! k = Some x /\ u_Email x = rr_Email req) \/
          exists n, (st_n s <= n < n1)%nat /\ t_users db !! env_uuid e n <> None)) \/
      (fault err /\ (too_long (rr_Password req) \/ exists n, (st_n s <= n < n1)%nat /\ clash (env_uuid e n)))
  | CallLogin req =>
      (err = EApp ErrInvalidCredentials /\
         forall row, selected TUsers (user_has_email (lr_Email req)) db row ->
           env_bcrypt_compare e (u_Password row) (to_bytes (lr_Password req)) <> None) \/
      (fault err /\ exists row, selected TUsers (user_has_email (lr_Email req)) db row /\ clash (u_ID row))
  | CallRefresh tok =>
      (exists a cause n, err = EApp (WithCause a ErrInvalidRefreshToken cause) /\
         (st_n s <= n < n1)%nat /\ stale_at (ts := tokenService svc) n tok) \/
      (err = EApp ErrRefreshTokenRevoked /\ forall row, ~ selected TTokens (token_has_hash (Hash tok)) db row) \/
      (err = EApp ErrRefreshTokenExpired /\ exists row n, selected TTokens (token_has_hash (Hash tok)) db row /\
         (st_n s <= n < n1)%nat /\ rt_ExpiresAt row < env_now e n) \/
      (fault err /\ exists uid, vouches (ts := tokenService svc) tok uid /\ clash uid)
  | CallGetUser id =>
      (exists a cause, uuid_Parse u id = Err cause /\ err = EApp (WithCause a ErrInvalidUserID cause)) \/
      (err = EApp ErrUserNotFound /\
         exists uid, uuid_Parse u id = Ok uid /\ forall row, ~ selected TUsers (user_has_id uid) db row)
  | CallChangePassword uid req =>
      (err = EApp ErrInvalidCredentials /\
         forall row, selected TUsers (user_has_id uid) db row ->
           env_bcrypt_compare e (u_Password row) (to_bytes (cp_CurrentPassword req)) <> None) \/
      (fault err /\ (too_long (cp_NewPassword req) \/ clash uid))
  | CallDeleteAccount uid => err = EApp ErrUserNotFound /\ forall row, ~ selected TUsers (user_has_id uid) db row
  | CallRevoke _ | CallListSessions _ _ _ | CallPurge => False
  end.

Lemma refused_too_long n password err :
  env_bcrypt_generate e n (to_bytes password) DefaultCost = Err err -> too_long password.
Proof using HF.
  intros Hgen. unfold too_long. destruct (Nat.le_gt_cases (length (to_bytes password)) 72) as [Hle|?]; [|done].
  pose proof (bcrypt_accepts n _ Hle) as Hok. by rewrite Hgen in Hok.
Qed.

(** What a step does and what it may refuse, in one. *)
Lemma wp_served {A} (p : prog (result A)) P J s :
  wp e p P s -> wp e p (fails_only J) s ->
  wp e p (fun r s' => P r s' /\ (st_n s <= st_n s')%nat /\ forall err, r = Err err -> J (st_n s') err) s.
Proof using Type.
  intros HP HJ. split; [exact HP|]. split; [apply run_later|]. intros err Hr. unfold wp in HJ. by rewrite Hr in HJ.
Qed.
End methods.

(** [wp_serve law serves] runs the first call by its two specifications. *)
Tactic Notation "wp_serve" uconstr(law) uconstr(serves) :=
  apply wp_bind; eapply wp_mono; [eapply wp_served; [apply law; try apply _|apply serves; try apply _]|cbv beta].

Section calls.
Context (e : env) (u : UUIDLib) (svc : userService) {HF : Faultless e} {HB : BcryptLaws e}.
Context {HU : UserRepositoryLaws e (userRepository svc)} {SU : UserRepositoryServes e (userRepository svc)}
        {HR : RefreshTokenRepositoryLaws e (refreshTokenRepository svc)}
        {SR : RefreshTokenRepositoryServes e (refreshTokenRepository svc)}
        {HT : TokenServiceLaws e (tokenService svc)} {ST : TokenServiceServes e (tokenService svc)}
        {HM : TxManagerLaws e (txManager svc)} {SM : TxManagerServes e (txManager svc)}.

Abbreviation clash := (session_clash e svc).

Lemma serve_RevokeRefreshTokens ctx uid s : wp e (RevokeRefreshTokens svc ctx uid) never_fails s.
Proof using HF SR.
  apply (serve_poll e). intros s1 _ _. wp_call (tr_DeleteByUserID_serves (e := e)). intros [[]|err] s2; [done|by intros []].
Qed.

Lemma serve_StoreRefreshToken ctx uid tok expires n s :
  mints_at (ts := tokenService svc) n tok uid -> (n <= st_n s)%nat ->
  wp e (StoreRefreshToken svc ctx uid tok expires)
     (fails_only (fun n1 err => fault err /\ clash n n1 uid (t_tokens (seen ctx s)))) s.
Proof using HF SR.
  intros Htok Hn. apply (serve_poll e). intros s1 Hs1 Hn1. apply wp_bind, wp_perform. cbn [exec_op fst snd].
  apply wp_bind. eapply wp_mono; [apply wp_later, (tr_Create_serves (e := e))|].
  intros [[]|err] s2 [H2 Hn2]; [by apply wp_ret|]. cbn [st_n tick] in Hn2.
  apply serve_fail_internal. intros n1 err' Hle Hf. split; [done|].
  exists n, (st_n s1), tok. split; [lia|]. split; [done|]. simpl in H2.
  rewrite <- (seen_proper ctx _ _ Hs1). destruct H2 as [H2|(i & y & Hy & Hh)]; [by left|].
  right. exists i, y. split; [exact Hy|]. simpl in Hh. apply String.eqb_eq in Hh. done.
Qed.

Lemma serve_issueTokens ctx user s :
  wp e (issueTokens svc ctx user)
     (fails_only (fun n1 err => fault err /\ clash (st_n s) n1 (gu_ID user) (t_tokens (seen ctx s)))) s.
Proof using HF SR HT ST.
  wp_serve (ts_GenerateAccessToken_law (e := e)) (ts_GenerateAccessToken_serves (e := e)).
  intros [acc|err] s1 ([Hs1 _] & Hn1 & He); [|by destruct (He err)].
  apply wp_bind. eapply wp_mono;
    [apply wp_both; [apply (ts_GenerateRefreshToken_law (e := e))|apply wp_later, (ts_GenerateRefreshToken_serves (e := e))]|].
  intros r s2 [[Hs2 _] [(tok & -> & Htok) Hn2]]. apply wp_bind, wp_perform. cbn [exec_op fst snd].
  wp_call (fun exp => serve_StoreRefreshToken ctx (gu_ID user) tok exp (st_n s1) (tick s2) Htok); [simpl; lia|].
  intros [[]|err] s3 H3; [by apply wp_ret|]. apply wp_ret. simpl in H3. destruct H3 as [Hf Hm]. split; [done|].
  rewrite <- (seen_proper ctx (tick s2) s ltac:(by rewrite tick_equiv, Hs2, Hs1)).
  by eapply session_clash_within; [..|exact Hm].
Qed.

(** A transaction body on the tables [db]: its calls see what it has written. *)
Lemma serve_register_tx ctx' user gu n s :
  conn_of ctx' = InTx -> (n <= st_n s)%nat ->
  wp e (register_tx svc user gu ctx')
     (fails_only (fun n1 err => (err = EApp ErrUserAlreadyExists /\ collides TUsers user (t_users (st_work s))) \/
        (fault err /\ clash n n1 (gu_ID gu) (t_tokens (st_work s))))) s.
Proof using HF HU SU SR HT ST.
  intros Hc Hn. wp_serve (ur_Create_law (e := e)) (ur_Create_serves (e := e)).
  intros [id|err] s1 ([Hw Hdup] & Hn1 & He).
  - apply writes_work in Hw as [_ (m & _ & Hw)]; [|done].
    eapply fails_only_mono; [apply serve_issueTokens|]. intros n1 err _ [Hf Hm]. right. split; [done|].
    rewrite (seen_in_tx ctx'), Hw in Hm by done. eapply session_clash_within; [| |exact Hm]; lia.
  - specialize (He err eq_refl). rewrite He. apply wp_ret. left. split; [done|].
    rewrite <- (seen_in_tx ctx') by done. by apply (Hdup err).
Qed.

Lemma serve_rotate_tx ctx' h user n s :
  conn_of ctx' = InTx -> (n <= st_n s)%nat ->
  wp e (rotate_tx svc h user ctx')
     (fails_only (fun n1 err => fault err /\ clash n n1 (gu_ID user) (t_tokens (st_work s)))) s.
Proof using HF HR SR HT ST.
  intros Hc Hn. wp_serve (tr_DeleteByTokenHash_law (e := e)) (tr_DeleteByTokenHash_serves (e := e)).
  intros [[]|err] s1 (Hw & Hn1 & He); [|by destruct (He err)].
  apply writes_work in Hw as [_ (m & -> & Hw)]; [|done].
  eapply fails_only_mono; [apply serve_issueTokens|]. intros n1 err _ [Hf Hm]. split; [done|].
  rewrite (seen_in_tx ctx'), Hw, (seen_in_tx ctx') in Hm by done.
  eapply session_clash_revoked, session_clash_within; [| |exact Hm]; lia.
Qed.

Lemma serve_change_password_tx ctx' uid hashed pw user n s :
  conn_of ctx' = InTx -> (n <= st_n s)%nat -> users_ok e (t_users (st_work s)) ->
  (exists k, env_bcrypt_generate e k (to_bytes pw) DefaultCost = Ok hashed) -> gu_ID user = uid ->
  wp e (change_password_tx svc uid hashed user ctx')
     (fails_only (fun n1 err => fault err /\ clash n n1 uid (t_tokens (st_work s)))) s.
Proof using HF HB HU SU HR SR HT ST.
  intros Hc Hn Hok [k Hgen] Hid. pose proof Hgen as [Hne _]%bcrypt_law.
  wp_serve (ur_Update_law (e := e)) (ur_Update_serves (e := e)). intros [[]|err] s1 (Hw & Hn1 & He).
  2: { destruct (He err eq_refl) as [now Hu]. contradict Hu. rewrite update_password, (seen_in_tx ctx') by done.
       by apply (users_ok_password e uid hashed now _ pw k Hgen Hok). }
  apply writes_work in Hw as [_ (m & _ & Hw)]; [|done].
  wp_serve (wp_RevokeRefreshTokens e svc) serve_RevokeRefreshTokens.
  intros [[]|err] s2 (Hw2 & Hn2 & He2); [|by destruct (He2 err)].
  apply writes_work in Hw2 as [_ (m' & -> & Hw2)]; [|done].
  eapply fails_only_mono; [apply serve_issueTokens|]. intros n1 err _ [Hf Hm]. split; [done|].
  rewrite (seen_in_tx ctx'), Hw2, (seen_in_tx ctx'), Hw, Hid in Hm by done.
  eapply session_clash_revoked, session_clash_within; [| |exact Hm]; lia.
Qed.

Lemma serve_delete_account_tx ctx' uid s : wp e (delete_account_tx svc uid ctx') never_fails s.
Proof using HF SU SR.
  wp_call serve_RevokeRefreshTokens. intros [[]|err] s1; [intros _|by intros []].
  wp_call (ur_Delete_serves (e := e)). intros [[]|err] s2; [by intros _; apply wp_ret|by intros []].
Qed.

(** The transaction on the tables of [s]. *)
Lemma serve_within {X} (fn : context -> prog (result X)) J s :
  lasting J ->
  (forall ctx' s1, conn_of ctx' = InTx -> st_work s1 = st_db s -> (st_n s <= st_n s1)%nat -> wp e (fn ctx') (fails_only J) s1) ->
  wp e (tm_WithinTx (txManager svc) X Background fn) (fails_only J) s.
Proof using SM.
  intros HJ Hfn. apply tm_serves; [done..|]. intros ctx' s1 Hc Hs1 Hn. apply Hfn; [done|by rewrite (st_work_proper _ _ Hs1)|done].
Qed.

(** [pair, err := m; if err != nil { return err }; return f(pair), nil] *)
Lemma serve_then {X Y} (m : prog (result X)) (f : X -> Y) J s :
  wp e m (fails_only J) s -> wp e (let! x := m onerr err => Ret (Err err) in Ret (Ok (f x))) (fails_only J) s.
Proof using Type. intros Hm. wp_call Hm. by intros [x|err] s1; [intros _|intros Hx]; apply wp_ret. Qed.

(** The reasons hold from then on. *)
Lemma lasting_clash n0 uid m : lasting (fun n1 err => fault err /\ clash n0 n1 uid m).
Proof using Type. intros n n' err Hle [Hf Hm]. split; [done|]. by eapply session_clash_within; [| |exact Hm]. Qed.

Lemma lasting_justified c s : lasting (justified e u svc c s).
Proof using Type.
  intros n n' err Hle. assert (Hcl : forall uid, clash (st_n s) n uid (t_tokens (st_db s)) -> clash (st_n s) n' uid (t_tokens (st_db s)))
    by (intros uid; by apply session_clash_within).
  assert (Hin : forall P : nat -> Prop, (exists k, (st_n s <= k < n)%nat /\ P k) -> exists k, (st_n s <= k < n')%nat /\ P k)
    by (intros P (k & Hk & HP); exists k; split; [lia|done]).
  destruct c; cbn [justified]; try done.
  - intros [[-> [Hr|Hr]]|[Hf [Hl|(k & Hk & Hm)]]]; [left|left|right|right]; (split; [done|]); [by left|right; by apply Hin|by left|].
    right. exists k. split; [lia|auto].
  - intros [?|(Hf & row & Hrow & Hm)]; [by left|]. right. split; [done|]. exists row. auto.
  - intros [(a & cause & k & Hr & Hk & Hs)|[?|[(Hr & row & k & Hrow & Hk & Hx)|(Hf & uid & Hv & Hm)]]].
    + left. exists a, cause, k. split; [done|]. split; [lia|done].
    + right; by left.
    + right; right; left. split; [done|]. exists row, k. split; [done|]. split; [lia|done].
    + right; right; right. split; [done|]. exists uid. auto.
  - intros [?|[Hf [?|Hm]]]; [by left|right; split; [done|]; by left|right; split; [done|]; right; auto].
Qed.

Abbreviation justified := (justified e u svc).

(** A lookup that the method starts with. *)
Lemma serve_find {R B} (m : prog (result (option R))) (t : table R) p msg (k : option R -> prog (result B)) J s0 s :
  wp e m (reads s (lookup_spec t p (seen Background s))) s -> wp e m never_fails s ->
  s ≡ s0 -> (st_n s0 <= st_n s)%nat ->
  (forall o s1, lookup_spec t p (st_db s0) o -> s1 ≡ s0 -> (st_n s0 <= st_n s1)%nat -> wp e (k o) (fails_only J) s1) ->
  wp e (let! o := m onerr err => fail_internal msg err in k o) (fails_only J) s.
Proof using Type.
  intros Hr Hn Hs Hle Hk. apply wp_bind. eapply wp_mono; [by apply (wp_served e m _ _ s Hr Hn)|].
  intros [o|err] s1 ([Hs1 Ho] & Hle1 & He); [|by destruct (He err)].
  apply Hk; [|by rewrite Hs1|lia]. rewrite (seen_proper _ _ _ Hs) in Ho. exact Ho.
Qed.

(** An id, and an address, is that of one account. *)
Lemma selected_id_unique uid db row row' :
  users_ok e (t_users db) -> selected TUsers (user_has_id uid) db row -> selected TUsers (user_has_id uid) db row' -> row = row'.
Proof using Type.
  intros (Hf & _) (k & Hk & _ & Hi%N.eqb_eq) (k' & Hk' & _ & Hi'%N.eqb_eq). simpl in *.
  rewrite (Hf _ _ Hk) in Hi. rewrite (Hf _ _ Hk') in Hi'. congruence.
Qed.

Lemma selected_email_unique email db row row' :
  users_ok e (t_users db) ->
  selected TUsers (user_has_email email) db row -> selected TUsers (user_has_email email) db row' -> row = row'.
Proof using Type.
  intros (_ & Hu & _) (k & Hk & _ & Hi%String.eqb_eq) (k' & Hk' & _ & Hi'%String.eqb_eq). simpl in *.
  assert (k = k') as <- by (apply (Hu k row Hk k' row' Hk'); apply String.eqb_eq; congruence). congruence.
Qed.

Lemma serve_Register req s :
  wp e (Register svc Background req) (fails_only (justified (CallRegister req) s)) s.
Proof using HF HU SU HR SR HT ST SM.
  apply (serve_poll e). intros s1 Hs1 Hn1.
  eapply serve_find; [apply (ur_FindByEmail_law (e := e))|apply (ur_FindByEmail_serves (e := e))|done|done|].
  intros [row|] s2 Hrow Hs2 Hn2.
  { apply wp_ret. left. split; [done|]. left. destruct Hrow as (k & Hk & _ & He%String.eqb_eq). by exists k, row. }
  apply wp_bind, wp_perform. cbn [exec_op fst snd].
  destruct (env_bcrypt_generate e (st_n s2) (to_bytes (rr_Password req)) DefaultCost) as [hashed|err] eqn:Hgen.
  2: { apply serve_fail_internal. intros n1 err' _ Hf. right. split; [done|]. left. by eapply refused_too_long. }
  apply wp_bind, wp_perform. cbn [exec_op fst snd]. apply serve_then, serve_within; [apply lasting_justified|].
  intros ctx' s3 Hc Hw Hn3. cbn [st_n tick emit] in Hn3. eapply fails_only_mono; [by apply (serve_register_tx _ _ _ (st_n s)); [|lia]|].
  assert (Hdb : st_work s3 = st_db s) by (rewrite Hw; exact (st_db_proper _ _ Hs2)). rewrite Hdb.
  intros n1 err Hle [[-> Hcol]|[Hf Hm]].
  - left. split; [done|]. destruct Hcol as [Hid|(k & x & Hx & He%String.eqb_eq)]; [right|left; by exists k, x].
    eexists. split; [|exact Hid]. cbn [st_n tick emit]. lia.
  - right. split; [done|]. right. eexists. split; [|exact Hm]. cbn [st_n tick emit]. lia.
Qed.

Lemma serve_Login req s :
  tables_ok e svc (st_db s) ->
  wp e (Login svc Background req) (fails_only (justified (CallLogin req) s)) s.
Proof using HF HU SU HR SR HT ST.
  intros [Hok _]. apply (serve_poll e). intros s1 Hs1 Hn1.
  eapply serve_find; [apply (ur_FindByEmail_law (e := e))|apply (ur_FindByEmail_serves (e := e))|done|done|].
  intros [row|] s2 Hrow Hs2 Hn2.
  - apply wp_bind, wp_perform. cbn [exec_op fst snd].
    destruct (env_bcrypt_compare e (u_Password row) _) as [err|] eqn:Hcmp.
    { apply wp_ret. left. split; [done|]. intros row' Hrow'.
      rewrite (selected_email_unique _ _ _ _ Hok Hrow' Hrow). by rewrite Hcmp. }
    apply serve_then. eapply fails_only_mono; [apply serve_issueTokens|]. intros n1 err _ [Hf Hm].
    right. split; [done|]. exists row. split; [done|].
    change (seen Background (emit _ (tick s2))) with (st_db s2) in Hm. rewrite (st_db_proper _ _ Hs2) in Hm.
    eapply session_clash_within; [| |exact Hm]; [cbn [st_n tick emit]; lia|done].
  - wp_call wp_dummyPasswordHash. intros h s3 _. apply wp_bind, wp_perform, wp_ret. left. split; [done|].
    intros row Hr. by destruct (Hrow row).
Qed.

Lemma serve_ChangePassword uid req s :
  tables_ok e svc (st_db s) ->
  wp e (ChangePassword svc Background uid req) (fails_only (justified (CallChangePassword uid req) s)) s.
Proof using HF HB HU SU HR SR HT ST SM.
  intros [Hok _]. apply (serve_poll e). intros s1 Hs1 Hn1.
  eapply serve_find; [apply (ur_FindByID_law (e := e))|apply (ur_FindByID_serves (e := e))|done|done|].
  intros [row|] s2 Hrow Hs2 Hn2; [|apply wp_ret; left; split; [done|]; intros row Hr; by destruct (Hrow row)].
  apply wp_bind, wp_perform. cbn [exec_op fst snd].
  destruct (env_bcrypt_compare e (u_Password row) _) as [err|] eqn:Hcmp.
  { apply wp_ret. left. split; [done|]. intros row' Hrow'. rewrite (selected_id_unique _ _ _ _ Hok Hrow' Hrow). by rewrite Hcmp. }
  apply wp_bind, wp_perform. cbn [exec_op fst snd st_n tick emit].
  destruct (env_bcrypt_generate e (S (st_n s2)) (to_bytes (cp_NewPassword req)) DefaultCost) as [hashed|err] eqn:Hgen.
  - apply serve_then, serve_within; [apply lasting_justified|]. intros ctx' s3 Hc Hw Hn3. cbn [st_n tick emit] in Hn3.
    assert (Hdb : st_work s3 = st_db s) by (rewrite Hw; exact (st_db_proper _ _ Hs2)).
    eapply fails_only_mono; [apply (serve_change_password_tx _ uid _ (cp_NewPassword req) _ (st_n s)); [done|lia|by rewrite Hdb|by eexists|]|].
    + by apply (selected_id uid (st_db s)).
    + rewrite Hdb. intros n1 err _ [Hf Hm]. right. split; [done|]. by right.
  - apply serve_fail_internal. intros n1 err' _ Hf. right. split; [done|]. left. by eapply refused_too_long.
Qed.

Lemma serve_DeleteAccount uid s :
  wp e (DeleteAccount svc Background uid) (fails_only (justified (CallDeleteAccount uid) s)) s.
Proof using HF HU SU SR SM.
  apply (serve_poll e). intros s1 Hs1 Hn1.
  eapply serve_find; [apply (ur_FindByID_law (e := e))|apply (ur_FindByID_serves (e := e))|done|done|].
  intros [row|] s2 Hrow Hs2 Hn2; [|by apply wp_ret].
  apply serve_within; [apply lasting_justified|]. intros ctx' s3 _ _ _. eapply fails_only_mono; [apply serve_delete_account_tx|by intros n1 err _ []].
Qed.

Lemma serve_GetUserByID id s : wp e (GetUserByID u svc Background id) (fails_only (justified (CallGetUser id) s)) s.
Proof using HF HU SU.
  apply (serve_poll e). intros s1 Hs1 Hn1. apply wp_bind, wp_ret. destruct (uuid_Parse u id) as [uid|cause] eqn:Hp.
  - eapply serve_find; [apply (ur_FindByID_law (e := e))|apply (ur_FindByID_serves (e := e))|done|done|].
    intros [row|] s2 Hrow Hs2 Hn2; apply wp_ret; [done|]. right. split; [done|]. by exists uid.
  - apply wp_bind, wp_perform, wp_ret. left. by eexists _, _.
Qed.

Lemma serve_ListSessions uid current page s : wp e (ListSessions svc Background uid current page) never_fails s.
Proof using HF SR.
  apply (serve_poll e). intros s1 _ _. apply wp_bind, wp_perform.
  wp_call (tr_CountActiveByUserID_serves (e := e)). intros [total|err] s2; [intros _|by intros []].
  wp_call (tr_ListActiveByUserID_serves (e := e)). intros [rows|err] s3; [by intros _; apply wp_ret|by intros []].
Qed.

Lemma serve_Purge s : wp e (PurgeExpiredRefreshTokens svc Background) never_fails s.
Proof using HF SR.
  apply (serve_poll e). intros s1 _ _. apply wp_bind, wp_perform.
  wp_call (tr_DeleteExpired_serves (e := e)). intros [n|err] s2; [by intros _; apply wp_ret|by intros []].
Qed.

Lemma serve_handleReuse {A} uid J s :
  (forall n, J n (EApp ErrRefreshTokenRevoked)) ->
  wp e (let* err := handleReuse u svc Background uid in Ret (@Err A err)) (fails_only J) s.
Proof using HF SR.
  intros HJ. apply wp_bind. unfold handleReuse. apply wp_bind, wp_perform.
  wp_call serve_RevokeRefreshTokens. intros [[]|err] s1; [intros _|by intros []]. apply wp_bind, wp_ret, wp_ret, wp_ret, HJ.
Qed.

Lemma serve_Refresh tok s : wp e (Refresh u svc Background tok) (fails_only (justified (CallRefresh tok) s)) s.
Proof using HF HR SR HT ST SM.
  apply (serve_poll e). intros s1 Hs1 Hn1.
  wp_serve (ts_ValidateRefreshToken_law (e := e)) (ts_ValidateRefreshToken_serves (e := e)).
  intros [claims|err] s2 ([Hs2 Hv] & Hn2 & He).
  2: { apply wp_bind, wp_perform, wp_ret. left. destruct (He err eq_refl) as (n & Hn & Hst). do 2 eexists. exists n.
       split; [reflexivity|]. split; [simpl; lia|done]. }
  rewrite Hs1 in Hs2.
  eapply serve_find; [apply (tr_FindByTokenHash_law (e := e))|apply (tr_FindByTokenHash_serves (e := e))|done|lia|].
  intros [row|] s3 Hrow Hs3 Hn3; [|apply serve_handleReuse; intros n; right; left; by split].
  apply wp_bind, wp_perform. cbn [exec_op fst snd]. unfold time_Before.
  destruct (Z.ltb_spec (rt_ExpiresAt row) (env_now e (st_n s3))) as [Hexp|Hexp].
  - apply wp_bind. eapply wp_mono; [apply wp_later, (tr_DeleteByTokenHash_serves (e := e))|].
    intros [[]|err] s4 [H4 Hn4]; [|by destruct H4]. cbn [st_n tick] in Hn4.
    apply wp_bind, wp_ret, wp_ret. right; right; left. split; [done|]. exists row, (st_n s3). split; [done|]. split; [lia|done].
  - apply serve_then, serve_within; [apply lasting_justified|]. intros ctx' s4 Hc Hw Hn4. cbn [st_n tick] in Hn4.
    assert (Hdb : st_work s4 = st_db s) by (rewrite Hw; exact (st_db_proper _ _ Hs3)).
    eapply fails_only_mono; [apply (serve_rotate_tx _ _ _ (st_n s)); [done|lia]|].
    rewrite Hdb. intros n1 err _ [Hf Hm]. right; right; right. split; [done|]. exists (tc_UserID claims). split; [by apply Hv|done].
Qed.
End calls.

(** ** The service as it is wired up *)

(** The error an answer reports, if it does. *)
Definition refusal {X} (r : result X) : option error := match r with Ok _ => None | Err err => Some err end.

Definition error_of (c : call) : reply c -> option error :=
  match c with
  | CallRegister _ => refusal
  | CallLogin _ => refusal
  | CallRefresh _ => refusal
  | CallRevoke _ => refusal
  | CallGetUser _ => refusal
  | CallListSessions _ _ _ => refusal
  | CallChangePassword _ _ => refusal
  | CallDeleteAccount _ => refusal
  | CallPurge => refusal
  end.

Lemma refusal_reason {X} e (p : prog (result X)) J s r s' err :
  wp e p (fails_only J) s -> run e p s = (r, s') -> refusal r = Some err -> J (st_n s') err.
Proof. intros Hp Hr He. pose proof (wp_run _ _ _ _ _ _ Hp Hr) as H. destruct r; simplify_eq/=. exact H. Qed.

Section wired.
Context (e : env) (u : UUIDLib) (j : JWT) (config : TokenConfig).
Context {HF : Faultless e} {HG : GormLaws e} {HC : ClockLaws e} {HB : BcryptLaws e}.
Context {HJ : JWTLaws j} {HS : Signs j} {HUU : UUIDLaws u}.
Context (Httl : ttl_ok (RefreshTokenExpiry config)).

Abbreviation svc := (gorm_service j u config).

#[local] Instance wired_users : UserRepositoryLaws e (userRepository svc) := GORM_UserRepositoryLaws.
#[local] Instance wired_sessions : RefreshTokenRepositoryLaws e (refreshTokenRepository svc) :=
  GORM_RefreshTokenRepositoryLaws (uuid_String u).
#[local] Instance wired_tokens : TokenServiceLaws e (tokenService svc) := tokenService_laws j u e config Httl.
#[local] Instance wired_tx : TxManagerLaws e (txManager svc) := GORM_TxManagerLaws e.
#[local] Instance wired_users_serve : UserRepositoryServes e (userRepository svc) := GORM_UserRepositoryServes e.
#[local] Instance wired_sessions_serve : RefreshTokenRepositoryServes e (refreshTokenRepository svc) :=
  GORM_RefreshTokenRepositoryServes e (uuid_String u).
#[local] Instance wired_tokens_serve : TokenServiceServes e (tokenService svc) := tokenService_serves e j u config.
#[local] Instance wired_tx_serve : TxManagerServes e (txManager svc) := GORM_TxManagerServes e.

(** C14.  Where nothing the service depends on fails, a call is answered with an error
    only for a reason: a taken address or id, credentials that do not verify, a token
    that is no longer valid, already exchanged or expired, an account that is not
    there, a password bcrypt does not take, or a new session whose id or digest is
    one already stored.  Without such a reason the call succeeds; signing out
    everywhere, listing sessions and purging always do. *)
Theorem refusals_are_justified c s r s' err :
  tables_ok e svc (st_db s) -> run e (ask u svc c) s = (r, s') -> error_of c r = Some err ->
  justified e u svc c s (st_n s') err.
Proof using All.
  intros Hok Hr He. destruct c; cbn [reply] in r; cbn [ask] in Hr; cbn [error_of] in He;
    match goal with |- justified _ _ _ ?c ?s _ _ => eapply (refusal_reason e _ (justified e u svc c s)); [|exact Hr|exact He] end.
  - exact (serve_Register e u svc req s).
  - exact (serve_Login e u svc req s Hok).
  - exact (serve_Refresh e u svc tok s).
  - exact (serve_RevokeRefreshTokens e svc Background uid s).
  - exact (serve_GetUserByID e u svc id s).
  - exact (serve_ListSessions e svc uid current page s).
  - exact (serve_ChangePassword e u svc uid req s Hok).
  - exact (serve_DeleteAccount e u svc uid s).
  - exact (serve_Purge e svc s).
Qed.
End wired.

(** ** Witness *)

#[export] Instance good_env_faultless : Faultless good_env.
Proof.
  split; [done..| |].
  - intros A n q db err. unfold driver_error. simpl. unfold toy_sql. simpl. destruct q; simpl; repeat case_match; simpl;
      intros He [H1 H2]; simplify_eq.
  - intros n pw Hpw. simpl. unfold toy_generate. destruct (Z.ltb_spec 72 (Z.of_nat (length pw))); [lia|done].
Qed.

#[export] Instance toy_signs : Signs ToyJWT.jwt.
Proof. by intros c key. Qed.

Lemma ann_left_ok : tables_ok good_env toy_service (st_db delete_run.2).
Proof.
  rewrite <- delete_run_eq. apply (after_ok good_env toy_uuid toy_service (CallDeleteAccount ann_id) ann_state).
  change ann_state with ann_run.2. rewrite <- ann_run_eq.
  apply (after_ok good_env toy_uuid toy_service (CallRegister ann) (start empty_tables)), empty_tables_ok.
Qed.

(** Ann's address is taken although she left; there is no other reason. *)
Lemma refusals_are_justified_witness :
  again_run.1 = Err (EApp ErrUserAlreadyExists) /\
  justified good_env toy_uuid (gorm_service ToyJWT.jwt toy_uuid toy_config)
    (ST := tokenService_serves good_env ToyJWT.jwt toy_uuid toy_config) 
    (CallRegister ann) delete_run.2 (st_n again_run.2) (EApp ErrUserAlreadyExists).
Proof.
  split; [reflexivity|].
  apply (refusals_are_justified good_env toy_uuid ToyJWT.jwt toy_config toy_ttl (CallRegister ann) delete_run.2
    again_run.1 again_run.2).
  - exact ann_left_ok.
  - vm_compute. reflexivity.
  - reflexivity.
Defined.
