(* ===== verification/Interleaving.v ===== *)
(** * Several requests at once

    Two questions about requests that overlap: that concurrent increments of the
    counter lose no update, over the statements and row locks of Isolation.v; and that
    two exchanges of one refresh token can both succeed, over the threads of
    Threads.v. *)

From S2P Require Import Prelude GoStd Apperr Model Gorm Effects Repository RepositoryLaws Testbed Threads Isolation Token UserService UserSpec Accounts Counters.

(** ** No increment is lost *)

Section counter.
Context (e : env) `{HG : !GormLaws e}.

Definition increment : prog (result GetCounter) :=
  counter_IncrementCounter (NewCounterService (GORM.NewGORMCounterRepository Pool)) Background.

(** The program after the context has been polled, and what it makes of the outcome of
    its transaction. *)
Definition after (r : result CounterEntity) : prog (result GetCounter) :=
  let! value := match r with Ok counter => Ret (Ok (c_Value counter)) | Err err => Ret (Err err) end
    onerr err => fail_internal "incrementing counter" err in
  Ret (Ok (mkGetCounter value)).

Definition polled : prog (result GetCounter) := Trans Pool GORM.Counter_increment_tx after.

(** A program that only reads the environment and then reports an error. *)
Inductive failing {A} : prog (result A) -> Prop :=
  | failing_ret err : failing (Ret (Err err))
  | failing_do {X} (o : op X) k : silent o -> (forall x, failing (k x)) -> failing (Do o k).

Lemma fail_internal_failing {A} msg err : failing (@fail_internal A msg err).
Proof. do 2 (apply failing_do; [exact I|]; intros ?). apply failing_ret. Qed.

(** The row after the increment, and the row [Save] leaves. *)
Definition bumped (c : CounterEntity) : CounterEntity :=
  mkCounter (c_ID c) (wrap64 (c_Value c + 1)) (c_CreatedAt c) (c_UpdatedAt c).
Definition row (c : CounterEntity) : row_id := (tag TCounters, c_ID c).

(** Where a request is when [db] is committed, and the value it has been given.  From
    the read on it holds the lock of the counter, and what it has read is what is
    committed. *)
Inductive phase (db : Tables) : thread (result GetCounter) -> option Z -> Prop :=
  | at_start : phase db (Outside increment) None
  | at_begin : phase db (Outside polled) None
  | in_read tx : tx_written tx = ∅ -> phase db (Inside tx (GORM.Counter_increment_tx InTx) after) None
  | in_write tx c : tx_written tx = ∅ -> row c ∈ tx_locks tx -> first_of TCounters any_row db c ->
      phase db (Inside tx (perform (OpSql InTx (Save TCounters (bumped c)))) after) None
  | in_commit tx c now : tx_written tx = {[ row c ]} -> row c ∈ tx_locks tx -> first_of TCounters any_row db c ->
      rows TCounters (tx_own tx) !! c_ID c = Some (stamp_save TCounters now (bumped c)) ->
      phase db (Inside tx (Ret (Ok (stamp_save TCounters now (bumped c)))) after) None
  | in_rollback tx err : phase db (Inside tx (Ret (Err err)) after) None
  | at_failure p : failing p -> phase db (Outside p) None
  | at_end v : phase db (Outside (Ret (Ok (mkGetCounter v)))) (Some v).

(** What a step that hands out [o] does to the committed tables. *)
Definition counted (o : option Z) (db db' : Tables) : Prop :=
  match o with
  | None => db' = db
  | Some v => exists c, incremented db c db' /\ v = c_Value c
  end.

(** How: it does nothing, or it publishes the increment of
    the counter whose lock its transaction holds. *)
Definition publishes (th : thread (result GetCounter)) (o : option Z) (db db' : Tables) : Prop :=
  match o with
  | None => db' = db
  | Some v => exists c c' tx, incremented db c' db' /\ v = c_Value c' /\
      first_of TCounters any_row db c /\ open_tx_of th = Some tx /\ row c ∈ tx_locks tx
  end.

Lemma bumped_incremented db c now :
  first_of TCounters any_row db c ->
  incremented db (stamp_save TCounters now (bumped c))
    (set_rows TCounters (<[c_ID c := stamp_save TCounters now (bumped c)]> (rows TCounters db)) db).
Proof using Type. intros Hc. by exists c, now. Qed.

(** A statement of the transaction [tx], as gorm's contract has it. *)
Lemma in_transaction_spec {A} others tx (q : stmt A) s r tx' s' :
  in_transaction e others tx q s = Some (r, tx', s') ->
  let seen := visible_to tx (st_db s) in
  st_db s' = st_db s /\ gorm_spec q seen r (tx_own tx') /\
  tx_written tx' = tx_written tx ∪ stmt_writes q r seen /\ tx_locks tx' = tx_locks tx ∪ stmt_locks q r seen.
Proof using HG.
  unfold in_transaction. pose proof (gorm_ok (e := e) A (st_n s) q (visible_to tx (st_db s))) as Hg.
  destruct (env_sql _ _ _ _ _) as [r0 d]. destruct (must_wait _ _ _ _ _); [done|]. by intros [= <- <- <-].
Qed.

Lemma failing_step others p s th' s' :
  failing p -> free_step e others p s = Some (th', s') -> phase (st_db s') th' None /\ st_db s' = st_db s.
Proof using Type.
  destruct 1 as [err|X o k Ho Hk]; simpl; [done|]. intros ([[x o'] s1] & Hs & Ht)%bind_Some. simplify_eq.
  split; [by apply at_failure|]. destruct o; try done; by simplify_eq/=.
Qed.

Lemma read_step others tx s th' s' :
  tx_written tx = ∅ -> thread_step e others (Inside tx (GORM.Counter_increment_tx InTx) after) s = Some (th', s') ->
  phase (st_db s') th' None /\ st_db s' = st_db s.
Proof using HG.
  intros Hw. cbn [thread_step GORM.Counter_increment_tx bind perform body_step op_step].
  intros ([[r o'] s1] & Hs & Ht)%bind_Some. cbn in Hs. apply bind_Some in Hs as ([[r1 tx1] s2] & Hs & Ho). simplify_eq.
  destruct (in_transaction_spec _ _ _ _ _ _ _ Hs) as (Hdb & Hg & Hw1 & Hl1). rewrite (visible_nothing _ _ Hw) in *.
  rewrite Hdb. split; [|done]. destruct Hg as [_ Hg]. destruct r as [c|err]; simpl; [|apply in_rollback].
  apply in_write; [|rewrite Hl1; unfold stmt_locks, reads_locked, row; simpl; set_solver|done].
  rewrite Hw1, Hw. unfold stmt_writes. simpl. set_solver.
Qed.

Lemma write_step others tx c s th' s' :
  tx_written tx = ∅ -> row c ∈ tx_locks tx -> first_of TCounters any_row (st_db s) c ->
  thread_step e others (Inside tx (perform (OpSql InTx (Save TCounters (bumped c)))) after) s = Some (th', s') ->
  phase (st_db s') th' None /\ st_db s' = st_db s.
Proof using HG.
  intros Hw Hl Hc. cbn [thread_step perform body_step op_step].
  intros ([[r o'] s1] & Hs & Ht)%bind_Some. cbn in Hs. apply bind_Some in Hs as ([[r1 tx1] s2] & Hs & Ho). simplify_eq.
  destruct (in_transaction_spec _ _ _ _ _ _ _ Hs) as (Hdb & Hg & Hw1 & Hl1). rewrite (visible_nothing _ _ Hw) in *.
  rewrite Hdb. split; [|done]. destruct r as [c'|err]; simpl; [|apply in_rollback].
  destruct Hg as (now & -> & _ & Hown). apply in_commit; [|rewrite Hl1; set_solver|done|].
  - rewrite Hw1, Hw. unfold stmt_writes, row. simpl. set_solver.
  - rewrite Hown, rows_set_rows. apply lookup_insert_eq.
Qed.

Lemma commit_step others tx c now s th' s' :
  tx_written tx = {[ row c ]} -> row c ∈ tx_locks tx -> first_of TCounters any_row (st_db s) c ->
  rows TCounters (tx_own tx) !! c_ID c = Some (stamp_save TCounters now (bumped c)) ->
  let th := Inside tx (Ret (Ok (stamp_save TCounters now (bumped c)))) after in
  thread_step e others th s = Some (th', s') ->
  exists o, phase (st_db s') th' o /\ publishes th o (st_db s) (st_db s').
Proof using Type.
  intros Hw Hl Hc Hown. cbn [thread_step body_step end_tx]. destruct (env_commit e (st_n s)) as [err|]; intros [= <- <-].
  - exists None. split; [|done]. apply at_failure, fail_internal_failing.
  - exists (Some (c_Value (stamp_save TCounters now (bumped c)))). split; [apply at_end|].
    exists c, (stamp_save TCounters now (bumped c)), tx. cbn [st_db with_db].
    rewrite (visible_row TCounters _ _ _ _ Hw Hown). split; [by apply bumped_incremented|done].
Qed.

Lemma phase_step others th o s th' s' :
  phase (st_db s) th o -> thread_step e others th s = Some (th', s') ->
  o = None /\ exists o', phase (st_db s') th' o' /\ publishes th o' (st_db s) (st_db s').
Proof using HG.
  destruct 1 as [| |tx Hw|tx c Hw Hl Hc|tx c now Hw Hl Hc Hown|tx err|p Hp|v]; intros Hs; [(split; [done|])..|done].
  - simpl in Hs. injection Hs as <- <-. exists None. split; [|done]. destruct (env_done e (st_n s)) as [c|].
    + apply at_failure. simpl. apply fail_internal_failing.
    + apply at_begin.
  - simpl in Hs. destruct (env_begin e (st_n s)) as [err|]; injection Hs as <- <-; exists None; (split; [|done]).
    + apply at_failure, fail_internal_failing.
    + by apply in_read.
  - exists None. by eapply read_step.
  - exists None. by eapply write_step.
  - by eapply commit_step.
  - simpl in Hs. injection Hs as <- <-. exists None. split; [|done]. apply at_failure, fail_internal_failing.
  - exists None. by eapply failing_step.
Qed.

Lemma publishes_counted th o db db' : publishes th o db db' -> counted o db db'.
Proof using Type. destruct o as [v|]; [|done]. intros (c & c' & tx & Hi & -> & _). by exists c'. Qed.

(** The values handed out so far are consecutive, and the counter is at the last. *)
Definition tally (id : UUID) (v0 : Z) (vs : list Z) (db : Tables) : Prop :=
  vs ≡ₚ seqZ (v0 + 1) (Z.of_nat (length vs)) /\
  exists c, first_of TCounters any_row db c /\ c_ID c = id /\ c_Value c = v0 + Z.of_nat (length vs) /\
    map_Forall (fun k x => c_ID x = k) (t_counters db).

Lemma first_of_unique {R} (t : table R) p db x y :
  map_Forall (fun k x => pk t x = k) (rows t db) -> first_of t p db x -> first_of t p db y -> x = y.
Proof.
  intros Hk [Hx Hlx] [Hy Hly]. assert (Heq : pk t x = pk t y) by (apply N.le_antisymm; auto).
  destruct Hx as (i & Hi & _), Hy as (j & Hj & _).
  rewrite <- (Hk i x Hi), Heq, (Hk j y Hj) in Hi. congruence.
Qed.

Lemma tally_step id v0 vs o db db' :
  in_int64 v0 -> v0 + Z.of_nat (length vs) < int64_max ->
  tally id v0 vs db -> counted o db db' -> tally id v0 (option_list o ++ vs) db'.
Proof using Type.
  intros Hr0 Hmax Ht Ho. destruct o as [v|]; [|simpl in Ho; by subst]. destruct Ht as (Hp & c & Hc & Hid & Hv & Hk).
  destruct Ho as (c' & (c1 & now & Hc1 & -> & ->) & ->). cbn [option_list app length c_Value].
  rewrite (first_of_unique TCounters _ _ _ _ Hk Hc1 Hc).
  rewrite wrap64_id by (unfold in_int64, int64_min, int64_max in *; lia). rewrite Hv.
  set (v := v0 + Z.of_nat (length vs) + 1). change (option_list (Some v) ++ vs) with (v :: vs). split.
  - cbn [length]. rewrite seqZ_S, <- Hp.
    replace (v0 + 1 + Z.of_nat (length vs)) with v by lia. by rewrite Permutation_app_comm.
  - set (new := mkCounter _ _ _ _). exists new. split; [|split; [done|split; [cbn [length]; simpl; lia|]]].
    + destruct Hc as [(k & Hkc & _) Hleast]. split.
      * exists (c_ID c). simpl. by rewrite lookup_insert_eq.
      * intros y (j & Hj & _). simpl in Hj. apply lookup_insert_Some in Hj as [[_ <-]|[_ Hj]]; [done|].
        apply (Hleast y). by exists j.
    + simpl. apply map_Forall_insert_2; [done|exact Hk].
Qed.
Lemma tally_perm id v0 vs vs' db : vs ≡ₚ vs' -> tally id v0 vs db -> tally id v0 vs' db.
Proof using Type.
  intros Hp [Hs Hc]. unfold tally. rewrite <- (Permutation_length Hp). split; [by rewrite <- Hp|done].
Qed.

Lemma length_omap {A B} (f : A -> option B) l : (length (omap f l) <= length l)%nat.
Proof using Type.
  induction l as [|x l IH]; [done|].
  change (omap f (x :: l)) with (match f x with Some y => y :: omap f l | None => omap f l end).
  destruct (f x); cbn [length]; lia.
Qed.

Lemma omap_insert {A} (os : list (option A)) i o :
  os !! i = Some None -> omap id (<[i := o]> os) ≡ₚ option_list o ++ omap id os.
Proof using Type.
  intros Hi. rewrite <- (take_drop_middle os i None Hi) at 2. pose proof (lookup_lt_Some _ _ _ Hi).
  rewrite insert_take_drop, !omap_app by done. destruct o as [x|]; simpl; [|done].
  by rewrite Permutation_middle.
Qed.

Lemma omap_nothing {A} n : omap Datatypes.id (replicate n (@None A)) = [].
Proof using Type. by induction n. Qed.

Lemma phase_answer db th o : phase db th o -> succeeded th = mkGetCounter <$> o.
Proof using Type. by destruct 1 as [| | | | | |p [err|]|]. Qed.

(** A request keeps its place while another one publishes: that one holds the lock. *)
Lemma phase_stays db db' thi o ths i j th oj :
  map_Forall (fun k x => c_ID x = k) (t_counters db) -> exclusive ths -> i <> j ->
  ths !! i = Some thi -> ths !! j = Some th -> publishes thi o db db' -> phase db th oj -> phase db' th oj.
Proof using Type.
  intros Hk Hex Hne Hi Hj Hp Hph. destruct o as [v|]; [|simpl in Hp; by subst].
  destruct Hp as (c & c' & txi & _ & _ & Hc & Htx & Hl).
  assert (Hno : forall tx d, open_tx_of th = Some tx -> row d ∈ tx_locks tx -> first_of TCounters any_row db d -> False).
  { intros tx d Ho Hd Hfd. rewrite (first_of_unique TCounters _ _ _ _ Hk Hfd Hc) in Hd.
    assert (Hdis : tx_locks txi ## tx_locks tx); [|exact (Hdis _ Hl Hd)].
    apply (Hex i j); [done|by rewrite Hi|by rewrite Hj]. }
  destruct Hph as [| |tx Hw|tx d Hw Hd Hfd|tx d now Hw Hd Hfd Hown|tx err|p Hf|w];
    [constructor; done..| | |apply in_rollback|by apply at_failure|apply at_end]; by destruct (Hno tx d).
Qed.

Definition all_phases (id : UUID) (v0 : Z) (n : nat) (c : threads (result GetCounter)) : Prop :=
  exclusive c.1 /\
  exists os, length os = n /\ Forall2 (phase (st_db c.2)) c.1 os /\ tally id v0 (omap Datatypes.id os) (st_db c.2).

Lemma all_phases_step id v0 n c i :
  in_int64 v0 -> v0 + Z.of_nat n <= int64_max ->
  all_phases id v0 n c -> all_phases id v0 n (tstep e c i).
Proof using HG.
  intros Hr0 Hmax (Hex & os & Hn & Hph & Ht). split; [by apply tstep_exclusive|]. unfold tstep.
  destruct (c.1 !! i) as [th|] eqn:Hi; [|by exists os].
  destruct (thread_step e (others_of c.1 i) th c.2) as [[th' s']|] eqn:Hst; [|by exists os].
  destruct (Forall2_lookup_l _ _ _ _ _ Hph Hi) as (o & Ho & Hpo).
  destruct (phase_step _ _ _ _ _ _ Hpo Hst) as (-> & o' & Hpo' & Hpub).
  exists (<[i := o']> os). split; [by rewrite length_insert|]. split.
  - cbn [fst snd]. apply Forall2_same_length_lookup_2.
    { rewrite !length_insert. exact (Forall2_length _ _ _ Hph). }
    intros j thj oj [(<- & <- & _)|[Hne Hj]]%list_lookup_insert_Some Hoj.
    + rewrite list_lookup_insert_eq in Hoj by (by eapply lookup_lt_Some). by injection Hoj as <-.
    + rewrite list_lookup_insert_ne in Hoj by done.
      destruct Ht as (_ & _ & _ & _ & _ & Hk).
      eapply (phase_stays _ _ th _ c.1 i j); [exact Hk|exact Hex|done..|].
      by apply (Forall2_lookup_lr _ _ _ _ _ _ Hph Hj).
  - cbn [snd]. apply publishes_counted in Hpub.
    eapply tally_perm; [symmetry; by apply omap_insert|]. eapply tally_step; [done| |exact Ht|done].
    assert (Hlen : (length (omap Datatypes.id os) < n)%nat); [|lia].
    rewrite <- Hn, <- (take_drop_middle os i None Ho), omap_app, !length_app. cbn [length].
    change (omap Datatypes.id (None :: drop (S i) os)) with (omap Datatypes.id (drop (S i) os)).
    pose proof (length_omap Datatypes.id (take i os)). pose proof (length_omap Datatypes.id (drop (S i) os)). lia.
Qed.

Lemma all_phases_run id v0 n sched c :
  in_int64 v0 -> v0 + Z.of_nat n <= int64_max ->
  all_phases id v0 n c -> all_phases id v0 n (run_threads e sched c).
Proof using HG.
  intros Hr Hm. revert c. induction sched as [|i sched IH]; intros c Hc; [done|].
  simpl. by apply IH, all_phases_step.
Qed.

Lemma phases_values db ths os :
  Forall2 (phase db) ths os -> gc_Value <$> omap succeeded ths = omap Datatypes.id os.
Proof using Type.
  induction 1 as [|th o ths os Hpo _ IH]; [done|].
  change (omap succeeded (th :: ths)) with
    (match succeeded th with Some y => y :: omap succeeded ths | None => omap succeeded ths end).
  change (omap Datatypes.id (o :: os)) with
    (match o with Some y => y :: omap Datatypes.id os | None => omap Datatypes.id os end).
  rewrite (phase_answer _ _ _ Hpo). destruct o as [v|]; [|exact IH]. simpl (mkGetCounter <$> Some v).
  cbv iota. rewrite fmap_cons. by f_equal.
Qed.
End counter.

(** C19.  However the statements of any number of concurrent increments are interleaved,
    with a database that shows every statement what is committed and makes it wait for
    locked rows only, the successful ones so far have been given consecutive values,
    each once, and the counter stands at the last of them: the lock the read takes is
    enough for no increment to be lost or counted twice. *)
Theorem counter_no_lost_update (e : env) {HG : GormLaws e} n sched s c :
  first_of TCounters any_row (st_db s) c ->
  map_Forall (fun k x => c_ID x = k) (t_counters (st_db s)) ->
  in_int64 (c_Value c) -> c_Value c + Z.of_nat n <= int64_max ->
  let final := run_threads e sched (replicate n (Outside increment), s) in
  let values := gc_Value <$> omap succeeded final.1 in
  values ≡ₚ seqZ (c_Value c + 1) (Z.of_nat (length values)) /\
  exists c', first_of TCounters any_row (st_db final.2) c' /\ c_ID c' = c_ID c /\
    c_Value c' = c_Value c + Z.of_nat (length values).
Proof.
  intros Hc Hk Hr Hm. cbv zeta.
  destruct (all_phases_run e (c_ID c) (c_Value c) n sched (replicate n (Outside increment), s) Hr Hm)
    as (_ & os & _ & Hph & Hp & c' & Hc' & Hid & Hv & _).
  { split; [simpl; rewrite <- (fmap_replicate Outside); apply outside_exclusive|].
    exists (replicate n None). split; [by rewrite length_replicate|]. split.
    - apply Forall2_replicate. apply at_start.
    - rewrite omap_nothing.
      split; [done|]. exists c. split; [done|]. split; [done|]. split; [simpl; lia|done]. }
  rewrite (phases_values _ _ _ Hph). split; [exact Hp|]. by exists c'.
Qed.

(** It takes the lock: the same statements with a plain read lose an update. *)
Definition unlocked_increment (tx : conn) : prog (result CounterEntity) :=
  let! counter := perform (OpSql tx (First TCounters any_row false)) onerr err => Ret (Err err) in
  perform (OpSql tx (Save TCounters (bumped counter))).

Lemma unlocked_increments_lose :
  exists sched,
    let final := run_threads good_env sched (replicate 2 (Outside (Transaction Pool unlocked_increment)), start toy_counters) in
    c_Value <$> omap succeeded final.1 = [42; 42].
Proof. exists (concat (replicate 5 [0%nat; 1%nat])). vm_compute. reflexivity. Qed.

(** Single use does not survive concurrency: the digest is looked up before the
    transaction that retires it, so two exchanges of one refresh token that overlap
    can both succeed, leaving two live sessions where there was one. *)
Theorem concurrent_refresh_forks :
  exists sched,
    let final := interleave good_env sched
      ([Refresh toy_uuid toy_service Background ann_token;
        Refresh toy_uuid toy_service Background ann_token], ann_state) in
    length (omap ok_answer final.1) = 2%nat /\
    size (t_tokens (st_db ann_state)) = 1%nat /\ size (t_tokens (st_db final.2)) = 2%nat.
Proof. exists (concat (replicate 12 [0%nat; 1%nat])). vm_compute. by repeat split. Qed.

(** ** Witness *)

Lemma counter_no_lost_update_witness :
  let sched := concat (replicate 12 [2; 1; 0]%nat) in
  let final := run_threads good_env sched (replicate 3 (Outside increment), start toy_counters) in
  let values := gc_Value <$> omap succeeded final.1 in
  values = [44; 43; 42] /\ values ≡ₚ seqZ 42 3.
Proof.
  cbv zeta. split; [vm_compute; reflexivity|].
  exact (proj1 (counter_no_lost_update good_env 3 (concat (replicate 12 [2; 1; 0]%nat)) (start toy_counters)
    (mkCounter 3 41 epoch epoch)
    ltac:(split; [exists 3%N; repeat split|intros y (k & Hk & _); change (({[3%N := mkCounter 3 41 epoch epoch]} : gmap UUID CounterEntity) !! k = Some y) in Hk; apply lookup_singleton_Some in Hk as [_ <-]; done])
    ltac:(apply map_Forall_singleton; reflexivity)
    ltac:(vm_compute; split; discriminate) ltac:(vm_compute; discriminate))).
Defined.
