(* ===== verification/Http.v ===== *)
(** * The HTTP layer's vocabulary: requests, responses, handlers

    gin is a parameter: of a request the model keeps what gin's accessors answer,
    of a [*gin.Context] what the handlers write through it.  A handler is a
    program that returns the context it leaves, or the value it panicked with; a
    middleware takes the rest of the chain, which [c.Next()] runs, as an argument.
    internal/model/response/wrapper.go and internal/logging are here too. *)

From stdpp Require Import pretty.
From S2P Require Import Prelude GoStd Apperr Model Gorm Effects Repository.

(** [strconv.Itoa], and a number in a log line. *)
Definition Itoa (z : Z) : string := pretty z.

(** ** internal/model/response: the envelope *)

(** What a health check reports of itself or of a dependency. *)
Inductive detail :=
  | DetailText (s : string)
  | DetailHealthy
  | DetailUnhealthy (error : string).

Record HealthStatus := mkHealth {
  hs_Status : string;
  hs_Message : string;
  hs_Details : gmap string detail
}.

Inductive data :=
  | DNil
  | DUser (u : GetUser)
  | DAuth (r : AuthResponse)
  | DSessions (l : list Session)
  | DCounter (g : GetCounter)
  | DMessage (m : option GetMessage)
  | DCSRFToken (token : string)
  | DHealth (h : HealthStatus).

Record APIResponse := mkResponse {
  Success : bool;
  Message : string;
  Data : data;
  MetaField : option Meta;
  Errors : gmap string string;
  RequestIDField : string;
  TraceIDField : string
}.

Definition response_OK (message : string) (d : data) : APIResponse :=
  mkResponse true message d None ∅ "" "".
Definition response_OKWithMeta (message : string) (d : data) (meta : Meta) : APIResponse :=
  mkResponse true message d (Some meta) ∅ "" "".
Definition response_Err (message : string) : APIResponse :=
  mkResponse false message DNil None ∅ "" "".
Definition ValidationErr (message : string) (errors : gmap string string) : APIResponse :=
  mkResponse false message DNil None errors "" "".
Definition WithCorrelation (r : APIResponse) (requestID traceID : string) : APIResponse :=
  mkResponse (Success r) (Message r) (Data r) (MetaField r) (Errors r) requestID traceID.

(** ** Requests and the gin context *)

Record Request := mkRequest {
  rq_Method : string;
  rq_Path : string;                       (* URL.Path *)
  rq_FullPath : string;                   (* the route pattern, empty if none matched *)
  rq_RawQuery : string;
  rq_Header : string -> string;           (* GetHeader *)
  rq_Cookie : string -> result string;    (* c.Cookie *)
  rq_ClientIP : string;
  rq_TraceID : string;                    (* tracing.TraceIDFromContext *)
  rq_SpanID : string
}.

(** What the service stores with [c.Set]. *)
Inductive value :=
  | VString (s : string)
  | VClaims (c : TokenClaims).

(** The arguments of [c.SetCookie]; the path is "/", the domain empty and
    [SameSite] is Lax on every cookie the service writes. *)
Record Cookie := mkCookie {
  ck_Name : string;
  ck_Value : string;
  ck_MaxAge : Z;
  ck_Secure : bool;
  ck_HttpOnly : bool
}.

Record Ctx := mkGin {
  g_req : Request;
  g_ctx : context;                        (* c.Request.Context() *)
  g_logger : list (string * string);      (* attributes of the logger it carries *)
  g_deadline : option duration;           (* the timeout its context was given *)
  g_bodyLimit : option Z;
  g_keys : gmap string value;             (* c.Set, c.Get *)
  g_headers : gmap string string;         (* response headers *)
  g_cookies : list Cookie;                (* Set-Cookie headers *)
  g_writes : list (Z * APIResponse);      (* JSON bodies written, with their status *)
  g_aborted : bool
}.

Definition with_key (k : string) (v : value) (c : Ctx) : Ctx :=
  mkGin (g_req c) (g_ctx c) (g_logger c) (g_deadline c) (g_bodyLimit c) (<[k := v]> (g_keys c))
    (g_headers c) (g_cookies c) (g_writes c) (g_aborted c).
Definition with_header (k v : string) (c : Ctx) : Ctx :=
  mkGin (g_req c) (g_ctx c) (g_logger c) (g_deadline c) (g_bodyLimit c) (g_keys c)
    (<[k := v]> (g_headers c)) (g_cookies c) (g_writes c) (g_aborted c).
Definition with_cookie (k : Cookie) (c : Ctx) : Ctx :=
  mkGin (g_req c) (g_ctx c) (g_logger c) (g_deadline c) (g_bodyLimit c) (g_keys c)
    (g_headers c) (g_cookies c ++ [k]) (g_writes c) (g_aborted c).
Definition with_logger (attrs : list (string * string)) (c : Ctx) : Ctx :=
  mkGin (g_req c) (g_ctx c) attrs (g_deadline c) (g_bodyLimit c) (g_keys c)
    (g_headers c) (g_cookies c) (g_writes c) (g_aborted c).
Definition with_deadline (d : duration) (c : Ctx) : Ctx :=
  mkGin (g_req c) (g_ctx c) (g_logger c) (Some d) (g_bodyLimit c) (g_keys c)
    (g_headers c) (g_cookies c) (g_writes c) (g_aborted c).
Definition with_bodyLimit (n : Z) (c : Ctx) : Ctx :=
  mkGin (g_req c) (g_ctx c) (g_logger c) (g_deadline c) (Some n) (g_keys c)
    (g_headers c) (g_cookies c) (g_writes c) (g_aborted c).

(** [c.JSON] and [c.AbortWithStatusJSON] *)
Definition JSON (status : Z) (r : APIResponse) (c : Ctx) : Ctx :=
  mkGin (g_req c) (g_ctx c) (g_logger c) (g_deadline c) (g_bodyLimit c) (g_keys c)
    (g_headers c) (g_cookies c) (g_writes c ++ [(status, r)]) (g_aborted c).
Definition AbortWithStatusJSON (status : Z) (r : APIResponse) (c : Ctx) : Ctx :=
  mkGin (g_req c) (g_ctx c) (g_logger c) (g_deadline c) (g_bodyLimit c) (g_keys c)
    (g_headers c) (g_cookies c) (g_writes c ++ [(status, r)]) true.

(** [c.Writer.Status()]: the status of the first body written, 200 before that. *)
Definition status_of (c : Ctx) : Z :=
  match g_writes c with (status, _) :: _ => status | [] => 200 end.

(** ** Handlers *)

Inductive outcome := Done | Panicked (v : string).

Definition handler : Type := Ctx -> prog (outcome * Ctx).
Definition middleware : Type := handler -> handler.

(** A handler that returns normally. *)
Definition finish (c : Ctx) : prog (outcome * Ctx) := Ret (Done, c).

(** The chain [r.Use(m1); r.Use(m2); ...] in front of a handler. *)
Definition chain (ms : list middleware) (h : handler) : handler := foldr (fun m k => m k) h ms.

(** ** internal/logging

    [logging.FromContext(ctx).Warn(msg, attrs...)] and its siblings: the line has
    the attributes of the request's logger, then those of the call. *)
Definition log (l : level) (c : Ctx) (msg : string) (attrs : list (string * string)) : prog unit :=
  perform (OpLog l msg (g_logger c ++ attrs)).

(** [logging.Into] *)
Definition logging_Into (c : Ctx) (attrs : list (string * string)) : Ctx := with_logger attrs c.

(** A log line of this message. *)
Definition is_log (msg : string) (ev : event) : Prop := exists l attrs, ev = EvLog l msg attrs.

#[export] Instance is_log_dec msg ev : Decision (is_log msg ev).
Proof.
  destruct ev as [l m attrs| | |]; [|right; by intros (? & ? & ?)..].
  destruct (decide (m = msg)) as [->|Hne].
  - left. by exists l, attrs.
  - right. intros (? & ? & [=]). congruence.
Defined.
