(* ===== verification/Middleware.v ===== *)
(** * internal/api/middleware

    Every middleware of the package, and the one internal/observability adds, as
    a transformer of the rest of the chain.  The theorems: what lets a request
    through, what a rejected one gets, and which identifiers may reach a log. *)

From stdpp Require Import pretty.
From S2P Require Import Prelude GoStd Apperr Model Gorm Effects Repository RepositoryLaws Testbed Token Csrf UserSpec Http.

Definition AccessTokenCookie : string := "access_token".
Definition RefreshTokenCookie : string := "refresh_token".
Definition UserIDCtxKey : string := "user_id".
Definition UserEmailCtxKey : string := "user_email".
Definition ClaimsCtxKey : string := "claims".
Definition RequestIDHeader : string := "X-Request-ID".
Definition RequestIDCtxKey : string := "request_id".
Definition TraceIDCtxKey : string := "trace_id".
Definition maxRequestIDLength : nat := 128.

(** A package variable: its address is below the heap's. *)
Definition ErrNoUserInContext : error := EString 801 "user not found in context".

(** ** request_id.go *)

Definition stringFromContext (c : Ctx) (key : string) : string :=
  match g_keys c !! key with Some (VString str) => str | _ => "" end.

Definition GetRequestID (c : Ctx) : string := stringFromContext c RequestIDCtxKey.
Definition GetTraceID (c : Ctx) : string := stringFromContext c TraceIDCtxKey.

(** The cases of the switch, on a decoded rune. *)
Definition request_id_rune (r : Z) : bool :=
  ((r >=? 0x61) && (r <=? 0x7A)) || ((r >=? 0x41) && (r <=? 0x5A)) || ((r >=? 0x30) && (r <=? 0x39)) ||
  (r =? 0x2D) || (r =? 0x5F) || (r =? 0x2E).

Definition sanitizeRequestID (id : string) : string :=
  if String.eqb id "" || (maxRequestIDLength <? length (to_bytes id))%nat then ""
  else if forallb request_id_rune (Utf8.runes id) then id else "".

Definition resolveRequestID (u : UUIDLib) (c : Ctx) (traceID : string) : prog string :=
  let id := sanitizeRequestID (rq_Header (g_req c) RequestIDHeader) in
  if negb (String.eqb id "") then Ret id
  else if negb (String.eqb traceID "") then Ret traceID
  else let* id := perform OpUUID in Ret (uuid_String u id).

(** [base] is the attributes of the root logger. *)
Definition RequestID (u : UUIDLib) (base : list (string * string)) : middleware := fun next c =>
  let traceID := rq_TraceID (g_req c) in
  let* id := resolveRequestID u c traceID in
  let c := with_key RequestIDCtxKey (VString id) c in
  let c := with_header RequestIDHeader id c in
  let attrs := [("request_id", id); ("method", rq_Method (g_req c)); ("path", rq_Path (g_req c))] in
  let '(c, attrs) :=
    if negb (String.eqb traceID "") then
      let c := with_key TraceIDCtxKey (VString traceID) c in
      let attrs := attrs ++ [("trace_id", traceID)] in
      let spanID := rq_SpanID (g_req c) in
      (c, if negb (String.eqb spanID "") then attrs ++ [("span_id", spanID)] else attrs)
    else (c, attrs) in
  next (logging_Into c (base ++ attrs)).

(** ** respond.go *)

Definition abortWithError (status : Z) (message : string) (c : Ctx) : Ctx :=
  AbortWithStatusJSON status
    (WithCorrelation (response_Err message) (GetRequestID c) (GetTraceID c)) c.

(** ** auth.go *)

Definition setAuthContext (u : UUIDLib) (claims : TokenClaims) (c : Ctx) : Ctx :=
  with_key ClaimsCtxKey (VClaims claims)
    (with_key UserEmailCtxKey (VString (tc_Email claims))
      (with_key UserIDCtxKey (VString (uuid_String u (tc_UserID claims))) c)).

Definition AuthMiddleware (u : UUIDLib) (tokenService : TokenService) : middleware := fun next c =>
  match rq_Cookie (g_req c) AccessTokenCookie with
  | Err _ => finish (abortWithError 401 (e_Message ErrMissingAccessToken) c)
  | Ok tokenStr =>
      let! claims := ts_ValidateAccessToken tokenService tokenStr
        onerr _err => finish (abortWithError 401 (e_Message ErrInvalidAccessToken) c) in
      next (setAuthContext u claims c)
  end.

Definition OptionalAuthMiddleware (u : UUIDLib) (tokenService : TokenService) : middleware := fun next c =>
  match rq_Cookie (g_req c) AccessTokenCookie with
  | Err _ => next c
  | Ok tokenStr =>
      let! claims := ts_ValidateAccessToken tokenService tokenStr onerr _err => next c in
      next (setAuthContext u claims c)
  end.

(** POST, PUT, PATCH and DELETE. *)
Definition changes_state (method : string) : bool :=
  String.eqb method "POST" || String.eqb method "PUT" || String.eqb method "PATCH" || String.eqb method "DELETE".

Definition CSRFHeader : string := "X-CSRF-Token".

(** [validate] is the [ValidateToken] of the [csrf.CSRFService]. *)
Definition CSRFMiddleware (validate : string -> prog bool) : middleware := fun next c =>
  if changes_state (rq_Method (g_req c)) then
    let csrfToken := rq_Header (g_req c) CSRFHeader in
    if String.eqb csrfToken "" then finish (abortWithError 403 (e_Message ErrMissingCSRFToken) c)
    else
      let* ok := validate csrfToken in
      if negb ok then finish (abortWithError 403 (e_Message ErrInvalidCSRFToken) c)
      else next c
  else next c.

Definition GetUserIDFromContext (u : UUIDLib) (c : Ctx) : prog (result UUID) :=
  match g_keys c !! UserIDCtxKey with
  | None => Ret (Err ErrNoUserInContext)
  | Some (VString raw) =>
      match uuid_Parse u raw with
      | Ok id => Ret (Ok id)
      | Err err => let* a := perform OpAlloc in Ret (Err (EApp (WithCause a ErrInvalidUserID err)))
      end
  | Some _ => Ret (Err (EApp ErrInvalidUserID))
  end.

Definition GetEmailFromContext (c : Ctx) : string :=
  match g_keys c !! UserEmailCtxKey with Some (VString email) => email | _ => "" end.

Definition GetClaimsFromContext (c : Ctx) : option TokenClaims :=
  match g_keys c !! ClaimsCtxKey with Some (VClaims claims) => Some claims | _ => None end.

(** ** rate_limit.go: the middleware; the limiter is in RateLimit.v *)

Record Limiter := mkLimiter { lim_Allow : string -> prog bool }.

Definition RateLimit (limiter : Limiter) : middleware := fun next c =>
  let* ok := lim_Allow limiter (rq_ClientIP (g_req c)) in
  if negb ok then finish (abortWithError 429 (e_Message ErrRateLimit) c) else next c.

(** ** recovery.go *)

(** [stack] is [debug.Stack()]. *)
Definition Recovery (stack : string) : middleware := fun next c =>
  let* r := next c in
  match r with
  | (Done, c) => finish c
  | (Panicked v, c) =>
      let* _ := log LError c "panic recovered" [("panic", v); ("stack", stack)] in
      finish (abortWithError 500 (e_Message ErrInternal) c)
  end.

(** ** access_log.go *)

Section access_log.
(** How a latency is printed, and gin's [c.Writer.Size()] and [c.Errors]. *)
Context (print_ms : duration -> string) (size_of : Ctx -> Z) (errors_of : Ctx -> option string).

Definition AccessLog : middleware := fun next c =>
  let* start := perform OpNow in
  let* r := next c in
  match r with
  | (Panicked v, c) => Ret (Panicked v, c)
  | (Done, c) =>
      let status := status_of c in
      let* now := perform OpNow in
      let attrs := [("status", Itoa status); ("latency_ms", print_ms (time_Sub now start));
                    ("bytes", Itoa (size_of c)); ("client_ip", rq_ClientIP (g_req c))] in
      let raw := rq_RawQuery (g_req c) in
      let attrs := if negb (String.eqb raw "") then attrs ++ [("query", raw)] else attrs in
      let attrs := match errors_of c with Some errs => attrs ++ [("errors", errs)] | None => attrs end in
      let* _ :=
        if status >=? 500 then log LError c "request completed" attrs
        else if status >=? 400 then log Warn c "request completed" attrs
        else log Info c "request completed" attrs in
      finish c
  end.
End access_log.

(** ** internal/observability/metrics.go: the middleware

    [m.requests] and [m.duration] are recorded by the instrument [observe]. *)
Definition RouteUnmatched : string := "unmatched".

Definition Metrics_Middleware (observe : string -> string -> string -> duration -> prog unit) : middleware :=
  fun next c =>
  let* start := perform OpNow in
  let* r := next c in
  match r with
  | (Panicked v, c) => Ret (Panicked v, c)
  | (Done, c) =>
      let route := rq_FullPath (g_req c) in
      let route := if String.eqb route "" then RouteUnmatched else route in
      let* now := perform OpNow in
      let* _ := observe (rq_Method (g_req c)) route (Itoa (status_of c)) (time_Sub now start) in
      finish c
  end.

(** ** security_headers.go, body_limit.go, timeout.go *)

Definition SecurityHeaders (devMode : bool) : middleware := fun next c =>
  let c := with_header "X-Content-Type-Options" "nosniff" c in
  let c := with_header "X-Frame-Options" "DENY" c in
  let c := with_header "Referrer-Policy" "no-referrer" c in
  let c := with_header "Cross-Origin-Opener-Policy" "same-origin" c in
  let c := with_header "Cross-Origin-Resource-Policy" "same-site" c in
  let c := with_header "Content-Security-Policy" "default-src 'none'; frame-ancestors 'none'" c in
  let c := with_header "Permissions-Policy" "geolocation=(), microphone=(), camera=()" c in
  let c := if negb devMode
           then with_header "Strict-Transport-Security" "max-age=31536000; includeSubDomains" c else c in
  next c.

(** [hasBody] is [c.Request.Body != nil]. *)
Definition BodyLimit (maxBytes : Z) (hasBody : bool) : middleware := fun next c =>
  next (if (maxBytes >? 0) && hasBody then with_bodyLimit maxBytes c else c).

Definition Timeout (d : duration) : middleware := fun next c =>
  if d <=? 0 then next c else next (with_deadline d c).

(** ** Which identifiers are accepted *)

Lemma request_id_rune_ascii r : request_id_rune r = true -> r < 0x80.
Proof.
  unfold request_id_rune. rewrite !orb_true_iff, !andb_true_iff, !Z.geb_leb, !Z.leb_le, !Z.eqb_eq. lia.
Qed.

(** The runes of a string are all accepted exactly when its bytes are. *)
Lemma runes_accepted fuel bs :
  (length bs <= fuel)%nat ->
  forallb request_id_rune (Utf8.runes_fuel fuel bs) = true <->
  Forall (fun b => request_id_rune (byte_val b) = true) bs.
Proof.
  revert bs. induction fuel as [|fuel IH]; intros bs Hlen.
  - destruct bs; [|simpl in Hlen; lia]. split; [constructor|done].
  - destruct bs as [|b rest]; [split; [constructor|done]|]. cbn [Utf8.runes_fuel].
    destruct (Utf8.decode_rune b rest) as [r w] eqn:Hd.
    pose proof (Utf8.decode_rune_ascii b rest) as Hascii. rewrite Hd in Hascii. simpl in Hascii.
    destruct (decide (byte_val b < 0x80)) as [Hb|Hb].
    + rewrite (Utf8.decode_rune_small b rest Hb) in Hd. injection Hd as <- <-. cbn [forallb].
      replace (drop (1 - 1) rest) with rest by done.
      rewrite andb_true_iff, Forall_cons, IH by (simpl in Hlen; lia). done.
    + split.
      * cbn [forallb]. intros [Hr%request_id_rune_ascii _]%andb_true_iff. tauto.
      * intros Hall. apply Forall_cons in Hall as [Hr%request_id_rune_ascii _]. done.
Qed.

(** A request id that may be logged and echoed: at most 128 letters, digits,
    dashes, underscores and dots. *)
Definition safe_id (id : string) : Prop :=
  (length (to_bytes id) <= maxRequestIDLength)%nat /\
  Forall (fun b => request_id_rune (byte_val b) = true) (to_bytes id).

#[export] Instance safe_id_dec id : Decision (safe_id id).
Proof. unfold safe_id. apply _. Defined.

Lemma sanitize_cases id :
  sanitizeRequestID id = if decide (id <> "" /\ safe_id id) then id else "".
Proof.
  unfold sanitizeRequestID, safe_id, Utf8.runes.
  pose proof (runes_accepted (length (to_bytes id)) (to_bytes id) ltac:(lia)) as Hr.
  destruct (String.eqb_spec id "") as [->|Hne]; cbn [orb]; [by case_decide|].
  destruct (Nat.ltb_spec maxRequestIDLength (length (to_bytes id))) as [Hl|Hl].
  - rewrite decide_False; [done|]. intros (_ & Hl' & _). lia.
  - destruct (forallb _ _).
    + rewrite decide_True; [done|]. split; [done|]. split; [done|]. by apply Hr.
    + rewrite decide_False; [done|]. intros (_ & _ & Hall). by apply Hr in Hall.
Qed.

(** A client-supplied request id is used as it is exactly when it is not empty,
    at most 128 bytes long and made of ASCII letters, digits, dashes, underscores
    and dots, byte for byte; anything else, invalid UTF-8 included, is dropped. *)
Theorem sanitize_request_id id :
  (id <> "" /\ safe_id id <-> sanitizeRequestID id = id /\ id <> "") /\
  (~ (id <> "" /\ safe_id id) <-> sanitizeRequestID id = "").
Proof. rewrite sanitize_cases. case_decide; intuition congruence. Qed.

Section request_id.
Context (e : env) (u : UUIDLib) (base : list (string * string)) (next : handler).

(** What the request carries from [RequestID] on. *)
Definition identified (id : string) (c c' : Ctx) : Prop :=
  GetRequestID c' = id /\ g_headers c' !! RequestIDHeader = Some id /\
  GetTraceID c' = (if String.eqb (rq_TraceID (g_req c)) "" then GetTraceID c else rq_TraceID (g_req c)) /\
  (exists attrs, g_logger c' = base ++ ("request_id", id) :: attrs) /\
  g_req c' = g_req c /\ g_writes c' = g_writes c.

Lemma resolve_request_id c s :
  safe_id (rq_TraceID (g_req c)) -> safe_id (uuid_String u (env_uuid e (st_n s))) ->
  exists id s1, run e (resolveRequestID u c (rq_TraceID (g_req c))) s = (id, s1) /\ s1 ≡ s /\ safe_id id /\
    (id = rq_Header (g_req c) RequestIDHeader \/ id = rq_TraceID (g_req c) \/ exists n, id = uuid_String u n).
Proof using Type.
  intros Htrace Huuid. unfold resolveRequestID. rewrite sanitize_cases.
  case_decide as Hid; [|rewrite String.eqb_refl].
  - rewrite (proj2 (String.eqb_neq _ "") (proj1 Hid)). eexists _, _. split; [reflexivity|]. split; [done|].
    split; [apply Hid|]. by left.
  - cbn [negb]. destruct (String.eqb (rq_TraceID (g_req c)) ""); cbn [negb].
    + eexists _, _. split; [reflexivity|]. split; [done|]. split; [exact Huuid|]. eauto.
    + eexists _, _. split; [reflexivity|]. auto.
Qed.

Lemma RequestID_cases c s :
  safe_id (rq_TraceID (g_req c)) -> safe_id (uuid_String u (env_uuid e (st_n s))) ->
  exists id c' s',
    run e (RequestID u base next c) s = run e (next c') s' /\ s' ≡ s /\
    identified id c c' /\ safe_id id /\
    (id = rq_Header (g_req c) RequestIDHeader \/ id = rq_TraceID (g_req c) \/ exists n, id = uuid_String u n).
Proof using Type.
  intros Htrace Huuid. unfold RequestID. rewrite run_bind.
  destruct (resolve_request_id c s Htrace Huuid) as (id & s1 & -> & Hs1 & Hsafe & Hfrom).
  exists id. destruct (String.eqb_spec (rq_TraceID (g_req c)) "") as [Ht|Ht]; simpl;
    (eexists _, s1; split; [reflexivity|]; split; [done|]; split; [|done]); unfold identified, GetRequestID, GetTraceID, stringFromContext;
    rewrite ?(proj2 (String.eqb_neq _ _) Ht), ?Ht; simpl;
    rewrite ?lookup_insert_eq, ?lookup_insert_ne, ?lookup_insert_eq by done; conj; try done; try case_match; by eexists.
Qed.
(** Every request goes on with one identifier, found in the context, in the
    response header and in every log line; it is the client's if that is safe, else
    the trace id, else a fresh UUID.  If the trace ids and UUIDs are safe, it is. *)
Theorem request_id_assigned c s :
  safe_id (rq_TraceID (g_req c)) -> safe_id (uuid_String u (env_uuid e (st_n s))) ->
  exists id c' s',
    run e (RequestID u base next c) s = run e (next c') s' /\ s' ≡ s /\
    identified id c c' /\ safe_id id /\
    (id = rq_Header (g_req c) RequestIDHeader \/ id = rq_TraceID (g_req c) \/ exists n, id = uuid_String u n).
Proof using Type. apply RequestID_cases. Qed.
End request_id.

(** ** What lets a request through *)

(** A request that was turned away: the chain did not run, one error envelope was
    written and the tables are as they were. *)
Definition turned_away (status : Z) (c : Ctx) (s : state) (o : outcome * Ctx) (s' : state) : Prop :=
  s' ≡ s /\ exists message, o = (Done, AbortWithStatusJSON status
    (WithCorrelation (response_Err message) (GetRequestID c) (GetTraceID c)) c).

(** The two outcomes of a guard: the chain ran, or the request was turned away. *)
Lemma CSRF_cases (e : env) (svc : csrfService) next c s o s' :
  run e (CSRFMiddleware (ValidateToken svc) next c) s = (o, s') ->
  if changes_state (rq_Method (g_req c)) then
    (exists s1, run e (ValidateToken svc (rq_Header (g_req c) CSRFHeader)) s = (true, s1) /\
       rq_Header (g_req c) CSRFHeader <> "" /\ run e (next c) s1 = (o, s')) \/
    turned_away 403 c s o s'
  else run e (next c) s = (o, s').
Proof.
  unfold CSRFMiddleware. destruct (changes_state _); [|done].
  destruct (String.eqb_spec (rq_Header (g_req c) CSRFHeader) "") as [Hh|Hh]; simpl.
  - intros [= <- <-]. right. split; [done|]. by eexists.
  - rewrite run_bind. pose proof (ValidateToken_pure e svc (rq_Header (g_req c) CSRFHeader) s) as Hpure.
    destruct (run e (ValidateToken svc _) s) as [[] s1]; simpl.
    + intros Hr. left. by exists s1.
    + intros [= <- <-]. right. split; [exact Hpure|]. by eexists.
Qed.

Lemma Auth_cases (j : JWT) (u : UUIDLib) (e : env) (config : TokenConfig) next c s o s' :
  run e (AuthMiddleware u (NewTokenService j (uuid_String u) config) next c) s = (o, s') ->
  (exists tok claims s1,
     rq_Cookie (g_req c) AccessTokenCookie = Ok tok /\
     run e (ValidateAccessToken j config tok) s = (Ok claims, s1) /\ s1 ≡ s /\
     run e (next (setAuthContext u claims c)) s1 = (o, s')) \/
  turned_away 401 c s o s'.
Proof.
  unfold AuthMiddleware. destruct (rq_Cookie (g_req c) AccessTokenCookie) as [tok|err].
  - rewrite run_bind. cbn [ts_ValidateAccessToken NewTokenService].
    pose proof (ValidateAccessToken_pure j e config tok s) as Hpure.
    destruct (run e (ValidateAccessToken j config tok) s) as [[claims|err] s1] eqn:Hv; simpl.
    + intros Hr. left. by exists tok, claims, s1.
    + intros [= <- <-]. right. split; [exact Hpure|]. by eexists.
  - intros [= <- <-]. right. split; [done|]. by eexists.
Qed.

(** The handlers behind the guard find the user of the claims. *)
Lemma user_of_claims (u : UUIDLib) {HU : UUIDLaws u} claims c :
  GetUserIDFromContext u (setAuthContext u claims c) = Ret (Ok (tc_UserID claims)) /\
  GetEmailFromContext (setAuthContext u claims c) = tc_Email claims /\
  GetClaimsFromContext (setAuthContext u claims c) = Some claims.
Proof.
  unfold GetUserIDFromContext, GetEmailFromContext, GetClaimsFromContext. simpl.
  repeat (rewrite lookup_insert_eq || (rewrite lookup_insert_ne by done)).
  by rewrite uuid_Parse_String.
Qed.

(** A state-changing request reaches the handlers behind the CSRF middleware
    only with a token in its X-CSRF-Token header that the service validates; any
    other one is answered 403 and changes nothing.  Other methods pass. *)
Theorem csrf_guards_state_changes (e : env) (svc : csrfService) next c s o s' :
  run e (CSRFMiddleware (ValidateToken svc) next c) s = (o, s') ->
  if changes_state (rq_Method (g_req c)) then
    (exists s1, run e (ValidateToken svc (rq_Header (g_req c) CSRFHeader)) s = (true, s1) /\
       rq_Header (g_req c) CSRFHeader <> "" /\ run e (next c) s1 = (o, s')) \/
    turned_away 403 c s o s'
  else run e (next c) s = (o, s').
Proof. apply CSRF_cases. Qed.

(** A request reaches the protected handlers only with an access-token cookie
    that validates; from there on the authenticated user is the one its claims
    name.  Any other request is answered 401 and changes nothing. *)
Theorem auth_guards_protected_routes (j : JWT) (u : UUIDLib) {HU : UUIDLaws u} (e : env)
    (config : TokenConfig) next c s o s' :
  run e (AuthMiddleware u (NewTokenService j (uuid_String u) config) next c) s = (o, s') ->
  (exists tok claims c' s1,
     rq_Cookie (g_req c) AccessTokenCookie = Ok tok /\
     run e (ValidateAccessToken j config tok) s = (Ok claims, s1) /\
     run e (next c') s1 = (o, s') /\
     run e (GetUserIDFromContext u c') s1 = (Ok (tc_UserID claims), s1) /\
     GetEmailFromContext c' = tc_Email claims /\ GetClaimsFromContext c' = Some claims) \/
  turned_away 401 c s o s'.
Proof.
  intros [(tok & claims & s1 & Hc & Hv & _ & Hn)|Haway]%Auth_cases; [left|by right].
  destruct (user_of_claims u claims c) as (Hid & He & Hcl).
  exists tok, claims, (setAuthContext u claims c), s1. by rewrite Hid.
Qed.

(** ** Panics *)

(** Whatever the rest of the chain panics with, the client gets a 500 with the
    generic message, tagged with the request's identifiers, nothing of the panic
    value or the stack; both go to the log instead.  Without a panic the middleware
    is invisible. *)
Theorem recovery_envelope (e : env) stack next c s :
  match run e (next c) s with
  | ((Done, c1), s1) => run e (Recovery stack next c) s = ((Done, c1), s1)
  | ((Panicked v, c1), s1) =>
      exists s2, run e (Recovery stack next c) s =
        ((Done, AbortWithStatusJSON 500
            (WithCorrelation (response_Err "Internal server error") (GetRequestID c1) (GetTraceID c1)) c1), s2) /\
        st_db s2 = st_db s1 /\
        st_trace s2 = st_trace s1 ++ [EvLog LError "panic recovered" (g_logger c1 ++ [("panic", v); ("stack", stack)])]
  end.
Proof.
  unfold Recovery. rewrite run_bind. destruct (run e (next c) s) as [[[|v] c1] s1]; [done|].
  eexists. split; [reflexivity|]. by split.
Qed.

(** The access log and the metrics run behind the recovery, and after the rest
    of the chain returns: a request that panics is answered 500 but is neither
    counted nor logged as completed. *)
Theorem panicked_request_not_recorded (e : env) stack print_ms size_of errors_of next c s v c1 s1 :
  let observe _ route status _ := log Info c "observed" [("route", route); ("status", status)] in
  run e (next c) (tick (tick s)) = ((Panicked v, c1), s1) ->
  exists c2 s2,
    run e (chain [Recovery stack; Metrics_Middleware observe; AccessLog print_ms size_of errors_of] next c) s
      = ((Done, c2), s2) /\
    status_of c2 = match g_writes c1 with [] => 500 | (status, _) :: _ => status end /\
    st_trace s2 = st_trace s1 ++ [EvLog LError "panic recovered" (g_logger c1 ++ [("panic", v); ("stack", stack)])].
Proof.
  intros observe Hnext. eexists _, _. simpl. unfold Recovery, Metrics_Middleware, AccessLog. simpl.
  repeat (first [rewrite run_bind | progress simpl]). rewrite Hnext. simpl. split; [reflexivity|].
  split; [unfold status_of; simpl; by destruct (g_writes c1) as [|[]]|done].
Qed.

(** ** Witnesses *)

Definition toy_request (method : string) (headers : list (string * string)) (cookies : list (string * string)) : Request :=
  mkRequest method "/api/v1/counter" "/api/v1/counter" ""
    (fun k => match (list_to_map headers : gmap string string) !! k with Some v => v | None => "" end)
    (fun k => match (list_to_map cookies : gmap string string) !! k with
              | Some v => Ok v
              | None => Err (EString 802 "http: named cookie not present")
              end)
    "203.0.113.7" "" "".

Definition toy_ctx (r : Request) : Ctx := mkGin r Background [] None None ∅ ∅ [] [] false.

(** A handler that answers 200, and one that panics. *)
Definition toy_handler : handler := fun c => finish (JSON 200 (response_OK "fine" DNil) c).
Definition toy_panic : handler := fun c => Ret (Panicked "runtime error: index out of range", c).

Definition shell_id : Ctx := toy_ctx (toy_request "GET" [(RequestIDHeader, "$(reboot)")] []).

Lemma request_id_assigned_witness :
  exists id c' s', run good_env (RequestID toy_uuid [] toy_handler shell_id) (start empty_tables)
      = run good_env (toy_handler c') s' /\
    s' ≡ start empty_tables /\ identified [] id shell_id c' /\ safe_id id.
Proof.
  destruct (request_id_assigned good_env toy_uuid [] toy_handler shell_id (start empty_tables)
    ltac:(apply (bool_decide_unpack _); vm_compute; exact I) ltac:(apply (bool_decide_unpack _); vm_compute; exact I))
    as (id & c' & s' & H1 & H2 & H3 & H4 & _).
  by exists id, c', s'.
Defined.

Definition no_csrf : Ctx := toy_ctx (toy_request "POST" [] []).

Lemma csrf_guards_state_changes_witness :
  exists o s', run good_env (CSRFMiddleware (ValidateToken toy_csrf) toy_handler no_csrf) (start empty_tables) = (o, s') /\
    status_of o.2 = 403 /\
    ((exists s1, run good_env (ValidateToken toy_csrf "") (start empty_tables) = (true, s1) /\ "" <> "" /\
        run good_env (toy_handler no_csrf) s1 = (o, s')) \/ turned_away 403 no_csrf (start empty_tables) o s').
Proof.
  eexists _, _. split; [reflexivity|]. split; [reflexivity|].
  exact (csrf_guards_state_changes good_env toy_csrf toy_handler no_csrf (start empty_tables) _ _ eq_refl).
Defined.

Definition no_cookie : Ctx := toy_ctx (toy_request "GET" [] []).

Lemma auth_guards_protected_routes_witness :
  exists o s', run good_env (AuthMiddleware toy_uuid (NewTokenService ToyJWT.jwt (uuid_String toy_uuid) toy_config)
      toy_handler no_cookie) (start empty_tables) = (o, s') /\ status_of o.2 = 401 /\
    ((exists tok claims c' s1, rq_Cookie (g_req no_cookie) AccessTokenCookie = Ok tok /\
       run good_env (ValidateAccessToken ToyJWT.jwt toy_config tok) (start empty_tables) = (Ok claims, s1) /\
       run good_env (toy_handler c') s1 = (o, s') /\
       run good_env (GetUserIDFromContext toy_uuid c') s1 = (Ok (tc_UserID claims), s1) /\
       GetEmailFromContext c' = tc_Email claims /\ GetClaimsFromContext c' = Some claims) \/
     turned_away 401 no_cookie (start empty_tables) o s').
Proof.
  eexists _, _. split; [reflexivity|]. split; [reflexivity|].
  exact (auth_guards_protected_routes ToyJWT.jwt toy_uuid good_env toy_config toy_handler no_cookie
           (start empty_tables) _ _ eq_refl).
Defined.

Lemma panicked_request_not_recorded_witness :
  exists c2 s2,
    run good_env (chain [Recovery "goroutine 1"; Metrics_Middleware (fun _ route status _ =>
        log Info no_cookie "observed" [("route", route); ("status", status)]);
      AccessLog (fun _ => "0") (fun _ => 0) (fun _ => None)] toy_panic no_cookie) (start empty_tables) = ((Done, c2), s2) /\
    status_of c2 = 500 /\
    st_trace s2 = [EvLog LError "panic recovered" [("panic", "runtime error: index out of range"); ("stack", "goroutine 1")]].
Proof.
  exact (panicked_request_not_recorded good_env "goroutine 1" (fun _ => "0") (fun _ => 0) (fun _ => None)
           toy_panic no_cookie (start empty_tables) "runtime error: index out of range" no_cookie _ eq_refl).
Defined.
