(* ===== verification/RateLimit.v ===== *)
(** * internal/api/middleware/rate_limit.go: one token bucket per client

    golang.org/x/time/rate is a parameter: a limiter is a state, and [Allow] spends
    from it at the instant it reads itself.  The theorems: a client's decisions are
    those of a bucket of its own, whatever others do and whatever is collected, as
    long as it is not idle for longer than the TTL; and no bucket is kept for two
    TTLs of idleness. *)

From S2P Require Import Prelude GoStd Model.

Section limiter.
(** [rate.Limit], [*rate.Limiter], [rate.NewLimiter] and [( *rate.Limiter).Allow]. *)
Context {Limit L : Type} (NewLimiter : Limit -> Z -> L) (limiter_Allow : L -> time -> bool * L).

Record RateLimitConfig := mkRateConfig { RPS : Limit; Burst : Z; TTL : duration }.

Record bucket := mkBucket { b_limiter : L; b_seen : time }.

Record IPRateLimiter := mkIPLimiter {
  rl_buckets : gmap string bucket;
  rl_rps : Limit;
  rl_burst : Z;
  rl_ttl : duration;
  rl_lastGC : time
}.

Definition NewIPRateLimiter (cfg : RateLimitConfig) : IPRateLimiter :=
  let ttl := if TTL cfg <=? 0 then 10 * Minute else TTL cfg in
  mkIPLimiter ∅ (RPS cfg) (Burst cfg) ttl time_zero.

Definition gcLocked (l : IPRateLimiter) (now : time) : IPRateLimiter :=
  if time_Sub now (rl_lastGC l) <? rl_ttl l then l
  else mkIPLimiter
         (filter (fun kb => (time_Sub now (b_seen kb.2) >? rl_ttl l) = false) (rl_buckets l))
         (rl_rps l) (rl_burst l) (rl_ttl l) now.

(** [now] is [l.nowFunc()], [at_] the instant the bucket's limiter reads. *)
Definition Allow (l : IPRateLimiter) (key : string) (now at_ : time) : bool * IPRateLimiter :=
  let l := gcLocked l now in
  let b := match rl_buckets l !! key with
           | Some b => b
           | None => mkBucket (NewLimiter (rl_rps l) (rl_burst l)) now
           end in
  let '(ok, limiter) := limiter_Allow (b_limiter b) at_ in
  (ok, mkIPLimiter (<[key := mkBucket limiter now]> (rl_buckets l))
         (rl_rps l) (rl_burst l) (rl_ttl l) (rl_lastGC l)).

(** ** Runs *)

Record call := mkCall { cl_key : string; cl_now : time; cl_at : time }.

(** The state after a run, and the decisions it made for client [k]. *)
Fixpoint serve (l : IPRateLimiter) (calls : list call) : IPRateLimiter :=
  match calls with
  | [] => l
  | c :: rest => serve (Allow l (cl_key c) (cl_now c) (cl_at c)).2 rest
  end.

Fixpoint decisions (k : string) (l : IPRateLimiter) (calls : list call) : list bool :=
  match calls with
  | [] => []
  | c :: rest =>
      let '(ok, l') := Allow l (cl_key c) (cl_now c) (cl_at c) in
      if decide (cl_key c = k) then ok :: decisions k l' rest else decisions k l' rest
  end.

(** The decisions of one bucket on the calls of client [k]. *)
Fixpoint private (k : string) (b : L) (calls : list call) : list bool :=
  match calls with
  | [] => []
  | c :: rest =>
      if decide (cl_key c = k) then let '(ok, b') := limiter_Allow b (cl_at c) in ok :: private k b' rest
      else private k b rest
  end.

(** The clock does not go back, and stays within 292 years, so that differences of
    instants do not saturate. *)
Definition ordered (t0 : time) (calls : list call) : Prop :=
  0 <= t0 /\ StronglySorted Z.le (t0 :: (cl_now <$> calls)) /\ Forall (fun c => cl_now c <= int64_max) calls.

(** Client [k], last seen at [t0], never leaves more than the TTL between calls. *)
Fixpoint steady (k : string) (ttl : duration) (t0 : time) (calls : list call) : Prop :=
  match calls with
  | [] => True
  | c :: rest =>
      if decide (cl_key c = k) then cl_now c - t0 <= ttl /\ steady k ttl (cl_now c) rest
      else steady k ttl t0 rest
  end.

Lemma ordered_cons t0 c rest :
  ordered t0 (c :: rest) -> t0 <= cl_now c <= int64_max /\ ordered (cl_now c) rest /\ ordered t0 rest.
Proof using Type.
  intros (H0 & Hs & Hm). apply Forall_cons in Hm as [Hc Hm].
  apply StronglySorted_inv in Hs as [Hs Hle]. apply Forall_cons in Hle as [Hle Hall].
  split; [lia|]. split; [split; [lia|by split]|]. split; [done|]. split; [|done].
  apply StronglySorted_inv in Hs as [Hs _]. by constructor.
Qed.

Lemma sub_exact now t : 0 <= t <= now -> now <= int64_max -> time_Sub now t = now - t.
Proof using Type. intros. unfold time_Sub. apply sat64_id. unfold in_int64, int64_min, int64_max in *. lia. Qed.

(** A bucket that has been used within the TTL survives the collection. *)
Lemma gc_keeps l now k b :
  rl_buckets l !! k = Some b -> 0 <= b_seen b <= now -> now <= int64_max -> now - b_seen b <= rl_ttl l ->
  rl_buckets (gcLocked l now) !! k = Some b.
Proof using Type.
  intros Hk Hs Hmax Httl. unfold gcLocked. destruct (_ <? _); [done|]. simpl.
  apply map_lookup_filter_Some. split; [done|]. simpl. rewrite sub_exact by done.
  rewrite Z.gtb_ltb. by apply Z.ltb_ge.
Qed.

Lemma gc_ttl l now : rl_ttl (gcLocked l now) = rl_ttl l.
Proof using Type. unfold gcLocked. by destruct (_ <? _). Qed.

Lemma Allow_ttl l k now t : rl_ttl (Allow l k now t).2 = rl_ttl l.
Proof using Type. unfold Allow. destruct (limiter_Allow _ _). apply gc_ttl. Qed.

(** [k] does not call: nothing is decided for it. *)
Lemma decisions_absent k l calls : k ∉ (cl_key <$> calls) -> decisions k l calls = [].
Proof using Type.
  revert l. induction calls as [|c rest IH]; intros l Hk; [done|]. cbn [decisions].
  rewrite fmap_cons in Hk. apply not_elem_of_cons in Hk as [Hne Hk].
  destruct (Allow l (cl_key c) (cl_now c) (cl_at c)) as [ok l']. rewrite decide_False by done. by apply IH.
Qed.

Lemma private_absent k b calls : k ∉ (cl_key <$> calls) -> private k b calls = [].
Proof using Type.
  induction calls as [|c rest IH]; intros Hk; [done|]. cbn [private].
  rewrite fmap_cons in Hk. apply not_elem_of_cons in Hk as [Hne Hk]. rewrite decide_False by done. by apply IH.
Qed.

(** Until [k] calls again, nobody's call comes later than the TTL. *)
Lemma steady_soon k ttl t0 c rest :
  ordered t0 (c :: rest) -> steady k ttl t0 (c :: rest) -> k ∈ (cl_key <$> c :: rest) -> cl_now c - t0 <= ttl.
Proof using Type.
  revert c. induction rest as [|c' rest IH]; intros c Ho Hs Hk; cbn [steady] in Hs;
    destruct (decide (cl_key c = k)) as [He|Hne]; try (by destruct Hs).
  - rewrite fmap_cons, elem_of_cons in Hk. destruct Hk as [->|Hk]; [done|]. by apply not_elem_of_nil in Hk.
  - rewrite fmap_cons, elem_of_cons in Hk. destruct Hk as [->|Hk]; [done|].
    apply ordered_cons in Ho as (Hc & Ho1 & Ho0). specialize (IH c' Ho0 Hs Hk).
    apply ordered_cons in Ho1 as (Hc' & _). lia.
Qed.

Lemma decisions_private k l b calls :
  rl_buckets l !! k = Some b -> ordered (b_seen b) calls -> steady k (rl_ttl l) (b_seen b) calls ->
  decisions k l calls = private k (b_limiter b) calls.
Proof using Type.
  revert l b. induction calls as [|c rest IH]; intros l b Hb Ho Hs; [done|].
  destruct (decide (k ∈ (cl_key <$> c :: rest))) as [Hin|Hout];
    [|by rewrite decisions_absent, private_absent].
  pose proof (steady_soon _ _ _ _ _ Ho Hs Hin) as Hsoon.
  pose proof (ordered_cons _ _ _ Ho) as (Hc & Ho1 & Ho0). destruct Ho as [Hpos _].
  pose proof (gc_keeps l (cl_now c) k b Hb ltac:(lia) ltac:(lia) Hsoon) as Hkeep.
  cbn [decisions private]. cbn [steady] in Hs.
  unfold Allow in *. destruct (decide (cl_key c = k)) as [->|Hne].
  - destruct Hs as [_ Hs]. rewrite Hkeep in *.
    destruct (limiter_Allow (b_limiter b) (cl_at c)) as [ok b'] eqn:Hal. simpl in *. f_equal.
    apply (IH _ (mkBucket b' (cl_now c))); simpl; [by rewrite lookup_insert_eq|done|by rewrite gc_ttl].
  - destruct (limiter_Allow _ _) as [ok b'] eqn:Hal. simpl in *.
    apply (IH _ b); simpl; [by rewrite lookup_insert_ne|done|by rewrite gc_ttl].
Qed.

(** ** Idle buckets *)

(** Every bucket was used within the TTL before the last collection, which was
    less than a TTL ago. *)
Definition collected (l : IPRateLimiter) (now : time) : Prop :=
  0 <= rl_lastGC l <= now /\ now - rl_lastGC l < rl_ttl l /\
  map_Forall (fun _ b => 0 <= b_seen b <= now /\ rl_lastGC l - b_seen b <= rl_ttl l) (rl_buckets l).

Lemma gc_collected l now t0 :
  0 < rl_ttl l <= int64_max -> 0 <= now <= int64_max -> t0 <= now ->
  collected l t0 \/ (rl_buckets l = ∅ /\ rl_lastGC l = time_zero) ->
  collected (gcLocked l now) now.
Proof using Type.
  intros Httl Hnow Ht0 Hl. unfold gcLocked. destruct (Z.ltb_spec (time_Sub now (rl_lastGC l)) (rl_ttl l)) as [Hlt|Hge].
  - destruct Hl as [(Hg & Hl & Hb)|[Hb Hg]].
    + rewrite sub_exact in Hlt by lia. split; [lia|]. split; [done|].
      intros k b Hk. destruct (Hb k b Hk). lia.
    + exfalso. revert Hlt. rewrite Hg.
      unfold time_Sub, sat64, time_zero, unixToInternal, Second, int64_min, int64_max in *. lia.
  - split; [simpl; lia|]. split; [simpl; lia|]. simpl. intros k b [Hk Hs]%map_lookup_filter_Some. simpl in Hs.
    destruct Hl as [(Hg & Hl & Hb)|[Hb _]]; [|by rewrite Hb in Hk].
    destruct (Hb k b Hk) as [Hseen _]. rewrite sub_exact in Hs by lia.
    rewrite Z.gtb_ltb, Z.ltb_ge in Hs. lia.
Qed.

Lemma Allow_collected l k now t t0 :
  0 < rl_ttl l <= int64_max -> 0 <= now <= int64_max -> t0 <= now ->
  collected l t0 \/ (rl_buckets l = ∅ /\ rl_lastGC l = time_zero) ->
  collected (Allow l k now t).2 now.
Proof using Type.
  intros Httl Hnow Ht0 Hl. destruct (gc_collected l now t0 Httl Hnow Ht0 Hl) as (Hg & Hlt & Hb).
  unfold Allow. destruct (limiter_Allow _ _) as [ok b']. split; [done|]. split; [done|]. simpl.
  apply map_Forall_insert_2; [simpl; rewrite gc_ttl; lia|exact Hb].
Qed.

Lemma serve_collected l t0 calls c :
  0 < rl_ttl l <= int64_max -> ordered t0 (calls ++ [c]) ->
  collected l t0 \/ (rl_buckets l = ∅ /\ rl_lastGC l = time_zero) ->
  collected (serve l (calls ++ [c])) (cl_now c).
Proof using Type.
  revert l t0. induction calls as [|c' calls IH]; intros l t0 Httl Ho Hl; cbn [app serve] in *;
    pose proof (ordered_cons _ _ _ Ho) as (Hc & Ho1 & _); destruct Ho as [Hpos _].
  - apply (Allow_collected l _ _ _ t0); [done|lia|lia|done].
  - apply (IH _ (cl_now c')); [by rewrite Allow_ttl|done|]. left.
    apply (Allow_collected l _ _ _ t0); [done|lia|lia|done].
Qed.
End limiter.

(** ** Theorems *)

(** C32.  From its first call on, and as long as it never pauses for more than the
    TTL, a client is given exactly the decisions of one bucket of its own, spent by
    its own calls alone: other clients' calls and the collection of idle buckets
    neither drain nor refill it. *)
Theorem rate_limit_budget_is_private {Limit L} (NewLimiter : Limit -> Z -> L) (limiter_Allow : L -> time -> bool * L)
    (l : IPRateLimiter) c rest :
  rl_buckets l !! cl_key c = None -> ordered (cl_now c) rest -> steady (cl_key c) (rl_ttl l) (cl_now c) rest ->
  decisions NewLimiter limiter_Allow (cl_key c) l (c :: rest) =
  private limiter_Allow (cl_key c) (NewLimiter (rl_rps l) (rl_burst l)) (c :: rest).
Proof.
  intros Hnone Ho Hs. cbn [decisions private]. unfold Allow.
  assert (Hgc : rl_buckets (gcLocked l (cl_now c)) !! cl_key c = None /\
    rl_rps (gcLocked l (cl_now c)) = rl_rps l /\ rl_burst (gcLocked l (cl_now c)) = rl_burst l).
  { unfold gcLocked. destruct (_ <? _); [done|]. split; [|done]. simpl.
    apply map_lookup_filter_None. by left. }
  destruct Hgc as (-> & -> & ->). simpl.
  destruct (limiter_Allow (NewLimiter (rl_rps l) (rl_burst l)) (cl_at c)) as [ok b'] eqn:Hal.
  rewrite !decide_True by done. f_equal.
  apply (decisions_private _ _ _ _ (mkBucket b' (cl_now c))); simpl.
  - by rewrite lookup_insert_eq.
  - done.
  - by rewrite gc_ttl.
Qed.

(** The limiter's memory is bounded by recent traffic: after any run from a
    fresh limiter, every bucket it holds was used less than two TTLs before the
    last call. *)
Theorem rate_limit_drops_idle_buckets {Limit L} (NewLimiter : Limit -> Z -> L) (limiter_Allow : L -> time -> bool * L)
    (cfg : RateLimitConfig) calls c :
  TTL cfg <= int64_max -> ordered 0 (calls ++ [c]) ->
  let l := serve NewLimiter limiter_Allow (NewIPRateLimiter cfg) (calls ++ [c]) in
  map_Forall (fun _ b => cl_now c - b_seen b < 2 * rl_ttl l) (rl_buckets l).
Proof.
  intros Hmax Ho l. set (l0 := NewIPRateLimiter (L := L) cfg) in *.
  assert (Httl : 0 < rl_ttl l0 <= int64_max).
  { unfold l0, NewIPRateLimiter. simpl. unfold Minute, Second, int64_max in *.
    destruct (Z.leb_spec (TTL cfg) 0); lia. }
  destruct (serve_collected NewLimiter limiter_Allow l0 0 calls c Httl Ho) as (Hg & Hlt & Hb).
  { right. by split. }
  fold l in Hg, Hlt, Hb. intros k b Hk. destruct (Hb k b Hk) as [Hseen Hgc]. lia.
Qed.

(** ** Witnesses: a limiter that lets three calls through *)

Definition three (_ : unit) (burst : Z) : Z := burst.
Definition spend (n : Z) (_ : time) : bool * Z := if 0 <? n then (true, n - 1) else (false, n).
Definition toy_limiter : IPRateLimiter (Limit := unit) (L := Z) :=
  NewIPRateLimiter (mkRateConfig tt 3 0).

(** Four calls of one client, one of another in between. *)
Definition toy_calls : list call :=
  (fun kt => mkCall kt.1 (kt.2 * Second) (kt.2 * Second)) <$>
  [("a", 1); ("a", 2); ("b", 3); ("a", 4); ("a", 5)].

Lemma toy_ordered : ordered 0 toy_calls.
Proof.
  split; [done|]. split; [|by repeat constructor]. repeat constructor; vm_compute; discriminate.
Qed.

Lemma rate_limit_budget_is_private_witness :
  decisions three spend "a" toy_limiter toy_calls = [true; true; true; false] /\
  decisions three spend "a" toy_limiter toy_calls = private spend "a" 3 toy_calls.
Proof.
  split; [vm_compute; reflexivity|].
  apply (rate_limit_budget_is_private three spend toy_limiter (mkCall "a" Second Second)
    (tail toy_calls)); [reflexivity| |].
  - split; [done|]. split; [|by repeat constructor]. repeat constructor; vm_compute; discriminate.
  - vm_compute. repeat split; discriminate.
Defined.

Lemma rate_limit_drops_idle_buckets_witness :
  size (rl_buckets (serve three spend toy_limiter toy_calls)) = 2%nat /\
  map_Forall (fun _ b => 5 * Second - b_seen b < 2 * rl_ttl (serve three spend toy_limiter toy_calls))
    (rl_buckets (serve three spend toy_limiter toy_calls)).
Proof.
  split; [vm_compute; reflexivity|].
  apply (rate_limit_drops_idle_buckets three spend (mkRateConfig tt 3 0) (take 4 toy_calls)
           (mkCall "a" (5 * Second) (5 * Second))).
  - vm_compute. discriminate.
  - exact toy_ordered.
Defined.
