(* ===== verification/Health.v ===== *)
(** * internal/service/health: liveness and readiness *)

From stdpp Require Import pretty.
From S2P Require Import Prelude GoStd Apperr Model Gorm Effects Repository RepositoryLaws Testbed Http.

(** [format] is [time.Time.Format] with [time.RFC3339]. *)
Definition Check_ (format : time -> string) (ctx : context) : prog (result HealthStatus) :=
  let! _ := ctx_poll onerr err => Ret (Err err) in
  let* now := perform OpNow in
  Ret (Ok (mkHealth "ok" "Service is healthy" {["timestamp" := DetailText (format now)]})).

(** A dependency and its probe; the list is the map of checks in the order the
    range visits it. *)
Definition checks : Type := list (string * (context -> prog (result unit))).

Fixpoint run_checks (ctx : context) (cs : checks) (details : gmap string detail) (unhealthyCount : Z)
  : prog (gmap string detail * Z) :=
  match cs with
  | [] => Ret (details, unhealthyCount)
  | (name, check) :: rest =>
      let* r := check ctx in
      match r with
      | Err err => run_checks ctx rest (<[name := DetailUnhealthy (error_string err)]> details) (unhealthyCount + 1)
      | Ok _ => run_checks ctx rest (<[name := DetailHealthy]> details) unhealthyCount
      end
  end.

Definition CheckWithDependencies (ctx : context) (cs : checks) : prog (result HealthStatus) :=
  let! _ := ctx_poll onerr err => Ret (Err err) in
  let* r := run_checks ctx cs ∅ 0 in
  let '(details, unhealthyCount) := r in
  if unhealthyCount >? 0 then
    Ret (Ok (mkHealth "degraded" (pretty unhealthyCount +:+ " dependency checks failed") details))
  else Ret (Ok (mkHealth "ok" "All dependencies healthy" details)).

(** ** What the report says *)

Definition unhealthy (d : detail) : bool := match d with DetailUnhealthy _ => true | _ => false end.

Definition count_unhealthy (m : gmap string detail) : Z :=
  Z.of_nat (size (filter (fun kd => unhealthy kd.2 = true) m)).

Lemma count_unhealthy_insert m name d :
  m !! name = None -> count_unhealthy (<[name := d]> m) = count_unhealthy m + (if unhealthy d then 1 else 0).
Proof.
  intros Hn. unfold count_unhealthy. destruct (unhealthy d) eqn:Hd.
  - rewrite map_filter_insert_True by done.
    rewrite map_size_insert_None by (apply map_lookup_filter_None; by left). lia.
  - rewrite map_filter_insert_False by (simpl; congruence). rewrite delete_id by done. lia.
Qed.

Lemma run_checks_spec e ctx cs m s :
  NoDup cs.*1 -> (forall name, name ∈ cs.*1 -> m !! name = None) ->
  let r := (run e (run_checks ctx cs m (count_unhealthy m)) s).1 in
  r.2 = count_unhealthy r.1 /\ dom r.1 = dom m ∪ list_to_set cs.*1.
Proof.
  revert m s. induction cs as [|[name check] rest IH]; intros m s Hnd Hm r.
  - unfold r. simpl. split; [done|]. by rewrite (right_id_L ∅ (∪)).
  - cbn [fmap list_fmap fst] in *. apply NoDup_cons in Hnd as [Hnin Hnd].
    assert (Hname : m !! name = None) by (apply Hm; left).
    unfold r. cbn [run_checks]. rewrite run_bind. destruct (run e (check ctx) s) as [res s1].
    assert (Hstep : forall d, let r := (run e (run_checks ctx rest (<[name := d]> m)
        (count_unhealthy m + (if unhealthy d then 1 else 0))) s1).1 in
      r.2 = count_unhealthy r.1 /\ dom r.1 = dom m ∪ list_to_set (name :: rest.*1)).
    { intros d. rewrite <- (count_unhealthy_insert m name d) by done.
      destruct (IH (<[name := d]> m) s1 Hnd) as [H1 H2].
      { intros n Hn. rewrite lookup_insert_ne by (intros ->; done). apply Hm. by right. }
      split; [exact H1|]. rewrite H2, dom_insert_L.
      by rewrite (union_comm_L {[name]}), <- (assoc_L (∪)). }
    destruct res as [[]|err].
    + specialize (Hstep DetailHealthy). simpl in Hstep. by rewrite Z.add_0_r in Hstep.
    + exact (Hstep (DetailUnhealthy (error_string err))).
Qed.

(** A readiness report names every dependency, says how many of them failed,
    and is "ok" exactly when none did. *)
Theorem readiness_report (e : env) ctx cs s st s' :
  NoDup cs.*1 -> run e (CheckWithDependencies ctx cs) s = (Ok st, s') ->
  dom (hs_Details st) = list_to_set cs.*1 /\
  (hs_Status st = "ok" <-> map_Forall (fun _ d => unhealthy d = false) (hs_Details st)) /\
  (hs_Status st <> "ok" -> hs_Message st = pretty (count_unhealthy (hs_Details st)) +:+ " dependency checks failed").
Proof.
  intros Hnd. unfold CheckWithDependencies, ctx_poll. simpl. destruct (env_done e (st_n s)); simpl; [done|].
  rewrite run_bind. pose proof (run_checks_spec e ctx cs ∅ (tick s) Hnd) as Hr. cbv zeta in Hr.
  change (count_unhealthy ∅) with 0 in Hr.
  destruct (run e (run_checks ctx cs ∅ 0) (tick s)) as [[details n] s1]. cbn [fst snd] in Hr.
  destruct Hr as [-> Hdom]; [by intros|].
  assert (Hzero : count_unhealthy details = 0 <-> map_Forall (fun _ d => unhealthy d = false) details).
  { unfold count_unhealthy. set (f := filter _ _).
    assert (Hz : Z.of_nat (size f) = 0 <-> size f = 0%nat) by lia.
    rewrite Hz, map_size_empty_iff. unfold f. split.
    - intros He k d Hk. destruct (unhealthy d) eqn:Hd; [|done].
      assert (Hin : filter (fun kd => unhealthy kd.2 = true) details !! k = Some d)
        by (by apply map_lookup_filter_Some). by rewrite He in Hin.
    - intros Hall. apply map_empty. intros k. apply map_lookup_filter_None. right. intros d Hk. simpl. by rewrite (Hall k d Hk). }
  assert (Hpos : 0 <= count_unhealthy details) by (unfold count_unhealthy; lia).
  destruct (Z.gtb_spec (count_unhealthy details) 0) as [Hgt|Hle]; cbn [run]; intros [= <- _]; cbn [hs_Details hs_Status hs_Message].
  - split; [by rewrite Hdom, dom_empty_L, (left_id_L ∅ (∪))|]. split; [|done]. split; [done|]. intros Hall. apply Hzero in Hall. lia.
  - split; [by rewrite Hdom, dom_empty_L, (left_id_L ∅ (∪))|]. split; [|done]. split; [|done]. intros _. apply Hzero. lia.
Qed.

(** ** Witness *)

Definition toy_checks : checks :=
  [("database", fun _ => Ret (Err (EString 803 "connection refused"))); ("cache", fun _ => Ret (Ok tt))].

Lemma readiness_report_witness :
  exists st s', run good_env (CheckWithDependencies Background toy_checks) (start empty_tables) = (Ok st, s') /\
    hs_Message st = "1 dependency checks failed" /\ dom (hs_Details st) = {["database"; "cache"]}.
Proof.
  eexists _, _. split; [reflexivity|]. split; [reflexivity|].
  rewrite (proj1 (readiness_report good_env Background toy_checks (start empty_tables) _ _
             ltac:(apply (bool_decide_unpack _); vm_compute; exact I) eq_refl)).
  simpl. by rewrite (right_id_L ∅ (∪)).
Defined.
