(* ===== verification/Handlers.v ===== *)
(** * internal/api/handler: from a request to a service call and back

    Every handler of the package, [Fail], the binding helpers and the route table
    of internal/api/router.go.  What gin's binding answered for the body or the
    query string is an argument of the handler that asks for it. *)

From stdpp Require Import pretty.
From S2P Require Import Prelude GoStd Apperr Model Gorm Effects Repository RepositoryLaws Testbed Token Csrf UserService UserSpec Accounts Counters Http Middleware Health.

(** ** respond.go *)

Definition OK (status : Z) (message : string) (d : data) (c : Ctx) : Ctx :=
  JSON status (response_OK message d) c.

Definition OKWithMeta (status : Z) (message : string) (d : data) (meta : Meta) (c : Ctx) : Ctx :=
  JSON status (response_OKWithMeta message d meta) c.

Definition Fail (c : Ctx) (err : error) : prog Ctx :=
  let status := HTTPStatus err in
  let attrs := [("status", Itoa status); ("error", error_string err)] in
  let attrs := match From_ err with Some appErr => attrs ++ [("code", e_Code appErr)] | None => attrs end in
  let* _ := if status >=? 500 then log LError c "request failed" attrs
            else log Warn c "request rejected" attrs in
  let* _ := if status >=? 500 then perform (OpSpanError err (ClientMessage err)) else Ret tt in
  let requestID := GetRequestID c in
  let traceID := GetTraceID c in
  let fields := Fields err in
  if decide (fields <> ∅) then
    Ret (AbortWithStatusJSON status
          (WithCorrelation (ValidationErr (ClientMessage err) fields) requestID traceID) c)
  else
    Ret (AbortWithStatusJSON status
          (WithCorrelation (response_Err (ClientMessage err)) requestID traceID) c).

(** [errors.As(err, &maxBytes)] and [errors.As(err, &validationErrs)] *)
Fixpoint as_MaxBytes (err : error) : bool :=
  match err with
  | EMaxBytes _ _ => true
  | EWrap _ _ inner => as_MaxBytes inner
  | EApp e => match e_cause e with Some c => as_MaxBytes c | None => false end
  | EDriver _ _ (Some inner) => as_MaxBytes inner
  | _ => false
  end.

Fixpoint as_Validation (err : error) : option (list FieldError) :=
  match err with
  | EValidation _ fes => Some fes
  | EWrap _ _ inner => as_Validation inner
  | EApp e => match e_cause e with Some c => as_Validation c | None => None end
  | EDriver _ _ (Some inner) => as_Validation inner
  | _ => None
  end.

Definition validationMessage (fe : FieldError) : string :=
  let tag := fe_Tag fe in
  if String.eqb tag "required" then "This field is required"
  else if String.eqb tag "email" then "Must be a valid email address"
  else if String.eqb tag "min" then
    if fe_IsString fe then "Must be at least " +:+ fe_Param fe +:+ " characters"
    else "Must be at least " +:+ fe_Param fe
  else if String.eqb tag "max" then
    if fe_IsString fe then "Must be at most " +:+ fe_Param fe +:+ " characters"
    else "Must be at most " +:+ fe_Param fe
  else if String.eqb tag "len" then "Must be exactly " +:+ fe_Param fe +:+ " characters"
  else if String.eqb tag "oneof" then "Must be one of: " +:+ ReplaceAll (fe_Param fe) " " ", "
  else if String.eqb tag "uuid" || String.eqb tag "uuid4" then "Must be a valid UUID"
  else if String.eqb tag "url" then "Must be a valid URL"
  else if String.eqb tag "eqfield" then "Must match " +:+ fe_Param fe
  else "Failed the " +:+ Quote tag +:+ " rule".

(** A later error for the same field replaces an earlier one. *)
Definition validationFields (errs : list FieldError) : gmap string string :=
  foldl (fun fields fe => <[fe_Field fe := validationMessage fe]> fields) ∅ errs.

(** [bound] is what [c.ShouldBindJSON(req)] answered: the request it filled in, or
    its error.  [inr] carries the context after a response has been written. *)
Definition BindJSON {T} (c : Ctx) (bound : result T) : prog (T + Ctx) :=
  match bound with
  | Ok req => Ret (inl req)
  | Err err =>
      let* c :=
        if as_MaxBytes err then
          let* a := perform OpAlloc in
          let* b := perform OpAlloc in
          Fail c (EApp (WithCause b (New a CodeInvalidInput "Request body is too large") err))
        else match as_Validation err with
        | Some validationErrs =>
            let* a := perform OpAlloc in
            let* b := perform OpAlloc in
            Fail c (EApp (WithCause b (WithFields a ErrValidation (validationFields validationErrs)) err))
        | None => let* a := perform OpAlloc in Fail c (EApp (WithCause a ErrBadRequest err))
        end in
      Ret (inr c)
  end.

(** ** pagination.go *)

Definition window_fields : gmap string string :=
  list_to_map [("page", "Must be a positive whole number"); ("limit", "Must be a whole number between 1 and 100")].

Definition BindPagination (c : Ctx) (bound : result Pagination) : prog (Pagination + Ctx) :=
  match bound with
  | Ok page => Ret (inl (Normalized page))
  | Err err =>
      let fields := match as_Validation err with
                    | Some validationErrs => validationFields validationErrs
                    | None => window_fields
                    end in
      let* a := perform OpAlloc in
      let* b := perform OpAlloc in
      let* c := Fail c (EApp (WithCause b (WithFields a ErrValidation fields) err)) in
      Ret (inr c)
  end.

(** ** The services' interfaces, as the handlers hold them *)

Record UserService_ := mkUserServiceI {
  us_Register : context -> RegisterUserRequest -> prog (result RegisterResponse);
  us_Login : context -> LoginRequest -> prog (result LoginResponse);
  us_Refresh : context -> string -> prog (result RefreshResponse);
  us_GetUser : context -> string -> prog (result GetUser);
  us_ListSessions : context -> UUID -> string -> Pagination -> prog (result SessionList);
  us_ChangePassword : context -> UUID -> ChangePasswordRequest -> prog (result ChangePasswordResponse);
  us_DeleteAccount : context -> UUID -> prog (result unit);
  us_RevokeRefreshTokens : context -> UUID -> prog (result unit)
}.

Definition user_service (u : UUIDLib) (svc : userService) : UserService_ :=
  mkUserServiceI (Register svc) (Login svc) (Refresh u svc) (GetUserByID u svc) (ListSessions svc)
    (ChangePassword svc) (DeleteAccount svc) (RevokeRefreshTokens svc).

(** ** user.go *)

Record CookieConfig := mkCookieConfig { AccessTTL : duration; RefreshTTL : duration; Secure : bool }.

Record UserHandler := mkUserHandler {
  uh_userService : UserService_;
  uh_GenerateToken : prog (result string);
  uh_cookies : CookieConfig
}.

(** [int(d.Seconds())]: whole seconds, truncated. *)
Definition int_Seconds (d : duration) : Z := Z.quot d Second.

Section user_handler.
Context (u : UUIDLib) (h : UserHandler).

Definition auth_cookie (name value : string) (maxAge : Z) : Cookie :=
  mkCookie name value maxAge (Secure (uh_cookies h)) true.

Definition setAuthCookies (accessToken refreshToken : string) (c : Ctx) : Ctx :=
  with_cookie (auth_cookie RefreshTokenCookie refreshToken (int_Seconds (RefreshTTL (uh_cookies h))))
    (with_cookie (auth_cookie AccessTokenCookie accessToken (int_Seconds (AccessTTL (uh_cookies h)))) c).

Definition clearAuthCookies (c : Ctx) : Ctx :=
  with_cookie (auth_cookie RefreshTokenCookie "" (-1))
    (with_cookie (auth_cookie AccessTokenCookie "" (-1)) c).

Definition fail_with (c : Ctx) (err : error) : prog (outcome * Ctx) :=
  let* c := Fail c err in finish c.

Definition handle_Register (bound : result RegisterUserRequest) : handler := fun c =>
  let* r := BindJSON c bound in
  match r with
  | inr c => finish c
  | inl req =>
      let! resp := us_Register (uh_userService h) (g_ctx c) req onerr err => fail_with c err in
      finish (OK 201 "Registration successful" (DAuth resp)
                (setAuthCookies (ar_AccessToken resp) (ar_RefreshToken resp) c))
  end.

Definition handle_Login (bound : result LoginRequest) : handler := fun c =>
  let* r := BindJSON c bound in
  match r with
  | inr c => finish c
  | inl req =>
      let! resp := us_Login (uh_userService h) (g_ctx c) req onerr err => fail_with c err in
      finish (OK 200 "Login successful" (DAuth resp)
                (setAuthCookies (ar_AccessToken resp) (ar_RefreshToken resp) c))
  end.

Definition handle_Refresh : handler := fun c =>
  match rq_Cookie (g_req c) RefreshTokenCookie with
  | Err err =>
      let* a := perform OpAlloc in fail_with c (EApp (WithCause a ErrMissingRefreshToken err))
  | Ok tokenStr =>
      let! resp := us_Refresh (uh_userService h) (g_ctx c) tokenStr onerr err => fail_with c err in
      finish (OK 200 "Token refreshed" DNil (setAuthCookies (tp_AccessToken resp) (tp_RefreshToken resp) c))
  end.

Definition handle_Logout : handler := fun c =>
  let* id := GetUserIDFromContext u c in
  let* _ := match id with
            | Ok userID =>
                let* r := us_RevokeRefreshTokens (uh_userService h) (g_ctx c) userID in
                match r with
                | Err revokeErr => log LError c "revoking refresh tokens on logout"
                    [("user_id", uuid_String u userID); ("error", error_string revokeErr)]
                | Ok _ => Ret tt
                end
            | Err _ => Ret tt
            end in
  finish (OK 200 "Logged out successfully" DNil (clearAuthCookies c)).

(** [Fail(c, apperr.ErrUnauthorized.WithCause(err))] *)
Definition unauthorized (c : Ctx) (err : error) : prog (outcome * Ctx) :=
  let* a := perform OpAlloc in fail_with c (EApp (WithCause a ErrUnauthorized err)).

Definition handle_GetMe : handler := fun c =>
  let! userID := GetUserIDFromContext u c onerr err => unauthorized c err in
  let! user := us_GetUser (uh_userService h) (g_ctx c) (uuid_String u userID) onerr err => fail_with c err in
  finish (OK 200 "User retrieved" (DUser user) c).

Definition handle_ListSessions (bound : result Pagination) : handler := fun c =>
  let! userID := GetUserIDFromContext u c onerr err => unauthorized c err in
  let* r := BindPagination c bound in
  match r with
  | inr c => finish c
  | inl page =>
      let currentRefreshToken := match rq_Cookie (g_req c) RefreshTokenCookie with Ok tok => tok | Err _ => "" end in
      let! result := us_ListSessions (uh_userService h) (g_ctx c) userID currentRefreshToken page
        onerr err => fail_with c err in
      finish (OKWithMeta 200 "Sessions retrieved" (DSessions (sl_Sessions result)) (sl_Meta result) c)
  end.

Definition handle_ChangePassword (bound : result ChangePasswordRequest) : handler := fun c =>
  let! userID := GetUserIDFromContext u c onerr err => unauthorized c err in
  let* r := BindJSON c bound in
  match r with
  | inr c => finish c
  | inl req =>
      let! resp := us_ChangePassword (uh_userService h) (g_ctx c) userID req onerr err => fail_with c err in
      finish (OK 200 "Password changed" DNil (setAuthCookies (tp_AccessToken resp) (tp_RefreshToken resp) c))
  end.

Definition handle_DeleteAccount : handler := fun c =>
  let! userID := GetUserIDFromContext u c onerr err => unauthorized c err in
  let! _ := us_DeleteAccount (uh_userService h) (g_ctx c) userID onerr err => fail_with c err in
  finish (OK 200 "Account deleted" DNil (clearAuthCookies c)).

Definition handle_GetCSRFToken : handler := fun c =>
  let! token := uh_GenerateToken h
    onerr err => let* a := perform OpAlloc in fail_with c (EApp (Internal a err)) in
  finish (OK 200 "CSRF token generated" (DCSRFToken token) c).
End user_handler.

(** ** counter.go, message.go, health.go *)

Definition handle_GetCounter (s : counterService) : handler := fun c =>
  let! value := counter_GetCounter s (g_ctx c) onerr err => fail_with c err in
  finish (OK 200 "Counter retrieved" (DCounter value) c).

Definition handle_IncrementCounter (s : counterService) : handler := fun c =>
  let! value := counter_IncrementCounter s (g_ctx c) onerr err => fail_with c err in
  finish (OK 200 "Counter incremented" (DCounter value) c).

Definition handle_GetMessage (s : messageService) : handler := fun c =>
  let! msg := message_GetMessage s (g_ctx c) onerr err => fail_with c err in
  finish (OK 200 "Message retrieved" (DMessage msg) c).

Definition handle_Check (format : time -> string) : handler := fun c =>
  let! status := Check_ format (g_ctx c) onerr err => fail_with c err in
  finish (OK 200 "Service is healthy" (DHealth status) c).

Definition handle_Ready (cs : checks) : handler := fun c =>
  let! status := CheckWithDependencies (g_ctx c) cs onerr err => fail_with c err in
  if negb (String.eqb (hs_Status status) "ok") then
    finish (AbortWithStatusJSON 503
      (WithCorrelation (mkResponse false (hs_Message status) (DHealth status) None ∅ "" "")
        (GetRequestID c) (GetTraceID c)) c)
  else finish (OK 200 "Service is ready" (DHealth status) c).

(** ** internal/api/router.go *)

Inductive guard := GAuthLimiter | GAuth | GCSRF.

#[export] Instance guard_eq_dec : EqDecision guard.
Proof. solve_decision. Defined.

Inductive endpoint :=
  | EGetMessage | ERegister | ELogin | ERefresh | EGetCSRFToken | EGetMe | EListSessions | ELogout
  | EChangePassword | EDeleteAccount | EGetCounter | EIncrementCounter | EReady | ECheck.

#[export] Instance endpoint_eq_dec : EqDecision endpoint.
Proof. solve_decision. Defined.

Record route := mkRoute { rt_method : string; rt_path : string; rt_guards : list guard; rt_endpoint : endpoint }.

Definition SetupRoutes : list route :=
  let api path := "/api/v1" +:+ path in
  let protected method path guards e := mkRoute method (api path) (GAuth :: guards) e in
  [ mkRoute "GET" (api "/message") [] EGetMessage;
    mkRoute "POST" (api "/auth/register") [GAuthLimiter] ERegister;
    mkRoute "POST" (api "/auth/login") [GAuthLimiter] ELogin;
    mkRoute "POST" (api "/auth/refresh") [GAuthLimiter; GCSRF] ERefresh;
    mkRoute "GET" (api "/csrf") [] EGetCSRFToken;
    protected "GET" "/auth/me" [] EGetMe;
    protected "GET" "/auth/sessions" [] EListSessions;
    protected "POST" "/auth/logout" [GCSRF] ELogout;
    protected "PATCH" "/auth/password" [GCSRF] EChangePassword;
    protected "DELETE" "/auth/me" [GCSRF] EDeleteAccount;
    protected "GET" "/counter" [] EGetCounter;
    protected "POST" "/counter" [GCSRF] EIncrementCounter ].

Definition SetupHealthRoutes : list route :=
  [ mkRoute "GET" "/api/health" [] EReady;
    mkRoute "GET" "/api/health/live" [] ECheck;
    mkRoute "GET" "/api/health/ready" [] EReady ].

(** [SetupFallbacks]: no route, and no such method on a route. *)
Definition NoRoute : handler := fun c =>
  finish (AbortWithStatusJSON 404
    (WithCorrelation (response_Err "Route not found") (GetRequestID c) (GetTraceID c)) c).
Definition NoMethod : handler := fun c =>
  finish (AbortWithStatusJSON 405
    (WithCorrelation (response_Err "Method not allowed") (GetRequestID c) (GetTraceID c)) c).

(** ** What an error becomes *)

(** The envelope of an error. *)
Definition error_envelope (c : Ctx) (err : error) : APIResponse :=
  mkResponse false (ClientMessage err) DNil None (Fields err) (GetRequestID c) (GetTraceID c).

(** The lines an error leaves behind. *)
Definition failure_events (c : Ctx) (err : error) : list event :=
  let attrs := g_logger c ++ [("status", Itoa (HTTPStatus err)); ("error", error_string err)] ++
               match From_ err with Some appErr => [("code", e_Code appErr)] | None => [] end in
  if HTTPStatus err >=? 500
  then [EvLog LError "request failed" attrs; EvSpanError err (ClientMessage err)]
  else [EvLog Warn "request rejected" attrs].

Lemma run_Fail e c err s :
  exists s', run e (Fail c err) s = (AbortWithStatusJSON (HTTPStatus err) (error_envelope c err) c, s') /\
    st_db s' = st_db s /\ st_once s' = st_once s /\ st_trace s' = st_trace s ++ failure_events c err.
Proof.
  unfold Fail, failure_events, error_envelope, log.
  destruct (HTTPStatus err >=? 500); simpl; (destruct (decide (Fields err <> ∅)) as [Hf|Hf]; simpl;
    [|apply dec_stable in Hf; rewrite Hf]); destruct (From_ err); simpl;
    (eexists; split; [reflexivity|]); simpl; rewrite <- ?app_assoc; done.
Qed.

#[local] Opaque Fail.

(** Every error becomes one aborted response: the status, message and field
    details of its client view in the standard envelope, with the request's
    identifiers; the full chain goes to the log, at error level and to the trace
    span exactly when the status is 500 or above. *)
Theorem fail_is_the_only_way_out (e : env) c err s c' s' :
  run e (Fail c err) s = (c', s') ->
  c' = AbortWithStatusJSON (HTTPStatus err) (error_envelope c err) c /\
  st_db s' = st_db s /\ st_trace s' = st_trace s ++ failure_events c err.
Proof.
  intros Hr. destruct (run_Fail e c err s) as (s2 & Heq & Hdb & _ & Ht).
  rewrite Heq in Hr. injection Hr as <- <-. by rewrite Hdb, Ht.
Qed.

(** ** Cookies *)

Definition auth_cookies (h : UserHandler) (accessToken refreshToken : string) : list Cookie :=
  [auth_cookie h AccessTokenCookie accessToken (int_Seconds (AccessTTL (uh_cookies h)));
   auth_cookie h RefreshTokenCookie refreshToken (int_Seconds (RefreshTTL (uh_cookies h)))].

Definition cleared_cookies (h : UserHandler) : list Cookie :=
  [auth_cookie h AccessTokenCookie "" (-1); auth_cookie h RefreshTokenCookie "" (-1)].

(** A response that failed left the cookies alone; one that succeeded set [cookies]. *)
Definition answered (cookies : list Cookie -> Prop) (c : Ctx) (o : outcome * Ctx) : Prop :=
  o.1 = Done /\ exists status r,
    g_writes o.2 = g_writes c ++ [(status, r)] /\
    if Success r then status < 400 /\ exists cs, cookies cs /\ g_cookies o.2 = g_cookies c ++ cs
    else 400 <= status /\ g_cookies o.2 = g_cookies c.

Lemma status_is_error err : 400 <= HTTPStatus err.
Proof.
  pose proof (HTTPStatus_known err) as H. unfold statuses in H.
  repeat (apply elem_of_cons in H as [->|H]; [lia|]). by apply not_elem_of_nil in H.
Qed.

Lemma answered_fail e cookies c err s : answered cookies c (run e (fail_with c err) s).1.
Proof.
  unfold fail_with. rewrite run_bind. destruct (run_Fail e c err s) as (s' & -> & _). split; [done|].
  do 2 eexists. split; [reflexivity|]. split; [apply status_is_error|done].
Qed.

Lemma run_BindJSON {T} e c (bound : result T) s :
  match bound with
  | Ok req => run e (BindJSON c bound) s = (inl req, s)
  | Err _ => exists err s', run e (BindJSON c bound) s = (inr (AbortWithStatusJSON (HTTPStatus err) (error_envelope c err) c), s') /\
      st_db s' = st_db s
  end.
Proof.
  destruct bound as [req|err]; [done|]. unfold BindJSON.
  destruct (as_MaxBytes err); [|destruct (as_Validation err) as [fes|]]; simpl; rewrite run_bind;
    match goal with |- context [run e (Fail c ?err') ?s'] =>
      destruct (run_Fail e c err' s') as (s2 & -> & Hdb & _); exists err', s2 end; done.
Qed.

Section user_handlers.
Context (e : env) (u : UUIDLib) (h : UserHandler).

Lemma answered_bound {T} cookies (bound : result T) (k : T -> prog (outcome * Ctx)) c s :
  (forall req s', answered cookies c (run e (k req) s').1) ->
  answered cookies c (run e (let* r := BindJSON c bound in
    match r with inr c => finish c | inl req => k req end) s).1.
Proof using Type.
  intros Hk. rewrite run_bind. pose proof (run_BindJSON e c bound s) as Hb. destruct bound as [req|err].
  - rewrite Hb. apply Hk.
  - destruct Hb as (err' & s' & -> & _). split; [done|]. do 2 eexists. split; [reflexivity|].
    split; [apply status_is_error|done].
Qed.

(** A service call whose answer is a token pair. *)
Lemma answered_call {A} (call : prog (result A)) (f : A -> Ctx) c s :
  (forall x, exists status r acc ref, f x = JSON status r (setAuthCookies h acc ref c) /\ Success r = true /\ status < 400) ->
  answered (fun cs => exists acc ref, cs = auth_cookies h acc ref) c
    (run e (let! x := call onerr err => fail_with c err in finish (f x)) s).1.
Proof using Type.
  intros Hf. rewrite run_bind. destruct (run e call s) as [[x|err] s1]; [|apply answered_fail].
  destruct (Hf x) as (status & r & acc & ref & -> & Hr & Hs). split; [done|]. exists status, r.
  split; [done|]. rewrite Hr. split; [done|]. exists (auth_cookies h acc ref). split; [by exists acc, ref|].
  simpl. by rewrite <- app_assoc.
Qed.

(** The four handlers that open a session. *)
Inductive session_handler : handler -> Prop :=
  | session_register bound : session_handler (handle_Register h bound)
  | session_login bound : session_handler (handle_Login h bound)
  | session_refresh : session_handler (handle_Refresh h)
  | session_password bound : session_handler (handle_ChangePassword u h bound).

Lemma GetUserID_cases c s :
  exists r s', run e (GetUserIDFromContext u c) s = (r, s') /\ s' ≡ s.
Proof using Type.
  unfold GetUserIDFromContext. destruct (g_keys c !! UserIDCtxKey) as [[raw|cl]|]; [|by do 2 eexists..].
  destruct (uuid_Parse u raw); by do 2 eexists.
Qed.

Lemma answered_unauthorized cookies c err s : answered cookies c (run e (unauthorized c err) s).1.
Proof using Type. unfold unauthorized. rewrite run_bind. simpl. apply answered_fail. Qed.

(** Registering, signing in, refreshing and changing the password set the two
    authentication cookies, HttpOnly and with the lifetimes of the tokens, exactly
    when they answer with success; every failure leaves the client's cookies as
    they were. *)
Theorem session_cookies_only_on_success hd c s :
  session_handler hd ->
  answered (fun cs => exists acc ref, cs = auth_cookies h acc ref) c (run e (hd c) s).1.
Proof using Type.
  destruct 1 as [bound|bound| |bound].
  - unfold handle_Register. apply answered_bound. intros req s'. apply answered_call. intros x. by do 4 eexists.
  - unfold handle_Login. apply answered_bound. intros req s'. apply answered_call. intros x. by do 4 eexists.
  - unfold handle_Refresh. destruct (rq_Cookie (g_req c) RefreshTokenCookie) as [tok|err].
    + apply answered_call. intros x. by do 4 eexists.
    + rewrite run_bind. simpl. apply answered_fail.
  - unfold handle_ChangePassword. rewrite run_bind. destruct (GetUserID_cases c s) as (r & s' & -> & _).
    destruct r as [id|err]; [|apply answered_unauthorized].
    apply answered_bound. intros req s1. apply answered_call. intros x. by do 4 eexists.
Qed.

(** Logging out always succeeds and always clears both cookies; a revocation
    that failed is only logged. *)
Theorem logout_always_succeeds c s :
  exists s', run e (handle_Logout u h c) s =
    ((Done, JSON 200 (response_OK "Logged out successfully" DNil) (clearAuthCookies h c)), s').
Proof using Type.
  unfold handle_Logout. rewrite run_bind. destruct (GetUserID_cases c s) as (r & s1 & -> & _).
  rewrite run_bind. destruct r as [id|err]; [|by eexists].
  rewrite run_bind. destruct (run e (us_RevokeRefreshTokens _ _ _) s1) as [[[]|err] s2]; by eexists.
Qed.
End user_handlers.

(** ** The route table *)

Definition every_route : list route := SetupRoutes ++ SetupHealthRoutes.

(** Endpoints that take credentials, and those that act for a signed-in user. *)
Definition credential_endpoints : list endpoint := [ERegister; ELogin; ERefresh].
Definition user_endpoints : list endpoint :=
  [EGetMe; EListSessions; ELogout; EChangePassword; EDeleteAccount; EGetCounter; EIncrementCounter].

Lemma every_route_ok (P : route -> Prop) `{!forall r, Decision (P r)} :
  bool_decide (Forall P every_route) = true -> forall r, r ∈ every_route -> P r.
Proof. intros Hall. apply Forall_forall. exact (bool_decide_eq_true_1 _ Hall). Qed.

(** No two routes share a method and path; every route that changes state is
    behind the CSRF middleware, except registering and signing in; every endpoint
    that acts for a user is behind authentication; every endpoint that takes
    credentials is behind its own rate limiter. *)
Theorem routes_are_guarded :
  NoDup ((fun r => (rt_method r, rt_path r)) <$> every_route) /\
  (forall r, r ∈ every_route -> changes_state (rt_method r) = true ->
     GCSRF ∈ rt_guards r \/ rt_endpoint r = ERegister \/ rt_endpoint r = ELogin) /\
  (forall r, r ∈ every_route -> rt_endpoint r ∈ user_endpoints -> GAuth ∈ rt_guards r) /\
  (forall r, r ∈ every_route -> rt_endpoint r ∈ credential_endpoints -> GAuthLimiter ∈ rt_guards r).
Proof.
  conj; [apply (bool_decide_unpack _); vm_compute; exact I|..].
  - refine (every_route_ok (fun r => changes_state (rt_method r) = true ->
      GCSRF ∈ rt_guards r \/ rt_endpoint r = ERegister \/ rt_endpoint r = ELogin) _). vm_compute. reflexivity.
  - refine (every_route_ok (fun r => rt_endpoint r ∈ user_endpoints -> GAuth ∈ rt_guards r) _).
    vm_compute. reflexivity.
  - refine (every_route_ok (fun r => rt_endpoint r ∈ credential_endpoints -> GAuthLimiter ∈ rt_guards r) _).
    vm_compute. reflexivity.
Qed.

(** ** From the request to the database *)

Section delete_endpoint.
Context (j : JWT) (u : UUIDLib) (e : env) (config : TokenConfig) (csrf : csrfService) (svc : userService).
Context (token : prog (result string)) (cookies : CookieConfig).
Context {HUU : UUIDLaws u}
        {HU : UserRepositoryLaws e (userRepository svc)}
        {HR : RefreshTokenRepositoryLaws e (refreshTokenRepository svc)}
        {HM : TxManagerLaws e (txManager svc)}.

(** DELETE /api/v1/auth/me, behind its guards. *)
Definition delete_endpoint : handler :=
  chain [AuthMiddleware u (NewTokenService j (uuid_String u) config); CSRFMiddleware (ValidateToken csrf)]
    (handle_DeleteAccount u (mkUserHandler (user_service u svc) token cookies)).

(** An account is deleted over HTTP only for a request with a valid access
    token, whose user it is, and a valid CSRF token; then the answer is 200, no live
    row of the user and no session of theirs is left.  Every other answer is an
    error, and leaves the database and the client's cookies as they were. *)
Theorem delete_account_endpoint c s o c' s' :
  rq_Method (g_req c) = "DELETE" -> ctx_value (g_ctx c) = None -> g_writes c = [] ->
  run e (delete_endpoint c) s = ((o, c'), s') ->
  o = Done /\
  if status_of c' =? 200 then
    exists tok claims s1 s2,
      rq_Cookie (g_req c) AccessTokenCookie = Ok tok /\
      run e (ValidateAccessToken j config tok) s = (Ok claims, s1) /\
      run e (ValidateToken csrf (rq_Header (g_req c) CSRFHeader)) s1 = (true, s2) /\
      (forall row, ~ selected TUsers (user_has_id (tc_UserID claims)) (st_db s') row) /\
      (forall k row, t_tokens (st_db s') !! k = Some row -> rt_UserID row <> tc_UserID claims)
  else 400 <= status_of c' /\ st_db s' = st_db s /\ g_cookies c' = g_cookies c.
Proof using HUU HU HR HM.
  intros Hm Hctx Hw Hr. unfold delete_endpoint in Hr. cbn [chain foldr] in Hr.
  apply Auth_cases in Hr as [(tok & claims & s1 & Hck & Hv & Hs1 & Hr)|(Hs & msg & [= -> ->])].
  2: { unfold status_of. simpl. rewrite Hw. simpl. split; [done|]. by rewrite (st_db_proper _ _ Hs). }
  set (c1 := setAuthContext u claims c) in *. apply CSRF_cases in Hr. change (g_req c1) with (g_req c) in Hr.
  rewrite Hm in Hr. change (changes_state "DELETE") with true in Hr. cbv iota in Hr.
  destruct Hr as [(s2 & Hcs & Hne & Hr)|(Hs & msg & [= -> ->])].
  2: { unfold status_of. simpl. rewrite Hw. simpl. split; [done|].
       by rewrite (st_db_proper _ _ Hs), (st_db_proper _ _ Hs1). }
  pose proof (ValidateToken_pure e csrf (rq_Header (g_req c) CSRFHeader) s1) as Hs2. rewrite Hcs in Hs2. simpl in Hs2.
  pose proof (proj1 (user_of_claims u claims c)) as Hid. fold c1 in Hid.
  unfold handle_DeleteAccount in Hr. rewrite run_bind, Hid in Hr. cbn [run] in Hr.
  rewrite run_bind in Hr. cbn [uh_userService us_DeleteAccount user_service] in Hr.
  change (g_ctx c1) with (g_ctx c) in Hr.
  pose proof (wp_DeleteAccount e svc (g_ctx c) Hctx (tc_UserID claims) s2) as Hdel. unfold wp in Hdel.
  destruct (run e (DeleteAccount svc (g_ctx c) (tc_UserID claims)) s2) as [[[]|err] s3]; simpl in Hdel.
  - injection Hr as <- <- <-. split; [done|]. unfold status_of. simpl. rewrite Hw. simpl.
    exists tok, claims, s1, s2. split; [done|]. split; [done|]. split; [done|].
    destruct Hdel as (_ & now & ->). split; [apply deleted_gone|].
    intros k row [_ Hk]%revoked_lookup. by apply N.eqb_neq in Hk.
  - unfold fail_with in Hr. rewrite run_bind in Hr.
    destruct (run_Fail e c1 err s3) as (s4 & Heq & Hdb & _). rewrite Heq in Hr.
    injection Hr as <- <- <-. split; [done|]. unfold status_of. simpl. rewrite Hw. simpl.
    pose proof (status_is_error err). destruct (Z.eqb_spec (HTTPStatus err) 200); [lia|].
    split; [done|]. split; [|done].
    by rewrite Hdb, Hdel, (st_db_proper _ _ Hs2), (st_db_proper _ _ Hs1).
Qed.
End delete_endpoint.

(** ** Witnesses *)

Definition toy_cookies : CookieConfig := mkCookieConfig (15 * Minute) (7 * 24 * Hour) true.

Lemma fail_is_the_only_way_out_witness :
  exists c' s', run good_env (Fail no_cookie (EApp ErrInvalidCredentials)) (start empty_tables) = (c', s') /\
    status_of c' = 401 /\ (Message <$> (g_writes c').*2) = ["Invalid email or password"] /\
    st_trace s' = failure_events no_cookie (EApp ErrInvalidCredentials).
Proof.
  eexists _, _. split; [reflexivity|].
  destruct (fail_is_the_only_way_out good_env no_cookie (EApp ErrInvalidCredentials) (start empty_tables) _ _ eq_refl)
    as (Hc & _ & Ht).
  rewrite Hc, Ht. split; [reflexivity|]. split; [vm_compute; reflexivity|reflexivity].
Defined.

Definition toy_user_handler : UserHandler :=
  mkUserHandler (user_service toy_uuid toy_service) (GenerateToken toy_csrf) toy_cookies.

Lemma session_cookies_only_on_success_witness :
  exists o, (run good_env (handle_Login toy_user_handler (Ok ann_login) no_cookie) ann_state).1 = o /\
    answered (fun cs => exists acc ref, cs = auth_cookies toy_user_handler acc ref) no_cookie o /\
    status_of o.2 = 200 /\ length (g_cookies o.2) = 2%nat.
Proof.
  eexists. split; [reflexivity|]. split.
  - apply (session_cookies_only_on_success good_env toy_uuid toy_user_handler (handle_Login toy_user_handler (Ok ann_login))).
    apply session_login.
  - split; vm_compute; reflexivity.
Defined.

(** Ann deletes her account. *)
Definition ann_delete : Ctx := toy_ctx (toy_request "DELETE"
  [(CSRFHeader, match toy_csrf_run.1 with Ok token => token | Err _ => "" end)]
  [(AccessTokenCookie, ar_AccessToken ann_response)]).

Definition ann_delete_run :=
  run good_env (delete_endpoint ToyJWT.jwt toy_uuid toy_config toy_csrf toy_service
    (GenerateToken toy_csrf) toy_cookies ann_delete) ann_state.

Lemma ann_delete_cookie : rq_Cookie (g_req ann_delete) AccessTokenCookie = Ok (ar_AccessToken ann_response).
Proof. vm_compute. reflexivity. Qed.

Lemma ann_access_id :
  match (run good_env (ValidateAccessToken ToyJWT.jwt toy_config (ar_AccessToken ann_response)) ann_state).1 with
  | Ok claims => tc_UserID claims = ann_id
  | Err _ => False
  end.
Proof. vm_compute. reflexivity. Qed.

Lemma ann_delete_status : status_of ann_delete_run.1.2 = 200.
Proof. vm_compute. reflexivity. Qed.

Lemma delete_account_endpoint_witness :
  status_of ann_delete_run.1.2 = 200 /\ forall k row, t_tokens (st_db ann_delete_run.2) !! k = Some row -> rt_UserID row <> ann_id.
Proof.
  split; [exact ann_delete_status|]. pose proof ann_delete_status as H200.
  destruct (delete_account_endpoint ToyJWT.jwt toy_uuid good_env toy_config toy_csrf toy_service
    (GenerateToken toy_csrf) toy_cookies ann_delete ann_state ann_delete_run.1.1 ann_delete_run.1.2
    ann_delete_run.2 eq_refl eq_refl eq_refl
    ltac:(change (ann_delete_run = (ann_delete_run.1.1, ann_delete_run.1.2, ann_delete_run.2));
          by destruct ann_delete_run as [[? ?] ?])) as [_ H].
  rewrite H200 in H. change (200 =? 200) with true in H. cbv iota in H.
  destruct H as (tok & claims & s1 & s2 & Htok & Hv & _ & _ & Hgone).
  rewrite ann_delete_cookie in Htok.
  assert (tok = ar_AccessToken ann_response) as -> by congruence.
  pose proof ann_access_id as Hid. rewrite Hv in Hid. cbn [fst] in Hid. rewrite <- Hid. exact Hgone.
Defined.
