(* ===== verification/Binding.v ===== *)
(** * Binding: from the bytes of a request to a value a service may see

    The struct tags of internal/model/request as data, the name under which
    internal/api/handler reports a field, and what [BindJSON] and
    [BindPagination] make of a request that breaks a rule.

    Decoding (encoding/json, gin's mapping of a query string), the [email] rule
    and the validator are third-party: [Binding] holds them and [BindingLaws]
    states what their documentation promises.  [Ruled] is the interface between
    the tags and the theorems: it says in plain terms, field by field, when a
    request is acceptable. *)

From S2P Require Import Prelude GoStd Apperr Model Gorm Effects Repository RepositoryLaws Testbed Token Csrf UserService UserSpec Accounts Http Middleware Handlers.

(** ** Struct tags *)

(** The rules of a [binding] tag, with their parameters. *)
Inductive rule := Required | OmitEmpty | IsEmail | Min (n : Z) | Max (n : Z).

(** What a field can hold. *)
Inductive value := VString (s : string) | VInt (n : Z).

Record StructField := mkField {
  sf_Name : string;
  sf_json : string;
  sf_binding : list rule;
  sf_value : value
}.

Class Bindable (T : Type) := struct_fields : T -> list StructField.

#[export] Instance RegisterUserRequest_fields : Bindable RegisterUserRequest := fun r =>
  [ mkField "Email" "email" [Required; IsEmail; Max 254] (VString (rr_Email r));
    mkField "Password" "password" [Required; Min 8; Max 72] (VString (rr_Password r));
    mkField "Name" "name" [Required; Min 1; Max 100] (VString (rr_Name r)) ].

#[export] Instance LoginRequest_fields : Bindable LoginRequest := fun r =>
  [ mkField "Email" "email" [Required; IsEmail; Max 254] (VString (lr_Email r));
    mkField "Password" "password" [Required; Max 72] (VString (lr_Password r)) ].

#[export] Instance ChangePasswordRequest_fields : Bindable ChangePasswordRequest := fun r =>
  [ mkField "CurrentPassword" "currentPassword" [Required; Max 72] (VString (cp_CurrentPassword r));
    mkField "NewPassword" "newPassword" [Required; Min 8; Max 72] (VString (cp_NewPassword r)) ].

#[export] Instance Pagination_fields : Bindable Pagination := fun p =>
  [ mkField "Page" "page" [OmitEmpty; Min 1] (VInt (Page p));
    mkField "Limit" "limit" [OmitEmpty; Min 1; Max 100] (VInt (Limit p)) ].

(** The function [init] registers with the validator: the part of the json tag
    before the first comma, or the field's Go name. *)
Definition TagName (fld : StructField) : string :=
  let name := match strings_Split (sf_json fld) "," with name :: _ => name | [] => "" end in
  if String.eqb name "-" || String.eqb name "" then sf_Name fld else name.

(** ** What the validator's documentation says of the rules *)

(** The zero value, which [omitempty] lets through and [required] refuses. *)
Definition is_zero (v : value) : bool :=
  match v with VString s => String.eqb s "" | VInt n => n =? 0 end.

(** What [min] and [max] compare: the number of characters of a string, the value
    of a number. *)
Definition characters (s : string) : Z := Z.of_nat (length (Utf8.runes s)).
Definition magnitude (v : value) : Z := match v with VString s => characters s | VInt n => n end.

Definition rule_Tag (r : rule) : string :=
  match r with Required => "required" | OmitEmpty => "omitempty" | IsEmail => "email" | Min _ => "min" | Max _ => "max" end.
Definition rule_Param (r : rule) : string := match r with Min n | Max n => Itoa n | _ => "" end.

Section validator.
Context (Email : string -> bool).

Definition holds (r : rule) (v : value) : bool :=
  match r with
  | Required => negb (is_zero v)
  | OmitEmpty => true
  | IsEmail => match v with VString s => Email s | VInt _ => false end
  | Min n => n <=? magnitude v
  | Max n => magnitude v <=? n
  end.

(** The rules of a field are tried from left to right up to the first that
    fails; [omitempty] ends them at a zero value. *)
Fixpoint first_failure (rs : list rule) (v : value) : option rule :=
  match rs with
  | [] => None
  | OmitEmpty :: rs => if is_zero v then None else first_failure rs v
  | r :: rs => if holds r v then first_failure rs v else Some r
  end.

(** The report on one field, under the name [name] gives it. *)
Definition field_error (name : StructField -> string) (fld : StructField) : option FieldError :=
  r ← first_failure (sf_binding fld) (sf_value fld);
  Some (mkFieldError (name fld) (rule_Tag r) (match sf_value fld with VString _ => true | VInt _ => false end)
          (rule_Param r)).

Definition field_errors (name : StructField -> string) (flds : list StructField) : list FieldError :=
  omap (field_error name) flds.
End validator.

(** Decoding the bytes into a value of the type: encoding/json for a body, gin's
    mapping for a query string.  Its errors come before any validation. *)
Class Decoder (T : Type) := {
  Decode : string -> result T;
  decode_error_kind raw err : Decode raw = Err err -> as_Validation err = None
}.

(** The [email] rule, and gin's [ShouldBind], which decodes and then validates
    with the name function it is given. *)
Class Binding := {
  Email : string -> bool;
  ShouldBind : forall {T} `{Bindable T} `{Decoder T}, (StructField -> string) -> string -> result T
}.

Class BindingLaws (b : Binding) : Prop := {
  bind_undecodable : forall T `{Bindable T} `{Decoder T} name raw err,
    Decode (T := T) raw = Err err -> ShouldBind (T := T) name raw = Err err;
  bind_valid : forall T `{Bindable T} `{Decoder T} name raw (req : T),
    Decode raw = Ok req -> field_errors Email name (struct_fields req) = [] -> ShouldBind name raw = Ok req;
  bind_invalid : forall T `{Bindable T} `{Decoder T} name raw (req : T),
    Decode raw = Ok req -> field_errors Email name (struct_fields req) <> [] ->
    exists msg, ShouldBind (T := T) name raw = Err (EValidation msg (field_errors Email name (struct_fields req)))
}.

(** [c.ShouldBindJSON] and [c.ShouldBindQuery], once [init] has registered [TagName]. *)
Definition ShouldBindJSON `{Binding} {T} `{Bindable T} `{Decoder T} (raw : string) : result T :=
  ShouldBind TagName raw.

(** ** The rules in plain terms *)

Section failure.
Context (E : string -> bool).

(** Whether a field meets its rules. *)
Definition meets (rs : list rule) (v : value) : bool := bool_decide (first_failure E rs v = None).

Lemma meets_cons r rs v :
  meets (r :: rs) v = match r with OmitEmpty => is_zero v || meets rs v | _ => holds E r v && meets rs v end.
Proof using Type. unfold meets. destruct r; simpl; by case_match. Qed.
End failure.

Definition email_ok `{Binding} (s : string) : bool :=
  negb (String.eqb s "") && Email s && (characters s <=? 254).

(** Between [lo] and [hi] characters. *)
Definition between (lo hi : Z) (s : string) : bool := (lo <=? characters s) && (characters s <=? hi).

(** Absent, or in the range. *)
Definition unset_or (P : Z -> bool) (n : Z) : bool := (n =? 0) || P n.

(** What a request must meet, by the name its fields have in JSON; [ruled] says
    that the tags ask for just that, under just those names. *)
Class Ruled `{Binding} T `{Bindable T} := {
  rules : T -> list (string * bool);
  ruled : forall req, map (fun f => (TagName f, meets Email (sf_binding f) (sf_value f)))
                        (struct_fields req) = rules req;
  rules_distinct : forall req, NoDup (rules req).*1
}.

(** A request is acceptable if it meets every rule. *)
Definition acceptable `{Ruled T} (req : T) : bool := forallb snd (rules req).

Lemma characters_empty s : String.eqb s "" = (characters s <=? 0).
Proof.
  destruct s as [|a s]; [done|]. unfold characters, Utf8.runes, to_bytes. simpl.
  destruct (Utf8.decode_rune a _) as [r w]. simpl. symmetry. apply Z.leb_gt. lia.
Qed.

(** One field after the other: its name by computing, its rules by cases on the
    bounds. *)
Ltac ruled_field :=
  apply (f_equal2 Datatypes.pair); [reflexivity|];
  rewrite !meets_cons; simpl; rewrite ?characters_empty, andb_true_r;
  unfold email_ok, between, unset_or; rewrite ?characters_empty, ?andb_assoc; try reflexivity;
  repeat match goal with |- context [?x <=? ?y] => destruct (Z.leb_spec x y) end; simpl; first [reflexivity | lia].
Ltac ruled_fields :=
  intros ?; unfold struct_fields; simpl map; repeat (apply (f_equal2 cons); [ruled_field|]); reflexivity.
Ltac distinct_names := intros ?; apply (bool_decide_unpack _); reflexivity.

#[export] Instance RegisterUserRequest_ruled `{Binding} : Ruled RegisterUserRequest.
Proof.
  refine {| rules := fun r => [("email", email_ok (rr_Email r)); ("password", between 8 72 (rr_Password r));
                     ("name", between 1 100 (rr_Name r))] |}; [ruled_fields|distinct_names].
Defined.

#[export] Instance LoginRequest_ruled `{Binding} : Ruled LoginRequest.
Proof.
  refine {| rules := fun r => [("email", email_ok (lr_Email r)); ("password", between 1 72 (lr_Password r))] |};
    [ruled_fields|distinct_names].
Defined.

#[export] Instance ChangePasswordRequest_ruled `{Binding} : Ruled ChangePasswordRequest.
Proof.
  refine {| rules := fun r => [("currentPassword", between 1 72 (cp_CurrentPassword r));
                     ("newPassword", between 8 72 (cp_NewPassword r))] |}; [ruled_fields|distinct_names].
Defined.

#[export] Instance Pagination_ruled `{Binding} : Ruled Pagination.
Proof.
  refine {| rules := fun p => [("page", unset_or (fun n => 1 <=? n) (Page p));
                     ("limit", unset_or (fun n => (1 <=? n) && (n <=? 100)) (Limit p))] |};
    [ruled_fields|distinct_names].
Defined.

(** ** The report of a rejected request *)

Section report.
Context `{Ruled T} (req : T).

Definition report : list FieldError := field_errors Email TagName (struct_fields req).

Lemma field_error_name fld :
  fe_Field <$> field_error Email TagName fld =
  (if meets Email (sf_binding fld) (sf_value fld) then None else Some (TagName fld)).
Proof using Type.
  unfold field_error, meets. by destruct (first_failure Email (sf_binding fld) (sf_value fld)).
Qed.

Lemma report_names : fe_Field <$> report = omap (fun nb : string * bool => if nb.2 then None else Some nb.1) (rules req).
Proof using All.
  unfold report, field_errors. rewrite <- ruled. induction (struct_fields req) as [|fld flds IH]; [done|].
  pose proof (field_error_name fld) as Hf. simpl.
  destruct (field_error Email TagName fld), (meets Email _ _); simpl in *; try discriminate; [|exact IH].
  injection Hf as Hf. exact (f_equal2 cons Hf IH).
Qed.

Lemma report_mem name : name ∈ fe_Field <$> report <-> (name, false) ∈ rules req.
Proof using All.
  rewrite report_names, list_elem_of_omap. split.
  - intros ([n []] & Hin & Hn); simpl in Hn; by simplify_eq.
  - intros Hin. by exists (name, false).
Qed.

Lemma report_empty : report = [] <-> acceptable req = true.
Proof using All.
  unfold acceptable. rewrite forallb_forall. split.
  - intros Hr [n []] Hin; [done|]. apply list_elem_of_In, report_mem in Hin. rewrite Hr in Hin. by apply not_elem_of_nil in Hin.
  - intros Hall. destruct report as [|fe fes] eqn:Hr; [done|].
    assert (Hin : fe_Field fe ∈ fe_Field <$> report) by (rewrite Hr; apply list_elem_of_here).
    apply report_mem, list_elem_of_In, Hall in Hin. done.
Qed.

Lemma report_NoDup : NoDup (fe_Field <$> report).
Proof using All.
  rewrite report_names. pose proof (rules_distinct req) as Hd. induction (rules req) as [|[n b] rs IH]; [constructor|].
  simpl in *. apply NoDup_cons in Hd as [Hn Hd]. destruct b; [exact (IH Hd)|].
  apply NoDup_cons. split; [|exact (IH Hd)]. intros ([n' []] & Hin & Hn')%list_elem_of_omap; simpl in Hn'; simplify_eq.
  by apply (list_elem_of_fmap_2 fst) in Hin.
Qed.
End report.

(** With distinct names every report is in the map. *)
Lemma validationFields_app errs fe :
  validationFields (errs ++ [fe]) = <[fe_Field fe := validationMessage fe]> (validationFields errs).
Proof. unfold validationFields. by rewrite foldl_app. Qed.

Lemma validationFields_lookup errs name msg :
  NoDup (fe_Field <$> errs) ->
  validationFields errs !! name = Some msg <-> exists fe, fe ∈ errs /\ fe_Field fe = name /\ validationMessage fe = msg.
Proof.
  induction errs as [|fe errs IH] using rev_ind; intros Hd.
  - split; [done|]. by intros (fe & Hin%not_elem_of_nil & _).
  - rewrite validationFields_app. rewrite fmap_app in Hd. apply NoDup_app in Hd as (Hd & Hn & _).
    rewrite lookup_insert_Some, (IH Hd). split.
    + intros [[<- <-]|[Hne (fe' & Hin & Hf)]]; [exists fe|exists fe']; (split; [apply elem_of_app|done]); [right|by left].
      by apply list_elem_of_singleton.
    + intros (fe' & [Hin| ->%list_elem_of_singleton]%elem_of_app & <- & <-); [right|by left].
      split; [|by exists fe']. intros Heq. apply (Hn (fe_Field fe')).
      * by apply list_elem_of_fmap_2.
      * rewrite <- Heq. apply list_elem_of_here.
Qed.

(** ** From the bytes to the handler *)

#[local] Opaque Fail.

(** Run the call of [Fail] that [H] is about. *)
Ltac run_fail H :=
  match type of H with context [run ?e (Fail ?c ?err) ?s] =>
    let Heq := fresh "Heq" in let Hdb := fresh "Hdb" in
    destruct (run_Fail e c err s) as (? & Heq & Hdb & _); rewrite Heq in H; injection H as <- <-
  end.

Section binding.
Context {b : Binding} {HL : BindingLaws b} {T : Type} {HT : Bindable T} {HD : Decoder T} {HR : @Ruled b T HT}.

(** What gin answers, by whether the request decodes and what it breaks. *)
Lemma ShouldBindJSON_cases raw :
  match Decode raw with
  | Err err => ShouldBindJSON (T := T) raw = Err err /\ as_Validation err = None
  | Ok req =>
      if acceptable req then ShouldBindJSON raw = Ok req
      else exists msg, ShouldBindJSON (T := T) raw = Err (EValidation msg (report req))
  end.
Proof using HL.
  destruct (Decode raw) as [req|err] eqn:Hd; [|by split; [apply bind_undecodable|eapply decode_error_kind]].
  pose proof (report_empty req) as Hr. destruct (acceptable req).
  - apply bind_valid; [done|]. by apply Hr.
  - apply bind_invalid; [done|]. intros Hnil. by apply Hr in Hnil.
Qed.

(** The fields of an error made from a report. *)
Lemma report_fields (req : T) name :
  is_Some (validationFields (report req) !! name) <-> (name, false) ∈ rules req.
Proof using Type.
  rewrite <- report_mem, list_elem_of_fmap. split.
  - intros [msg (fe & Hin & <- & _)%validationFields_lookup]; [by exists fe|apply report_NoDup].
  - intros (fe & -> & Hin). exists (validationMessage fe). apply validationFields_lookup; [apply report_NoDup|]. by exists fe.
Qed.

(** C27.  A body reaches the handler exactly if it decodes and meets, counted in
    characters, every rule its type states; nothing else happens then.  Any other
    body is answered with 400 and changes nothing: without field details if it does
    not decode, and otherwise with one message per offending field and for no other
    field, under the field's JSON name and about the first rule it breaks. *)
Theorem request_validation e raw c s r s' :
  run e (BindJSON c (ShouldBindJSON (T := T) raw)) s = (r, s') ->
  st_db s' = st_db s /\
  match Decode raw with
  | Ok req =>
      if acceptable req then r = inl req /\ s' = s
      else exists err, r = inr (AbortWithStatusJSON 400 (error_envelope c err) c) /\
        ClientMessage err = "Validation failed" /\
        (forall name, is_Some (Fields err !! name) <-> (name, false) ∈ rules req) /\
        (forall fe, fe ∈ report req -> Fields err !! fe_Field fe = Some (validationMessage fe))
  | Err _ => exists err, r = inr (AbortWithStatusJSON 400 (error_envelope c err) c) /\ Fields err = ∅
  end.
Proof using HL HR.
  intros Hrun. pose proof (ShouldBindJSON_cases raw) as Hb. destruct (Decode raw) as [req|err].
  - destruct (acceptable req); [rewrite Hb in Hrun; injection Hrun as <- <-; done|].
    destruct Hb as [msg Hb]. rewrite Hb in Hrun. unfold BindJSON in Hrun. simpl in Hrun. rewrite run_bind in Hrun.
    run_fail Hrun. split; [done|]. eexists. split; [reflexivity|]. split; [reflexivity|].
    split; [intros name; apply report_fields|].
    intros fe Hin. apply validationFields_lookup; [apply report_NoDup|]. by exists fe.
  - destruct Hb as [Hb Hk]. rewrite Hb in Hrun. unfold BindJSON in Hrun. rewrite Hk in Hrun.
    destruct (as_MaxBytes err); simpl in Hrun; rewrite run_bind in Hrun;
      run_fail Hrun; (split; [done|]); eexists; (split; [reflexivity|]); reflexivity.
Qed.
End binding.

(** ** Pagination windows *)

(** What a window that passed means: an absent number takes its default, any
    other is taken as it is.  The clamping of [Normalized] has nothing left to
    do. *)
Lemma accepted_window `{Binding} p :
  acceptable p = true ->
  Normalized p = mkPagination (if Page p =? 0 then DefaultPage else Page p) (if Limit p =? 0 then DefaultLimit else Limit p).
Proof.
  destruct p as [page limit]. unfold acceptable, rules, Pagination_ruled. simpl. rewrite andb_true_r.
  unfold unset_or. rewrite andb_true_iff, !orb_true_iff, andb_true_iff, !Z.eqb_eq, !Z.leb_le. intros [Hp Hl].
  unfold Normalized, DefaultPage, DefaultLimit, MaxLimit. cbn [Page Limit].
  destruct (Z.eqb_spec page 0), (Z.eqb_spec limit 0), (Z.ltb_spec page 1); try lia; cbn [Page Limit];
    (destruct (Z.ltb_spec limit 1); try lia; cbn [Page Limit]; rewrite Z.gtb_ltb);
    (destruct (Z.ltb_spec 100 limit); try lia; try done); by destruct (Z.ltb_spec 100 20).
Qed.

(** A query string is answered with a window of at most a hundred rows, or with
    400 and a message for each number out of range. *)
Theorem window_validation {b : Binding} {HL : BindingLaws b} {HD : Decoder Pagination} e raw c s r s' :
  run e (BindPagination c (ShouldBindJSON raw)) s = (r, s') ->
  st_db s' = st_db s /\
  match Decode raw with
  | Ok p =>
      if acceptable p then
        r = inl (mkPagination (if Page p =? 0 then DefaultPage else Page p)
                              (if Limit p =? 0 then DefaultLimit else Limit p))
      else exists err, r = inr (AbortWithStatusJSON 400 (error_envelope c err) c) /\
        forall name, is_Some (Fields err !! name) <-> (name, false) ∈ rules p
  | Err _ => exists err, r = inr (AbortWithStatusJSON 400 (error_envelope c err) c) /\ Fields err = window_fields
  end.
Proof.
  intros Hrun. pose proof (ShouldBindJSON_cases (T := Pagination) raw) as Hb.
  destruct (Decode raw) as [p|err]; [destruct (acceptable p) eqn:Ha|].
  - rewrite Hb in Hrun. injection Hrun as <- <-. by rewrite accepted_window.
  - destruct Hb as [msg Hb]. rewrite Hb in Hrun. unfold BindPagination in Hrun. simpl in Hrun. rewrite run_bind in Hrun.
    run_fail Hrun. split; [done|]. eexists. split; [reflexivity|]. intros name. apply report_fields.
  - destruct Hb as [Hb Hk]. rewrite Hb in Hrun. unfold BindPagination in Hrun. rewrite Hk in Hrun.
    simpl in Hrun. rewrite run_bind in Hrun.
    run_fail Hrun. split; [done|]. eexists. split; reflexivity.
Qed.

(** ** Passwords longer than bcrypt takes

    The tags promise that a password bcrypt would refuse is rejected with a message
    for its field.  They count characters, and bcrypt counts bytes. *)

(** bcrypt refuses a password of more than 72 bytes. *)
Class BcryptLimit (e : env) : Prop :=
  bcrypt_limit n pw cost : 72 < Z.of_nat (length pw) -> exists err, env_bcrypt_generate e n pw cost = Err err.

Definition too_long (pw : string) : Prop := 72 < Z.of_nat (length (to_bytes pw)).

(** A call that fails, for a reason the predicate allows, and changes nothing. *)
Definition refused_with {A} (P : error -> Prop) (s : state) (r : result A) (s' : state) : Prop :=
  exists err, r = Err err /\ (fault err \/ P err) /\ st_db s' = st_db s.

Section long_passwords.
Context (e : env) (svc : userService) {HU : UserRepositoryLaws e (userRepository svc)} {HB : BcryptLimit e}.

Lemma refused_fault {A} P s s1 msg err :
  st_db s1 = st_db s -> wp e (fail_internal (A := A) msg err) (refused_with P s) s1.
Proof using Type.
  intros Hs. apply wp_fail_internal. intros err' s' Hs' Hf. exists err'. split; [done|]. split; [by left|].
  by rewrite (st_db_proper _ _ Hs').
Qed.

Lemma refused_poll {A} P s c s1 : s1 ≡ s -> refused_with (A := A) P s (Err (ECtx c)) s1.
Proof using Type. intros Hs. exists (ECtx c). split; [done|]. split; [left; auto with go|by apply st_db_proper]. Qed.

Lemma refused_because {A} (P : error -> Prop) err s s1 :
  P err -> st_db s1 = st_db s -> refused_with (A := A) P s (Err err) s1.
Proof using Type. intros HP Hs. exists err. auto. Qed.

Lemma wp_Register_too_long ctx req s :
  too_long (rr_Password req) ->
  wp e (Register svc ctx req) (refused_with (fun err => err = EApp ErrUserAlreadyExists) s) s.
Proof using HU HB.
  intros Hlong. apply wp_poll; [intros c s'; apply refused_poll|]. intros s1 Hs1.
  wp_call (ur_FindByEmail_law (e := e)). intros [[row|]|err] s2 [Hs2 _]; rewrite Hs1 in Hs2;
    [apply wp_ret, refused_because; [done|exact (st_db_proper _ _ Hs2)]| |by apply refused_fault, (st_db_proper _ _ Hs2)].
  apply wp_bind, wp_perform. cbn [exec_op fst snd].
  destruct (bcrypt_limit (st_n s2) _ DefaultCost Hlong) as [err ->]. by apply refused_fault, (st_db_proper _ _ Hs2).
Qed.

Lemma wp_ChangePassword_too_long ctx uid req s :
  too_long (cp_NewPassword req) ->
  wp e (ChangePassword svc ctx uid req) (refused_with (fun err => err = EApp ErrInvalidCredentials) s) s.
Proof using HU HB.
  intros Hlong. apply wp_poll; [intros c s'; apply refused_poll|]. intros s1 Hs1.
  wp_call (ur_FindByID_law (e := e)). intros [[row|]|err] s2 [Hs2 _]; rewrite Hs1 in Hs2;
    [|apply wp_ret, refused_because; [done|exact (st_db_proper _ _ Hs2)]|by apply refused_fault, (st_db_proper _ _ Hs2)].
  apply wp_bind, wp_perform. cbn [exec_op fst snd].
  destruct (env_bcrypt_compare e _ _); [apply wp_ret, refused_because; [done|exact (st_db_proper _ _ Hs2)]|].
  apply wp_bind, wp_perform. cbn [exec_op fst snd].
  match goal with |- context [env_bcrypt_generate e ?n ?pw ?cost] => destruct (bcrypt_limit n pw cost Hlong) as [err ->] end.
  by apply refused_fault, (st_db_proper _ _ Hs2).
Qed.
End long_passwords.

(** Forty two-byte characters. *)
Definition accents : string := of_bytes (concat (replicate 40 (to_bytes "é"))).

Lemma fault_status err : fault err -> HTTPStatus err ∈ [500; 504; 408].
Proof. intros [(a & cause & ->)|[[] ->]]; apply (bool_decide_unpack _); vm_compute; exact I. Qed.

(** C36.  The ceiling of 72 on a password does not keep long passwords from bcrypt:
    one of forty accented letters is acceptable in a registration, and every
    acceptable registration whose password has more than 72 bytes, that one
    included, is answered with a fault of the service (or that the address is taken)
    instead of a validation error, and registers nobody. *)
Theorem password_ceiling_counts_characters {b : Binding} {HL : BindingLaws b} {HD : Decoder RegisterUserRequest} e u svc token cookies
    {HU : UserRepositoryLaws e (userRepository svc)} {HB : BcryptLimit e} :
  (forall email name, email_ok email = true -> between 1 100 name = true ->
     acceptable (mkRegisterReq email accents name) = true /\ too_long accents) /\
  (forall raw req c s o c' s',
     Decode raw = Ok req -> acceptable req = true -> too_long (rr_Password req) -> g_writes c = [] ->
     run e (handle_Register (mkUserHandler (user_service u svc) token cookies) (ShouldBindJSON raw) c) s = ((o, c'), s') ->
     status_of c' ∈ [500; 504; 408; 409] /\ st_db s' = st_db s).
Proof.
  split.
  - intros email name He Hn. split; [|reflexivity]. unfold acceptable, rules, RegisterUserRequest_ruled. simpl.
    rewrite He, Hn. reflexivity.
  - intros raw req c s o c' s' Hd Ha Hlong Hw Hrun. pose proof (ShouldBindJSON_cases (T := RegisterUserRequest) raw) as Hb.
    rewrite Hd, Ha in Hb. rewrite Hb in Hrun. unfold handle_Register in Hrun. rewrite run_bind in Hrun. cbn [BindJSON run] in Hrun.
    rewrite run_bind in Hrun. cbn [uh_userService us_Register user_service] in Hrun.
    pose proof (wp_Register_too_long e svc (g_ctx c) req s Hlong) as Hreg. unfold wp in Hreg.
    destruct (run e (Register svc (g_ctx c) req) s) as [r s1]. cbn [fst snd] in Hreg. destruct Hreg as (err & -> & Herr & Hdb).
    unfold fail_with in Hrun. rewrite run_bind in Hrun.
    destruct (run_Fail e c err s1) as (s2 & Heq & Hdb2 & _). rewrite Heq in Hrun. injection Hrun as <- <- <-.
    split; [|by rewrite Hdb2]. unfold status_of. simpl. rewrite Hw. simpl.
    destruct Herr as [Hf| ->]; [|apply (bool_decide_unpack _); vm_compute; exact I].
    apply fault_status in Hf. rewrite !elem_of_cons in *. tauto.
Qed.

(** ** Witnesses *)

(** Fields separated by bars stand for a JSON body. *)
#[export] Instance toy_decoder : Decoder RegisterUserRequest.
Proof.
  refine {| Decode := fun raw => match strings_Split raw "|" with
                                 | [email; password; name] => Ok (mkRegisterReq email password name)
                                 | _ => Err (EString 700 "unexpected end of JSON input")
                                 end |}.
  intros raw err. by repeat case_match; intros [= <-].
Defined.

Definition toy_binding : Binding := {|
  Email s := match strings_Split s "@" with [_; _] => true | _ => false end;
  ShouldBind T _ _ name raw :=
    match Decode raw with
    | Err err => Err err
    | Ok req =>
        let email s := match strings_Split s "@" with [_; _] => true | _ => false end in
        match field_errors email name (struct_fields req) with
        | [] => Ok req
        | fes => Err (EValidation "Key: validation failed" fes)
        end
    end
|}.

#[export] Instance toy_binding_laws : BindingLaws toy_binding.
Proof.
  split; intros T HT HD name raw x Hd; simpl; rewrite Hd; [done|..].
  - intros Hf. unfold Email in Hf. simpl in Hf. by rewrite Hf.
  - intros Hf. unfold Email in Hf |- *. simpl in Hf |- *.
    destruct (field_errors _ name (struct_fields x)) eqn:He; [done|]. by eexists.
Qed.

#[export] Instance good_bcrypt_limit : BcryptLimit good_env.
Proof. intros n pw cost Hpw. simpl. unfold toy_generate. destruct (Z.ltb_spec 72 (Z.of_nat (length pw))); [by eexists|lia]. Qed.

(** An address that is none and a short password. *)
Definition bad_body : string := "ann|horse|Ann".
Definition bad_run :=
  run good_env (BindJSON no_cookie (@ShouldBindJSON toy_binding RegisterUserRequest _ _ bad_body)) (start empty_tables).

Lemma request_validation_witness :
  exists err, bad_run.1 = inr (AbortWithStatusJSON 400 (error_envelope no_cookie err) no_cookie) /\
    is_Some (Fields err !! "email") /\ is_Some (Fields err !! "password") /\ Fields err !! "name" = None.
Proof.
  destruct (request_validation (b := toy_binding) (T := RegisterUserRequest) good_env bad_body no_cookie (start empty_tables)
    bad_run.1 bad_run.2 (surjective_pairing _)) as [_ Hr].
  destruct (Decode bad_body) as [req|] eqn:Hd; [|discriminate Hd].
  vm_compute in Hd. injection Hd as <-. destruct (acceptable _) eqn:Ha; [discriminate Ha|].
  destruct Hr as (err & Hr & _ & Hnames & _). exists err. split; [exact Hr|].
  split; [apply Hnames; vm_compute; apply list_elem_of_here|].
  split; [apply Hnames; vm_compute; apply list_elem_of_further, list_elem_of_here|].
  apply eq_None_not_Some. intros Hn%Hnames. revert Hn. apply (bool_decide_unpack _). vm_compute. exact I.
Defined.

(** Ann registers with forty accented letters. *)
Definition accents_body : string := "ann@example.org|" +:+ accents +:+ "|Ann".
Definition accents_run :=
  run good_env (handle_Register toy_user_handler (@ShouldBindJSON toy_binding RegisterUserRequest _ _ accents_body) no_cookie)
    (start empty_tables).

Lemma password_ceiling_counts_characters_witness :
  status_of accents_run.1.2 = 500 /\ st_db accents_run.2 = empty_tables.
Proof.
  split; [vm_compute; reflexivity|].
  destruct (password_ceiling_counts_characters (b := toy_binding) good_env toy_uuid toy_service
    (GenerateToken toy_csrf) toy_cookies) as [_ Hlong].
  refine (proj2 (Hlong accents_body (mkRegisterReq "ann@example.org" accents "Ann") no_cookie (start empty_tables)
    accents_run.1.1 accents_run.1.2 accents_run.2 _ _ _ _ _)); try (vm_compute; reflexivity).
Defined.
