(* ===== verification/Migrate.v ===== *)
(** * internal/platform/migrate.go: the schema's ledger of migrations

    Migrations are functions on the database inside a transaction.  The model's
    database adds to the tables of Gorm.v the part of the schema the migrations
    look at: the columns of the refresh-token table and the ledger.  What gorm
    does for each schema statement is a parameter with the contract [ddl_spec].
    The theorems: which migration lists are accepted; that a run applies the
    pending migrations in order and, where it fails, stops between two of them;
    that a second run changes nothing; and what a fresh database ends up with. *)

From stdpp Require Import pretty sorting.
From S2P Require Import Prelude GoStd Apperr Model Gorm Effects Repository RepositoryLaws Testbed Script.

(** ** The database a migration works on *)

Record schemaMigration := mkRow { sm_Version : Z; sm_Name : string; sm_AppliedAt : time }.

Record schema := mkSchema {
  sc_columns : list string;                  (* of refresh_token_entities *)
  sc_ledger : gmap Z schemaMigration         (* schema_migrations, by primary key *)
}.

Record database := mkDb { d_state : state; d_schema : schema }.

(** The schema statements of the file. *)
Inductive ddl : Type -> Type :=
  | AutoMigrateLedger : ddl unit                        (* AutoMigrate(&schemaMigration{}) *)
  | AutoMigrateEntities : ddl unit                      (* AutoMigrate(entities()...) *)
  | FindLedger : ddl (list schemaMigration)             (* Find(&rows) *)
  | CreateLedger (row : schemaMigration) : ddl unit     (* Create(&schemaMigration{...}) *)
  | ColumnTypes : ddl (list string)                     (* Migrator().ColumnTypes, names *)
  | ExecSql (query : string) : ddl unit.                (* Exec(query) *)

(** A computation on the database. *)
Abbreviation M := (Script database).

#[local] Open Scope mig_scope.

(** [Up] is nil for a migration that was listed without one. *)
Record Migration := mkMigration {
  Version : Z;
  Name : string;
  Up : option (M (result unit))
}.

(** [fmt.Errorf] without an error to wrap. *)
Definition new_error (msg : string) : prog error := let* a := perform OpAlloc in Ret (EString a msg).

Definition legacy_table : string := "refresh_token_entities".
Definition legacy_column : string := "token".
Definition drop_column : string := "ALTER TABLE " +:+ legacy_table +:+ " DROP COLUMN " +:+ legacy_column.

(** ** validateMigrations *)

Definition by_version (m n : Migration) : Prop := Version m <= Version n.

#[export] Instance by_version_dec : RelDecision by_version.
Proof. intros m n. unfold by_version. apply _. Defined.

(** The loop over the sorted copy; [list] runs alongside it, and [prev] is
    [sorted[i-1]]. *)
Fixpoint validate_from (prev : option Migration) (list sorted : list Migration) : prog (result unit) :=
  match list, sorted with
  | item :: list, migration :: sorted =>
      if Version migration <=? 0 then
        let* err := new_error ("migration " +:+ Quote (Name migration) +:+ " has version " +:+
          pretty (Version migration) +:+ "; versions start at 1") in Ret (Err err)
      else match Up migration with
      | None =>
          let* err := new_error ("migration " +:+ pretty (Version migration) +:+ " (" +:+
            Name migration +:+ ") has no Up function") in Ret (Err err)
      | Some _ =>
          let duplicate := match prev with
                           | Some p => if Version p =? Version migration then Some p else None
                           | None => None
                           end in
          match duplicate with
          | Some p =>
              let* err := new_error ("duplicate migration version " +:+ pretty (Version migration) +:+ " (" +:+
                Quote (Name p) +:+ " and " +:+ Quote (Name migration) +:+ ")") in Ret (Err err)
          | None =>
              if negb (Version item =? Version migration) then
                let* err := new_error ("migrations are out of order at version " +:+ pretty (Version migration) +:+
                  " (" +:+ Name migration +:+ "); list them ascending") in Ret (Err err)
              else validate_from (Some migration) list sorted
          end
      end
  | _, _ => Ret (Ok tt)
  end.

Definition validateMigrations (list : list Migration) : prog (result unit) :=
  validate_from None list (merge_sort by_version list).

(** ** Running migrations *)

Section migrate.
Context (e : env) (ddl_exec : forall A, nat -> ddl A -> schema -> result A * schema).

Definition exec {A} (q : ddl A) : M (result A) := fun d =>
  let '(r, sc) := ddl_exec A (st_n (d_state d)) q (d_schema d) in (r, mkDb (tick (d_state d)) sc).

Definition lift {A} (p : prog A) : M A := fun d =>
  let '(a, s) := run e p (d_state d) in (a, mkDb s (d_schema d)).

(** [db.Transaction(body)]: schema changes are rolled back like the others. *)
Definition db_Transaction (body : M (result unit)) : M (result unit) := fun d =>
  match env_begin e (st_n (d_state d)) with
  | Some err => (Err err, mkDb (tick (d_state d)) (d_schema d))
  | None =>
      let '(r, d1) := body (mkDb (open_tx Pool (tick (d_state d))) (d_schema d)) in
      let '(r', s2) := close_tx e Pool (d_state d) r (d_state d1) in
      (r', mkDb s2 (match r' with Ok _ => d_schema d1 | Err _ => d_schema d end))
  end.

(** [return fmt.Errorf(msg + ": %w", err)] *)
Definition fail_wrapped {A} (msg : string) (err : error) : M (result A) :=
  do* err := lift (Errorf msg err) in mret (Err err).

Definition hasColumn (column : string) : M (result bool) :=
  do! types := exec ColumnTypes onerr err => fail_wrapped "reading columns" err in
  mret (Ok (existsb (fun name => EqualFold name column) types)).

Definition dropLegacyRefreshTokenColumn : M (result unit) :=
  do! present := hasColumn legacy_column onerr err => mret (Err err) in
  if negb present then mret (Ok tt) else
  do! _ := exec (ExecSql drop_column)
    onerr err => fail_wrapped ("dropping legacy " +:+ legacy_table +:+ "." +:+ legacy_column) err in
  mret (Ok tt).

(** The seed runs on the handle of the transaction. *)
Definition seed (tx : conn) : prog (result unit) :=
  let! counters := perform (OpSql tx (Count TCounters any_row))
    onerr err => let* err := Errorf "counting counters" err in Ret (Err err) in
  let! _ := (if counters =? 0 then
               let* id := perform OpUUID in
               let! _ := perform (OpSql tx (Create TCounters (mkCounter id 0 time_zero time_zero)))
                 onerr err => let* err := Errorf "seeding counter" err in Ret (Err err) in
               Ret (Ok tt)
             else Ret (Ok tt)) onerr err => Ret (Err err) in
  let! messages := perform (OpSql tx (Count TMessages any_row))
    onerr err => let* err := Errorf "counting messages" err in Ret (Err err) in
  (if messages =? 0 then
     let* id := perform OpUUID in
     let! _ := perform (OpSql tx (Create TMessages
         (mkMessage id "default" "Welcome to Clean Go Vite React!" time_zero time_zero)))
       onerr err => let* err := Errorf "seeding message" err in Ret (Err err) in
     Ret (Ok tt)
   else Ret (Ok tt)).

Definition migrations : list Migration :=
  [ mkMigration 1 "create initial schema" (Some (exec AutoMigrateEntities));
    mkMigration 2 "seed demo rows" (Some (lift (seed InTx)));
    mkMigration 3 "drop the plaintext refresh token column" (Some dropLegacyRefreshTokenColumn) ].

(** A nil [Up] would panic when called; [validateMigrations] has ruled it out. *)
Definition applyMigration (migration : Migration) : M (result unit) :=
  do! _ := db_Transaction
      (match Up migration with
       | Some up =>
           do! _ := up onerr err => mret (Err err) in
           do* now := lift (perform OpNow) in
           exec (CreateLedger (mkRow (Version migration) (Name migration) now))
       | None => mret (Err (EString 701 "runtime error: invalid memory address or nil pointer dereference"))
       end)
    onerr err => fail_wrapped ("applying migration " +:+ pretty (Version migration) +:+ " (" +:+ Name migration +:+ ")") err in
  mret (Ok tt).

Definition appliedVersions : M (result (gset Z)) :=
  do! rows := exec FindLedger onerr err => fail_wrapped "reading migration ledger" err in
  mret (Ok (list_to_set (sm_Version <$> rows))).

Fixpoint apply_pending (applied : gset Z) (pending : list Migration) : M (result unit) :=
  match pending with
  | [] => mret (Ok tt)
  | migration :: rest =>
      if decide (Version migration ∈ applied) then apply_pending applied rest
      else do! _ := applyMigration migration onerr err => mret (Err err) in apply_pending applied rest
  end.

(** [Migrate], with the list [migrations()] returns. *)
Definition MigrateList (pending : list Migration) : M (result unit) :=
  do! _ := lift (validateMigrations pending) onerr err => mret (Err err) in
  do! _ := exec AutoMigrateLedger onerr err => fail_wrapped "creating migration ledger" err in
  do! applied := appliedVersions onerr err => mret (Err err) in
  apply_pending applied pending.

Definition Migrate : M (result unit) := MigrateList migrations.
End migrate.

(** ** Which lists are accepted *)

Lemma by_version_total m n : by_version m n \/ by_version n m.
Proof. unfold by_version. lia. Qed.

#[export] Instance by_version_Total : Total by_version := by_version_total.
#[export] Instance by_version_Transitive : Transitive by_version.
Proof. intros m n o. unfold by_version. lia. Qed.

(** A migration that can be run. *)
Definition runnable (m : Migration) : Prop := 0 < Version m /\ Up m <> None.

Lemma strongly_sorted_cons2 (R : Z -> Z -> Prop) `{!Transitive R} x y l :
  StronglySorted R (x :: y :: l) <-> R x y /\ StronglySorted R (y :: l).
Proof.
  split.
  - intros H. inversion_clear H as [|? ? Hs Hf]. inversion_clear Hf. done.
  - intros [Hxy Hs]. constructor; [done|]. constructor; [done|]. inversion_clear Hs as [|? ? _ Hf].
    eapply Forall_impl; [exact Hf|]. intros z Hz. by transitivity y.
Qed.

(** On a sorted list the loop accepts exactly strictly ascending versions. *)
Lemma validate_from_spec e sorted : forall list prev s,
  length list = length sorted ->
  StronglySorted Z.le (Version <$> option_list prev ++ sorted) ->
  (run e (validate_from prev list sorted) s).1 = Ok tt <->
  Forall runnable sorted /\ Version <$> list = Version <$> sorted /\
  StronglySorted Z.lt (Version <$> option_list prev ++ sorted).
Proof.
  induction sorted as [|m sorted IH]; intros [|item list] prev s; simpl; try discriminate.
  { intros _ _. split; [|done]. intros _. conj; [by constructor|done|].
    destruct prev; simpl; repeat constructor. }
  intros [= Hlen] Hsort.
  destruct (Z.leb_spec (Version m) 0) as [Hv|Hv].
  { split; [done|]. intros (Hf & _). apply Forall_cons in Hf as [[? _] _]. lia. }
  destruct (Up m) as [up|] eqn:Hup.
  2: { split; [done|]. intros (Hf & _). by apply Forall_cons in Hf as [[_ ?] _]. }
  assert (Hrun : runnable m) by (split; [done|by rewrite Hup]).
  assert (Hstep : (run e (if negb (Version item =? Version m)
      then let* err := new_error ("migrations are out of order at version " +:+ pretty (Version m) +:+
                  " (" +:+ Name m +:+ "); list them ascending") in Ret (Err err)
      else validate_from (Some m) list sorted) s).1 = Ok tt <->
    Forall runnable (m :: sorted) /\ Version item :: (Version <$> list) = Version m :: (Version <$> sorted) /\
    StronglySorted Z.lt (Version m :: (Version <$> sorted))).
  { destruct (Z.eqb_spec (Version item) (Version m)) as [Heq|Hne]; simpl.
    - rewrite (IH list (Some m) s Hlen) by (destruct prev; simpl in *; [by inversion Hsort|done]).
      simpl. rewrite Heq. split.
      + intros (? & ? & ?). conj; [by constructor|congruence|done].
      + intros ([_ ?]%Forall_cons & [= ?] & ?). by conj.
    - split; [done|]. intros (_ & [= ?] & _). congruence. }
  destruct prev as [p|]; simpl in *; [|exact Hstep].
  apply (strongly_sorted_cons2 Z.le) in Hsort as [Hle _].
  rewrite (strongly_sorted_cons2 Z.lt). destruct (Z.eqb_spec (Version p) (Version m)) as [Heq|Hne].
  - split; [done|]. intros (_ & _ & ? & _). lia.
  - rewrite Hstep. split; [intros (? & ? & ?)|intros (? & ? & ? & ?)]; conj; try done. lia.
Qed.

Lemma sorted_lt_le l : StronglySorted Z.lt l -> StronglySorted Z.le l.
Proof.
  induction 1 as [|x l _ IH Hf]; constructor; [done|]. eapply Forall_impl; [exact Hf|]. simpl. lia.
Qed.

(** A list of migrations is accepted exactly when it is listed in strictly
    ascending order of positive versions, each with a function to run. *)
Theorem validate_migrations_exact e list s :
  (run e (validateMigrations list) s).1 = Ok tt <->
  StronglySorted Z.lt (Version <$> list) /\ Forall runnable list.
Proof.
  unfold validateMigrations. set (sorted := merge_sort by_version list).
  assert (Hp : sorted ≡ₚ list) by apply merge_sort_Permutation.
  assert (Hs : StronglySorted Z.le (Version <$> sorted)).
  { assert (H : StronglySorted by_version sorted) by (apply StronglySorted_merge_sort; apply _).
    clear Hp. induction H as [|m l _ IH Hf]; constructor; [done|]. by apply Forall_fmap. }
  rewrite validate_from_spec; [|symmetry; by apply Permutation_length|exact Hs]. simpl. split.
  - intros (Hf & Heq & Hlt). rewrite Heq. split; [done|]. by rewrite <- Hp.
  - intros (Hlt & Hf).
    assert (Heq : Version <$> list = Version <$> sorted).
    { apply (StronglySorted_unique Z.le); [by apply sorted_lt_le|done|]. by rewrite Hp. }
    rewrite <- Heq. conj; [by rewrite Hp|done|done].
Qed.

(** ** The contract of the schema statements *)

(** The columns of the refresh-token entity. *)
Definition token_columns : list string :=
  ["id"; "user_id"; "token_hash"; "expires_at"; "created_at"; "updated_at"].

(** AutoMigrate creates what is missing and drops nothing; the ledger's version is
    its primary key; a statement of the ledger that fails has changed nothing.
    Nothing is asked of a schema change that fails: it is rolled back. *)
Definition ddl_spec {A} (q : ddl A) (sc : schema) : result A -> schema -> Prop :=
  match q in ddl A return result A -> schema -> Prop with
  | AutoMigrateLedger => fun _ sc' => sc' = sc
  | AutoMigrateEntities => fun r sc' => r = Ok tt ->
      sc_ledger sc' = sc_ledger sc /\ forall c, c ∈ sc_columns sc' <-> c ∈ sc_columns sc \/ c ∈ token_columns
  | FindLedger => fun r sc' => sc' = sc /\
      match r with Ok rows => list_to_set (sm_Version <$> rows) = dom (sc_ledger sc) | Err _ => True end
  | CreateLedger row => fun r sc' =>
      match r with
      | Ok _ => sc_ledger sc !! sm_Version row = None /\
                sc' = mkSchema (sc_columns sc) (<[sm_Version row := row]> (sc_ledger sc))
      | Err _ => sc' = sc
      end
  | ColumnTypes => fun r sc' => sc' = sc /\
      match r with Ok names => names = sc_columns sc | Err _ => True end
  | ExecSql query => fun r sc' => r = Ok tt -> query = drop_column ->
      sc_ledger sc' = sc_ledger sc /\
      forall c, c ∈ sc_columns sc' <-> c ∈ sc_columns sc /\ EqualFold c legacy_column = false
  end.

Class DdlLaws (ddl_exec : forall A, nat -> ddl A -> schema -> result A * schema) : Prop :=
  ddl_ok : forall A n (q : ddl A) sc, ddl_spec q sc (ddl_exec A n q sc).1 (ddl_exec A n q sc).2.

(** ** What a run does *)

(** What other connections see of the database. *)
Definition committed (d : database) : Tables * schema := (st_db (d_state d), d_schema d).

(** One migration, applied: its function succeeded on the database as it was, and
    what it left is there together with the ledger row, which was not there before. *)
Definition applied_one (m : Migration) (db db' : Tables * schema) : Prop :=
  exists up d1 d2 row, Up m = Some up /\ up d1 = (Ok tt, d2) /\
    st_work (d_state d1) = db.1 /\ d_schema d1 = db.2 /\
    sm_Version row = Version m /\ sm_Name row = Name m /\
    sc_ledger (d_schema d2) !! Version m = None /\
    db' = (st_work (d_state d2),
           mkSchema (sc_columns (d_schema d2)) (<[Version m := row]> (sc_ledger (d_schema d2)))).

Inductive applied : list Migration -> Tables * schema -> Tables * schema -> Prop :=
  | applied_nil db : applied [] db db
  | applied_cons m ms db1 db2 db3 : applied_one m db1 db2 -> applied ms db2 db3 -> applied (m :: ms) db1 db3.

(** A migration that works through the handle of its transaction and leaves the
    ledger to [applyMigration]. *)
Definition confined (m : Migration) : Prop :=
  forall up d r d', Up m = Some up -> up d = (r, d') ->
    st_db (d_state d') = st_db (d_state d) /\
    (r = Ok tt -> sc_ledger (d_schema d') = sc_ledger (d_schema d)).

Definition pending_in (sc : schema) (ms : list Migration) : list Migration :=
  filter (fun m => sc_ledger sc !! Version m = None) ms.

Section laws.
Context (e : env) (ddl_exec : forall A, nat -> ddl A -> schema -> result A * schema) {HD : DdlLaws ddl_exec}.

Lemma exec_cases {A} (q : ddl A) d :
  exists r sc, exec ddl_exec q d = (r, mkDb (tick (d_state d)) sc) /\ ddl_spec q (d_schema d) r sc.
Proof using HD.
  unfold exec. pose proof (ddl_ok A (st_n (d_state d)) q (d_schema d)) as H.
  destruct (ddl_exec A (st_n (d_state d)) q (d_schema d)) as [r sc]. by exists r, sc.
Qed.

Lemma fail_wrapped_cases {A} msg err d :
  exists err' s, fail_wrapped (A := A) e msg err d = (Err err', mkDb s (d_schema d)) /\ s ≡ d_state d.
Proof using Type. unfold fail_wrapped, mbind, lift, Errorf. simpl. by do 2 eexists. Qed.

Lemma applyMigration_spec m d r d' :
  confined m -> applyMigration e ddl_exec m d = (r, d') ->
  match r with
  | Ok _ => applied_one m (committed d) (committed d')
  | Err _ => committed d' = committed d
  end.
Proof using HD.
  intros Hc. unfold applyMigration, mbind at 1.
  destruct (db_Transaction _ _ _) as [rt dt] eqn:Ht. intros Hr.
  assert (Hmatch : match rt with
    | Ok _ => applied_one m (committed d) (committed dt) | Err _ => committed dt = committed d end).
  2: { destruct rt as [[]|err]; [by injection Hr as <- <-|].
       match type of Hr with fail_wrapped _ ?msg _ _ = _ =>
         destruct (fail_wrapped_cases (A := unit) msg err dt) as (err' & s & Heq & Hs) end.
       rewrite Heq in Hr. injection Hr as <- <-. unfold committed in *. simpl.
       by rewrite (st_db_proper _ _ Hs). }
  clear Hr r d'. revert Ht. unfold db_Transaction.
  destruct (env_begin e (st_n (d_state d))) as [err|]; [by intros [= <- <-]|].
  set (d1 := mkDb (open_tx Pool (tick (d_state d))) (d_schema d)).
  destruct (Up m) as [up|] eqn:Hup.
  2: { simpl. by intros [= <- <-]. }
  unfold mbind at 1. destruct (up d1) as [ru d2] eqn:Hrun.
  destruct (Hc _ _ _ _ Hup Hrun) as [Hdb Hled]. simpl in Hdb.
  destruct ru as [[]|err].
  2: { simpl. intros [= <- <-]. unfold committed. simpl. by rewrite Hdb. }
  unfold mbind, lift. simpl. set (d3 := mkDb (tick (d_state d2)) (d_schema d2)).
  destruct (exec_cases (CreateLedger (mkRow (Version m) (Name m) (env_now e (st_n (d_state d2))))) d3)
    as (rc & sc & -> & Hspec). simpl in Hspec.
  destruct rc as [[]|err]; simpl.
  - destruct Hspec as [Hnone ->].
    destruct (env_commit e _); intros [= <- <-]; unfold committed; simpl; [by rewrite Hdb|].
    exists up, d1, d2, (mkRow (Version m) (Name m) (env_now e (st_n (d_state d2)))). conj; done.
  - intros [= <- <-]. unfold committed. simpl. by rewrite Hdb.
Qed.

Lemma apply_pending_spec known ms : Forall confined ms -> forall d r d',
  apply_pending e ddl_exec known ms d = (r, d') ->
  exists ran rest, filter (fun m => Version m ∉ known) ms = ran ++ rest /\
    applied ran (committed d) (committed d') /\ (r = Ok tt -> rest = []).
Proof using HD.
  induction 1 as [|m ms Hm _ IH]; intros d r d'; simpl.
  { intros [= <- <-]. exists [], []. by conj; [|constructor|]. }
  rewrite filter_cons. destruct (decide (Version m ∈ known)) as [Hin|Hin].
  { rewrite decide_False by tauto. apply IH. }
  rewrite decide_True by done. unfold mbind.
  destruct (applyMigration e ddl_exec m d) as [[[]|err] d1] eqn:Happ;
    pose proof (applyMigration_spec m d _ _ Hm Happ) as Hspec; simpl in Hspec.
  - intros Hr. destruct (IH _ _ _ Hr) as (ran & rest & Hf & Hap & Hok).
    exists (m :: ran), rest. rewrite Hf. conj; [done|by econstructor|done].
  - intros [= <- <-]. eexists [], _. conj; [done| |done]. simpl. rewrite Hspec. constructor.
Qed.

Lemma validate_from_pure sorted : forall prev list s, (run e (validate_from prev list sorted) s).2 ≡ s.
Proof using Type.
  induction sorted as [|m sorted IH]; intros prev [|item list] s; try done. simpl.
  destruct (Version m <=? 0); [done|]. destruct (Up m); [|done].
  destruct prev as [p|]; [destruct (Version p =? Version m); [done|]|];
    (destruct (negb (Version item =? Version m)); [done|apply IH]).
Qed.

Lemma MigrateList_spec ms d r d' :
  Forall confined ms -> MigrateList e ddl_exec ms d = (r, d') ->
  exists ran rest, pending_in (d_schema d) ms = ran ++ rest /\
    applied ran (committed d) (committed d') /\ (r = Ok tt -> rest = []).
Proof using HD.
  intros Hms. unfold MigrateList, mbind at 1, lift.
  pose proof (validate_from_pure (merge_sort by_version ms) None ms (d_state d)) as Hv.
  fold (validateMigrations ms) in Hv.
  destruct (run e (validateMigrations ms) (d_state d)) as [rv s1]. simpl in Hv.
  assert (Hstop : forall err d1, committed d1 = committed d ->
    exists ran rest, pending_in (d_schema d) ms = ran ++ rest /\
      applied ran (committed d) (committed d1) /\ (Err err = Ok tt -> rest = [])).
  { intros err d1 Heq. eexists [], _. conj; [done|rewrite Heq; constructor|done]. }
  assert (Hs1 : committed (mkDb s1 (d_schema d)) = committed d)
    by (unfold committed; simpl; by rewrite (st_db_proper _ _ Hv)).
  destruct rv as [[]|err]; [|by intros [= <- <-]; apply Hstop].
  unfold mbind at 1.
  destruct (exec_cases AutoMigrateLedger (mkDb s1 (d_schema d))) as (r1 & sc1 & -> & Hsc1). simpl in Hsc1. subst sc1.
  destruct r1 as [[]|err].
  2: { match goal with |- fail_wrapped _ ?msg _ ?d0 = _ -> _ =>
         destruct (fail_wrapped_cases (A := unit) msg err d0) as (err' & s & -> & Hs) end.
       intros [= <- <-]. apply Hstop. rewrite <- Hs1. unfold committed. simpl. by rewrite (st_db_proper _ _ Hs). }
  unfold mbind at 1, appliedVersions, mbind at 1.
  match goal with |- context [exec _ FindLedger ?d0] =>
    destruct (exec_cases FindLedger d0) as (r2 & sc2 & -> & Hsc2 & Hrows) end. simpl in Hsc2, Hrows. subst sc2.
  destruct r2 as [rows|err].
  2: { match goal with |- context [fail_wrapped _ ?msg _ ?d0] =>
         destruct (fail_wrapped_cases (A := gset Z) msg err d0) as (err' & s & -> & Hs) end.
       intros [= <- <-]. apply Hstop. rewrite <- Hs1. unfold committed. simpl. by rewrite (st_db_proper _ _ Hs). }
  simpl. intros Hr. apply apply_pending_spec in Hr as (ran & rest & Hf & Hap & Hok); [|done].
  exists ran, rest. conj; [|by rewrite <- Hs1|done]. rewrite <- Hf. unfold pending_in.
  apply list_filter_iff. intros m. rewrite Hrows. by rewrite not_elem_of_dom.
Qed.

(** ** The migrations of the repository *)

Context {HG : GormLaws e}.

(** One seeded row each, where there was none. *)
Definition seeded (db db' : Tables) : Prop :=
  t_users db' = t_users db /\ t_tokens db' = t_tokens db /\
  (if decide (t_counters db = ∅) then exists id now, t_counters db' = {[id := mkCounter id 0 now now]}
   else t_counters db' = t_counters db) /\
  (if decide (t_messages db = ∅) then exists id now, t_messages db' =
     {[id := mkMessage id "default" "Welcome to Clean Go Vite React!" now now]}
   else t_messages db' = t_messages db).

Lemma size_select_all {R} (t : table R) db :
  (forall x, visible t x = true) -> (Z.of_nat (size (select_rows t any_row db)) =? 0) = bool_decide (rows t db = ∅).
Proof using Type.
  intros Hv. unfold select_rows. rewrite map_filter_id; [|intros k x _; simpl; by rewrite Hv].
  case_bool_decide as He; [by rewrite He|]. apply Z.eqb_neq. intros H0.
  apply He, map_size_empty_iff. lia.
Qed.

(** Counting a table and inserting one row if it is empty. *)
Definition seed_row {R} (t : table R) (mk : UUID -> R) (what msg : string) (tx : conn) : prog (result unit) :=
  let! n := perform (OpSql tx (Count t any_row))
    onerr err => let* err := Errorf what err in Ret (Err err) in
  (if n =? 0 then
     let* id := perform OpUUID in
     let! _ := perform (OpSql tx (Create t (mk id)))
       onerr err => let* err := Errorf msg err in Ret (Err err) in
     Ret (Ok tt)
   else Ret (Ok tt)).

Lemma wp_seed_row {R} (t : table R) mk what msg s :
  (forall x, visible t x = true) ->
  wp e (seed_row t mk what msg InTx) (fun r s' => st_db s' = st_db s /\ (r = Ok tt ->
    if decide (rows t (st_work s) = ∅)
    then exists id now, st_work s' = set_rows t {[pk t (mk id) := stamp_create t now (mk id)]} (st_work s)
    else st_work s' = st_work s)) s.
Proof using HG.
  intros Hv. unfold seed_row.
  wp_call (wp_sql InTx (Count t any_row)). intros r s1 (db1 & [-> Hr] & Hs1). simpl in Hs1.
  pose proof (st_db_proper _ _ Hs1) as Hdb1. pose proof (st_work_proper _ _ Hs1) as Hw1. simpl in Hdb1, Hw1.
  destruct r as [n|err]; [|apply wp_fail_wrapped; intros ? ? Hs; by rewrite (st_db_proper _ _ Hs)].
  subst n. change (view InTx s) with (st_work s). rewrite size_select_all by done.
  destruct (decide (rows t (st_work s) = ∅)) as [He|He];
    [rewrite bool_decide_true by done|rewrite bool_decide_false by done; by apply wp_ret].
  wp_quiet. intros id s2 Hs2.
  wp_call (wp_sql InTx (Create t (mk id))). intros r s3 (db3 & Hspec & Hs3). simpl in Hs3, Hspec.
  pose proof (st_db_proper _ _ Hs3) as Hdb3. pose proof (st_work_proper _ _ Hs3) as Hw3. simpl in Hdb3, Hw3.
  rewrite (st_db_proper _ _ Hs2), Hdb1 in Hdb3.
  destruct r as [x|err]; [apply wp_ret|apply wp_fail_wrapped; intros ? ? Hs; by rewrite (st_db_proper _ _ Hs)].
  split; [done|]. intros _. destruct Hspec as (_ & now & -> & ->). exists id, now.
  rewrite Hw3, (st_work_proper _ _ Hs2), Hw1, He. done.
Qed.

Lemma run_seed tx s : run e (seed tx) s = run e (
  let! _ := seed_row TCounters (fun id => mkCounter id 0 time_zero time_zero) "counting counters" "seeding counter" tx
    onerr err => Ret (Err err) in
  seed_row TMessages (fun id => mkMessage id "default" "Welcome to Clean Go Vite React!" time_zero time_zero)
    "counting messages" "seeding message" tx) s.
Proof using Type.
  unfold seed, seed_row. simpl. destruct (env_sql e _ _ _ _) as [[n|err] db1]; [|done]. simpl.
  destruct (n =? 0); [|done]. simpl. destruct (env_sql e _ _ _ _) as [[c|err] db2]; [|done]. done.
Qed.

Lemma wp_seed s :
  wp e (seed InTx) (fun r s' => st_db s' = st_db s /\ (r = Ok tt -> seeded (st_work s) (st_work s'))) s.
Proof using HG.
  unfold wp. rewrite run_seed.
  enough (Hwp : wp e (let! _ := seed_row TCounters (fun id => mkCounter id 0 time_zero time_zero)
        "counting counters" "seeding counter" InTx onerr err => Ret (Err err) in
      seed_row TMessages (fun id => mkMessage id "default" "Welcome to Clean Go Vite React!" time_zero time_zero)
        "counting messages" "seeding message" InTx)
    (fun r s' => st_db s' = st_db s /\ (r = Ok tt -> seeded (st_work s) (st_work s'))) s) by exact Hwp.
  wp_call (wp_seed_row TCounters); [done|]. intros r s1 [Hdb1 H1].
  destruct r as [[]|err]; [|by apply wp_ret]. specialize (H1 eq_refl).
  eapply wp_mono; [by apply (wp_seed_row TMessages)|]. intros r s2 [Hdb2 H2]. split; [congruence|].
  intros Hr. specialize (H2 Hr). clear Hr. unfold seeded. simpl in H1, H2.
  assert (H12 : t_users (st_work s1) = t_users (st_work s) /\ t_tokens (st_work s1) = t_tokens (st_work s) /\
                t_messages (st_work s1) = t_messages (st_work s)).
  { destruct (decide (t_counters (st_work s) = ∅)); [destruct H1 as (? & ? & ->)|rewrite H1]; done. }
  destruct H12 as (Hu & Htk & Hm). rewrite Hm in H2.
  destruct (decide (t_messages (st_work s) = ∅)); [destruct H2 as (id2 & now2 & ->)|rewrite H2]; simpl;
    (conj; [done|done| |]); try done;
    try (destruct (decide (t_counters (st_work s) = ∅)); [destruct H1 as (id1 & now1 & ->); by exists id1, now1|by rewrite H1]);
    by exists id2, now2.
Qed.
Lemma exec_state {A} (q : ddl A) d : d_state (exec ddl_exec q d).2 = tick (d_state d).
Proof using Type. unfold exec. by destruct (ddl_exec A _ q _). Qed.

Lemma drop_spec d r d' :
  dropLegacyRefreshTokenColumn e ddl_exec d = (r, d') ->
  d_state d' ≡ d_state d /\
  (r = Ok tt -> sc_ledger (d_schema d') = sc_ledger (d_schema d) /\
    forall c, c ∈ sc_columns (d_schema d') <-> c ∈ sc_columns (d_schema d) /\ EqualFold c legacy_column = false).
Proof using HD.
  unfold dropLegacyRefreshTokenColumn, hasColumn, mbind at 1, mbind at 1.
  destruct (exec_cases ColumnTypes d) as (r1 & sc1 & -> & Hsc & Hnames). simpl in Hsc, Hnames. subst sc1.
  destruct r1 as [names|err].
  2: { match goal with |- context [fail_wrapped _ ?msg _ ?d0] =>
         destruct (fail_wrapped_cases (A := bool) msg err d0) as (err' & s & -> & Hs) end.
       intros [= <- <-]. done. }
  subst names. simpl. destruct (existsb _ _) eqn:Hex; simpl.
  - unfold mbind.
    destruct (exec_cases (ExecSql drop_column) (mkDb (tick (d_state d)) (d_schema d))) as (r2 & sc2 & -> & Hsc2).
    simpl in Hsc2. destruct r2 as [[]|err].
    + intros [= <- <-]. split; [done|]. intros _. by apply Hsc2.
    + match goal with |- context [fail_wrapped _ ?msg _ ?d0] =>
        destruct (fail_wrapped_cases (A := unit) msg err d0) as (err' & s & -> & Hs) end.
      intros [= <- <-]. done.
  - intros [= <- <-]. split; [done|]. intros _. split; [done|]. intros c. split; [|tauto]. intros Hc. split; [done|].
    apply not_true_is_false. intros Heq.
    assert (existsb (fun name => EqualFold name legacy_column) (sc_columns (d_schema d)) = true); [|congruence].
    apply existsb_exists. exists c. by rewrite <- list_elem_of_In.
Qed.

Lemma lift_eq {A} (p : prog A) d : lift e p d = ((run e p (d_state d)).1, mkDb (run e p (d_state d)).2 (d_schema d)).
Proof using Type. unfold lift. by destruct (run e p (d_state d)). Qed.

Lemma migrations_confined : Forall confined (migrations e ddl_exec).
Proof using HD HG.
  unfold migrations. rewrite !Forall_cons. conj; [intros up d r d' [= <-] Hr..|by constructor].
  - destruct (exec_cases AutoMigrateEntities d) as (r1 & sc1 & Heq & Hsc). rewrite Heq in Hr. injection Hr as <- <-.
    split; [done|]. intros Hok. by apply Hsc.
  - rewrite lift_eq in Hr. injection Hr as <- <-. by split; [apply (wp_seed (d_state d))|].
  - destruct (drop_spec d r d' Hr) as [Hs Hok]. split; [exact (st_db_proper _ _ Hs)|]. intros Hr'. by apply Hok.
Qed.

Lemma applied_nil_inv db db' : applied [] db db' -> db' = db.
Proof using Type. by inversion_clear 1. Qed.

Lemma applied_ledger ms db db' :
  Forall confined ms -> applied ms db db' ->
  dom (sc_ledger db'.2) = dom (sc_ledger db.2) ∪ list_to_set (Version <$> ms).
Proof using Type.
  intros Hms. induction 1 as [db|m ms db1 db2 db3 (up & d1 & d2 & row & Hup & Hrun & _ & Hsc & _ & _ & _ & ->) _ IH];
    simpl; [by rewrite union_empty_r_L|].
  inversion_clear Hms as [|? ? Hm Hms']. rewrite IH by done. simpl.
  destruct (Hm _ _ _ _ Hup Hrun) as [_ Hled]. rewrite Hled, Hsc, dom_insert_L by done.
  by rewrite (union_comm_L {[Version m]}), <- union_assoc_L.
Qed.

Lemma Forall_pending P sc ms : Forall P ms -> Forall P (pending_in sc ms).
Proof using Type.
  rewrite !Forall_forall. intros H m Hm. apply H. by apply list_elem_of_filter in Hm as [_ Hm].
Qed.

(** C30.  A run of Migrate applies, in order, an initial part of the migrations that
    are missing from the ledger, each together with its ledger row, and all of them
    if it succeeds; where it fails, the database is as the last complete one left it. *)
Theorem migrate_stops_between_migrations d r d' :
  Migrate e ddl_exec d = (r, d') ->
  exists ran rest, pending_in (d_schema d) (migrations e ddl_exec) = ran ++ rest /\
    applied ran (committed d) (committed d') /\ (r = Ok tt -> rest = []).
Proof using HD HG. apply MigrateList_spec, migrations_confined. Qed.

(** Once Migrate has succeeded, running it again changes nothing. *)
Theorem migrate_idempotent d d1 r d2 :
  Migrate e ddl_exec d = (Ok tt, d1) -> Migrate e ddl_exec d1 = (r, d2) -> committed d2 = committed d1.
Proof using HD HG.
  intros H1 H2. pose proof migrations_confined as Hc.
  apply MigrateList_spec in H1 as (ran & rest & Hp & Hap & Hrest); [|done].
  rewrite (Hrest eq_refl), app_nil_r in Hp. subst ran.
  apply MigrateList_spec in H2 as (ran & rest2 & Hp2 & Hap2 & _); [|done].
  enough (Hnil : pending_in (d_schema d1) (migrations e ddl_exec) = []).
  { rewrite Hnil in Hp2. symmetry in Hp2. apply app_eq_nil in Hp2 as [-> _]. by apply applied_nil_inv in Hap2. }
  apply applied_ledger in Hap; [|by apply Forall_pending]. simpl in Hap.
  destruct (pending_in (d_schema d1) (migrations e ddl_exec)) as [|m ms] eqn:Hpend; [done|exfalso].
  assert (Hin : m ∈ pending_in (d_schema d1) (migrations e ddl_exec)) by (rewrite Hpend; apply elem_of_cons; by left).
  apply list_elem_of_filter in Hin as [Hnone Hm]. apply not_elem_of_dom in Hnone. apply Hnone. rewrite Hap.
  destruct (sc_ledger (d_schema d) !! Version m) as [row|] eqn:Hrow.
  - apply elem_of_union_l, elem_of_dom. by exists row.
  - apply elem_of_union_r, elem_of_list_to_set, list_elem_of_fmap. exists m. split; [done|].
    by apply list_elem_of_filter.
Qed.

#[local] Opaque seed EqualFold.

(** On a database without a ledger a successful run records the three
    migrations, leaves no column for plaintext refresh tokens and all the columns
    of the entity, and seeds one counter at zero and one default message where
    there were none; accounts and sessions are untouched. *)
Theorem migrate_fresh_database d d' :
  sc_ledger (d_schema d) = ∅ -> Migrate e ddl_exec d = (Ok tt, d') ->
  dom (sc_ledger (d_schema d')) = {[1; 2; 3]} /\
  (forall c, c ∈ sc_columns (d_schema d') -> EqualFold c legacy_column = false) /\
  (forall c, c ∈ token_columns -> c ∈ sc_columns (d_schema d')) /\
  seeded (st_db (d_state d)) (st_db (d_state d')).
Proof using HD HG.
  intros Hempty Hr. pose proof migrations_confined as Hc.
  apply MigrateList_spec in Hr as (ran & rest & Hp & Hap & Hrest); [|done].
  rewrite (Hrest eq_refl), app_nil_r in Hp. subst ran.
  assert (Hall : pending_in (d_schema d) (migrations e ddl_exec) = migrations e ddl_exec)
    by (unfold pending_in; rewrite Hempty; reflexivity).
  rewrite Hall in Hap. clear Hall.
  pose proof (applied_ledger _ _ _ Hc Hap) as Hled. simpl in Hled. rewrite Hempty, dom_empty_L in Hled.
  inversion Hap as [|m1 ms db1 db2 db3 H1 Hap1 E1 E2 E3]; subst. clear Hap.
  inversion Hap1 as [|m1 ms db1 db4 db3 H2 Hap2 E1 E2 E3]; subst. clear Hap1.
  inversion Hap2 as [|m1 ms db1 db5 db3 H3 Hap3 E1 E2 E3]; subst. clear Hap2.
  inversion Hap3; subst. clear Hap3.
  destruct H1 as (up & a1 & b1 & row1 & [= <-] & Hr1 & Hw1 & Hsc1 & _ & _ & _ & ->).
  destruct H2 as (up & a2 & b2 & row2 & [= <-] & Hr2 & Hw2 & Hsc2 & _ & _ & _ & ->).
  destruct H3 as (up & a3 & b3 & row3 & [= <-] & Hr3 & Hw3 & Hsc3 & _ & _ & _ & Hdb). simpl in *.
  injection Hdb as Hdb Hsc.
  destruct (exec_cases AutoMigrateEntities a1) as (r1 & sc1 & Heq & Hcols1). rewrite Heq in Hr1. injection Hr1 as -> <-.
  destruct (Hcols1 eq_refl) as [_ Hcols]. clear Hcols1 Heq.
  rewrite lift_eq in Hr2. injection Hr2 as Hseed <-.
  destruct (wp_seed (d_state a2)) as [_ Hseeded]. specialize (Hseeded Hseed).
  destruct (drop_spec a3 _ _ Hr3) as [Hs3 Hcols3]. specialize (Hcols3 eq_refl) as [_ Hcols3].
  simpl in *. rewrite Hsc. simpl. rewrite Hsc in Hled. simpl in Hled.
  conj.
  - rewrite Hled. set_solver.
  - intros c Hc'. apply Hcols3 in Hc' as [_ Hfold]. exact Hfold.
  - intros c Hc'. apply Hcols3. rewrite Hsc3. simpl. rewrite Hsc2. simpl. split; [apply Hcols; by right|].
    unfold token_columns in Hc'.
    repeat (apply elem_of_cons in Hc' as [->|Hc']; [vm_compute; reflexivity|]). by apply not_elem_of_nil in Hc'.
  - rewrite Hdb, (st_work_proper _ _ Hs3), Hw3. simpl. rewrite Hw2 in Hseeded. simpl in Hseeded.
    by rewrite Hw1 in Hseeded.
Qed.
End laws.

(** ** Witnesses: an in-memory schema *)

Definition toy_ddl A (n : nat) (q : ddl A) (sc : schema) : result A * schema :=
  match q in ddl A return result A * schema with
  | AutoMigrateLedger => (Ok tt, sc)
  | AutoMigrateEntities =>
      (Ok tt, mkSchema (sc_columns sc ++ filter (fun c => c ∉ sc_columns sc) token_columns) (sc_ledger sc))
  | FindLedger =>
      (Ok ((fun kr => mkRow kr.1 (sm_Name kr.2) (sm_AppliedAt kr.2)) <$> map_to_list (sc_ledger sc)), sc)
  | CreateLedger row =>
      match sc_ledger sc !! sm_Version row with
      | Some _ => (Err ErrDuplicatedKey, sc)
      | None => (Ok tt, mkSchema (sc_columns sc) (<[sm_Version row := row]> (sc_ledger sc)))
      end
  | ColumnTypes => (Ok (sc_columns sc), sc)
  | ExecSql query =>
      if String.eqb query drop_column
      then (Ok tt, mkSchema (filter (fun c => EqualFold c legacy_column = false) (sc_columns sc)) (sc_ledger sc))
      else (Err (EString 702 "SQL logic error"), sc)
  end.

#[export] Instance toy_ddl_laws : DdlLaws toy_ddl.
Proof.
  intros A n q sc. destruct q; simpl.
  - done.
  - intros _. split; [done|]. intros c. rewrite elem_of_app, list_elem_of_filter.
    destruct (decide (c ∈ sc_columns sc)) as [Hin|Hout]; tauto.
  - split; [done|]. rewrite <- list_fmap_compose. unfold compose. simpl.
    apply set_eq. intros k. rewrite elem_of_list_to_set, list_elem_of_fmap, elem_of_dom. split.
    + intros ([k' row] & -> & Hin%elem_of_map_to_list). by exists row.
    + intros [row Hrow]. exists (k, row). split; [done|]. by apply elem_of_map_to_list.
  - by destruct (sc_ledger sc !! sm_Version row) eqn:Hrow.
  - done.
  - destruct (String.eqb_spec query drop_column); [|done]. simpl. intros _ _. split; [done|]. intros c.
    rewrite list_elem_of_filter. tauto.
Defined.

(** A database from before the ledger, with the plaintext column. *)
Definition legacy_db : database := mkDb (start empty_tables) (mkSchema ("token" :: token_columns) ∅).

Definition migrated : result unit * database := Eval vm_compute in Migrate good_env toy_ddl legacy_db.
Lemma migrated_eq : Migrate good_env toy_ddl legacy_db = (Ok tt, migrated.2).
Proof. vm_compute. reflexivity. Qed.

Lemma migrate_fresh_database_witness :
  sc_columns (d_schema migrated.2) = token_columns /\
  dom (sc_ledger (d_schema migrated.2)) = {[1; 2; 3]} /\
  seeded empty_tables (st_db (d_state migrated.2)).
Proof.
  destruct (migrate_fresh_database good_env toy_ddl legacy_db _ eq_refl migrated_eq) as (Hdom & _ & _ & Hseed).
  split; [vm_compute; reflexivity|]. exact (conj Hdom Hseed).
Defined.

Lemma migrate_idempotent_witness :
  is_ok (Migrate good_env toy_ddl migrated.2).1 = true /\
  committed (Migrate good_env toy_ddl migrated.2).2 = committed migrated.2.
Proof.
  split; [vm_compute; reflexivity|].
  exact (migrate_idempotent good_env toy_ddl legacy_db migrated.2 _ _ migrated_eq (surjective_pairing _)).
Defined.

(** The seed's first statement fails: the schema is created and recorded, no more. *)
Definition flaky_env : env := toy_env never (fun n => if (n =? 8)%nat then Some (ECtx DeadlineExceeded) else None).
#[export] Instance flaky_gorm_laws : GormLaws flaky_env.
Proof. apply toy_gorm_laws. intros n err. destruct (n =? 8)%nat; [|done]. by intros [= <-]. Defined.


Definition interrupted : result unit * database := Eval vm_compute in Migrate flaky_env toy_ddl legacy_db.
Lemma interrupted_eq : Migrate flaky_env toy_ddl legacy_db = (interrupted.1, interrupted.2).
Proof. vm_compute. reflexivity. Qed.

Lemma migrate_stops_between_migrations_witness :
  is_ok interrupted.1 = false /\ dom (sc_ledger (d_schema interrupted.2)) = {[1]} /\
  exists ran rest, pending_in (d_schema legacy_db) (migrations flaky_env toy_ddl) = ran ++ rest /\
    applied ran (committed legacy_db) (committed interrupted.2).
Proof.
  split; [reflexivity|]. split; [vm_compute; reflexivity|].
  destruct (migrate_stops_between_migrations flaky_env toy_ddl legacy_db _ _ interrupted_eq)
    as (ran & rest & Hp & Hap & _).
  exists ran, rest. split; assumption.
Defined.
