(* ===== verification/Config.v ===== *)
(** * internal/platform: configuration from the environment, and its validation

    [NewConfig] reads the environment and never fails; [Validate] reports every
    problem.  [os.Getenv] is a function from names to values, empty when unset.
    Floating-point numbers, [net.ParseIP] and the order in which Go visits a map
    are parameters; [strconv.Atoi] and [time.ParseDuration] are executable.  The
    theorems: exactly which configurations are accepted, that the defaults are, and
    what [Validate] lets through. *)

From stdpp Require Import pretty.
From S2P Require Import Prelude GoStd.

(** ** strconv.Atoi and time.ParseDuration *)

Definition digit_val (b : ascii) : option Z :=
  let v := byte_val b - 0x30 in if (0 <=? v) && (v <=? 9) then Some v else None.

Fixpoint decimal (bs : bytes) (acc : Z) : option Z :=
  match bs with
  | [] => Some acc
  | b :: rest => match digit_val b with Some d => decimal rest (acc * 10 + d) | None => None end
  end.

Definition signed (bs : bytes) : bool * bytes :=
  match bs with
  | b :: rest => if Ascii.eqb b "-" then (true, rest) else if Ascii.eqb b "+" then (false, rest) else (false, bs)
  | [] => (false, [])
  end.

Definition strconv_Atoi (s : string) : option Z :=
  let '(neg, bs) := signed (to_bytes s) in
  match bs with
  | [] => None
  | _ =>
      match decimal bs 0 with
      | Some n =>
          let z := if neg : bool then - n else n in
          if (int64_min <=? z) && (z <=? int64_max) then Some z else None
      | None => None
      end
  end.

Module Duration.
(** [leadingInt]: the leading digits, unless they exceed 2^63. *)
Fixpoint leadingInt (bs : bytes) (x : Z) : option (Z * bytes) :=
  match bs with
  | b :: rest =>
      match digit_val b with
      | Some d =>
          if x >? 2 ^ 63 / 10 then None
          else let x := x * 10 + d in if x >? 2 ^ 63 then None else leadingInt rest x
      | None => Some (x, bs)
      end
  | [] => Some (x, [])
  end.

(** [leadingFraction]: digits that would overflow are skipped. *)
Fixpoint leadingFraction (bs : bytes) (x scale : Z) (overflow : bool) : Z * Z * bytes :=
  match bs with
  | b :: rest =>
      match digit_val b with
      | Some d =>
          if overflow then leadingFraction rest x scale true
          else if x >? (2 ^ 63 - 1) / 10 then leadingFraction rest x scale true
          else let y := x * 10 + d in
               if y >? 2 ^ 63 then leadingFraction rest x scale true
               else leadingFraction rest y (scale * 10) false
      | None => (x, scale, bs)
      end
  | [] => (x, scale, [])
  end.

Definition starts_number (b : ascii) : bool :=
  Ascii.eqb b "." || match digit_val b with Some _ => true | None => false end.

Fixpoint unit_name (bs : bytes) : bytes * bytes :=
  match bs with
  | b :: rest => if starts_number b then ([], bs) else let '(u, rest) := unit_name rest in (b :: u, rest)
  | [] => ([], [])
  end.

(** [unitMap], with both spellings of the micro sign, U+00B5 and U+03BC. *)
Definition unit_of (u : string) : option Z :=
  if String.eqb u "ns" then Some 1
  else if String.eqb u "us" || String.eqb u "µs" || String.eqb u "μs" then Some (10 ^ 3)
  else if String.eqb u "ms" then Some Millisecond else if String.eqb u "s" then Some Second
  else if String.eqb u "m" then Some Minute else if String.eqb u "h" then Some Hour else None.

(** One iteration: a number and its unit. *)
Definition element (bs : bytes) : option (Z * bytes) :=
  match bs with
  | [] => None
  | b :: _ =>
      if negb (starts_number b) then None else
      match leadingInt bs 0 with
      | None => None
      | Some (v, bs1) =>
          let pre := negb (length bs1 =? length bs)%nat in
          let '(f, scale, bs2, post) :=
            match bs1 with
            | b :: rest => if Ascii.eqb b "." then
                let '(f, scale, bs2) := leadingFraction rest 0 1 false in
                (f, scale, bs2, negb (length bs2 =? length rest)%nat)
              else (0, 1, bs1, false)
            | [] => (0, 1, bs1, false)
            end in
          if negb pre && negb post then None else
          let '(u, bs3) := unit_name bs2 in
          match unit_of (of_bytes u) with
          | None => None
          | Some unit =>
              if v >? 2 ^ 63 / unit then None else
              let v := v * unit in
              let v := if f >? 0 then v + f * unit / scale else v in
              if v >? 2 ^ 63 then None else Some (v, bs3)
          end
      end
  end.

(** Each iteration consumes a byte, so the length of the text is enough fuel. *)
Fixpoint elements (fuel : nat) (bs : bytes) (d : Z) : option Z :=
  match bs, fuel with
  | [], _ => Some d
  | _, O => None
  | _, S fuel =>
      match element bs with
      | None => None
      | Some (v, bs) =>
          let d := (d + v) mod 2 ^ 64 in if d >? 2 ^ 63 then None else elements fuel bs d
      end
  end.

Definition Parse (s : string) : option duration :=
  let '(neg, bs) := signed (to_bytes s) in
  if String.eqb (of_bytes bs) "0" then Some 0 else
  match bs with
  | [] => None
  | _ =>
      match elements (length bs) bs 0 with
      | None => None
      | Some d => if neg then Some (- d) else if d >? 2 ^ 63 - 1 then None else Some d
      end
  end.
End Duration.

(** ** Config *)

(** float64, as far as the file uses it. *)
Record Float64 := mkFloat64 {
  float : Type;
  ParseFloat : string -> option float;
  float_lit : string -> float;                (* a literal of the source *)
  float_lt : float -> float -> bool;
  float_v : float -> string                   (* the verb %v *)
}.

Section config.
Context (F : Float64).

Record ServerConfig := mkServer {
  Port : Z; Host : string; ReadTimeout : duration; WriteTimeout : duration;
  IdleTimeout : duration; ShutdownTimeout : duration; RequestTimeout : duration
}.

(** [Gorm], the handle a test may inject, is no part of the configuration that is
    read or validated. *)
Record DatabaseConfig := mkDatabase {
  Type_ : string; DSN : string; MaxOpenConns : Z; MaxIdleConns : Z;
  ConnMaxLifetime : duration; LogLevel : string; AutoMigrate : bool
}.

Record AuthConfig := mkAuthConfig {
  JWTAccessSecret : string; JWTRefreshSecret : string; CSRFSecret : string; DevMode : bool;
  AllowedOrigins : list string; AccessTokenTTL : duration; RefreshTokenTTL : duration;
  CSRFTokenTTL : duration; RefreshTokenPurgeInterval : duration
}.

Record LogConfig := mkLog { Level : string; Format : string }.

Record SecurityConfig := mkSecurity {
  RateLimitEnabled : bool; RateLimitRPS : float F; RateLimitBurst : Z;
  AuthRateLimitRPS : float F; AuthRateLimitBurst : Z; MaxRequestBody : Z; TrustedProxies : list string
}.

Record TracingConfig := mkTracing {
  Enabled : bool; ServiceName : string; ServiceVersion : string; Environment : string;
  Exporter : string; Endpoint : string; Insecure : bool; SampleRatio : float F
}.

Record ObservabilityConfig := mkObservability {
  MetricsEnabled : bool; PprofEnabled : bool; AdminHost : string; AdminPort : Z
}.

Record Config := mkConfig {
  Server : ServerConfig; Database : DatabaseConfig; Auth : AuthConfig; Log : LogConfig;
  Security : SecurityConfig; Tracing : TracingConfig; Observability : ObservabilityConfig
}.

(** ** Reading the environment *)

Context (Getenv : string -> string).

Definition getEnv (key defaultValue : string) : string :=
  let value := Getenv key in if negb (String.eqb value "") then value else defaultValue.

(** [getEnvInt], [getEnvFloat] and [getEnvDuration] differ in their parser. *)
Definition getEnvParsed {A} (parse : string -> option A) (key : string) (defaultValue : A) : A :=
  let value := Getenv key in
  if negb (String.eqb value "") then
    match parse value with Some v => v | None => defaultValue end
  else defaultValue.

Definition getEnvInt : string -> Z -> Z := getEnvParsed strconv_Atoi.
Definition getEnvFloat : string -> float F -> float F := getEnvParsed (ParseFloat F).
Definition getEnvDuration : string -> duration -> duration := getEnvParsed Duration.Parse.

Definition getEnvBool (key : string) (defaultValue : bool) : bool :=
  let value := Getenv key in
  if negb (String.eqb value "")
  then String.eqb value "true" || String.eqb value "1" || String.eqb value "yes" else defaultValue.

Definition parseCSVEnv (key defaultValue : string) : list string :=
  let value := Getenv key in
  if negb (String.eqb value "") then TrimSpace <$> strings_Split value ","
  else if negb (String.eqb defaultValue "") then [defaultValue] else [].

Definition defaultLogLevel (devMode : bool) : string := if devMode then "debug" else "info".
Definition defaultLogFormat (devMode : bool) : string := if devMode then "text" else "json".
Definition defaultEnvironment (devMode : bool) : string := if devMode then "development" else "production".
Definition defaultDatabaseLogLevel (devMode : bool) : string := if devMode then "info" else "warn".

Definition NewConfig : Config :=
  let devMode := getEnvBool "DEV_MODE" false in
  mkConfig
    (mkServer (getEnvInt "SERVER_PORT" 8080) (getEnv "SERVER_HOST" "")
      (getEnvDuration "SERVER_READ_TIMEOUT" (15 * Second)) (getEnvDuration "SERVER_WRITE_TIMEOUT" (15 * Second))
      (getEnvDuration "SERVER_IDLE_TIMEOUT" (60 * Second)) (getEnvDuration "SERVER_SHUTDOWN_TIMEOUT" (10 * Second))
      (getEnvDuration "SERVER_REQUEST_TIMEOUT" (10 * Second)))
    (mkDatabase (getEnv "DATABASE_TYPE" "sqlite") (getEnv "DATABASE_DSN" "dev.db")
      (getEnvInt "DATABASE_MAX_OPEN_CONNS" 25) (getEnvInt "DATABASE_MAX_IDLE_CONNS" 5)
      (getEnvDuration "DATABASE_CONN_MAX_LIFETIME" (5 * Minute))
      (getEnv "DATABASE_LOG_LEVEL" (defaultDatabaseLogLevel devMode)) (getEnvBool "DATABASE_AUTO_MIGRATE" true))
    (mkAuthConfig (Getenv "JWT_ACCESS_SECRET") (Getenv "JWT_REFRESH_SECRET") (Getenv "CSRF_SECRET") devMode
      (parseCSVEnv "ALLOWED_ORIGINS" "http://localhost:5173")
      (getEnvDuration "JWT_ACCESS_TTL" (15 * Minute)) (getEnvDuration "JWT_REFRESH_TTL" (7 * 24 * Hour))
      (getEnvDuration "CSRF_TOKEN_TTL" (12 * Hour)) (getEnvDuration "REFRESH_TOKEN_PURGE_INTERVAL" Hour))
    (mkLog (ToLower (getEnv "LOG_LEVEL" (defaultLogLevel devMode)))
      (ToLower (getEnv "LOG_FORMAT" (defaultLogFormat devMode))))
    (mkSecurity (getEnvBool "RATE_LIMIT_ENABLED" true)
      (getEnvFloat "RATE_LIMIT_RPS" (float_lit F "20")) (getEnvInt "RATE_LIMIT_BURST" 40)
      (getEnvFloat "AUTH_RATE_LIMIT_RPS" (float_lit F "0.2")) (getEnvInt "AUTH_RATE_LIMIT_BURST" 5)
      (getEnvInt "MAX_REQUEST_BODY_BYTES" (2 ^ 20)) (parseCSVEnv "TRUSTED_PROXIES" ""))
    (mkTracing (getEnvBool "OTEL_ENABLED" false) (getEnv "OTEL_SERVICE_NAME" "clean-arch-go-gin")
      (getEnv "OTEL_SERVICE_VERSION" "dev") (getEnv "OTEL_ENVIRONMENT" (defaultEnvironment devMode))
      (ToLower (getEnv "OTEL_TRACES_EXPORTER" "otlp"))
      (getEnv "OTEL_EXPORTER_OTLP_ENDPOINT" "http://localhost:4318")
      (getEnvBool "OTEL_EXPORTER_OTLP_INSECURE" true) (getEnvFloat "OTEL_TRACES_SAMPLER_ARG" (float_lit F "1.0")))
    (mkObservability (getEnvBool "METRICS_ENABLED" false) (getEnvBool "PPROF_ENABLED" false)
      (getEnv "ADMIN_HOST" "127.0.0.1") (getEnvInt "ADMIN_PORT" 9090)).

(** ** config_validate.go *)

Definition minSecretLength : nat := 32.
Definition DatabaseTypeSQLite : string := "sqlite".
Definition DatabaseTypePostgres : string := "postgres".
Definition ExporterOTLP : string := "otlp".
Definition ExporterConsole : string := "console".

(** [if cond { problems = append(problems, msg) }] *)
Definition report (cond : bool) (msg : string) : list string := if cond then [msg] else [].

Definition unparsed {A} (parse : string -> option A) (what : string) (key : string) : list string :=
  let raw := Getenv key in
  report (negb (String.eqb raw "") && match parse raw with Some _ => false | None => true end)
    (key +:+ "=" +:+ Quote raw +:+ " is not " +:+ what).

Definition intVars : list string :=
  ["SERVER_PORT"; "DATABASE_MAX_OPEN_CONNS"; "DATABASE_MAX_IDLE_CONNS"; "RATE_LIMIT_BURST";
   "MAX_REQUEST_BODY_BYTES"; "ADMIN_PORT"].
Definition durationVars : list string :=
  ["SERVER_READ_TIMEOUT"; "SERVER_WRITE_TIMEOUT"; "SERVER_IDLE_TIMEOUT"; "SERVER_SHUTDOWN_TIMEOUT";
   "SERVER_REQUEST_TIMEOUT"; "DATABASE_CONN_MAX_LIFETIME"; "JWT_ACCESS_TTL"; "JWT_REFRESH_TTL";
   "CSRF_TOKEN_TTL"; "REFRESH_TOKEN_PURGE_INTERVAL"].

Definition validateParsing : list string :=
  concat (unparsed strconv_Atoi "an integer" <$> intVars) ++
  concat (unparsed Duration.Parse "a duration (e.g. 15s, 5m, 24h)" <$> durationVars) ++
  unparsed (ParseFloat F) "a number" "RATE_LIMIT_RPS".

Definition outside_ports (port : Z) : bool := (port <? 1) || (port >? 65535).

Definition validateServer (c : Config) : list string :=
  report (outside_ports (Port (Server c))) ("SERVER_PORT=" +:+ pretty (Port (Server c)) +:+ " is outside 1-65535") ++
  report (ShutdownTimeout (Server c) <=? 0) "SERVER_SHUTDOWN_TIMEOUT must be positive".

Definition validateDatabase (c : Config) : list string :=
  let d := Database c in
  report (negb (String.eqb (Type_ d) DatabaseTypeSQLite || String.eqb (Type_ d) DatabaseTypePostgres))
    ("DATABASE_TYPE=" +:+ Quote (Type_ d) +:+ " is not supported (want " +:+ Quote DatabaseTypeSQLite +:+
     " or " +:+ Quote DatabaseTypePostgres +:+ ")") ++
  report (String.eqb (DSN d) "") "DATABASE_DSN must not be empty" ++
  report (MaxOpenConns d <? 1) "DATABASE_MAX_OPEN_CONNS must be at least 1" ++
  report (MaxIdleConns d >? MaxOpenConns d) "DATABASE_MAX_IDLE_CONNS must not exceed DATABASE_MAX_OPEN_CONNS".

(** The order in which Go visits the entries of a map. *)
Context (range : list (string * string) -> list (string * string)).

Definition secret_problem (kv : string * string) : list string :=
  let '(name, value) := kv in
  if String.eqb value "" then [name +:+ " must be set when DEV_MODE is false"]
  else report (String.length value <? minSecretLength)%nat
    (name +:+ " must be at least " +:+ pretty (Z.of_nat minSecretLength) +:+ " characters (got " +:+
     pretty (Z.of_nat (String.length value)) +:+ ")").

Definition validateAuth (c : Config) : list string :=
  let a := Auth c in
  report (AccessTokenTTL a <=? 0) "JWT_ACCESS_TTL must be positive" ++
  report (RefreshTokenTTL a <=? AccessTokenTTL a) "JWT_REFRESH_TTL must be longer than JWT_ACCESS_TTL" ++
  (if DevMode a then [] else
   let secrets := [("JWT_ACCESS_SECRET", JWTAccessSecret a); ("JWT_REFRESH_SECRET", JWTRefreshSecret a);
                   ("CSRF_SECRET", CSRFSecret a)] in
   concat (secret_problem <$> range secrets) ++
   report (negb (String.eqb (JWTAccessSecret a) "") && String.eqb (JWTAccessSecret a) (JWTRefreshSecret a))
     "JWT_ACCESS_SECRET and JWT_REFRESH_SECRET must differ, otherwise a refresh token is accepted as an access token" ++
   concat ((fun origin => report (String.eqb origin "*")
     ("ALLOWED_ORIGINS must not be " +:+ Quote "*" +:+ " because credentials are allowed")) <$> AllowedOrigins a)).

Definition validateLog (c : Config) : list string :=
  let l := Log c in
  report (negb (bool_decide (Level l ∈ ["debug"; "info"; "warn"; "warning"; "error"])))
    ("LOG_LEVEL=" +:+ Quote (Level l) +:+ " is not supported (want debug, info, warn or error)") ++
  report (negb (bool_decide (Format l ∈ ["json"; "text"])))
    ("LOG_FORMAT=" +:+ Quote (Format l) +:+ " is not supported (want json or text)").

Definition isLoopbackEndpoint (endpoint : string) : bool :=
  Contains endpoint "localhost" || Contains endpoint "127.0.0.1" || Contains endpoint "[::1]".

Definition validateTracing (c : Config) : list string :=
  let t := Tracing c in
  if negb (Enabled t) then [] else
  report (negb (bool_decide (Exporter t ∈ [ExporterOTLP; ExporterConsole; "stdout"])))
    ("OTEL_TRACES_EXPORTER=" +:+ Quote (Exporter t) +:+ " is not supported (want " +:+ Quote ExporterOTLP +:+
     " or " +:+ Quote ExporterConsole +:+ ")") ++
  report (String.eqb (Exporter t) ExporterOTLP && String.eqb (Endpoint t) "")
    "OTEL_EXPORTER_OTLP_ENDPOINT must be set when the otlp exporter is used" ++
  report (float_lt F (SampleRatio t) (float_lit F "0") || float_lt F (float_lit F "1") (SampleRatio t))
    ("OTEL_TRACES_SAMPLER_ARG=" +:+ float_v F (SampleRatio t) +:+ " is outside 0-1") ++
  report (String.eqb (ServiceName t) "") "OTEL_SERVICE_NAME must not be empty when tracing is enabled" ++
  report (negb (DevMode (Auth c)) && Insecure t && String.eqb (Exporter t) ExporterOTLP &&
          negb (isLoopbackEndpoint (Endpoint t)))
    ("OTEL_EXPORTER_OTLP_INSECURE must be false outside DEV_MODE for a remote collector (" +:+ Endpoint t +:+ ")").

Definition validateTokenLifetimes (c : Config) : list string :=
  report (CSRFTokenTTL (Auth c) <=? 0) "CSRF_TOKEN_TTL must be positive" ++
  report (RefreshTokenPurgeInterval (Auth c) <? 0)
    "REFRESH_TOKEN_PURGE_INTERVAL must not be negative (0 disables the sweep)".

(** [net.ParseIP(host)] and [ip.IsLoopback()]: nothing for a host that is no address. *)
Context (ip_loopback : string -> option bool).

(** [strings.Trim(host, "[]")] *)
Fixpoint drop_brackets (bs : bytes) : bytes :=
  match bs with
  | b :: rest => if Ascii.eqb b "[" || Ascii.eqb b "]" then drop_brackets rest else bs
  | [] => []
  end.
Definition trim_brackets (s : string) : string :=
  of_bytes (reverse (drop_brackets (reverse (drop_brackets (to_bytes s))))).

Definition isLoopbackHost (host : string) : bool :=
  if bool_decide (host ∈ ["localhost"; "127.0.0.1"; "::1"; "[::1]"]) then true
  else match ip_loopback (trim_brackets host) with Some b => b | None => false end.

Definition validateObservability (c : Config) : list string :=
  let o := Observability c in
  if negb (MetricsEnabled o) && negb (PprofEnabled o) then [] else
  report (outside_ports (AdminPort o)) ("ADMIN_PORT=" +:+ pretty (AdminPort o) +:+ " is outside 1-65535") ++
  report (AdminPort o =? Port (Server c))
    ("ADMIN_PORT=" +:+ pretty (AdminPort o) +:+
     " must differ from SERVER_PORT, otherwise the admin endpoints would be served on the public listener") ++
  report (String.eqb (AdminHost o) "") "ADMIN_HOST must not be empty" ++
  report (negb (DevMode (Auth c)) && PprofEnabled o && negb (isLoopbackHost (AdminHost o)))
    ("PPROF_ENABLED requires a loopback ADMIN_HOST outside DEV_MODE (got " +:+ Quote (AdminHost o) +:+
     "): pprof lets an unauthenticated caller dump the heap and stall the process with a 30s CPU profile. " +:+
     "Bind it to 127.0.0.1 and reach it with a port forward").

(** The text of the error, if any. *)
Definition newline : string := of_bytes [ascii_of_N 10].
Definition Validate (c : Config) : option string :=
  let problems := validateParsing ++ validateServer c ++ validateDatabase c ++ validateAuth c ++ validateLog c ++
                  validateTracing c ++ validateObservability c ++ validateTokenLifetimes c in
  match problems with
  | [] => None
  | _ => Some ("invalid configuration:" +:+ newline +:+ "  - " +:+ strings_Join problems (newline +:+ "  - "))
  end.

(** ** What is accepted *)

Definition parses {A} (parse : string -> option A) (key : string) : Prop :=
  Getenv key = "" \/ parse (Getenv key) <> None.

(** The rules, as a deployment has to meet them. *)
Record acceptable (c : Config) : Prop := {
  ok_ints : Forall (parses strconv_Atoi) intVars;
  ok_durations : Forall (parses Duration.Parse) durationVars;
  ok_rps : parses (ParseFloat F) "RATE_LIMIT_RPS";
  ok_port : 1 <= Port (Server c) <= 65535;
  ok_shutdown : 0 < ShutdownTimeout (Server c);
  ok_database : (Type_ (Database c) = "sqlite" \/ Type_ (Database c) = "postgres") /\ DSN (Database c) <> "";
  ok_pool : 1 <= MaxOpenConns (Database c) /\ MaxIdleConns (Database c) <= MaxOpenConns (Database c);
  ok_lifetimes : 0 < AccessTokenTTL (Auth c) < RefreshTokenTTL (Auth c) /\ 0 < CSRFTokenTTL (Auth c) /\
                 0 <= RefreshTokenPurgeInterval (Auth c);
  ok_secrets : DevMode (Auth c) = false ->
    Forall (fun s => (32 <= String.length s)%nat)
      [JWTAccessSecret (Auth c); JWTRefreshSecret (Auth c); CSRFSecret (Auth c)] /\
    JWTAccessSecret (Auth c) <> JWTRefreshSecret (Auth c) /\ "*" ∉ AllowedOrigins (Auth c);
  ok_log : Level (Log c) ∈ ["debug"; "info"; "warn"; "warning"; "error"] /\ Format (Log c) ∈ ["json"; "text"];
  ok_tracing : Enabled (Tracing c) = true ->
    Exporter (Tracing c) ∈ ["otlp"; "console"; "stdout"] /\ ServiceName (Tracing c) <> "" /\
    float_lt F (SampleRatio (Tracing c)) (float_lit F "0") = false /\
    float_lt F (float_lit F "1") (SampleRatio (Tracing c)) = false /\
    (Exporter (Tracing c) = "otlp" -> Endpoint (Tracing c) <> "" /\
      (DevMode (Auth c) = false -> Insecure (Tracing c) = true -> isLoopbackEndpoint (Endpoint (Tracing c)) = true));
  ok_admin : MetricsEnabled (Observability c) = true \/ PprofEnabled (Observability c) = true ->
    1 <= AdminPort (Observability c) <= 65535 /\ AdminPort (Observability c) <> Port (Server c) /\
    AdminHost (Observability c) <> "" /\
    (DevMode (Auth c) = false -> PprofEnabled (Observability c) = true ->
       isLoopbackHost (AdminHost (Observability c)) = true)
}.

Lemma report_nil cond msg : report cond msg = [] <-> cond = false.
Proof using Type. by destruct cond. Qed.

Lemma app_nil_iff {A} (l k : list A) : l ++ k = [] <-> l = [] /\ k = [].
Proof using Type. split; [apply app_eq_nil|by intros [-> ->]]. Qed.

Lemma concat_nil {A B} (f : A -> list B) l : concat (f <$> l) = [] <-> Forall (fun x => f x = []) l.
Proof using Type.
  induction l as [|x l IH]; simpl; [by split; constructor|]. by rewrite app_nil_iff, IH, Forall_cons.
Qed.

Lemma eqb_false s t : String.eqb s t = false <-> s <> t.
Proof using Type. apply String.eqb_neq. Qed.

Lemma negb_false b : negb b = false <-> b = true.
Proof using Type. by destruct b. Qed.

Lemma unparsed_nil {A} (parse : string -> option A) what key : unparsed parse what key = [] <-> parses parse key.
Proof using Type.
  unfold unparsed, parses. rewrite report_nil, andb_false_iff, negb_false, String.eqb_eq.
  destruct (parse (Getenv key)); (split; intros [?|?]; [by left|by right|by left|by right]).
Qed.

Lemma ports_ok port : outside_ports port = false <-> 1 <= port <= 65535.
Proof using Type. unfold outside_ports. rewrite orb_false_iff, Z.ltb_ge, Z.gtb_ltb, Z.ltb_ge. done. Qed.

Lemma secret_ok kv : secret_problem kv = [] <-> (32 <= String.length kv.2)%nat.
Proof using Type.
  destruct kv as [name value]. simpl. destruct (String.eqb_spec value "") as [->|Hne]; simpl.
  - split; [done|lia].
  - unfold minSecretLength. rewrite report_nil, Nat.ltb_ge. done.
Qed.

Context (range_permutes : forall l, range l ≡ₚ l).

Lemma validateAuth_nil c : validateAuth c = [] <->
  0 < AccessTokenTTL (Auth c) < RefreshTokenTTL (Auth c) /\
  (DevMode (Auth c) = false ->
    Forall (fun s => (32 <= String.length s)%nat)
      [JWTAccessSecret (Auth c); JWTRefreshSecret (Auth c); CSRFSecret (Auth c)] /\
    JWTAccessSecret (Auth c) <> JWTRefreshSecret (Auth c) /\ "*" ∉ AllowedOrigins (Auth c)).
Proof using range_permutes.
  unfold validateAuth. rewrite !app_nil_iff, !report_nil, !Z.leb_gt.
  destruct (DevMode (Auth c)).
  { split; [by intros (? & ? & _)|by intros ([? ?] & _)]. }
  rewrite !app_nil_iff, !concat_nil, !report_nil, range_permutes, !Forall_cons, !secret_ok, andb_false_iff,
    negb_false, String.eqb_eq, eqb_false.
  assert (Horigins : Forall (fun origin => report (String.eqb origin "*")
     ("ALLOWED_ORIGINS must not be " +:+ Quote "*" +:+ " because credentials are allowed") = []) (AllowedOrigins (Auth c))
     <-> "*" ∉ AllowedOrigins (Auth c)).
  { rewrite Forall_forall. setoid_rewrite report_nil. setoid_rewrite eqb_false. split; [intros H Hin; by apply (H _ Hin)|by intros H x Hin ->]. }
  rewrite Horigins. simpl. split.
  - intros (H1 & H2 & (Ha & Hr & Hc & _) & Hne & Ho). split; [done|]. intros _. split; [by repeat constructor|]. split; [|done].
    destruct Hne as [He|Hne]; [|done]. rewrite He in Ha. simpl in Ha. lia.
  - intros ([H1 H2] & H). destruct (H eq_refl) as ((Ha & Hr & Hc & _) & Hne & Ho). conj; first [done | by right | by repeat constructor].
Qed.

Lemma validateParsing_nil : validateParsing = [] <->
  Forall (parses strconv_Atoi) intVars /\ Forall (parses Duration.Parse) durationVars /\
  parses (ParseFloat F) "RATE_LIMIT_RPS".
Proof using Type.
  unfold validateParsing. rewrite !app_nil_iff, !concat_nil, unparsed_nil.
  assert (Heq : forall A (parse : string -> option A) what keys,
    Forall (fun x => unparsed parse what x = []) keys <-> Forall (parses parse) keys).
  { intros A parse what keys. apply Forall_iff. intros key. apply unparsed_nil. }
  by rewrite !Heq.
Qed.

Lemma validateServer_nil c : validateServer c = [] <->
  1 <= Port (Server c) <= 65535 /\ 0 < ShutdownTimeout (Server c).
Proof using Type. unfold validateServer. by rewrite app_nil_iff, !report_nil, ports_ok, Z.leb_gt. Qed.

Lemma validateDatabase_nil c : validateDatabase c = [] <->
  ((Type_ (Database c) = "sqlite" \/ Type_ (Database c) = "postgres") /\ DSN (Database c) <> "") /\
  1 <= MaxOpenConns (Database c) /\ MaxIdleConns (Database c) <= MaxOpenConns (Database c).
Proof using Type.
  unfold validateDatabase. rewrite !app_nil_iff, !report_nil, negb_false, orb_true_iff, !String.eqb_eq, eqb_false,
    Z.ltb_ge, Z.gtb_ltb, Z.ltb_ge. tauto.
Qed.

Lemma validateLog_nil c : validateLog c = [] <->
  Level (Log c) ∈ ["debug"; "info"; "warn"; "warning"; "error"] /\ Format (Log c) ∈ ["json"; "text"].
Proof using Type. unfold validateLog. by rewrite app_nil_iff, !report_nil, !negb_false, !bool_decide_eq_true. Qed.

Lemma validateTokenLifetimes_nil c : validateTokenLifetimes c = [] <->
  0 < CSRFTokenTTL (Auth c) /\ 0 <= RefreshTokenPurgeInterval (Auth c).
Proof using Type. unfold validateTokenLifetimes. by rewrite app_nil_iff, !report_nil, Z.leb_gt, Z.ltb_ge. Qed.

(** The shape shared by the two rules on exposure outside development. *)
Lemma guarded_false (dev flag ok : bool) :
  negb dev && flag && negb ok = false <-> (dev = false -> flag = true -> ok = true).
Proof using Type. destruct dev, flag, ok; simpl; split; try done; intros H; by rewrite H. Qed.

Lemma validateTracing_nil c : validateTracing c = [] <->
  (Enabled (Tracing c) = true ->
    Exporter (Tracing c) ∈ ["otlp"; "console"; "stdout"] /\ ServiceName (Tracing c) <> "" /\
    float_lt F (SampleRatio (Tracing c)) (float_lit F "0") = false /\
    float_lt F (float_lit F "1") (SampleRatio (Tracing c)) = false /\
    (Exporter (Tracing c) = "otlp" -> Endpoint (Tracing c) <> "" /\
      (DevMode (Auth c) = false -> Insecure (Tracing c) = true -> isLoopbackEndpoint (Endpoint (Tracing c)) = true))).
Proof using Type.
  unfold validateTracing. destruct (Enabled (Tracing c)); [|by split]. cbn [negb].
  rewrite <- (andb_assoc (negb (DevMode (Auth c)))).
  rewrite !app_nil_iff, !report_nil, negb_false, bool_decide_eq_true, orb_false_iff, eqb_false, guarded_false.
  unfold ExporterOTLP, ExporterConsole. split.
  - intros (He & Hend & [Hlo Hhi] & Hname & Hins) _. conj; try done. intros Hotlp. rewrite Hotlp in Hend, Hins. split.
    + intros He0. by rewrite He0 in Hend.
    + intros Hd Hi. apply Hins; [done|]. by rewrite Hi.
  - intros H. destruct (H eq_refl) as (He & Hname & Hlo & Hhi & Hend). conj; try done.
    + apply not_true_is_false. intros [Ho%String.eqb_eq Hn%String.eqb_eq]%andb_true_iff. by apply Hend in Ho as [? _].
    + intros Hd [Hi Ho%String.eqb_eq]%andb_true_iff. by apply Hend.
Qed.

Lemma validateObservability_nil c : validateObservability c = [] <->
  (MetricsEnabled (Observability c) = true \/ PprofEnabled (Observability c) = true ->
    1 <= AdminPort (Observability c) <= 65535 /\ AdminPort (Observability c) <> Port (Server c) /\
    AdminHost (Observability c) <> "" /\
    (DevMode (Auth c) = false -> PprofEnabled (Observability c) = true ->
       isLoopbackHost (AdminHost (Observability c)) = true)).
Proof using Type.
  unfold validateObservability.
  assert (Heq : negb (MetricsEnabled (Observability c)) && negb (PprofEnabled (Observability c)) = true <->
    ~ (MetricsEnabled (Observability c) = true \/ PprofEnabled (Observability c) = true)).
  { destruct (MetricsEnabled _), (PprofEnabled _); simpl; intuition congruence. }
  destruct (negb (MetricsEnabled _) && negb (PprofEnabled _)).
  - apply proj1 in Heq. specialize (Heq eq_refl). split; [by intros _ ?|done].
  - rewrite !app_nil_iff, !report_nil, ports_ok, Z.eqb_neq, eqb_false, guarded_false.
    assert (Hon : MetricsEnabled (Observability c) = true \/ PprofEnabled (Observability c) = true).
    { destruct (MetricsEnabled _), (PprofEnabled _); try (by left); try (by right). destruct Heq as [_ Heq]. discriminate Heq. by intros [?|?]. }
    split; [by intros|]. intros H. by apply H.
Qed.

Lemma Validate_nil c : Validate c = None <-> acceptable c.
Proof using range_permutes.
  unfold Validate.
  assert (Hnil : forall problems : list string, match problems with
      | [] => None
      | _ => Some ("invalid configuration:" +:+ newline +:+ "  - " +:+ strings_Join problems (newline +:+ "  - "))
      end = None <-> problems = []) by (by intros []).
  rewrite Hnil, !app_nil_iff, validateParsing_nil, validateServer_nil, validateDatabase_nil, validateAuth_nil,
    validateLog_nil, validateTracing_nil, validateObservability_nil, validateTokenLifetimes_nil.
  split.
  - intros ((? & ? & ?) & [? ?] & [? ?] & [? ?] & ? & ? & ? & [? ?]). by constructor.
  - intros []. tauto.
Qed.

(** C31.  Validate accepts exactly the acceptable configurations: the integers, the
    durations and RATE_LIMIT_RPS that were set parse (the other settings are not
    re-read), ports, pool and lifetimes are consistent, and outside
    development the three secrets are long enough, the two token secrets differ, no
    wildcard origin is allowed, and neither unencrypted spans nor pprof leave the
    machine, as far as their host tells. *)
Theorem validate_exact c : Validate c = None <-> acceptable c.
Proof using range_permutes. apply Validate_nil. Qed.

(** A name that is not set leaves the default. *)
Lemma getEnv_unset key d : Getenv key = "" -> getEnv key d = d.
Proof using Type. unfold getEnv. by intros ->. Qed.
Lemma getEnvParsed_unset {A} (parse : string -> option A) key d : Getenv key = "" -> getEnvParsed parse key d = d.
Proof using Type. unfold getEnvParsed. by intros ->. Qed.
Lemma getEnvParsed_none {A} (parse : string -> option A) key d : parse (Getenv key) = None -> getEnvParsed parse key d = d.
Proof using Type. unfold getEnvParsed. intros ->. by destruct (negb _). Qed.
Lemma getEnvBool_unset key d : Getenv key = "" -> getEnvBool key d = d.
Proof using Type. unfold getEnvBool. by intros ->. Qed.
Lemma parseCSVEnv_unset key d : Getenv key = "" -> parseCSVEnv key d = if String.eqb d "" then [] else [d].
Proof using Type. unfold parseCSVEnv. intros ->. by destruct (String.eqb d ""). Qed.

Definition secret_names : list string := ["JWT_ACCESS_SECRET"; "JWT_REFRESH_SECRET"; "CSRF_SECRET"].

Lemma unset_parses {A} (parse : string -> option A) keys :
  (forall key, key ∉ secret_names -> Getenv key = "") -> Forall (fun key => key ∉ secret_names) keys ->
  Forall (parses parse) keys.
Proof using Type. intros Hunset Hf. eapply Forall_impl; [exact Hf|]. intros key Hkey. left. by apply Hunset. Qed.

(** Three secrets are all a production deployment has to set: with three
    secrets of 32 characters or more, the token secrets different, and nothing else
    in the environment, the defaults make an acceptable configuration; without them
    it is refused. *)
Theorem defaults_are_acceptable :
  (forall key, key ∉ secret_names -> Getenv key = "") ->
  Validate NewConfig = None <->
  Forall (fun name => (32 <= String.length (Getenv name))%nat) secret_names /\
  Getenv "JWT_ACCESS_SECRET" <> Getenv "JWT_REFRESH_SECRET".
Proof using range_permutes.
  intros Hunset.
  assert (Hk : forall key, bool_decide (key ∉ secret_names) = true -> Getenv key = "").
  { intros key Hk. apply Hunset. by apply bool_decide_eq_true in Hk. }
  assert (Hcfg : NewConfig = mkConfig
    (mkServer 8080 "" (15 * Second) (15 * Second) (60 * Second) (10 * Second) (10 * Second))
    (mkDatabase "sqlite" "dev.db" 25 5 (5 * Minute) "warn" true)
    (mkAuthConfig (Getenv "JWT_ACCESS_SECRET") (Getenv "JWT_REFRESH_SECRET") (Getenv "CSRF_SECRET") false
      ["http://localhost:5173"] (15 * Minute) (7 * 24 * Hour) (12 * Hour) Hour)
    (mkLog "info" "json")
    (mkSecurity true (float_lit F "20") 40 (float_lit F "0.2") 5 (2 ^ 20) [])
    (mkTracing false "clean-arch-go-gin" "dev" "production" "otlp" "http://localhost:4318" true (float_lit F "1.0"))
    (mkObservability false false "127.0.0.1" 9090)).
  { unfold NewConfig, getEnvInt, getEnvFloat, getEnvDuration. cbv zeta.
    repeat first
      [ rewrite getEnvBool_unset by (apply Hk; vm_compute; reflexivity)
      | rewrite getEnvParsed_unset by (apply Hk; vm_compute; reflexivity)
      | rewrite getEnv_unset by (apply Hk; vm_compute; reflexivity)
      | rewrite parseCSVEnv_unset by (apply Hk; vm_compute; reflexivity) ].
    reflexivity. }
  rewrite Hcfg, Validate_nil. split.
  - intros [_ _ _ _ _ _ _ _ Hsec _ _ _]. destruct (Hsec eq_refl) as (Hlen & Hne & _). split; [|done].
    change (Forall (fun s => (32 <= String.length s)%nat) (Getenv <$> secret_names)) in Hlen. rewrite Forall_fmap in Hlen. exact Hlen.
  - intros (Hlen & Hne). constructor; simpl.
    + apply unset_parses; [done|]. apply (bool_decide_unpack _). vm_compute. exact I.
    + apply unset_parses; [done|]. apply (bool_decide_unpack _). vm_compute. exact I.
    + left. apply Hk. vm_compute. reflexivity.
    + lia.
    + unfold Second. lia.
    + split; [by left|done].
    + lia.
    + unfold Hour, Minute, Second. lia.
    + intros _. split; [|split; [done|by apply (bool_decide_unpack _)]].
      change (Forall (fun s => (32 <= String.length s)%nat) (Getenv <$> secret_names)). rewrite Forall_fmap. exact Hlen.
    + split; apply (bool_decide_unpack _); vm_compute; exact I.
    + done.
    + by intros [?|?].
Qed.
End config.

(** ** What Validate lets through *)

(** Values [NewConfig] parses and [validateParsing] does not re-read. *)
Inductive unread (F : Float64) : string -> string -> Prop :=
  | unread_burst raw : strconv_Atoi raw = None -> unread F "AUTH_RATE_LIMIT_BURST" raw
  | unread_rps raw : ParseFloat F raw = None -> unread F "AUTH_RATE_LIMIT_RPS" raw
  | unread_ratio raw : ParseFloat F raw = None -> unread F "OTEL_TRACES_SAMPLER_ARG" raw.

Definition setenv (key raw : string) (Getenv : string -> string) : string -> string :=
  fun k => if String.eqb k key then raw else Getenv k.

(** A value of AUTH_RATE_LIMIT_BURST, AUTH_RATE_LIMIT_RPS or
    OTEL_TRACES_SAMPLER_ARG that does not parse is neither used nor reported: the
    configuration and the outcome of Validate are those without it. *)
Theorem discarded_values_go_unreported F Getenv range ip_loopback key raw :
  unread F key raw -> Getenv key = "" ->
  NewConfig F (setenv key raw Getenv) = NewConfig F Getenv /\
  forall c, Validate F (setenv key raw Getenv) range ip_loopback c = Validate F Getenv range ip_loopback c.
Proof.
  intros Hkey Hunset. set (G := setenv key raw Getenv).
  assert (Hself : G key = raw) by (unfold G, setenv; by rewrite String.eqb_refl).
  assert (Hother : forall k, String.eqb k key = false -> G k = Getenv k) by (intros k Hk; unfold G, setenv; by rewrite Hk).
  clearbody G.
  assert (Hstr : forall k d, String.eqb k key = false -> getEnv G k d = getEnv Getenv k d)
    by (intros k d Hk; unfold getEnv; by rewrite Hother).
  assert (Hbool : forall k d, String.eqb k key = false -> getEnvBool G k d = getEnvBool Getenv k d)
    by (intros k d Hk; unfold getEnvBool; by rewrite Hother).
  assert (Hcsv : forall k d, String.eqb k key = false -> parseCSVEnv G k d = parseCSVEnv Getenv k d)
    by (intros k d Hk; unfold parseCSVEnv; by rewrite Hother).
  assert (Hparsed : forall A (parse : string -> option A) k d,
    String.eqb k key = false \/ k = key /\ parse raw = None -> getEnvParsed G parse k d = getEnvParsed Getenv parse k d).
  { intros A parse k d [Hk|[-> Hraw]]; [unfold getEnvParsed; by rewrite Hother|].
    rewrite (getEnvParsed_none G) by by rewrite Hself. by rewrite getEnvParsed_unset. }
  split.
  - unfold NewConfig, getEnvInt, getEnvFloat, getEnvDuration.
    destruct Hkey as [raw Hraw|raw Hraw|raw Hraw];
      rewrite !Hbool, !Hcsv, !Hstr, !Hparsed, !Hother by first [reflexivity|left; reflexivity|right; done];
      reflexivity.
  - intros c. unfold Validate, validateParsing, unparsed, intVars, durationVars. cbn [fmap list_fmap].
    destruct Hkey as [raw Hraw|raw Hraw|raw Hraw]; rewrite !Hother by reflexivity; reflexivity.
Qed.

(** The rule on unencrypted spans takes any endpoint that mentions a loopback name
    anywhere for a local one. *)
Lemma Contains_app pre sub suf : Contains (pre +:+ sub +:+ suf) sub = true.
Proof.
  assert (Hpre : forall s, String.prefix sub (sub +:+ s) = true).
  { intros s. induction sub as [|a sub IH]; [by destruct s|]. simpl. by destruct (Ascii.ascii_dec a a). }
  induction pre as [|a pre IH].
  - change ("" +:+ sub +:+ suf) with (sub +:+ suf). pose proof (Hpre suf) as Hp.
    destruct (sub +:+ suf); cbn [Contains]; by rewrite Hp.
  - change (String a pre +:+ sub +:+ suf) with (String a (pre +:+ sub +:+ suf)). simpl. rewrite IH. apply orb_true_r.
Qed.

Theorem loopback_is_a_substring pre suf : isLoopbackEndpoint (pre +:+ "localhost" +:+ suf) = true.
Proof. unfold isLoopbackEndpoint. by rewrite Contains_app. Qed.

(** ** Witnesses *)

(** Floats as numbers of thousandths; nothing here computes with them. *)
Definition toy_float : Float64 := mkFloat64 Z (fun s => option_map (Z.mul 1000) (strconv_Atoi s)) (fun _ => 1000) Z.ltb pretty.

Definition strong : string -> string := fun key =>
  if String.eqb key "JWT_ACCESS_SECRET" then "access-secret-of-at-least-32-characters"
  else if String.eqb key "JWT_REFRESH_SECRET" then "refresh-secret-of-at-least-32-characters"
  else if String.eqb key "CSRF_SECRET" then "csrf-secret-of-at-least-32-characters" else "".

Lemma strong_only key : key ∉ secret_names -> strong key = "".
Proof.
  unfold secret_names, strong. rewrite !not_elem_of_cons. intros (H1 & H2 & H3 & _).
  apply String.eqb_neq in H1, H2, H3. by rewrite H1, H2, H3.
Qed.

Definition in_order (l : list (string * string)) : list (string * string) := l.
Definition no_ip (host : string) : option bool := None.

Lemma validate_exact_witness :
  Validate toy_float strong in_order no_ip (NewConfig toy_float strong) = None /\
  acceptable toy_float strong no_ip (NewConfig toy_float strong).
Proof.
  assert (H : Validate toy_float strong in_order no_ip (NewConfig toy_float strong) = None) by (vm_compute; reflexivity).
  split; [exact H|].
  exact (proj1 (validate_exact toy_float strong in_order no_ip (fun l => Permutation_refl l) _) H).
Defined.

Lemma defaults_are_acceptable_witness :
  Validate toy_float strong in_order no_ip (NewConfig toy_float strong) = None.
Proof.
  apply (defaults_are_acceptable toy_float strong in_order no_ip (fun l => Permutation_refl l) strong_only).
  split; [apply (bool_decide_unpack _); vm_compute; exact I|]. vm_compute. discriminate.
Defined.

Lemma discarded_values_go_unreported_witness :
  NewConfig toy_float (setenv "AUTH_RATE_LIMIT_BURST" "five" strong) = NewConfig toy_float strong /\
  AuthRateLimitBurst toy_float (Security toy_float (NewConfig toy_float strong)) = 5.
Proof.
  split; [|vm_compute; reflexivity].
  apply (discarded_values_go_unreported toy_float strong in_order no_ip).
  - apply unread_burst. vm_compute. reflexivity.
  - reflexivity.
Defined.
