(* ===== verification/Startup.v ===== *)
(** * internal/platform/database.go: opening the connection pool

    What a process does before it serves is a computation on [boot]: the next heap
    address, the number of pings sent, and the trace of what was done.  gorm and
    database/sql are the parameter [driver].  The retry loop is a loop with fuel;
    the theorems say that it always returns, when it succeeds, how long it may take,
    and that a pool which could not be used is closed again. *)

From stdpp Require Import pretty.
From S2P Require Import Prelude GoStd Apperr Script Model Gorm Effects Repository Config.
#[local] Open Scope mig_scope.

(** ** What happens before serving *)

Inductive dialect := Postgres | SQLite.
Inductive GormLevel := Silent | GormError | GormWarn | GormInfo.

Inductive boot_event :=
  | Opened (d : dialect) (dsn : string) (l : GormLevel)   (* gorm.Open succeeded *)
  | SetMaxOpenConns (n : Z) | SetMaxIdleConns (n : Z) | SetConnMaxLifetime (d : duration)
  | UsedPlugin                                           (* db.Use succeeded *)
  | Pinged (timeout : duration) | Slept (d : duration)
  | ClosedPool
  | TracerInstalled (sampler : string) | PropagatorsInstalled | TracerStopped
  | Migrated (ok : bool)
  | Logged (l : level) (msg : string) (attrs : list (string * string)).

Record boot := mkBoot { b_addr : addr; b_pings : nat; b_trace : list boot_event }.

Definition record_ (ev : boot_event) : Script boot unit :=
  modify (fun b => mkBoot (b_addr b) (b_pings b) (b_trace b ++ [ev])).

Definition alloc : Script boot addr := fun b => (b_addr b, mkBoot (N.succ (b_addr b)) (b_pings b) (b_trace b)).

(** [errors.New] and [fmt.Errorf] with [%w]. *)
Definition boot_error (msg : string) : Script boot error := do* a := alloc in mret (EString a msg).
Definition boot_Errorf (msg : string) (inner : error) : Script boot error :=
  do* a := alloc in mret (EWrap a msg inner).

(** [time.Duration(n) * d] *)
Definition duration_mul (n : Z) (d : duration) : duration := wrap64 (n * d).

Definition pingAttempts : Z := 5.
Definition pingBackoff : duration := 500 * Millisecond.
Definition pingTimeout : duration := 5 * Second.

Definition gormLogLevel (level : string) : GormLevel :=
  if existsb (String.eqb level) ["silent"; "none"; "off"] then Silent
  else if existsb (String.eqb level) ["info"; "debug"] then GormInfo
  else if String.eqb level "error" then GormError
  else GormWarn.

(** ** The driver *)

Section database.
Context (DB SqlDB : Type).

(** gorm and database/sql: [sql_Ping db k] is the answer to ping number [k]. *)
Record driver := mkDriver {
  gorm_Open : dialect -> string -> GormLevel -> result DB;
  db_DB : DB -> result SqlDB;
  db_Use : DB -> option error;
  sql_Ping : SqlDB -> nat -> option error;
  sql_Close : SqlDB -> option error
}.

Context (drv : driver).

Definition PingContext (db : SqlDB) (timeout : duration) : Script boot (option error) := fun b =>
  (sql_Ping drv db (b_pings b), mkBoot (b_addr b) (S (b_pings b)) (b_trace b ++ [Pinged timeout])).

Definition CloseDatabase (db : option DB) : Script boot (result unit) :=
  match db with
  | None => mret (Ok tt)
  | Some db =>
      match db_DB drv db with
      | Err err => do* err := boot_Errorf "failed to get underlying sql.DB" err in mret (Err err)
      | Ok sqlDB =>
          do* _ := record_ ClosedPool in
          mret (match sql_Close drv sqlDB with None => Ok tt | Some err => Err err end)
      end
  end.

(** How the loop of [pingWithRetry] is left: by [return nil], or by its condition
    with the last error. *)
Inductive loop_exit := Connected | Exhausted (lastErr : option error).

(** [for attempt := ...; attempt <= attempts; attempt++]; [None] when the fuel runs
    out. *)
Fixpoint ping_loop (fuel : nat) (sqlDB : SqlDB) (attempts : Z) (backoff : duration) (attempt : Z)
    (lastErr : option error) : Script boot (option loop_exit) :=
  match fuel with
  | O => mret None
  | S fuel =>
      if attempt <=? attempts then
        do* lastErr := PingContext sqlDB pingTimeout in
        match lastErr with
        | None => mret (Some Connected)
        | Some err =>
            do* _ := if attempt <? attempts then record_ (Slept (duration_mul attempt backoff)) else mret tt in
            ping_loop fuel sqlDB attempts backoff (wrap64 (attempt + 1)) (Some err)
        end
      else mret (Some (Exhausted lastErr))
  end.

Definition pingWithRetry (fuel : nat) (db : DB) (attempts : Z) (backoff : duration)
  : Script boot (option (result unit)) :=
  match db_DB drv db with
  | Err err => do* err := boot_Errorf "failed to get underlying sql.DB" err in mret (Some (Err err))
  | Ok sqlDB =>
      do* left_ := ping_loop fuel sqlDB attempts backoff 1 None in
      match left_ with
      | None => mret None
      | Some Connected => mret (Some (Ok tt))
      | Some (Exhausted lastErr) =>
          let msg := "database unreachable after " +:+ pretty attempts +:+ " attempts" in
          do* err := match lastErr with
                     | Some err => boot_Errorf msg err
                     | None => boot_error (msg +:+ ": %!w(<nil>)")
                     end in
          mret (Some (Err err))
      end
  end.

Context (F : Float64).

Definition unsupported_type (type : string) : string :=
  "unsupported DATABASE_TYPE " +:+ Quote type +:+ " (want " +:+ Quote DatabaseTypeSQLite +:+ " or " +:+
  Quote DatabaseTypePostgres +:+ ")".

(** [if cfg.Tracing.Enabled { if err := db.Use(...); err != nil { ... } }] *)
Definition install_tracing (cfg : Config F) (db : DB) : Script boot (result unit) :=
  if Enabled F (Tracing F cfg) then
    match db_Use drv db with
    | None => do* _ := record_ UsedPlugin in mret (Ok tt)
    | Some err =>
        do* _ := CloseDatabase (Some db) in
        do* err := boot_Errorf "installing database tracing" err in mret (Err err)
    end
  else mret (Ok tt).

(** [if err := pingWithRetry(...); err != nil { ... }; return db, nil] *)
Definition verify_pool (fuel : nat) (db : DB) : Script boot (option (result DB)) :=
  do* pinged := pingWithRetry fuel db pingAttempts pingBackoff in
  match pinged with
  | None => mret None
  | Some (Err err) => do* _ := CloseDatabase (Some db) in mret (Some (Err err))
  | Some (Ok _) => mret (Some (Ok db))
  end.

(** What follows once the dialect is known. *)
Definition open_pool (fuel : nat) (cfg : Config F) (d : dialect) : Script boot (option (result DB)) :=
  let dc := Database F cfg in
  match gorm_Open drv d (DSN dc) (gormLogLevel (LogLevel dc)) with
  | Err err => do* err := boot_Errorf "failed to connect database" err in mret (Some (Err err))
  | Ok db =>
      do* _ := record_ (Opened d (DSN dc) (gormLogLevel (LogLevel dc))) in
      match db_DB drv db with
      | Err err => do* err := boot_Errorf "failed to get underlying sql.DB" err in mret (Some (Err err))
      | Ok sqlDB =>
          do* _ := record_ (SetMaxOpenConns (MaxOpenConns dc)) in
          do* _ := record_ (SetMaxIdleConns (MaxIdleConns dc)) in
          do* _ := record_ (SetConnMaxLifetime (ConnMaxLifetime dc)) in
          do* used := install_tracing cfg db in
          match used with
          | Err err => mret (Some (Err err))
          | Ok _ => verify_pool fuel db
          end
      end
  end.

Definition InitializeDatabase (fuel : nat) (cfg : Config F) : Script boot (option (result DB)) :=
  let type := Type_ (Database F cfg) in
  if String.eqb type DatabaseTypePostgres then open_pool fuel cfg Postgres
  else if String.eqb type DatabaseTypeSQLite || String.eqb type "" then open_pool fuel cfg SQLite
  else do* err := boot_error (unsupported_type type) in mret (Some (Err err)).

(** The probe of the health service; [ping] is [sqlDB.PingContext] at request time. *)
Definition PingCheck (ping : SqlDB -> context -> prog (option error)) (db : option DB) (ctx : context)
  : prog (result unit) :=
  match db with
  | None => let* a := perform OpAlloc in Ret (Err (EString a "database is not initialized"))
  | Some db =>
      match db_DB drv db with
      | Err err => let* err := Errorf "failed to get underlying sql.DB" err in Ret (Err err)
      | Ok sqlDB => let* err := ping sqlDB ctx in Ret (match err with None => Ok tt | Some err => Err err end)
      end
  end.

(** ** The retry loop *)

(** The first of [n] pings, from number [from] on, that is answered. *)
Fixpoint first_up (sqlDB : SqlDB) (from n : nat) : option nat :=
  match n with
  | O => None
  | S n => match sql_Ping drv sqlDB from with None => Some O | Some _ => S <$> first_up sqlDB (S from) n end
  end.

Lemma first_up_Some sqlDB from n :
  is_Some (first_up sqlDB from n) <-> exists i, (i < n)%nat /\ sql_Ping drv sqlDB (from + i) = None.
Proof using Type.
  revert from. induction n as [|n IH]; intros from; simpl.
  - split; [by intros []|]. intros (i & Hi & _). lia.
  - destruct (sql_Ping drv sqlDB from) eqn:Hp.
    + rewrite fmap_is_Some, IH. split; intros (i & Hi & Hup).
      * exists (S i). split; [lia|]. by rewrite Nat.add_succ_r.
      * destruct i as [|i]; [by rewrite Nat.add_0_r, Hp in Hup|]. exists i. split; [lia|].
        by rewrite Nat.add_succ_r in Hup.
    + split; [|by eexists]. intros _. exists O. split; [lia|]. by rewrite Nat.add_0_r.
Qed.

Lemma first_up_lt sqlDB from n i : first_up sqlDB from n = Some i -> (i < n)%nat.
Proof using Type.
  revert from i. induction n as [|n IH]; intros from i; simpl; [done|].
  destruct (sql_Ping drv sqlDB from); [|intros [= <-]; lia].
  intros (j & Hj & ->)%fmap_Some. apply IH in Hj. lia.
Qed.

(** What [p] pings leave in the trace, the first of them attempt number [attempt]. *)
Fixpoint schedule (backoff : duration) (attempt : Z) (p : nat) : list boot_event :=
  match p with
  | O => []
  | S p => Pinged pingTimeout ::
      match p with O => [] | _ => Slept (duration_mul attempt backoff) :: schedule backoff (attempt + 1) p end
  end.

Definition pings_made (sqlDB : SqlDB) (from n : nat) : nat :=
  match first_up sqlDB from n with Some i => S i | None => n end.

Lemma ping_loop_runs n fuel sqlDB attempts backoff attempt lastErr b :
  n = Z.to_nat (attempts - attempt + 1) -> 1 <= attempt <= attempts + 1 -> attempts < int64_max -> (n < fuel)%nat ->
  exists lastErr',
    ping_loop fuel sqlDB attempts backoff attempt lastErr b =
      (Some (if first_up sqlDB (b_pings b) n is Some _ then Connected else Exhausted lastErr'),
       mkBoot (b_addr b) (b_pings b + pings_made sqlDB (b_pings b) n)
         (b_trace b ++ schedule backoff attempt (pings_made sqlDB (b_pings b) n))).
Proof using Type.
  unfold pings_made. revert fuel attempt lastErr b. induction n as [|n IH]; intros fuel attempt lastErr b Hn Ha Hmax Hf;
    (destruct fuel as [|fuel]; [lia|]); simpl.
  - rewrite (proj2 (Z.leb_gt _ _)) by lia. exists lastErr. unfold mret. rewrite Nat.add_0_r, app_nil_r. by destruct b.
  - rewrite (proj2 (Z.leb_le _ _)) by lia. unfold mbind at 1, PingContext.
    destruct (sql_Ping drv sqlDB (b_pings b)) as [err|].
    2: { exists None. simpl. by rewrite Nat.add_1_r. }
    destruct (Z.ltb_spec attempt attempts) as [Hlt|Hge].
    + unfold mbind, record_, modify. simpl.
      rewrite wrap64_id by (unfold in_int64, int64_min, int64_max in *; lia).
      edestruct (IH fuel (attempt + 1) (Some err)) as (le & ->); [lia..|]. simpl. exists le.
      destruct n as [|n]; [lia|].
      destruct (first_up sqlDB (S (b_pings b)) (S n)) as [i|]; simpl;
        rewrite <- !app_assoc; simpl; repeat f_equal; lia.
    + unfold mbind, mret. simpl.
      assert (n = O) as -> by lia. destruct fuel as [|fuel]; [lia|]. simpl.
      rewrite wrap64_id by (unfold in_int64, int64_min, int64_max in *; lia).
      rewrite (proj2 (Z.leb_gt _ _)) by lia. exists (Some err). simpl. by rewrite Nat.add_1_r.
Qed.

Lemma pings_made_le sqlDB from n : (pings_made sqlDB from n <= n)%nat.
Proof using Type.
  unfold pings_made. destruct (first_up sqlDB from n) as [i|] eqn:Hi; [|done]. by apply first_up_lt in Hi.
Qed.

(** The fuel [pingAttempts] needs. *)
Definition enough_fuel : nat := 6.

Lemma pingWithRetry_runs fuel db sqlDB b :
  db_DB drv db = Ok sqlDB -> (enough_fuel <= fuel)%nat ->
  exists r b', pingWithRetry fuel db pingAttempts pingBackoff b = (Some r, b') /\
    (is_ok r = true <-> exists i, (i < 5)%nat /\ sql_Ping drv sqlDB (b_pings b + i) = None) /\
    b_trace b' = b_trace b ++ schedule pingBackoff 1 (pings_made sqlDB (b_pings b) 5).
Proof using Type.
  intros Hdb Hf. unfold enough_fuel in Hf.
  destruct (ping_loop_runs 5 fuel sqlDB pingAttempts pingBackoff 1 None b) as (le & Hrun);
    [done|by unfold pingAttempts|by vm_compute|lia|].
  unfold pingWithRetry. rewrite Hdb. unfold mbind at 1. rewrite Hrun.
  pose proof (first_up_Some sqlDB (b_pings b) 5) as Hup.
  destruct (first_up sqlDB (b_pings b) 5); [|destruct le]; unfold mbind, mret; simpl; do 2 eexists;
    (split; [reflexivity|]); simpl; (split; [|done]); rewrite <- Hup; split; try done; by intros [].
Qed.

(** How long a trace may take: a ping up to its timeout, a sleep its length. *)
Definition takes (ev : boot_event) : duration :=
  match ev with Pinged d | Slept d => d | _ => 0 end.
Definition elapsed (tr : list boot_event) : duration := foldr (fun ev t => takes ev + t) 0 tr.

Lemma elapsed_app tr tr' : elapsed (tr ++ tr') = elapsed tr + elapsed tr'.
Proof using Type. induction tr as [|ev tr IH]; simpl; [done|]. rewrite IH. lia. Qed.

Lemma schedule_elapsed sqlDB from : elapsed (schedule pingBackoff 1 (pings_made sqlDB from 5)) <= 30 * Second.
Proof using Type.
  pose proof (pings_made_le sqlDB from 5) as Hle. revert Hle. generalize (pings_made sqlDB from 5). intros p Hp.
  do 6 (destruct p as [|p]; [by vm_compute|]). lia.
Qed.

(** ** InitializeDatabase *)

(** The database types there are, and the dialect each stands for. *)
Inductive speaks : string -> dialect -> Prop :=
  | speaks_postgres : speaks "postgres" Postgres
  | speaks_sqlite : speaks "sqlite" SQLite
  | speaks_default : speaks "" SQLite.

Lemma speaks_unique type d d' : speaks type d -> speaks type d' -> d = d'.
Proof using Type. by do 2 inversion 1. Qed.

Definition open_result (cfg : Config F) (d : dialect) : result DB :=
  gorm_Open drv d (DSN (Database F cfg)) (gormLogLevel (LogLevel (Database F cfg))).

(** Opening the pool and setting its limits, in the trace. *)
Definition opening (cfg : Config F) (d : dialect) : list boot_event :=
  let dc := Database F cfg in
  [Opened d (DSN dc) (gormLogLevel (LogLevel dc)); SetMaxOpenConns (MaxOpenConns dc);
   SetMaxIdleConns (MaxIdleConns dc); SetConnMaxLifetime (ConnMaxLifetime dc)].

Definition plugin (cfg : Config F) : list boot_event := if Enabled F (Tracing F cfg) then [UsedPlugin] else [].

(** The four ways [open_pool] ends. *)
Inductive opened (cfg : Config F) (d : dialect) (from : nat) : result DB -> list boot_event -> Prop :=
  | NotOpened err err' : open_result cfg d = Err err' -> opened cfg d from (Err err) []
  | NoHandle db err err' : open_result cfg d = Ok db -> db_DB drv db = Err err' ->
      opened cfg d from (Err err) [Opened d (DSN (Database F cfg)) (gormLogLevel (LogLevel (Database F cfg)))]
  | NotTraced db sqlDB err err' : open_result cfg d = Ok db -> db_DB drv db = Ok sqlDB ->
      Enabled F (Tracing F cfg) = true -> db_Use drv db = Some err' ->
      opened cfg d from (Err err) (opening cfg d ++ [ClosedPool])
  | Unreachable db sqlDB err : open_result cfg d = Ok db -> db_DB drv db = Ok sqlDB ->
      (Enabled F (Tracing F cfg) = true -> db_Use drv db = None) -> first_up sqlDB from 5 = None ->
      opened cfg d from (Err err) (opening cfg d ++ plugin cfg ++ schedule pingBackoff 1 5 ++ [ClosedPool])
  | Reached db sqlDB i : open_result cfg d = Ok db -> db_DB drv db = Ok sqlDB ->
      (Enabled F (Tracing F cfg) = true -> db_Use drv db = None) -> first_up sqlDB from 5 = Some i ->
      opened cfg d from (Ok db) (opening cfg d ++ plugin cfg ++ schedule pingBackoff 1 (S i)).

Lemma CloseDatabase_runs db sqlDB b :
  db_DB drv db = Ok sqlDB ->
  (CloseDatabase (Some db) b).2 = mkBoot (b_addr b) (b_pings b) (b_trace b ++ [ClosedPool]).
Proof using Type. intros Hdb. unfold CloseDatabase. by rewrite Hdb. Qed.

Lemma install_tracing_runs cfg db sqlDB b :
  db_DB drv db = Ok sqlDB ->
  exists r b', install_tracing cfg db b = (r, b') /\ b_pings b' = b_pings b /\
    match r with
    | Ok _ => b_trace b' = b_trace b ++ plugin cfg /\ (Enabled F (Tracing F cfg) = true -> db_Use drv db = None)
    | Err _ => b_trace b' = b_trace b ++ [ClosedPool] /\
               Enabled F (Tracing F cfg) = true /\ exists err, db_Use drv db = Some err
    end.
Proof using Type.
  intros Hdb. unfold install_tracing, plugin. destruct (Enabled F (Tracing F cfg)).
  - destruct (db_Use drv db) as [err|]; [|by do 2 eexists].
    unfold mbind at 1. pose proof (CloseDatabase_runs db sqlDB b Hdb) as Hc.
    destruct (CloseDatabase (Some db) b) as [x b1]. simpl in Hc. subst b1. do 2 eexists. split; [reflexivity|]. eauto.
  - do 2 eexists. split; [reflexivity|]. by rewrite app_nil_r.
Qed.

Lemma verify_pool_runs fuel cfg d db sqlDB b tr :
  (enough_fuel <= fuel)%nat -> open_result cfg d = Ok db -> db_DB drv db = Ok sqlDB ->
  (Enabled F (Tracing F cfg) = true -> db_Use drv db = None) ->
  b_trace b = tr ++ opening cfg d ++ plugin cfg ->
  exists r b' tr', verify_pool fuel db b = (Some r, b') /\ b_trace b' = tr ++ tr' /\
    opened cfg d (b_pings b) r tr'.
Proof using Type.
  intros Hf Ho Hdb Huse Ht. unfold verify_pool, mbind at 1.
  destruct (pingWithRetry_runs fuel db sqlDB b Hdb Hf) as (r & b3 & -> & Hr & Ht3).
  rewrite <- first_up_Some in Hr. unfold pings_made in Ht3. rewrite Ht in Ht3.
  destruct (first_up sqlDB (b_pings b) 5) as [i|] eqn:Hi.
  - destruct r as [[]|err]; [|by destruct Hr as [_ Hr]; discriminate Hr; eexists].
    do 3 eexists. split; [reflexivity|]. split; [by rewrite Ht3, <- !app_assoc|]. by eapply Reached.
  - destruct r as [[]|err]; [by destruct Hr as [Hr _]; destruct (Hr eq_refl)|]. unfold mbind.
    pose proof (CloseDatabase_runs db sqlDB b3 Hdb) as Hc. destruct (CloseDatabase (Some db) b3) as [x b4].
    simpl in Hc. subst b4. do 3 eexists. split; [reflexivity|]. simpl.
    split; [by rewrite Ht3, <- !app_assoc|]. by eapply Unreachable.
Qed.

Lemma open_pool_runs fuel cfg d b :
  (enough_fuel <= fuel)%nat ->
  exists r b' tr, open_pool fuel cfg d b = (Some r, b') /\ b_trace b' = b_trace b ++ tr /\
    opened cfg d (b_pings b) r tr.
Proof using Type.
  intros Hf. unfold open_pool. change (gorm_Open drv d _ _) with (open_result cfg d).
  destruct (open_result cfg d) as [db|err] eqn:Ho.
  2: { do 3 eexists. split; [reflexivity|]. split; [by rewrite app_nil_r|]. by eapply NotOpened. }
  destruct (db_DB drv db) as [sqlDB|err] eqn:Hdb.
  2: { do 3 eexists. split; [reflexivity|]. split; [reflexivity|]. by eapply NoHandle. }
  unfold mbind at 1 2 3 4, record_, modify. set (b1 := mkBoot _ _ _).
  assert (Hb1 : b_trace b1 = b_trace b ++ opening cfg d) by (subst b1; simpl; by rewrite <- !app_assoc).
  change (b_pings b) with (b_pings b1). clearbody b1. unfold mbind.
  destruct (install_tracing_runs cfg db sqlDB b1 Hdb) as (r & b2 & -> & <- & Hr). destruct r as [[]|err].
  - destruct Hr as [Ht Huse]. eapply verify_pool_runs; try done. by rewrite Ht, Hb1, <- app_assoc.
  - destruct Hr as (Ht & He & err' & Hu). do 3 eexists. split; [reflexivity|].
    split; [by rewrite Ht, Hb1, <- app_assoc|]. by eapply NotTraced.
Qed.

Lemma InitializeDatabase_runs fuel cfg b :
  (enough_fuel <= fuel)%nat ->
  exists r b' tr, InitializeDatabase fuel cfg b = (Some r, b') /\ b_trace b' = b_trace b ++ tr /\
    ((exists d, speaks (Type_ (Database F cfg)) d /\ opened cfg d (b_pings b) r tr) \/
     ((forall d, ~ speaks (Type_ (Database F cfg)) d) /\ is_ok r = false /\ tr = [])).
Proof using Type.
  intros Hf.
  assert (Hopen : forall d, speaks (Type_ (Database F cfg)) d -> InitializeDatabase fuel cfg b = open_pool fuel cfg d b ->
    exists r b' tr, InitializeDatabase fuel cfg b = (Some r, b') /\ b_trace b' = b_trace b ++ tr /\
      ((exists d, speaks (Type_ (Database F cfg)) d /\ opened cfg d (b_pings b) r tr) \/
       ((forall d, ~ speaks (Type_ (Database F cfg)) d) /\ is_ok r = false /\ tr = []))).
  { intros d Hd ->. destruct (open_pool_runs fuel cfg d b Hf) as (r & b' & tr & H1 & H2 & H3).
    exists r, b', tr. split; [done|]. split; [done|]. left. by exists d. }
  revert Hopen. unfold InitializeDatabase, DatabaseTypePostgres, DatabaseTypeSQLite. intros Hopen.
  destruct (String.eqb_spec (Type_ (Database F cfg)) "postgres") as [Ht|Hp].
  { apply (Hopen Postgres); [rewrite Ht; constructor|done]. }
  destruct (String.eqb_spec (Type_ (Database F cfg)) "sqlite") as [Ht|Hs].
  { apply (Hopen SQLite); [rewrite Ht; constructor|done]. }
  destruct (String.eqb_spec (Type_ (Database F cfg)) "") as [Ht|He].
  { apply (Hopen SQLite); [rewrite Ht; constructor|done]. }
  do 3 eexists. split; [reflexivity|]. split; [by rewrite app_nil_r|]. right. split; [|done]. intros d Hd. by inversion Hd.
Qed.

Lemma opened_elapsed cfg d from r tr : opened cfg d from r tr -> elapsed tr <= 30 * Second.
Proof using Type.
  assert (Hs : forall sqlDB, elapsed (schedule pingBackoff 1 (pings_made sqlDB from 5)) <= 30 * Second)
    by (intros; apply schedule_elapsed).
  unfold pings_made in Hs. assert (Hp : elapsed (plugin cfg) = 0) by (unfold plugin; by destruct (Enabled _ _)).
  assert (Hq : elapsed (opening cfg d) = 0) by done. assert (Hc : elapsed [ClosedPool] = 0) by done.
  destruct 1 as [| | |db sqlDB err Ho Hd Hu Hi|db sqlDB i Ho Hd Hu Hi];
    [by vm_compute|by vm_compute|by rewrite elapsed_app; vm_compute| |].
  - specialize (Hs sqlDB). rewrite Hi in Hs. rewrite !elapsed_app. lia.
  - specialize (Hs sqlDB). rewrite Hi in Hs. rewrite !elapsed_app. lia.
Qed.

Lemma schedule_closed backoff attempt p : ClosedPool ∉ schedule backoff attempt p.
Proof using Type.
  revert attempt. induction p as [|p IH]; intros attempt; simpl; [apply not_elem_of_nil|].
  destruct p; rewrite !not_elem_of_cons; auto using not_elem_of_nil.
Qed.

(** C25.  Opening the database always comes to an end, within 30 seconds of pings and
    pauses, whatever the driver answers.  If it succeeds the pool is open; if it
    fails, a pool that was opened is closed again as the last thing that happens,
    unless gorm gives no handle to close it by. *)
Theorem initialize_database_terminates fuel cfg b :
  (enough_fuel <= fuel)%nat ->
  exists r b' tr, InitializeDatabase fuel cfg b = (Some r, b') /\ b_trace b' = b_trace b ++ tr /\
    elapsed tr <= 30 * Second /\
    match r with
    | Ok _ => ClosedPool ∉ tr
    | Err _ => tr = [] \/ last tr = Some ClosedPool \/
        exists d db err, speaks (Type_ (Database F cfg)) d /\ open_result cfg d = Ok db /\ db_DB drv db = Err err
    end.
Proof using Type.
  intros Hf. destruct (InitializeDatabase_runs fuel cfg b Hf) as (r & b' & tr & Hr & Ht & H).
  exists r, b', tr. split; [done|]. split; [done|]. destruct H as [(d & Hd & H)|(_ & Hr' & ->)].
  - split; [by eapply opened_elapsed|]. destruct H; [by left|right; right; by eauto 6|right; left..|].
    + by rewrite last_app.
    + by rewrite !last_app.
    + rewrite !not_elem_of_app. split; [unfold opening; rewrite !not_elem_of_cons; by conj; try apply not_elem_of_nil|].
      split; [|apply schedule_closed].
      unfold plugin. destruct (Enabled _ _); [|apply not_elem_of_nil]. by apply not_elem_of_cons; split; [|apply not_elem_of_nil].
  - split; [done|]. destruct r; [done|]. by left.
Qed.

(** A database that is still booting is waited for: with a supported type, a
    driver that opens and, where tracing is on, takes the plugin, the pool is handed
    out exactly if one of the next five pings is answered; the pool limits are set
    before the first of them, and the pauses between them are 500 ms, 1 s, 1.5 s and
    2 s. *)
Theorem initialize_database_connects fuel cfg d db sqlDB b :
  (enough_fuel <= fuel)%nat -> speaks (Type_ (Database F cfg)) d -> open_result cfg d = Ok db -> db_DB drv db = Ok sqlDB ->
  (Enabled F (Tracing F cfg) = true -> db_Use drv db = None) ->
  exists r b', InitializeDatabase fuel cfg b = (Some r, b') /\
    (r = Ok db <-> exists i, (i < 5)%nat /\ sql_Ping drv sqlDB (b_pings b + i) = None) /\
    (is_ok r = true -> exists p, (p <= 5)%nat /\
       b_trace b' = b_trace b ++ opening cfg d ++ plugin cfg ++
         take (2 * p - 1) [Pinged (5 * Second); Slept (500 * Millisecond); Pinged (5 * Second); Slept (1000 * Millisecond);
                           Pinged (5 * Second); Slept (1500 * Millisecond); Pinged (5 * Second); Slept (2000 * Millisecond);
                           Pinged (5 * Second)]).
Proof using Type.
  intros Hf Hd Ho Hdb Huse. destruct (InitializeDatabase_runs fuel cfg b Hf) as (r & b' & tr & Hr & Ht & H).
  destruct H as [(d' & Hd' & H)|(Hn & _)]; [|by destruct (Hn d)]. rewrite (speaks_unique _ _ _ Hd' Hd) in H.
  exists r, b'. split; [done|]. rewrite <- first_up_Some.
  destruct H as [| |db' sqlDB' err err' Ho' _ He Hu|db' sqlDB' err Ho' Hdb' _ Hi|db' sqlDB' i Ho' Hdb' _ Hi];
    try congruence.
  - specialize (Huse He). congruence.
  - assert (db' = db) as -> by congruence. assert (sqlDB' = sqlDB) as -> by congruence. rewrite Hi.
    split; [|done]. split; [done|by intros []].
  - assert (db' = db) as -> by congruence. assert (sqlDB' = sqlDB) as -> by congruence. rewrite Hi.
    split; [by split|]. intros _. exists (S i). apply first_up_lt in Hi. split; [lia|].
    rewrite Ht. do 3 f_equal. do 5 (destruct i as [|i]; [reflexivity|]). lia.
Qed.
End database.

(** ** Witnesses

    A database that refuses the first two pings, and one that refuses them all. *)

Definition booting : driver unit unit := mkDriver unit unit
  (fun _ _ _ => Ok tt) Ok (fun _ => None)
  (fun _ k => if (k <? 2)%nat then Some (EString 901 "connection refused") else None) (fun _ => None).

Definition unreachable : driver unit unit := mkDriver unit unit
  (fun _ _ _ => Ok tt) Ok (fun _ => None) (fun _ _ => Some (EString 901 "connection refused")) (fun _ => None).

Definition power_on : boot := mkBoot 1000 0 [].
Definition toy_cfg : Config toy_float := NewConfig toy_float strong.

Lemma initialize_database_terminates_witness :
  (exists err, (InitializeDatabase unit unit unreachable toy_float 6 toy_cfg power_on).1 =
     Some (Err (EWrap 1000 "database unreachable after 5 attempts" err))) /\
  exists r b' tr, InitializeDatabase unit unit unreachable toy_float 6 toy_cfg power_on = (Some r, b') /\
    b_trace b' = b_trace power_on ++ tr /\ elapsed tr <= 30 * Second.
Proof.
  split; [eexists; vm_compute; reflexivity|].
  destruct (initialize_database_terminates unit unit unreachable toy_float 6 toy_cfg power_on (le_n 6))
    as (r & b' & tr & Hr & Ht & He & _). by exists r, b', tr.
Defined.

Lemma initialize_database_connects_witness :
  exists b', InitializeDatabase unit unit booting toy_float 6 toy_cfg power_on = (Some (Ok tt), b').
Proof.
  destruct (initialize_database_connects unit unit booting toy_float 6 toy_cfg SQLite tt tt power_on
    (le_n 6) speaks_sqlite eq_refl eq_refl (fun _ => eq_refl)) as (r & b' & Hr & Hiff & _).
  rewrite Hr. exists b'. f_equal. f_equal. apply Hiff. exists 2%nat. split; [lia|reflexivity].
Defined.
