(* ===== verification/Testutil.v ===== *)
(** * internal/testutil: the harness of the program's tests

    A test is a computation that can end early, as [t.Fatalf] makes it, on the
    report of the test and the world of the start-up code.  The package makes an
    isolated, migrated database for a test, seeds it, and stands in for a
    transaction manager where the repositories are mocks.  The theorems: what a test
    gets with its database, that no two tests get the same, what seeding leaves, which
    cookie is found under a name; and that the stand-in is no transaction manager,
    which is why the rollback is tested elsewhere. *)

From S2P Require Import Prelude GoStd Apperr Model Gorm Effects Repository RepositoryLaws Testbed Script Token Http Migrate Startup.
#[local] Open Scope mig_scope.

Section testing.
Context (DB SqlDB : Type).

(** ** What the package uses of testing.T *)

Record T := mkT {
  t_Name : string;
  t_Failed : bool;
  t_Log : list string;
  t_Cleanups : list SqlDB     (* pools to be closed when the test is over, last first *)
}.

Abbreviation world := (T * (boot * database))%type.

(** [None]: [FailNow] has ended the test. *)
Definition Test (A : Type) : Type := Script world (option A).

Definition pure {A} (a : A) : Test A := mret (Some a).
Definition then_ {A B} (m : Test A) (f : A -> Test B) : Test B :=
  do* r := m in match r with Some a => f a | None => mret None end.

Definition report (msg : string) : Script world unit :=
  modify (fun w => (mkT (t_Name w.1) true (t_Log w.1 ++ [msg]) (t_Cleanups w.1), w.2)).

(** [t.Errorf] goes on, [t.Fatalf] does not. *)
Definition t_Errorf (msg : string) : Test unit := do* _ := report msg in pure tt.
Definition t_Fatalf {A} (msg : string) : Test A := do* _ := report msg in mret None.
Definition t_Cleanup (pool : SqlDB) : Test unit :=
  do* _ := modify (fun w => (mkT (t_Name w.1) (t_Failed w.1) (t_Log w.1) (pool :: t_Cleanups w.1), w.2)) in pure tt.

(** ** assert.go *)

Section assert.
(** How the verbs [%v] and [%#v] print a value. *)
Context {A : Type} {HA : EqDecision A} (v : A -> string).

Definition Equal (got want : A) (what : string) : Test unit :=
  if decide (got <> want) then t_Errorf (what +:+ ": got " +:+ v got +:+ ", want " +:+ v want) else pure tt.

(** On values the equality of which [reflect.DeepEqual] decides. *)
Definition DeepEqual (got want : A) (what : string) : Test unit :=
  if negb (bool_decide (got = want)) then t_Errorf (what +:+ ": got " +:+ v got +:+ ", want " +:+ v want) else pure tt.
End assert.

Definition True_ (cond : bool) (what : string) : Test unit :=
  if negb cond then t_Errorf (what +:+ ": expected true") else pure tt.

Definition NoError (err : option error) : Test unit :=
  match err with Some err => t_Fatalf ("unexpected error: " +:+ error_string err) | None => pure tt end.

Definition Error_ (err : option error) (what : string) : Test unit :=
  match err with None => t_Fatalf (what +:+ ": expected an error, got nil") | Some _ => pure tt end.

(** [errors.Is(nil, target)] is false for a target that is not nil. *)
Definition ErrorIs (err : option error) (target : error) : Test unit :=
  let found := match err with Some err => errors_Is err target | None => false end in
  let got := match err with Some err => error_string err | None => "<nil>" end in
  if negb found then t_Fatalf ("expected error " +:+ error_string target +:+ ", got " +:+ got) else pure tt.

(** ** db.go *)

Context (drv : driver DB SqlDB) (u : UUIDLib).
Context (e : env) (ddl_exec : forall A, nat -> ddl A -> schema -> result A * schema).

(** [strings.NewReplacer("/", "_", " ", "_").Replace] *)
Definition replace_byte (b : ascii) : ascii := if Ascii.eqb b "/" || Ascii.eqb b " " then "_"%char else b.
Definition Replace (s : string) : string := of_bytes (replace_byte <$> to_bytes s).

Definition test_dsn (name : string) (id : UUID) : string :=
  "file:" +:+ Replace name +:+ "_" +:+ uuid_String u id +:+ "?mode=memory&cache=shared&_pragma=foreign_keys(1)".

Definition of_boot {A} (m : Script boot A) : Test A := fun w => let '(a, b) := m w.2.1 in (Some a, (w.1, (b, w.2.2))).
Definition of_database {A} (m : Script database A) : Test A :=
  fun w => let '(a, d) := m w.2.2 in (Some a, (w.1, (w.2.1, d))).
Definition name_ : Test string := fun w => (Some (t_Name w.1), w).

Definition NewDB : Test DB :=
  then_ name_ (fun name =>
  then_ (of_database (lift e (perform OpUUID))) (fun id =>
  let dsn := test_dsn name id in
  match gorm_Open _ _ drv SQLite dsn Silent with
  | Err err => t_Fatalf ("opening test database: " +:+ error_string err)
  | Ok db =>
      then_ (of_boot (record_ (Opened SQLite dsn Silent))) (fun _ =>
      match db_DB _ _ drv db with
      | Err err => t_Fatalf ("getting underlying sql.DB: " +:+ error_string err)
      | Ok sqlDB =>
          then_ (of_boot (record_ (SetMaxOpenConns 1))) (fun _ =>
          then_ (t_Cleanup sqlDB) (fun _ =>
          then_ (of_database (Migrate e ddl_exec)) (fun migrated =>
          match migrated with
          | Err err => t_Fatalf ("migrating test database: " +:+ error_string err)
          | Ok _ => pure db
          end)))
      end)
  end)).

(** A row of any table: the [any] of the parameter list. *)
Inductive row :=
  | RUser (x : UserEntity)
  | RToken (x : RefreshTokenEntity)
  | RCounter (x : CounterEntity)
  | RMessage (x : MessageEntity).

(** [%T] of the pointer that is passed. *)
Definition type_name (r : row) : string :=
  match r with
  | RUser _ => "*entity.UserEntity"
  | RToken _ => "*entity.RefreshTokenEntity"
  | RCounter _ => "*entity.CounterEntity"
  | RMessage _ => "*entity.MessageEntity"
  end.

(** [db.Create(row)]: gorm writes what it has stored back to the row. *)
Definition create_as {R} (t : table R) (mk : R -> row) (x : R) : prog (result row) :=
  let! x := perform (OpSql Pool (Create t x)) onerr err => Ret (Err err) in Ret (Ok (mk x)).

Definition create_row (r : row) : prog (result row) :=
  match r with
  | RUser x => create_as TUsers RUser x
  | RToken x => create_as TTokens RToken x
  | RCounter x => create_as TCounters RCounter x
  | RMessage x => create_as TMessages RMessage x
  end.

(** The rows as the caller finds them afterwards. *)
Fixpoint MustCreate (rows : list row) : Test (list row) :=
  match rows with
  | [] => pure []
  | r :: rest =>
      then_ (of_database (lift e (create_row r))) (fun created =>
      match created with
      | Err err => t_Fatalf ("seeding " +:+ type_name r +:+ ": " +:+ error_string err)
      | Ok r => then_ (MustCreate rest) (fun rest => pure (r :: rest))
      end)
  end.

(** ** http.go: the parts that are not about JSON *)

(** [req.AddCookie]: the cookie comes after those the request has, and [c.Cookie]
    answers the first of a name. *)
Definition WithCookie (r : Request) (name value : string) : Request :=
  mkRequest (rq_Method r) (rq_Path r) (rq_FullPath r) (rq_RawQuery r) (rq_Header r)
    (fun k => match rq_Cookie r k with
              | Ok old => Ok old
              | Err err => if String.eqb k name then Ok value else Err err
              end)
    (rq_ClientIP r) (rq_TraceID r) (rq_SpanID r).

(** A run of the engine on a fresh context, and what the recorder holds. *)
Definition Do (engine : handler) (r : Request) : prog Ctx :=
  let* o := engine (mkGin r Background [] None None ∅ ∅ [] [] false) in Ret o.2.

Definition Cookies (rec : Ctx) : gmap string Cookie :=
  foldl (fun cookies cookie => <[ck_Name cookie := cookie]> cookies) ∅ (g_cookies rec).

(** ** tx.go *)

Definition PassthroughTx : TxManager := mkTxManager (fun _ ctx fn => fn ctx).

(** ** What a test gets *)

Lemma run_then {A B} (m : Test A) (f : A -> Test B) w :
  then_ m f w = match m w with (Some a, w1) => f a w1 | (None, w1) => (None, w1) end.
Proof using Type. unfold then_, mbind. by destruct (m w) as [[a|] w1]. Qed.

(** An assertion that does not end the test leaves the world alone, and marks the
    test as failed exactly if it does not hold. *)
Lemma equal_reports {A} {HA : EqDecision A} (v : A -> string) got want what w :
  exists t, Equal v got want what w = (Some tt, (t, w.2)) /\
    t_Failed t = t_Failed w.1 || negb (bool_decide (got = want)).
Proof using Type.
  unfold Equal. case_decide as Hd.
  - eexists. split; [reflexivity|]. rewrite bool_decide_false by done. cbn. by rewrite orb_true_r.
  - exists w.1. split; [by destruct w|]. rewrite bool_decide_true by done. by rewrite orb_false_r.
Qed.

(** And one that ends it lets nothing run that comes after. *)
Lemma error_is_guards {B} err target (k : Test B) w :
  (exists err', err = Some err' /\ errors_Is err' target = true) /\ then_ (ErrorIs err target) (fun _ => k) w = k w \/
  exists t, then_ (ErrorIs err target) (fun _ => k) w = (None, (t, w.2)) /\ t_Failed t = true.
Proof using Type.
  rewrite run_then. unfold ErrorIs. destruct err as [err|]; [|right; by eexists].
  destruct (errors_Is err target) eqn:His; [left|right; by eexists]. split; [by exists err|done].
Qed.

Context {HG : GormLaws e} {HD : DdlLaws ddl_exec}.

(** The databases of two tests are the same only if name and id are. *)
Theorem test_dsn_isolated name name' id id' :
  UUIDLaws u -> String.length (uuid_String u id) = String.length (uuid_String u id') ->
  test_dsn name id = test_dsn name' id' -> id = id' /\ Replace name = Replace name'.
Proof using Type.
  intros HU Hlen H. apply (f_equal to_bytes) in H. unfold test_dsn in H. rewrite !to_bytes_app in H.
  apply app_inv_head in H. rewrite !app_assoc in H. apply app_inv_tail in H.
  assert (Hl : forall s, length (to_bytes s) = String.length s) by (intros s; induction s; simpl; congruence).
  apply app_inj_2 in H as [Hn Hi]; [|by rewrite !Hl]. apply app_inv_tail in Hn. apply to_bytes_inj in Hi, Hn.
  split; [|done]. pose proof (uuid_Parse_String (u := u) id) as H1. rewrite Hi, (uuid_Parse_String (u := u)) in H1. congruence.
Qed.

(** What a failed test is told is not undone. *)
Lemma report_failed msg (w : world) : t_Failed (report msg w).2.1 = true.
Proof using Type. done. Qed.

(** A test that gets a database gets one pool of one connection, which is closed
    when the test is over, on a name of its own; a database that was empty has the
    whole schema and the rows every migrated database has.  Otherwise it has failed. *)
Theorem new_db_ready t b d r t' b' d' :
  NewDB (t, (b, d)) = (r, (t', (b', d'))) ->
  match r with
  | None => t_Failed t' = true
  | Some db => exists id sqlDB,
      db_DB _ _ drv db = Ok sqlDB /\ t_Cleanups t' = sqlDB :: t_Cleanups t /\ t_Failed t' = t_Failed t /\
      b_trace b' = b_trace b ++ [Opened SQLite (test_dsn (t_Name t) id) Silent; SetMaxOpenConns 1] /\
      (sc_ledger (d_schema d) = ∅ ->
         dom (sc_ledger (d_schema d')) = {[1; 2; 3]} /\ seeded (st_db (d_state d)) (st_db (d_state d')))
  end.
Proof using HG HD.
  unfold NewDB. rewrite run_then. cbn [name_ fst]. rewrite run_then. unfold of_database at 1. cbn [snd lift run perform exec_op fst].
  set (id := env_uuid e _). set (d1 := mkDb _ _).
  destruct (gorm_Open _ _ drv SQLite _ Silent) as [db|err]; [|by intros [= <- <- _ _]].
  rewrite run_then. unfold of_boot at 1. cbn [record_ modify fst snd].
  destruct (db_DB _ _ drv db) as [sqlDB|err] eqn:Hdb; [|by intros [= <- <- _ _]].
  rewrite run_then. unfold of_boot at 1. cbn [record_ modify fst snd].
  rewrite run_then. unfold t_Cleanup, mbind at 1. cbn [modify fst snd pure mret].
  rewrite run_then. unfold of_database at 1. cbn [fst snd].
  destruct (Migrate e ddl_exec d1) as [[[]|err] d2] eqn:Hm; [|by intros [= <- <- _ _]].
  intros [= <- <- <- <-]. exists id, sqlDB. split; [exact Hdb|]. split; [done|]. split; [done|].
  split; [cbn; by rewrite <- app_assoc|]. intros Hempty.
  by destruct (migrate_fresh_database e ddl_exec d1 d2 Hempty Hm) as (Hdom & _ & _ & Hseed).
Qed.

(** Rows inserted one after the other. *)
Definition insert_one {R} (t : table R) (x : R) (db db' : Tables) : Prop :=
  ~ collides t x (rows t db) /\ exists now, db' = set_rows t (<[pk t x := stamp_create t now x]> (rows t db)) db.

Definition inserts (r : row) : Tables -> Tables -> Prop :=
  match r with
  | RUser x => insert_one TUsers x
  | RToken x => insert_one TTokens x
  | RCounter x => insert_one TCounters x
  | RMessage x => insert_one TMessages x
  end.

Inductive inserted : list row -> Tables -> Tables -> Prop :=
  | inserted_nil db : inserted [] db db
  | inserted_cons r rs db db1 db2 : inserts r db db1 -> inserted rs db1 db2 -> inserted (r :: rs) db db2.

Lemma wp_create_as {R} (tb : table R) mk x s :
  wp e (create_as tb mk x) (fun r s' =>
    match r with Ok _ => insert_one tb x (st_db s) (st_db s') | Err _ => st_db s' = st_db s end) s.
Proof using HG.
  apply wp_bind. eapply wp_mono; [apply (wp_sql Pool (Create tb x))|].
  intros [y|err] s' (db' & Hg & Hs); apply wp_ret; rewrite (st_db_proper _ _ Hs); cbn.
  - destruct Hg as (Hc & now & -> & ->). split; [exact Hc|]. by exists now.
  - by destruct Hg as [-> _].
Qed.

Lemma wp_create_row r s :
  wp e (create_row r) (fun x s' =>
    match x with Ok _ => inserts r (st_db s) (st_db s') | Err _ => st_db s' = st_db s end) s.
Proof using HG. destruct r; apply wp_create_as. Qed.

(** Seeding inserts the rows in the order they are given; if a row cannot be
    inserted the test ends there, with the rows before it in place. *)
Theorem must_create_in_order rs t b d r t' b' d' :
  MustCreate rs (t, (b, d)) = (r, (t', (b', d'))) ->
  exists done rest, rs = done ++ rest /\ inserted done (st_db (d_state d)) (st_db (d_state d')) /\
    d_schema d' = d_schema d /\
    match r with
    | Some created => rest = [] /\ length created = length rs /\ t' = t
    | None => rest <> [] /\ t_Failed t' = true
    end.
Proof using HG.
  revert d r t' b' d'. induction rs as [|x rs IH]; intros d r t' b' d'; cbn [MustCreate].
  - intros [= <- <- _ <-]. exists [], []. split; [done|]. split; [constructor|]. done.
  - rewrite run_then. unfold of_database at 1, lift at 1. cbn [fst snd].
    pose proof (wp_create_row x (d_state d)) as Hw. unfold wp in Hw.
    destruct (run e (create_row x) (d_state d)) as [[y|err] s1]; cbn [fst snd] in *.
    + rewrite run_then. destruct (MustCreate rs _) as [r1 [t1 [b1 d1]]] eqn:Hr.
      apply IH in Hr as (dn & rest & -> & Hins & Hsch & Hrest). cbn in Hins, Hsch.
      destruct r1 as [created|]; intros [= <- <- _ <-]; exists (x :: dn), rest; (split; [done|]);
        (split; [by econstructor|]); (split; [exact Hsch|]); [|exact Hrest].
      destruct Hrest as (-> & Hlen & ->). cbn. by rewrite Hlen.
    + intros [= <- <- _ <-]. exists [], (x :: rs). split; [done|]. split; [cbn; rewrite Hw; constructor|]. done.
Qed.
End testing.

(** The cookie found under a name is the last one that was set. *)
Theorem cookies_last rec name :
  Cookies rec !! name = last (filter (fun c => ck_Name c = name) (g_cookies rec)).
Proof.
  unfold Cookies. generalize (g_cookies rec) as cs. apply rev_ind; [done|]. intros c cs IH.
  rewrite foldl_app, filter_app, last_app, filter_cons, filter_nil. cbn [foldl].
  case_decide as Hc; [subst name; cbn; by rewrite lookup_insert_eq|]. rewrite lookup_insert_ne by done. exact IH.
Qed.

(** ** The stand-in for a transaction manager *)

(** Inside a transaction it does what the manager does: it joins. *)
Lemma passthrough_joins X ctx tx (fn : context -> prog (result X)) :
  ctx_value ctx = Some tx ->
  tm_WithinTx PassthroughTx X ctx fn = tm_WithinTx (GORM.NewGORMTxManager Pool) X ctx fn.
Proof. intros Hc. simpl. unfold GORM.Tx_WithinTx, Dbtx.From_. by rewrite Hc. Qed.

(** Outside it keeps nothing of the manager's promise: what a unit of work wrote
    before it failed stays. *)
Theorem passthrough_is_no_transaction : ~ TxManagerLaws good_env PassthroughTx.
Proof.
  intros HL. set (m := mkMessage 7 "default" "hello" time_zero time_zero).
  set (fn := fun ctx => let! _ := GORM.sql Pool ctx (Create TMessages m) onerr err => Ret (Err err) in
                        Ret (@Err unit (EString 1 "afterwards"))).
  assert (HQ : wp good_env (tm_WithinTx PassthroughTx unit Background fn)
    (fun r s' => forall err, r = Err err -> st_db s' = empty_tables) (start empty_tables)).
  { apply (tm_outermost_law (tm := PassthroughTx)); [done|intros err s' Hs err' _; exact (st_db_proper _ _ Hs)|].
    intros ctx' s1 Hc Hs1. unfold fn, GORM.sql. apply wp_bind.
    change (Dbtx.Conn ctx' Pool) with (conn_of ctx'). rewrite Hc.
    eapply wp_mono; [apply (wp_sql InTx (Create TMessages m))|]. intros r s2 (db' & _ & Hs2).
    assert (Hdb : st_db s2 = empty_tables) by (rewrite (st_db_proper _ _ Hs2); exact (st_db_proper _ _ Hs1)).
    destruct r as [x|err]; apply wp_ret; (split; [intros err' s' Hs err2 _; rewrite (st_db_proper _ _ Hs); exact Hdb|done]). }
  unfold wp in HQ. assert (Hbad : t_messages (st_db (run good_env (tm_WithinTx PassthroughTx unit Background fn) (start empty_tables)).2)
    !! 7%N <> None) by (vm_compute; discriminate).
  apply Hbad. rewrite (HQ (EString 1 "afterwards")); [done|vm_compute; reflexivity].
Qed.
