(* ===== verification/Telemetry.v ===== *)
(** * internal/logging and internal/tracing

    The root logger and what travels with a context; the set-up of OpenTelemetry;
    and the gorm plugin that makes a span of every statement.  log/slog is part of
    the standard library and modelled as far as it is used; OpenTelemetry is a
    parameter, and what the code does to it is the list of calls it makes. *)

From stdpp Require Import pretty.
From S2P Require Import Prelude GoStd Apperr Script Model Gorm Effects Repository Config Startup.
#[local] Open Scope mig_scope.

(** ** internal/logging *)

Module Logging.

Definition slog_level (l : level) : Z :=
  match l with Debug => -4 | Info => 0 | Warn => 4 | LError => 8 end.

Inductive format := TextHandler | JSONHandler.

(** A [*slog.Logger]: its handler's format, its threshold and its writer, [None]
    for [os.Stdout]. *)
Record Logger := mkLogger { lg_format : format; lg_level : level; lg_out : option nat }.

Record Options := mkOptions { op_Level : string; op_Format : string; op_Output : option nat }.

Definition ParseLevel (s : string) : level :=
  let s := ToLower (TrimSpace s) in
  if String.eqb s "debug" then Debug
  else if String.eqb s "warn" || String.eqb s "warning" then Warn
  else if String.eqb s "error" then LError
  else Info.

Definition New (opts : Options) : Logger :=
  mkLogger (if EqualFold (op_Format opts) "text" then TextHandler else JSONHandler)
    (ParseLevel (op_Level opts)) (op_Output opts).

(** Whether the handler writes a record of this level. *)
Definition Enabled_ (l : Logger) (lvl : level) : bool := slog_level (lg_level l) <=? slog_level lvl.

(** The value a context holds under [ctxKey]; a nil context holds nothing. *)
Definition lctx : Type := option (option Logger).

Definition Into (ctx : lctx) (l : option Logger) : lctx :=
  match l with None => ctx | Some l => Some (Some l) end.

Definition FromContext (default : Logger) (ctx : lctx) : Logger :=
  match ctx with Some (Some l) => l | _ => default end.

Lemma from_into default ctx l : FromContext default (Into ctx (Some l)) = l.
Proof. reflexivity. Qed.

End Logging.

(** ** internal/tracing/tracing.go *)

Module Tracing_.
Section tracing.
Context (F : Float64).

Record Config_ := mkConfig_ {
  tc_Enabled : bool; tc_ServiceName : string; tc_ServiceVersion : string; tc_Environment : string;
  tc_Exporter : string; tc_Endpoint : string; tc_Insecure : bool; tc_SampleRatio : float F
}.

(** The exporters of the SDK, and [resource.Merge(resource.Default(), custom)]. *)
Context (SpanExporter : Type) (stdouttrace_New : bool -> result SpanExporter)
        (otlptracehttp_New : string -> bool -> result SpanExporter)
        (Merge : list (string * string) -> result (list (string * string))).

Definition newExporter (cfg : Config_) : Script boot (result SpanExporter) :=
  let exporter := ToLower (tc_Exporter cfg) in
  if String.eqb exporter ExporterConsole || String.eqb exporter "stdout" then mret (stdouttrace_New true)
  else if String.eqb exporter ExporterOTLP || String.eqb exporter "" then
    mret (otlptracehttp_New (tc_Endpoint cfg) (tc_Insecure cfg))
  else
    do* err := boot_error ("unsupported trace exporter " +:+ Quote (tc_Exporter cfg) +:+ " (want " +:+
      Quote ExporterOTLP +:+ " or " +:+ Quote ExporterConsole +:+ ")") in
    mret (Err err).

Definition newResource (cfg : Config_) : list (string * string) :=
  let attrs := [("service.name", tc_ServiceName cfg); ("service.version", tc_ServiceVersion cfg)] in
  let attrs := if negb (String.eqb (tc_Environment cfg) "")
               then attrs ++ [("deployment.environment.name", tc_Environment cfg)] else attrs in
  match Merge attrs with Err _ => attrs | Ok merged => merged end.

(** A [ShutdownFunc]: [noop], or that of a provider. *)
Inductive ShutdownFunc := Noop | ProviderShutdown (e : SpanExporter) (resource : list (string * string)) (ratio : float F).

Definition Init (cfg : Config_) : Script boot (ShutdownFunc * option error) :=
  do* _ := record_ PropagatorsInstalled in
  if negb (tc_Enabled cfg) then mret (Noop, None)
  else
    do* r := newExporter cfg in
    match r with
    | Err err => mret (Noop, Some err)
    | Ok exporter =>
        do* _ := record_ (TracerInstalled ("ParentBased{" +:+ float_v F (tc_SampleRatio cfg) +:+ "}")) in
        mret (ProviderShutdown exporter (newResource cfg) (tc_SampleRatio cfg), None)
    end.
End tracing.

(** *** The accessors

    [trace.SpanContextFromContext], and the validity and text of its ids. *)
Section accessors.
Context (Ctx_ SpanContext : Type) (SpanContextFromContext : Ctx_ -> SpanContext)
        (TraceID_IsValid SpanID_IsValid : SpanContext -> bool) (TraceID_String SpanID_String : SpanContext -> string).

Definition TraceIDFromContext (ctx : Ctx_) : string :=
  let spanCtx := SpanContextFromContext ctx in
  if negb (TraceID_IsValid spanCtx) then "" else TraceID_String spanCtx.

Definition SpanIDFromContext (ctx : Ctx_) : string :=
  let spanCtx := SpanContextFromContext ctx in
  if negb (SpanID_IsValid spanCtx) then "" else SpanID_String spanCtx.
End accessors.

(** *** Calls on spans *)

Inductive span_call (Span : Type) :=
  | StartSpan (name : string) (kind : string)
  | SetAttrs (s : Span) (attrs : list (string * string))
  | SpanRecordError (s : Span) (err : error)
  | SetStatusError (s : Span) (description : string)
  | EndSpan (s : Span).
Arguments StartSpan {Span}.
Arguments SetAttrs {Span}.
Arguments SpanRecordError {Span}.
Arguments SetStatusError {Span}.
Arguments EndSpan {Span}.

Section spans.
(** A context, the span it carries, whether its span context is valid, whether a
    span is recording, and what [Tracer.Start] makes of a context and a name. *)
Context (Ctx_ Span : Type) (SpanFromContext : Ctx_ -> Span) (IsValid : Ctx_ -> bool) (IsRecording : Span -> bool)
        (Start : Ctx_ -> string -> Ctx_).

Definition RecordError (ctx : Ctx_) (err : error) (description : string) : list (span_call Span) :=
  let span := SpanFromContext ctx in
  if negb (IsRecording span) then [] else [SpanRecordError span err; SetStatusError span description].

Definition SetAttributes (ctx : Ctx_) (attrs : list (string * string)) : list (span_call Span) :=
  let span := SpanFromContext ctx in
  if negb (IsRecording span) then [] else [SetAttrs span attrs].

(** ** internal/tracing/gorm.go *)

(** What a callback sees of a [*gorm.DB]. *)
Record Statement := mkStatement {
  stm_Context : option Ctx_; stm_Table : string; stm_SQL : string; stm_Vars : list string; stm_RowsAffected : Z
}.
Record DB := mkGormDB { gd_Statement : option Statement; gd_Error : option error; gd_Dialector : string }.

Definition spanName (operation table : string) : string :=
  if String.eqb table "" then "gorm." +:+ operation else "gorm." +:+ operation +:+ " " +:+ table.

Definition with_context (ctx : Ctx_) (db : DB) (st : Statement) : DB :=
  mkGormDB (Some (mkStatement (Some ctx) (stm_Table st) (stm_SQL st) (stm_Vars st) (stm_RowsAffected st)))
    (gd_Error db) (gd_Dialector db).

Definition startSpan (operation : string) (db : DB) : DB * list (span_call Span) :=
  match gd_Statement db with
  | None => (db, [])
  | Some st =>
      match stm_Context st with
      | None => (db, [])
      | Some ctx =>
          if negb (IsValid ctx) then (db, [])
          else let name := spanName operation (stm_Table st) in
               (with_context (Start ctx name) db st, [StartSpan name "client"])
      end
  end.

Definition endSpan (db : DB) : list (span_call Span) :=
  match gd_Statement db with
  | None => []
  | Some st =>
      match stm_Context st with
      | None => []
      | Some ctx =>
          let span := SpanFromContext ctx in
          if negb (IsRecording span) then [] else
          [SetAttrs span [("db.system", gd_Dialector db); ("db.statement", stm_SQL st);
                          ("db.sql.table", stm_Table st); ("db.rows_affected", pretty (stm_RowsAffected st))]] ++
          match gd_Error db with
          | Some err => if negb (errors_Is err ErrRecordNotFound)
                        then [SpanRecordError span err; SetStatusError span (error_string err)] else []
          | None => []
          end ++ [EndSpan span]
      end
  end.

(** [Initialize]: the callbacks, by the processor and the gorm callback they run
    before or after. *)
Inductive callback := BeforeSpan (operation : string) | AfterSpan.

Definition registrations : list (string * string * callback) :=
  [("gorm:create", "otel:before_create", BeforeSpan "create"); ("gorm:create", "otel:after_create", AfterSpan);
   ("gorm:query", "otel:before_query", BeforeSpan "query"); ("gorm:query", "otel:after_query", AfterSpan);
   ("gorm:update", "otel:before_update", BeforeSpan "update"); ("gorm:update", "otel:after_update", AfterSpan);
   ("gorm:delete", "otel:before_delete", BeforeSpan "delete"); ("gorm:delete", "otel:after_delete", AfterSpan);
   ("gorm:row", "otel:before_row", BeforeSpan "row"); ("gorm:row", "otel:after_row", AfterSpan);
   ("gorm:raw", "otel:before_raw", BeforeSpan "raw"); ("gorm:raw", "otel:after_raw", AfterSpan)].

(** [errors.Join] of what [Register] answers. *)
Definition Initialize (Register : string -> string -> callback -> option error) : list error :=
  omap (fun r => Register r.1.1 r.1.2 r.2) registrations.

(** A statement of the processor [operation], between its two callbacks. *)
Definition traced (operation : string) (statement : DB -> DB) (db : DB) : list (span_call Span) :=
  let '(db1, calls) := startSpan operation db in calls ++ endSpan (statement db1).

(** *** What a span says of a statement *)

(** A context without a valid span context carries a span that does not record. *)
Definition noop_span : Prop := forall ctx, IsValid ctx = false -> IsRecording (SpanFromContext ctx) = false.

(** Executing a statement leaves its context alone. *)
Definition keeps_context (statement : DB -> DB) : Prop := forall db,
  (st ← gd_Statement (statement db); stm_Context st) = (st ← gd_Statement db; stm_Context st).

(** Everything of a statement but the values bound to its parameters. *)
Definition without_vars (db : DB) : DB :=
  mkGormDB ((fun st => mkStatement (stm_Context st) (stm_Table st) (stm_SQL st) [] (stm_RowsAffected st)) <$> gd_Statement db)
    (gd_Error db) (gd_Dialector db).

Lemma endSpan_without_vars db : endSpan (without_vars db) = endSpan db.
Proof using Type. destruct db as [[[]|] err d]; reflexivity. Qed.

Lemma startSpan_without_vars operation db :
  startSpan operation (without_vars db) = (without_vars (startSpan operation db).1, (startSpan operation db).2).
Proof using Type.
  destruct db as [[[[ctx|] table sql vars n]|] err d]; unfold startSpan, without_vars; simpl; try done.
  by destruct (IsValid ctx).
Qed.

(** A statement outside a trace makes no call at all; inside one it starts one
    child span of its context and, if that span is recording, ends it, and never
    ends any other. *)
Lemma traced_calls operation statement db :
  noop_span -> keeps_context statement ->
  match (st ← gd_Statement db; ctx ← stm_Context st; Some (st, ctx)) with
  | Some (st, ctx) =>
      if IsValid ctx then
        let span := SpanFromContext (Start ctx (spanName operation (stm_Table st))) in
        exists calls, traced operation statement db = StartSpan (spanName operation (stm_Table st)) "client" :: calls /\
          (EndSpan span ∈ calls <-> IsRecording span = true) /\ forall s, EndSpan s ∈ calls -> s = span
      else traced operation statement db = []
  | None => traced operation statement db = []
  end.
Proof using Type.
  intros Hnoop Hkeep. unfold traced, startSpan.
  assert (Hend : forall db1, (st ← gd_Statement db1; stm_Context st) = None -> endSpan (statement db1) = []).
  { intros db1 Hnone. specialize (Hkeep db1). rewrite Hnone in Hkeep. unfold endSpan.
    destruct (gd_Statement (statement db1)) as [st|]; [|done]. simpl in Hkeep. by rewrite Hkeep. }
  destruct (gd_Statement db) as [st|] eqn:Hst; simpl; [|rewrite Hend; [done|by rewrite Hst]].
  destruct (stm_Context st) as [ctx|] eqn:Hctx; simpl; [|rewrite Hend; [done|by rewrite Hst]].
  destruct (IsValid ctx) eqn:Hv; simpl.
  - set (ctx1 := Start ctx _). set (db1 := with_context ctx1 db st).
    exists (endSpan (statement db1)). split; [done|].
    specialize (Hkeep db1). simpl in Hkeep. unfold endSpan.
    destruct (gd_Statement (statement db1)) as [st1|]; [|done]. simpl in Hkeep. rewrite Hkeep.
    destruct (IsRecording _); simpl.
    + split; [split; [done|intros _]|].
      * apply elem_of_cons. right. apply elem_of_app. right. by apply list_elem_of_singleton.
      * intros s. rewrite elem_of_cons, elem_of_app, list_elem_of_singleton.
        intros [Hs|[Hs|Hs]]; [done| |congruence]. exfalso.
        destruct (gd_Error _) as [err|]; [|by apply elem_of_nil in Hs].
        destruct (errors_Is _ _); simpl in Hs; [by apply elem_of_nil in Hs|].
        rewrite !elem_of_cons, elem_of_nil in Hs. by destruct Hs as [|[]].
    + split; [split; [by intros ?%elem_of_nil|done]|]. by intros s ?%elem_of_nil.
  - specialize (Hkeep db). rewrite Hst in Hkeep. simpl in Hkeep. unfold endSpan.
    destruct (gd_Statement (statement db)) as [st1|]; [|done]. simpl in Hkeep. rewrite Hkeep, Hctx.
    by rewrite Hnoop.
Qed.

(** C35.  The parameters of a statement never reach a span: two statements that
    differ only in the values bound to them, before and after they are executed, make
    the same calls on the tracer, whatever the values.  (The text of an error is
    recorded, so a driver that quotes a value in its error still shows it.) *)
Theorem spans_reveal_no_variables operation statement statement' db db' :
  (forall d d', without_vars d = without_vars d' -> without_vars (statement d) = without_vars (statement' d')) ->
  without_vars db = without_vars db' ->
  traced operation statement db = traced operation statement' db'.
Proof using Type.
  intros Hst Hdb. unfold traced.
  pose proof (startSpan_without_vars operation db) as H1. pose proof (startSpan_without_vars operation db') as H2.
  rewrite Hdb, H2 in H1. destruct (startSpan operation db) as [d1 calls], (startSpan operation db') as [d2 calls'].
  apply pair_equal_spec in H1 as [Hd Hc]. cbn [fst snd] in Hd, Hc. subst calls'. f_equal.
  by rewrite <- (endSpan_without_vars (statement d1)), <- (endSpan_without_vars (statement' d2)), (Hst d1 d2).
Qed.
End spans.
End Tracing_.

(** ** Witnesses

    A tracer whose contexts and spans are numbers: 0 is no span, and starting one
    adds one. *)

Definition toy_traced : string -> (Tracing_.DB nat -> Tracing_.DB nat) -> Tracing_.DB nat -> list (Tracing_.span_call nat) :=
  Tracing_.traced nat nat (fun ctx => ctx) (fun ctx => (0 <? ctx)%nat) (fun span => (0 <? span)%nat) (fun ctx _ => S ctx).

(** A lookup of a user by address, with the address as its parameter. *)
Definition lookup_of (email : string) : Tracing_.DB nat :=
  Tracing_.mkGormDB nat (Some (Tracing_.mkStatement nat (Some 7%nat) "user_entities" "" [email] 0)) None "postgres".

(** gorm writes the text with a placeholder, and finds no row. *)
Definition select_user (db : Tracing_.DB nat) : Tracing_.DB nat :=
  Tracing_.mkGormDB nat ((fun st => Tracing_.mkStatement nat (Tracing_.stm_Context nat st) (Tracing_.stm_Table nat st)
    "SELECT * FROM user_entities WHERE email = $1" (Tracing_.stm_Vars nat st) 0) <$> Tracing_.gd_Statement nat db)
    (Some ErrRecordNotFound) (Tracing_.gd_Dialector nat db).

Lemma spans_reveal_no_variables_witness :
  toy_traced "query" select_user (lookup_of "ann@example.org") = toy_traced "query" select_user (lookup_of "bob@example.org") /\
  length (toy_traced "query" select_user (lookup_of "ann@example.org")) = 3%nat.
Proof.
  split; [|reflexivity].
  apply (Tracing_.spans_reveal_no_variables nat nat (fun ctx => ctx) (fun ctx => (0 <? ctx)%nat)
    (fun span => (0 <? span)%nat) (fun ctx _ => S ctx)); [|reflexivity].
  intros [[[]|] err d] [[[]|] err' d']; unfold Tracing_.without_vars, select_user; simpl; congruence.
Defined.
