(* ===== verification/Observability.v ===== *)
(** * internal/observability: the instruments and the admin listener

    The Prometheus registry as the numbers the two instruments hold; what the gin
    middleware records there; and the routes and timeouts of the listener that
    serves it.  net/http's mux is part of the standard library and modelled for
    clean paths.  Serving a scrape and the profiles is left to the libraries. *)

From stdpp Require Import pretty.
From S2P Require Import Prelude GoStd Apperr Model Gorm Effects Repository RepositoryLaws Testbed Http Middleware Handlers.

(** ** metrics.go *)

(** The samples of [http_requests_total] by method, route and status, and of
    [http_request_duration_seconds] by method and route. *)
Record Metrics := mkMetrics {
  requests : gmap (string * string * string) nat;
  durations : gmap (string * string) (list duration)
}.

(** [NewMetricsWithRegistry]: both instruments registered, and empty. *)
Definition NewMetricsWithRegistry : Metrics := mkMetrics ∅ ∅.

(** A request that was counted: its labels and how long it took. *)
Record observation := mkObs { ob_method : string; ob_route : string; ob_status : string; ob_elapsed : duration }.

(** [WithLabelValues(...).Inc()] and [WithLabelValues(...).Observe(...)]. *)
Definition Observe (m : Metrics) (o : observation) : Metrics :=
  mkMetrics
    (partial_alter (fun n => Some (S (default O n))) (ob_method o, ob_route o, ob_status o) (requests m))
    (partial_alter (fun l => Some (default [] l ++ [ob_elapsed o])) (ob_method o, ob_route o) (durations m)).

(** The registry after a sequence of counted requests. *)
Definition collected (os : list observation) : Metrics := foldl Observe NewMetricsWithRegistry os.

Definition labels (o : observation) : string * string * string := (ob_method o, ob_route o, ob_status o).

(** ** pprof.go and server.go *)

Definition PprofPrefix : string := "/debug/pprof/".
Definition MetricsPath : string := "/metrics".
Definition HealthPath : string := "/healthz".

Inductive admin_endpoint := AHealth | AMetrics | PIndex | PCmdline | PProfile | PSymbol | PTrace.

(** A [*http.ServeMux]: patterns and their handlers. *)
Definition ServeMux : Type := list (string * admin_endpoint).

Definition RegisterPprof (mux : ServeMux) : ServeMux :=
  mux ++ [(PprofPrefix, PIndex); (PprofPrefix +:+ "cmdline", PCmdline); (PprofPrefix +:+ "profile", PProfile);
          (PprofPrefix +:+ "symbol", PSymbol); (PprofPrefix +:+ "trace", PTrace)].

Record AdminConfig := mkAdminConfig {
  ac_MetricsEnabled : bool; ac_PprofEnabled : bool; ac_Host : string; ac_Port : Z;
  ac_ReadTimeout : duration; ac_WriteTimeout : duration; ac_IdleTimeout : duration
}.

Definition DefaultHost : string := "127.0.0.1".
Definition DefaultPort : Z := 9090.
Definition defaultReadTimeout : duration := 15 * Second.
Definition defaultWriteTimeout : duration := 15 * Second.
Definition defaultIdleTimeout : duration := 60 * Second.
Definition pprofMinWriteTimeout : duration := 35 * Second.

(** [net.JoinHostPort] *)
Definition JoinHostPort (host port : string) : string :=
  if bool_decide (":"%char ∈ to_bytes host) then "[" +:+ host +:+ "]:" +:+ port else host +:+ ":" +:+ port.

Definition Admin_Addr (c : AdminConfig) : string :=
  let host := if String.eqb (ac_Host c) "" then DefaultHost else ac_Host c in
  let port := if ac_Port c =? 0 then DefaultPort else ac_Port c in
  JoinHostPort host (Itoa port).

Definition Admin_Enabled (c : AdminConfig) : bool := ac_MetricsEnabled c || ac_PprofEnabled c.

(** [metrics] is nil when it is [None]. *)
Definition NewAdminMux (cfg : AdminConfig) (metrics : option Metrics) : ServeMux :=
  let mux := [(HealthPath, AHealth)] in
  let mux := if ac_MetricsEnabled cfg && bool_decide (is_Some metrics) then mux ++ [(MetricsPath, AMetrics)] else mux in
  if ac_PprofEnabled cfg then RegisterPprof mux else mux.

Record HTTPServer := mkHTTPServer {
  as_Addr : string; as_Handler : ServeMux;
  as_ReadTimeout : duration; as_WriteTimeout : duration; as_IdleTimeout : duration
}.

Definition NewAdminServer (cfg : AdminConfig) (metrics : option Metrics) : option HTTPServer :=
  if negb (Admin_Enabled cfg) then None else
  let read := if ac_ReadTimeout cfg <=? 0 then defaultReadTimeout else ac_ReadTimeout cfg in
  let idle := if ac_IdleTimeout cfg <=? 0 then defaultIdleTimeout else ac_IdleTimeout cfg in
  let write := if ac_WriteTimeout cfg <=? 0 then defaultWriteTimeout else ac_WriteTimeout cfg in
  let write := if ac_PprofEnabled cfg && (write <? pprofMinWriteTimeout) then pprofMinWriteTimeout else write in
  Some (mkHTTPServer (Admin_Addr cfg) (NewAdminMux cfg metrics) read write idle).

(** *** Dispatch of net/http *)

(** A pattern that ends in a slash matches every path below it, any other pattern
    only itself; of the patterns that match, the longest decides. *)
Definition pattern_matches (pattern path : string) : bool :=
  match last (to_bytes pattern) with
  | Some b => if Ascii.eqb b "/" then HasPrefix path pattern else String.eqb pattern path
  | None => false
  end.

Definition longer (best : option (string * admin_endpoint)) (entry : string * admin_endpoint)
  : option (string * admin_endpoint) :=
  match best with
  | Some b => if (String.length b.1 <? String.length entry.1)%nat then Some entry else best
  | None => Some entry
  end.

Definition serve (mux : ServeMux) (path : string) : option admin_endpoint :=
  snd <$> foldl longer None (filter (fun entry => pattern_matches entry.1 path = true) mux).

(** ** What is counted *)

Definition total (os : list observation) (l : string * string * string) : nat :=
  length (filter (fun o => labels o = l) os).

Definition elapsed_of (os : list observation) (method route : string) : list duration :=
  ob_elapsed <$> filter (fun o => ob_method o = method /\ ob_route o = route) os.

Lemma collected_snoc os o : collected (os ++ [o]) = Observe (collected os) o.
Proof. unfold collected. by rewrite foldl_app. Qed.

Lemma collected_requests os l : default O (requests (collected os) !! l) = total os l.
Proof.
  induction os as [|o os IH] using rev_ind; [done|]. rewrite collected_snoc. unfold total in *. simpl.
  rewrite filter_app, length_app, filter_cons, filter_nil. fold (labels o). destruct (decide (labels o = l)) as [<-|Hne].
  - rewrite lookup_partial_alter_eq, <- IH. simpl. lia.
  - rewrite lookup_partial_alter_ne by done. rewrite <- IH. simpl. lia.
Qed.

Lemma collected_series os l : is_Some (requests (collected os) !! l) -> exists o, o ∈ os /\ labels o = l.
Proof.
  induction os as [|o os IH] using rev_ind; [by intros []|]. rewrite collected_snoc. simpl. fold (labels o).
  destruct (decide (labels o = l)) as [<-|Hne].
  - intros _. exists o. split; [apply elem_of_app; right; by apply list_elem_of_singleton|done].
  - rewrite lookup_partial_alter_ne by done. intros (o' & Ho' & Hl)%IH. exists o'. split; [|done].
    apply elem_of_app. by left.
Qed.

Lemma collected_durations os method route :
  default [] (durations (collected os) !! (method, route)) = elapsed_of os method route.
Proof.
  induction os as [|o os IH] using rev_ind; [done|]. rewrite collected_snoc. unfold elapsed_of in *. simpl.
  rewrite filter_app, fmap_app, filter_cons, filter_nil.
  destruct (decide (ob_method o = method /\ ob_route o = route)) as [[<- <-]|Hne].
  - by rewrite lookup_partial_alter_eq, <- IH.
  - rewrite lookup_partial_alter_ne by (intros [= ??]; by apply Hne). by rewrite IH, app_nil_r.
Qed.

(** What the middleware hands to the instruments once the handlers are done. *)
Definition observation_of (c : Ctx) (elapsed : duration) : observation :=
  mkObs (rq_Method (g_req c))
    (if String.eqb (rq_FullPath (g_req c)) "" then RouteUnmatched else rq_FullPath (g_req c))
    (Itoa (status_of c)) elapsed.

Lemma Metrics_Middleware_observes observe next c :
  Metrics_Middleware observe next c =
    let* start := perform OpNow in
    let* r := next c in
    match r with
    | (Panicked v, c) => Ret (Panicked v, c)
    | (Done, c) =>
        let* now := perform OpNow in
        let o := observation_of c (time_Sub now start) in
        let* _ := observe (ob_method o) (ob_route o) (ob_status o) (ob_elapsed o) in
        finish c
    end.
Proof. reflexivity. Qed.

(** The registry counts: each counter stands at the number of requests with its
    method, route and status, each histogram holds their times in order; and as gin
    reports the pattern of the matched route or nothing, no request can add a route
    label beyond those of the route table and [unmatched]. *)
Theorem metrics_count_requests (done_ : list (Ctx * duration)) :
  let os := (fun cd => observation_of cd.1 cd.2) <$> done_ in
  Forall (fun cd => rq_FullPath (g_req cd.1) ∈ "" :: (rt_path <$> every_route)) done_ ->
  (forall l, default O (requests (collected os) !! l) = total os l) /\
  (forall method route, default [] (durations (collected os) !! (method, route)) = elapsed_of os method route) /\
  (forall method route status, is_Some (requests (collected os) !! (method, route, status)) ->
     route ∈ RouteUnmatched :: (rt_path <$> every_route)).
Proof.
  intros os Hpaths. split; [apply collected_requests|]. split; [apply collected_durations|].
  intros method route status (o & Ho & Hl)%collected_series.
  apply list_elem_of_fmap in Ho as ([c d] & -> & Hin). rewrite Forall_forall in Hpaths. specialize (Hpaths _ Hin).
  injection Hl as <- <- <-. simpl in *. apply elem_of_cons in Hpaths as [->|Hp]; [by left|].
  destruct (String.eqb_spec (rq_FullPath (g_req c)) "") as [He|He]; [by left|by right].
Qed.

(** The method label is the request's method as the client sent it: every new one is
    a new time series, matched or not. *)
Theorem methods_are_not_bounded n :
  exists os, length os = n /\ Forall (fun o => ob_route o = RouteUnmatched) os /\
    size (requests (collected os)) = n.
Proof.
  set (obs k := mkObs (String.string_of_list_ascii (replicate k "A"%char)) RouteUnmatched "404" 0).
  exists (obs <$> seq 0 n). split; [by rewrite length_fmap, length_seq|]. split.
  { apply Forall_fmap, Forall_true. done. }
  induction n as [|n IH]; [done|]. rewrite seq_S, fmap_app. simpl. rewrite collected_snoc. simpl.
  assert (Hnone : requests (collected (obs <$> seq 0 n)) !! labels (obs n) = None).
  { apply eq_None_not_Some. intros (o & (k & -> & Hk)%list_elem_of_fmap & Hl)%collected_series.
    apply elem_of_seq in Hk. injection Hl as Hl. apply (f_equal to_bytes) in Hl. rewrite !to_of_bytes in Hl.
    apply (f_equal length) in Hl. rewrite !length_replicate in Hl. lia. }
  assert (Hpa : forall m : gmap (string * string * string) nat, m !! labels (obs n) = None ->
    partial_alter (fun n => Some (S (default O n))) (labels (obs n)) m = <[labels (obs n) := 1%nat]> m).
  { intros m Hm. apply partial_alter_ext. intros x <-. by rewrite Hm. }
  fold (labels (obs n)). rewrite Hpa, map_size_insert_None, IH by done. done.
Qed.

(** ** What the admin listener serves *)

(** The pprof routes, by path. *)
Definition profile_of (path : string) : admin_endpoint :=
  if String.eqb path (PprofPrefix +:+ "cmdline") then PCmdline
  else if String.eqb path (PprofPrefix +:+ "profile") then PProfile
  else if String.eqb path (PprofPrefix +:+ "symbol") then PSymbol
  else if String.eqb path (PprofPrefix +:+ "trace") then PTrace
  else PIndex.

(** The patterns that match one path. *)
Definition admin_paths : list string :=
  [HealthPath; MetricsPath; PprofPrefix +:+ "cmdline"; PprofPrefix +:+ "profile"; PprofPrefix +:+ "symbol"; PprofPrefix +:+ "trace"].

Lemma serve_mux cfg metrics path :
  serve (NewAdminMux cfg metrics) path =
    if String.eqb path HealthPath then Some AHealth
    else if String.eqb path MetricsPath then
      (if ac_MetricsEnabled cfg && bool_decide (is_Some metrics) then Some AMetrics else None)
    else if HasPrefix path PprofPrefix then (if ac_PprofEnabled cfg then Some (profile_of path) else None)
    else None.
Proof.
  assert (Hknown : path ∈ admin_paths \/ path ∉ admin_paths) by (destruct (decide (path ∈ admin_paths)); auto).
  destruct Hknown as [Hin|Hout].
  - unfold admin_paths in Hin. rewrite !elem_of_cons, elem_of_nil in Hin.
    destruct cfg as [me pe h p r w i], me, pe, metrics as [m|]; simpl;
      repeat destruct Hin as [->|Hin]; try reflexivity; done.
  - assert (Hne : forall p, p ∈ admin_paths -> String.eqb p path = false /\ String.eqb path p = false).
    { intros p Hp. rewrite !String.eqb_neq. split; congruence. }
    unfold serve, NewAdminMux, RegisterPprof, profile_of.
    assert (Hf : forall pattern (e : admin_endpoint) mux, pattern ∈ admin_paths ->
      filter (fun entry : string * admin_endpoint => pattern_matches entry.1 path = true) ((pattern, e) :: mux) =
      filter (fun entry => pattern_matches entry.1 path = true) mux).
    { intros pattern e mux Hp. rewrite filter_cons, decide_False; [done|]. simpl.
      assert (Hpm : pattern_matches pattern path = String.eqb pattern path).
      { revert Hp. unfold admin_paths. rewrite !elem_of_cons, elem_of_nil.
        intros Hp. repeat destruct Hp as [->|Hp]; done. }
      rewrite Hpm. destruct (Hne pattern Hp) as [-> _]. done. }
    rewrite (proj2 (Hne HealthPath ltac:(by apply (bool_decide_unpack _); vm_compute))).
    rewrite (proj2 (Hne MetricsPath ltac:(by apply (bool_decide_unpack _); vm_compute))).
    rewrite !(fun p H => proj2 (Hne p H)) by (by apply (bool_decide_unpack _); vm_compute).
    assert (Hp : forall p, bool_decide (p ∈ admin_paths) = true -> p ∈ admin_paths) by (intros p; by rewrite bool_decide_eq_true).
    assert (Hprefix : pattern_matches PprofPrefix path = HasPrefix path PprofPrefix) by done.
    destruct (ac_PprofEnabled cfg), (_ && _); cbn [app]; rewrite !Hf by (apply Hp; vm_compute; reflexivity);
      rewrite ?(filter_cons _ (PprofPrefix, PIndex)); cbn [fst]; rewrite ?Hprefix;
      destruct (HasPrefix path PprofPrefix); try (rewrite decide_True by done); try (rewrite decide_False by done);
      rewrite ?Hf by (apply Hp; vm_compute; reflexivity); done.
Qed.

(** The admin listener exists exactly if metrics or profiling is on; it answers
    its liveness path, serves metrics on their path only and only if they are on, and
    profiles below their prefix only and only if they are on, nothing else; all its
    timeouts are positive, and with profiling a 30-second profile fits. *)
Theorem admin_surface cfg metrics :
  (NewAdminServer cfg metrics = None <-> ac_MetricsEnabled cfg = false /\ ac_PprofEnabled cfg = false) /\
  forall srv, NewAdminServer cfg metrics = Some srv ->
    0 < as_ReadTimeout srv /\ 0 < as_WriteTimeout srv /\ 0 < as_IdleTimeout srv /\
    (ac_PprofEnabled cfg = true -> 30 * Second < as_WriteTimeout srv) /\
    forall path, serve (as_Handler srv) path =
      if String.eqb path HealthPath then Some AHealth
      else if String.eqb path MetricsPath then
        (if ac_MetricsEnabled cfg && bool_decide (is_Some metrics) then Some AMetrics else None)
      else if HasPrefix path PprofPrefix then (if ac_PprofEnabled cfg then Some (profile_of path) else None)
      else None.
Proof.
  unfold NewAdminServer, Admin_Enabled. split.
  - destruct (ac_MetricsEnabled cfg), (ac_PprofEnabled cfg); simpl; split; try done; by intros [].
  - destruct (negb _) eqn:Hen; [done|]. intros srv [= <-]. cbn [as_ReadTimeout as_WriteTimeout as_IdleTimeout as_Handler].
    split; [destruct (Z.leb_spec (ac_ReadTimeout cfg) 0); [by vm_compute|lia]|].
    split; [|split; [destruct (Z.leb_spec (ac_IdleTimeout cfg) 0); [by vm_compute|lia]|]].
    + destruct (Z.leb_spec (ac_WriteTimeout cfg) 0); destruct (ac_PprofEnabled cfg); cbn [andb];
        [by vm_compute|by vm_compute| |lia].
      destruct (Z.ltb_spec (ac_WriteTimeout cfg) pprofMinWriteTimeout); [by vm_compute|lia].
    + split; [|apply serve_mux]. intros ->. cbn [andb]. generalize (if ac_WriteTimeout cfg <=? 0 then defaultWriteTimeout else ac_WriteTimeout cfg).
      intros w. assert (Hw : 30 * Second < pprofMinWriteTimeout) by by vm_compute.
      destruct (Z.ltb_spec w pprofMinWriteTimeout); lia.
Qed.

(** ** Witnesses *)

(** Profiling on, metrics off, everything else left at its zero value. *)
Definition profiling : AdminConfig := mkAdminConfig false true "" 0 0 0 0.

Lemma admin_surface_witness :
  exists srv, NewAdminServer profiling None = Some srv /\ as_Addr srv = "127.0.0.1:9090" /\
    30 * Second < as_WriteTimeout srv /\
    serve (as_Handler srv) "/debug/pprof/heap" = Some PIndex /\ serve (as_Handler srv) "/metrics" = None.
Proof.
  eexists. split; [reflexivity|]. split; [vm_compute; reflexivity|].
  destruct (proj2 (admin_surface profiling None) _ eq_refl) as (_ & _ & _ & Hw & Hs).
  split; [by apply Hw|]. rewrite !Hs. split; vm_compute; reflexivity.
Defined.

(** Two requests to the counter and one to nowhere. *)
Definition counted : Ctx := toy_ctx (toy_request "GET" [] []).
Definition lost : Ctx := toy_ctx (mkRequest "BREW" "/coffee" "" "" (fun _ => "") (fun _ => Err (EString 1 "")) "203.0.113.7" "" "").

Lemma metrics_count_requests_witness :
  let os := (fun cd => observation_of cd.1 cd.2) <$> [(counted, 3); (lost, 1); (counted, 4)] in
  default O (requests (collected os) !! ("GET", "/api/v1/counter", "200")) = 2%nat /\
  default [] (durations (collected os) !! ("GET", "/api/v1/counter")) = [3; 4].
Proof.
  intros os. destruct (metrics_count_requests [(counted, 3); (lost, 1); (counted, 4)]) as (Hc & Hd & _).
  - apply (bool_decide_unpack _). vm_compute. exact I.
  - subst os. cbv zeta in Hc, Hd. rewrite Hc, Hd. split; vm_compute; reflexivity.
Defined.
