(* ===== verification/App.v ===== *)
(** * internal/di: the application put together

    The middleware chain of [newRouter], the handlers [NewContainer] wires up,
    dispatch over the route table, the janitor and [Close].  gin's routing, the
    CORS and tracing middlewares and the instruments are parameters.  The theorems
    speak of whole requests: every one is answered in the envelope under one id,
    and a path asked for with the wrong method is answered 404. *)

From S2P Require Import Prelude GoStd Apperr Model Gorm Effects Repository RepositoryLaws Testbed Token Csrf UserService UserSpec Accounts Counters Http Middleware Health Handlers Config.

(** ** Secrets *)

Definition devAccessSecret : string := "dev-access-secret-DO-NOT-USE-IN-PRODUCTION".
Definition devRefreshSecret : string := "dev-refresh-secret-DO-NOT-USE-IN-PRODUCTION".
Definition devCSRFSecret : string := "dev-csrf-secret-DO-NOT-USE-IN-PRODUCTION".

Definition orDefault (value fallback : string) : string := if String.eqb value "" then fallback else value.

(** ** Routing *)

(** What gin makes of a method and a path. *)
Inductive routing := Matched (r : route) | WrongMethod | Unmatched | Redirected.

(** gin's router over static paths: [route_of handleMethodNotAllowed routes method path]. *)
Definition Router : Type := bool -> list route -> string -> string -> routing.

(** Its documentation: a registered method and path match their route and nothing
    else does; a path that only other methods have is told apart from an unknown
    one if [HandleMethodNotAllowed] is set. *)
Class GinRouting (route_of : Router) : Prop := {
  routing_hit b rs r : NoDup ((fun r => (rt_method r, rt_path r)) <$> rs) -> r ∈ rs ->
    route_of b rs (rt_method r) (rt_path r) = Matched r;
  routing_sound b rs m p r : route_of b rs m p = Matched r -> r ∈ rs /\ rt_method r = m /\ rt_path r = p;
  routing_wrong_method b rs m p : route_of b rs m p = WrongMethod -> b = true
}.

Section app.
Context (F : Float64) (cfg : Config F) (j : JWT) (u : UUIDLib).
(** Third-party middlewares, instruments and limiters; [metrics] is nil when they
    are off. *)
Context (otel cors : middleware) (metrics : option (string -> string -> string -> duration -> prog unit))
        (limiter authLimiter : Limiter).
(** What slog and gin know of a request. *)
Context (base : list (string * string)) (stack : string) (print_ms : duration -> string)
        (size_of : Ctx -> Z) (errors_of : Ctx -> option string) (hasBody : bool).

Definition when (b : bool) (m : middleware) : list middleware := if b then [m] else [].

(** [newRouter]: the chain in front of every handler. *)
Definition newRouter : list middleware :=
  when (Enabled F (Tracing F cfg)) otel ++
  [RequestID u base; Recovery stack] ++
  match metrics with Some observe => [Metrics_Middleware observe] | None => [] end ++
  [AccessLog print_ms size_of errors_of; SecurityHeaders (DevMode (Auth F cfg)); cors;
   BodyLimit (MaxRequestBody F (Security F cfg)) hasBody] ++
  when (RateLimitEnabled F (Security F cfg)) (RateLimit limiter) ++
  [Timeout (RequestTimeout (Server F cfg))].

(** gin.New leaves the flag off, and [newRouter] does not set it. *)
Definition HandleMethodNotAllowed : bool := false.

Definition authRateLimiter : middleware :=
  if negb (RateLimitEnabled F (Security F cfg)) then fun next c => next c else RateLimit authLimiter.

(** ** NewContainer *)

Definition tokenConfig : TokenConfig :=
  mkTokenConfig (orDefault (JWTAccessSecret (Auth F cfg)) devAccessSecret) (AccessTokenTTL (Auth F cfg))
    (orDefault (JWTRefreshSecret (Auth F cfg)) devRefreshSecret) (RefreshTokenTTL (Auth F cfg)).
Definition tokenService_ : TokenService := NewTokenService j (uuid_String u) tokenConfig.
Definition csrfService_ : csrfService :=
  NewCSRFService (orDefault (CSRFSecret (Auth F cfg)) devCSRFSecret) (CSRFTokenTTL (Auth F cfg)).
Definition userService_ : userService :=
  NewUserService (GORM.NewGORMUserRepository Pool) (GORM.NewGORMRefreshTokenRepository Pool (uuid_String u))
    tokenService_ (GORM.NewGORMTxManager Pool) (RefreshTokenTTL (Auth F cfg)).
Definition userHandler : UserHandler :=
  mkUserHandler (user_service u userService_) (GenerateToken csrfService_)
    (mkCookieConfig (AccessTokenTTL (Auth F cfg)) (RefreshTokenTTL (Auth F cfg)) (negb (DevMode (Auth F cfg)))).
Definition counterService_ : counterService := NewCounterService (GORM.NewGORMCounterRepository Pool).
Definition messageService_ : messageService := NewMessageService (GORM.NewGORMMessageRepository Pool).

(** [platform.PingCheck(db)], and [time.Time.Format]. *)
Context (PingCheck : context -> prog (result unit)) (format : time -> string).

(** What gin's binding makes of the request, for the handlers that ask. *)
Record bound := mkBound {
  in_Register : result RegisterUserRequest;
  in_Login : result LoginRequest;
  in_ChangePassword : result ChangePasswordRequest;
  in_Pagination : result Pagination
}.

Definition endpoint_handler (i : bound) (ep : endpoint) : handler :=
  match ep with
  | EGetMessage => handle_GetMessage messageService_
  | ERegister => handle_Register userHandler (in_Register i)
  | ELogin => handle_Login userHandler (in_Login i)
  | ERefresh => handle_Refresh userHandler
  | EGetCSRFToken => handle_GetCSRFToken userHandler
  | EGetMe => handle_GetMe u userHandler
  | EListSessions => handle_ListSessions u userHandler (in_Pagination i)
  | ELogout => handle_Logout u userHandler
  | EChangePassword => handle_ChangePassword u userHandler (in_ChangePassword i)
  | EDeleteAccount => handle_DeleteAccount u userHandler
  | EGetCounter => handle_GetCounter counterService_
  | EIncrementCounter => handle_IncrementCounter counterService_
  | EReady => handle_Ready [("database", PingCheck)]
  | ECheck => handle_Check format
  end.

Definition guard_middleware (g : guard) : middleware :=
  match g with
  | GAuthLimiter => authRateLimiter
  | GAuth => AuthMiddleware u tokenService_
  | GCSRF => CSRFMiddleware (ValidateToken csrfService_)
  end.

(** The handler of a route, behind its guards. *)
Definition route_handler (i : bound) (r : route) : handler :=
  chain (guard_middleware <$> rt_guards r) (endpoint_handler i (rt_endpoint r)).

Context (route_of : Router).

(** One request; [as_] is what becomes of its handler, below.  gin answers a redirect
    itself, before any middleware. *)
Definition dispatch_as (as_ : handler -> handler) (i : bound) (redirect : handler) : handler := fun c =>
  match route_of HandleMethodNotAllowed every_route (rq_Method (g_req c)) (rq_Path (g_req c)) with
  | Matched r => chain newRouter (as_ (route_handler i r)) c
  | WrongMethod => chain newRouter (as_ NoMethod) c
  | Unmatched => chain newRouter (as_ NoRoute) c
  | Redirected => redirect c
  end.

Definition dispatch : bound -> handler -> handler := dispatch_as (fun h => h).

(** ** One answer to every request, under one id *)

(** The context carries [id], the response header repeats it, and every error body
    written so far does. *)
Definition tagged (id : string) (c : Ctx) : Prop :=
  GetRequestID c = id /\ g_headers c !! RequestIDHeader = Some id /\
  Forall (fun w => Success w.2 = false -> RequestIDField w.2 = id) (g_writes c).

(** A body was written. *)
Definition written (c : Ctx) : Prop := g_writes c <> [].

(** Nothing but errors was written. *)
Definition errors_only (c : Ctx) : Prop := Forall (fun w => Success w.2 = false /\ 400 <= w.1) (g_writes c).

(** It was answered: with a body, or without one by the CORS middleware, which aborts
    preflights and requests from other origins. *)
Definition replied (c : Ctx) : Prop := written c \/ (rq_Header (g_req c) "Origin" <> "" /\ g_aborted c = true).

(** [c1] is [c] with more of what no middleware's contract mentions. *)
Definition decorated (c c1 : Ctx) : Prop :=
  g_req c1 = g_req c /\ g_writes c1 = g_writes c /\ g_keys c1 !! RequestIDCtxKey = g_keys c !! RequestIDCtxKey /\
  g_headers c1 !! RequestIDHeader = g_headers c !! RequestIDHeader.

#[local] Opaque Fail.

Context (e : env).

(** What a computation that ends in a context promises of its outcome, whatever the
    state; and a handler, given a context that satisfies [P]. *)
Definition ends (Q : outcome -> Ctx -> Prop) (p : prog (outcome * Ctx)) : Prop :=
  forall s, Q (run e p s).1.1 (run e p s).1.2.
Definition promises (P : Ctx -> Prop) (Q : outcome -> Ctx -> Prop) (h : handler) : Prop := forall c, P c -> ends Q (h c).

(** A promise that the middlewares can hand on: what they do themselves keeps it. *)
Class HandedOn (P : Ctx -> Prop) (Q : outcome -> Ctx -> Prop) : Prop := {
  on_decorated c c1 : decorated c c1 -> P c -> P c1;
  on_refusal status msg c : 400 <= status -> P c -> Q Done (abortWithError status msg c);
  on_panic v msg c : Q (Panicked v) c -> Q Done (abortWithError 500 msg c);
  on_cors c c1 : P c -> decorated c c1 -> rq_Header (g_req c) "Origin" <> "" -> g_aborted c1 = true -> Q Done c1
}.

Definition transparent (m : middleware) : Prop :=
  forall P Q, HandedOn P Q -> forall next, promises P Q next -> promises P Q (m next).

Lemma abort_written status msg c : g_writes (abortWithError status msg c) <> [].
Proof using Type. simpl. by destruct (g_writes c). Qed.

(** A tagged answer: the tag is kept, and unless the rest panicked it was answered. *)
Definition sound (id : string) (o : outcome) (c : Ctx) : Prop := tagged id c /\ (o = Done -> replied c).

Lemma decorated_tagged id c c1 : decorated c c1 -> tagged id c -> tagged id c1.
Proof using Type.
  intros (_ & Hw & Hk & Hh) (H1 & H2 & H3). unfold tagged, GetRequestID, stringFromContext in *. by rewrite Hw, Hk, Hh.
Qed.

Lemma abort_sound id status msg c : tagged id c -> sound id Done (abortWithError status msg c).
Proof using Type.
  intros (Hk & Hh & Hw). split; [|intros _; left; apply abort_written].
  split; [done|]. split; [done|]. simpl. apply Forall_app. by repeat constructor.
Qed.

#[local] Instance sound_handed_on id : HandedOn (tagged id) (sound id).
Proof using Type.
  split.
  - intros c c1. apply decorated_tagged.
  - intros status msg c _. apply abort_sound.
  - intros v msg c [Hc _]. by apply abort_sound.
  - intros c c1 Hc Hd Ho Ha. split; [by eapply decorated_tagged|]. intros _. right. by destruct Hd as [-> _].
Qed.

#[local] Instance errors_handed_on : HandedOn errors_only (fun _ => errors_only).
Proof using Type.
  assert (Habort : forall status msg c, 400 <= status -> errors_only c -> errors_only (abortWithError status msg c)).
  { intros status msg c Hs Hc. unfold errors_only. simpl. apply Forall_app. split; [done|]. by apply Forall_singleton. }
  split.
  - intros c c1 (_ & Hw & _). unfold errors_only. by rewrite Hw.
  - auto.
  - intros v msg c. by apply Habort.
  - intros c c1 Hc (_ & Hw & _) _ _. unfold errors_only. by rewrite Hw.
Qed.

Lemma ends_ret Q o c : Q o c -> ends Q (Ret (o, c)).
Proof using Type. by intros H s. Qed.

Lemma ends_bind {A} Q (p : prog A) f : (forall a, ends Q (f a)) -> ends Q (bind p f).
Proof using Type. intros H s. rewrite run_bind. destruct (run e p s). apply H. Qed.

Lemma ends_next Q Q' (p : prog (outcome * Ctx)) f :
  ends Q p -> (forall o c, Q o c -> ends Q' (f (o, c))) -> ends Q' (bind p f).
Proof using Type.
  intros Hp Hf s. rewrite run_bind. specialize (Hp s). destruct (run e p s) as [[o c] s']. by apply Hf.
Qed.

(** *** The handlers *)

(** A tagged context in which a body was written. *)
Definition said (id : string) (c : Ctx) : Prop := tagged id c /\ written c.

Lemma tagged_cookie id k c : tagged id c -> tagged id (with_cookie k c).
Proof using Type. done. Qed.

Lemma said_cookie id k c : said id c -> said id (with_cookie k c).
Proof using Type. done. Qed.

Lemma said_JSON id status r c : tagged id c -> (Success r = false -> RequestIDField r = id) -> said id (JSON status r c).
Proof using Type.
  intros (Hk & Hh & Hw) Hr. split; [|unfold written; simpl; by destruct (g_writes c)].
  split; [done|]. split; [done|]. simpl. apply Forall_app. by repeat constructor.
Qed.

Lemma said_abort id status r c :
  tagged id c -> (Success r = false -> RequestIDField r = id) -> said id (AbortWithStatusJSON status r c).
Proof using Type. apply said_JSON. Qed.

Lemma tagged_id id c : tagged id c -> GetRequestID c = id.
Proof using Type. by intros []. Qed.

Abbreviation says id := (ends (fun _ => said id)).

Lemma says_fail id c err : tagged id c -> says id (fail_with c err).
Proof using Type.
  intros Hc s. unfold fail_with. rewrite run_bind. destruct (run_Fail e c err s) as (s' & -> & _). simpl.
  apply said_abort; [done|]. intros _. simpl. by apply tagged_id.
Qed.

Lemma says_bound {T} id (b : result T) c (k : T -> prog (outcome * Ctx)) :
  tagged id c -> (forall req, says id (k req)) ->
  says id (let* r := BindJSON c b in match r with inr c => finish c | inl req => k req end).
Proof using Type.
  intros Hc Hk s. rewrite run_bind. pose proof (run_BindJSON e c b s) as Hb. destruct b as [req|err].
  - rewrite Hb. apply Hk.
  - destruct Hb as (err' & s' & -> & _). simpl. apply said_abort; [done|]. intros _. simpl. by apply tagged_id.
Qed.

Lemma says_page id (b : result Pagination) c (k : Pagination -> prog (outcome * Ctx)) :
  tagged id c -> (forall page, says id (k page)) ->
  says id (let* r := BindPagination c b in match r with inr c => finish c | inl page => k page end).
Proof using Type.
  intros Hc Hk s. rewrite run_bind. unfold BindPagination. destruct b as [page|err]; [apply Hk|].
  simpl. rewrite run_bind.
  match goal with |- context [run e (Fail c ?err') ?s'] => destruct (run_Fail e c err' s') as (s2 & -> & _) end.
  simpl. apply said_abort; [done|]. intros _. simpl. by apply tagged_id.
Qed.

(** Closes [says id p] for a program built from service calls, [Fail] and answers. *)
Ltac say_ :=
  repeat first
    [ assumption
    | apply says_fail; assumption
    | apply says_page; [assumption|intros ?]
    | apply says_bound; [assumption|intros ?]
    | apply ends_ret
    | apply tagged_cookie
    | apply said_JSON; [|discriminate]
    | apply said_abort; [|intros _; simpl; by apply tagged_id]
    | apply said_cookie
    | apply ends_bind; intros [?|?]
    | apply ends_bind; intros ? ].

Lemma endpoint_says i ep id : promises (tagged id) (fun _ => said id) (endpoint_handler i ep).
Proof using Type.
  intros c Hc. destruct ep; simpl.
  all: unfold handle_GetMessage, handle_Register, handle_Login, handle_Refresh, handle_GetCSRFToken, handle_GetMe,
    handle_ListSessions, handle_Logout, handle_ChangePassword, handle_DeleteAccount, handle_GetCounter,
    handle_IncrementCounter, handle_Ready, handle_Check, unauthorized, finish, OK, OKWithMeta, setAuthCookies,
    clearAuthCookies.
  all: try (say_; fail).
  - destruct (rq_Cookie (g_req c) RefreshTokenCookie); say_.
  - say_. destruct (negb _); say_.
Qed.

(** *** The middlewares *)

Lemma decorated_refl c : decorated c c.
Proof using Type. done. Qed.

Lemma decorated_header k v c c1 : k <> RequestIDHeader -> decorated c c1 -> decorated c (with_header k v c1).
Proof using Type. intros Hk (H1 & H2 & H3 & H4). repeat split; try done. simpl. by rewrite lookup_insert_ne. Qed.

Lemma decorated_key k v c c1 : k <> RequestIDCtxKey -> decorated c c1 -> decorated c (with_key k v c1).
Proof using Type. intros Hk (H1 & H2 & H3 & H4). repeat split; try done. simpl. by rewrite lookup_insert_ne. Qed.

Lemma chain_promises P Q ms h : HandedOn P Q -> Forall transparent ms -> promises P Q h -> promises P Q (chain ms h).
Proof using Type. intros HPQ. induction 1 as [|m ms Hm _ IH]; [done|]. intros Hh. apply Hm; [done|]. by apply IH. Qed.

Lemma auth_transparent ts : transparent (AuthMiddleware u ts).
Proof using Type.
  intros P Q HPQ next Hn c Hc. unfold AuthMiddleware. destruct (rq_Cookie _ _); [|by apply ends_ret, on_refusal].
  apply ends_bind. intros [claims|err]; [|by apply ends_ret, on_refusal]. apply Hn. eapply on_decorated; [|exact Hc].
  by repeat (apply decorated_key; [discriminate|]).
Qed.

Lemma csrf_transparent validate : transparent (CSRFMiddleware validate).
Proof using Type.
  intros P Q HPQ next Hn c Hc. unfold CSRFMiddleware. destruct (changes_state _); [|by apply Hn].
  destruct (String.eqb _ ""); [by apply ends_ret, on_refusal|]. apply ends_bind.
  intros [|]; simpl; [by apply Hn|by apply ends_ret, on_refusal].
Qed.

Lemma limit_transparent l : transparent (RateLimit l).
Proof using Type.
  intros P Q HPQ next Hn c Hc. unfold RateLimit. apply ends_bind. intros [|]; simpl; [by apply Hn|by apply ends_ret, on_refusal].
Qed.

Lemma auth_limit_transparent : transparent authRateLimiter.
Proof using Type. unfold authRateLimiter. destruct (negb _); [by intros P Q HPQ next Hn|apply limit_transparent]. Qed.

Lemma recovery_transparent : transparent (Recovery stack).
Proof using Type.
  intros P Q HPQ next Hn c Hc. unfold Recovery. eapply ends_next; [by apply Hn|].
  intros [|v] c1 Hc1; [by apply ends_ret|]. apply ends_bind. intros _. apply ends_ret. by eapply on_panic.
Qed.

Lemma metrics_transparent observe : transparent (Metrics_Middleware observe).
Proof using Type.
  intros P Q HPQ next Hn c Hc. unfold Metrics_Middleware. apply ends_bind. intros start.
  eapply ends_next; [by apply Hn|]. intros [|v] c1 Hc1; [|by apply ends_ret].
  apply ends_bind. intros now. apply ends_bind. intros _. by apply ends_ret.
Qed.

Lemma access_log_transparent : transparent (AccessLog print_ms size_of errors_of).
Proof using Type.
  intros P Q HPQ next Hn c Hc. unfold AccessLog. apply ends_bind. intros start.
  eapply ends_next; [by apply Hn|]. intros [|v] c1 Hc1; [|by apply ends_ret].
  apply ends_bind. intros now. apply ends_bind. intros _. by apply ends_ret.
Qed.

Lemma security_transparent devMode : transparent (SecurityHeaders devMode).
Proof using Type.
  intros P Q HPQ next Hn c Hc. unfold SecurityHeaders. apply Hn. eapply on_decorated; [|exact Hc].
  destruct devMode; simpl; by repeat (apply decorated_header; [discriminate|]).
Qed.

Lemma body_transparent maxBytes b : transparent (BodyLimit maxBytes b).
Proof using Type.
  intros P Q HPQ next Hn c Hc. unfold BodyLimit. apply Hn. eapply on_decorated; [|exact Hc]. by destruct (_ && b).
Qed.

Lemma timeout_transparent d : transparent (Timeout d).
Proof using Type.
  intros P Q HPQ next Hn c Hc. unfold Timeout. destruct (d <=? 0); apply Hn; [done|]. by eapply on_decorated; [|exact Hc].
Qed.

(** The CORS middleware adds headers and runs the rest of the chain, or answers a
    request of another origin itself, without a body and aborting it. *)
Definition cors_contract : Prop := forall next c s,
  (exists c1 s1, run e (cors next c) s = run e (next c1) s1 /\ decorated c c1) \/
  (rq_Header (g_req c) "Origin" <> "" /\
   exists c1 s1, run e (cors next c) s = ((Done, c1), s1) /\ decorated c c1 /\ g_aborted c1 = true).

Lemma cors_transparent : cors_contract -> transparent cors.
Proof using Type.
  intros Hcors P Q HPQ next Hn c Hc s.
  destruct (Hcors next c s) as [(c1 & s1 & -> & Hd)|(Ho & c1 & s1 & -> & Hd & Ha)]; [|by eapply on_cors].
  apply Hn. by eapply on_decorated.
Qed.

Lemma guards_transparent gs : Forall transparent (guard_middleware <$> gs).
Proof using Type.
  apply Forall_fmap, Forall_true. intros [| |]; simpl;
    [apply auth_limit_transparent|apply auth_transparent|apply csrf_transparent].
Qed.

(** The chain behind [RequestID] and [Recovery]. *)
Definition inner : list middleware :=
  match metrics with Some observe => [Metrics_Middleware observe] | None => [] end ++
  [AccessLog print_ms size_of errors_of; SecurityHeaders (DevMode (Auth F cfg)); cors;
   BodyLimit (MaxRequestBody F (Security F cfg)) hasBody] ++
  when (RateLimitEnabled F (Security F cfg)) (RateLimit limiter) ++
  [Timeout (RequestTimeout (Server F cfg))].

Lemma inner_transparent : cors_contract -> Forall transparent inner.
Proof using Type.
  intros Hcors. unfold inner. rewrite !Forall_app. conj.
  - destruct metrics; [apply Forall_singleton, metrics_transparent|by apply Forall_nil].
  - rewrite !Forall_cons. conj; [apply access_log_transparent|apply security_transparent|by apply cors_transparent|apply body_transparent|].
    by apply Forall_nil.
  - unfold when. destruct (RateLimitEnabled _ _); [apply Forall_singleton, limit_transparent|by apply Forall_nil].
  - apply Forall_singleton, timeout_transparent.
Qed.

(** *** Panics *)

(** [h'] does what [h] does, or panics at some point of it, with whatever it has
    written by then. *)
Definition may_panic (h h' : handler) : Prop := forall c s,
  run e (h' c) s = run e (h c) s \/
  exists v c1 s1, run e (h' c) s = ((Panicked v, c1), s1) /\ forall id, tagged id c -> tagged id c1.

(** It always does, before it has written anything. *)
Definition panics_at_once (h' : handler) : Prop := forall c s,
  exists v c1 s1, run e (h' c) s = ((Panicked v, c1), s1) /\ g_writes c1 = g_writes c.

Lemma recovery_done next c s : (run e (Recovery stack next c) s).1.1 = Done.
Proof using Type.
  unfold Recovery. rewrite run_bind. by destruct (run e (next c) s) as [[[|v] c1] s1].
Qed.

(** *** The whole chain *)

(** otelgin starts a span, runs the rest of the chain once on a request that carries
    its trace id, and writes nothing. *)
Definition otel_passes : Prop := forall next c s,
  exists c1 s1, run e (otel next c) s = run e (next c1) s1 /\
    g_writes c1 = g_writes c /\ safe_id (rq_TraceID (g_req c1)).

(** Behind [RequestID] the context is tagged, and nothing is written yet. *)
Lemma chain_starts h c s :
  otel_passes -> (forall n, safe_id (uuid_String u (env_uuid e n))) -> g_writes c = [] -> safe_id (rq_TraceID (g_req c)) ->
  exists id c1 s1, safe_id id /\ tagged id c1 /\ g_writes c1 = [] /\
    run e (chain newRouter h c) s = run e (Recovery stack (chain inner h) c1) s1.
Proof using Type.
  intros Hotel Huuid Hw Htrace.
  assert (Hfront : forall c s, g_writes c = [] -> safe_id (rq_TraceID (g_req c)) -> exists id c1 s1,
    safe_id id /\ tagged id c1 /\ g_writes c1 = [] /\
    run e (RequestID u base (Recovery stack (chain inner h)) c) s = run e (Recovery stack (chain inner h) c1) s1).
  { clear c s Hw Htrace. intros c s Hw Htrace.
    destruct (RequestID_cases e u base (Recovery stack (chain inner h)) c s Htrace (Huuid _))
      as (id & c1 & s1 & Hr & _ & (Hk & Hh & _ & _ & _ & Hw1) & Hsafe & _).
    exists id, c1, s1. rewrite Hw in Hw1. split; [done|]. split; [|done]. split; [done|]. split; [done|]. by rewrite Hw1. }
  assert (Heq : chain newRouter h = chain (when (Enabled F (Tracing F cfg)) otel) (RequestID u base (Recovery stack (chain inner h)))).
  { unfold newRouter, chain, inner. by rewrite !foldr_app. }
  rewrite Heq. destruct (Enabled F (Tracing F cfg)); simpl; [|by apply Hfront].
  destruct (Hotel (RequestID u base (Recovery stack (chain inner h))) c s) as (c1 & s1 & -> & Hw1 & Ht1).
  apply Hfront; [by rewrite Hw1|done].
Qed.

(** The promise of the handler behind the chain is that of the chain. *)
Lemma recovered P Q h c s : HandedOn P Q -> cors_contract -> promises P Q h -> P c ->
  Q (run e (Recovery stack (chain inner h) c) s).1.1 (run e (Recovery stack (chain inner h) c) s).1.2.
Proof using Type.
  intros HPQ Hcors Hh Hc. apply (recovery_transparent P Q HPQ); [|done].
  by apply chain_promises; [|apply inner_transparent|].
Qed.

Lemma said_sound id o c : said id c -> sound id o c.
Proof using Type. intros [Ht Hw]. split; [done|]. by left. Qed.

Lemma route_sound i r id : promises (tagged id) (sound id) (route_handler i r).
Proof using Type.
  apply chain_promises; [apply _|apply guards_transparent|]. intros c Hc s. apply said_sound. by apply endpoint_says.
Qed.

Lemma fallback_sound id status msg : promises (tagged id) (sound id) (fun c => finish (AbortWithStatusJSON status
  (WithCorrelation (response_Err msg) (GetRequestID c) (GetTraceID c)) c)).
Proof using Type. intros c Hc. by apply ends_ret, abort_sound. Qed.

Lemma may_panic_sound h h' : may_panic h h' -> (forall id, promises (tagged id) (sound id) h) ->
  forall id, promises (tagged id) (sound id) h'.
Proof using Type.
  intros Hp Hh id c Hc s. destruct (Hp c s) as [->|(v & c1 & s1 & -> & Ht)]; [by apply Hh|].
  split; [by apply Ht|done].
Qed.

Lemma panics_promise h : panics_at_once h -> promises errors_only (fun _ => errors_only) h.
Proof using Type.
  intros Hp c Hc s. destruct (Hp c s) as (v & c1 & s1 & -> & Hw). simpl. unfold errors_only. by rewrite Hw.
Qed.

(** The handler that gin picks, after [as_]. *)
Lemma dispatch_as_cases as_ i redirect c :
  route_of HandleMethodNotAllowed every_route (rq_Method (g_req c)) (rq_Path (g_req c)) <> Redirected ->
  exists h, dispatch_as as_ i redirect c = chain newRouter (as_ h) c /\ forall id, promises (tagged id) (sound id) h.
Proof using Type.
  intros Hroute. unfold dispatch_as. destruct (route_of _ _ _ _) as [r| | |]; [| | |done]; eexists; (split; [reflexivity|]); intros id.
  - apply route_sound.
  - apply fallback_sound.
  - apply fallback_sound.
Qed.

(** C22.  Every request that gin does not redirect is answered, whatever fails and
    wherever its handler panics: no panic leaves the chain; a body was written, unless
    the CORS middleware turned the request away; there is one safe id that the
    response header carries and every error body repeats, 404s and rejections by
    middlewares included; and if the handler panicked before it wrote anything, what
    the client gets is an error. *)
Theorem every_answer_is_tagged as_ i redirect c s o c' s' :
  cors_contract -> otel_passes -> (forall n, safe_id (uuid_String u (env_uuid e n))) ->
  g_writes c = [] -> safe_id (rq_TraceID (g_req c)) ->
  route_of HandleMethodNotAllowed every_route (rq_Method (g_req c)) (rq_Path (g_req c)) <> Redirected ->
  (forall h, may_panic h (as_ h)) ->
  run e (dispatch_as as_ i redirect c) s = ((o, c'), s') ->
  o = Done /\ replied c' /\
  (exists id, safe_id id /\ g_headers c' !! RequestIDHeader = Some id /\
    Forall (fun w => Success w.2 = false -> RequestIDField w.2 = id) (g_writes c')) /\
  ((forall h, panics_at_once (as_ h)) -> Forall (fun w => Success w.2 = false /\ 400 <= w.1) (g_writes c')).
Proof using Type.
  intros Hcors Hotel Huuid Hw Htrace Hroute Has Hrun.
  destruct (dispatch_as_cases as_ i redirect c Hroute) as (h & Hd & Hh). rewrite Hd in Hrun.
  destruct (chain_starts (as_ h) c s Hotel Huuid Hw Htrace) as (id & c1 & s1 & Hsafe & Ht & Hw1 & Hrun1).
  rewrite Hrun1 in Hrun.
  pose proof (recovery_done (chain inner (as_ h)) c1 s1) as Hdone.
  pose proof (recovered (tagged id) (sound id) (as_ h) c1 s1 _ Hcors (may_panic_sound _ _ (Has h) Hh id) Ht) as [Htag Hrep].
  rewrite Hrun in Hdone, Htag, Hrep. simpl in *. split; [done|]. split; [by apply Hrep|]. split.
  - exists id. split; [done|]. apply Htag.
  - intros Hp. pose proof (recovered errors_only (fun _ => errors_only) (as_ h) c1 s1 _ Hcors (panics_promise _ (Hp h))) as He.
    rewrite Hrun in He. apply He. unfold errors_only. rewrite Hw1. by constructor.
Qed.

(** A request for a path of the table with a method the path does not have is
    answered by the 404 handler: the 405 handler that is registered never runs. *)
Theorem wrong_method_is_404 {HG : GinRouting route_of} i redirect c :
  (forall r, r ∈ every_route -> ~ (rt_method r = rq_Method (g_req c) /\ rt_path r = rq_Path (g_req c))) ->
  route_of HandleMethodNotAllowed every_route (rq_Method (g_req c)) (rq_Path (g_req c)) <> Redirected ->
  dispatch i redirect c = chain newRouter NoRoute c.
Proof using Type.
  intros Hnone Hred. unfold dispatch, dispatch_as. destruct (route_of _ _ _ _) as [r| | |] eqn:Hr; [| |done|done].
  - apply routing_sound in Hr as (Hin & Hm & Hp). destruct (Hnone r Hin). done.
  - by apply routing_wrong_method in Hr.
Qed.
End app.

(** ** Close *)

(** What a container may hold: the admin listener, the tracer, the connection pool
    it opened itself. *)
Record Container := mkContainer { AdminServer : bool; tracerShutdown : bool; ownsDB : bool }.

Inductive resource := RAdmin | RTracer | RDatabase.

Section close.
(** How shutting each one down ends. *)
Context (shutdown : resource -> option error).

(** [if err := ...; err != nil { errs = append(errs, fmt.Errorf(msg, err)) }] *)
Definition release (r : resource) (msg : string) : prog (list error) :=
  match shutdown r with
  | Some err => let* err := Errorf msg err in Ret [err]
  | None => Ret []
  end.

(** The errors that are joined, the container it leaves, and what was shut down, in
    order.  A nil container is left alone. *)
Definition Close (c : option Container) : prog (list error * option Container * list resource) :=
  match c with
  | None => Ret ([], None, [])
  | Some c =>
      let* admin := if AdminServer c then release RAdmin "shutting down the admin listener" else Ret [] in
      let* tracer := if tracerShutdown c then release RTracer "shutting down tracing" else Ret [] in
      let* database := if ownsDB c then release RDatabase "closing database" else Ret [] in
      Ret (admin ++ tracer ++ database, Some (mkContainer false false false),
           (if AdminServer c then [RAdmin] else []) ++ (if tracerShutdown c then [RTracer] else []) ++
           (if ownsDB c then [RDatabase] else []))
  end.

Lemma run_release e r msg s : exists s', run e (release r msg) s =
    (match shutdown r with Some err => [EWrap (st_addr s) msg err] | None => [] end, s').
Proof using Type. unfold release. destruct (shutdown r); by eexists. Qed.

(** Close shuts down what the container holds, once: the listener, then the
    tracer, then the pool, whichever of them fail, and reports as many errors as
    there were failures; an injected database is left alone; calling it again does
    nothing and reports nothing. *)
Theorem close_once (e : env) c s errs c' released s' :
  run e (Close (Some c)) s = ((errs, c', released), s') ->
  released = filter (fun r => match r with RAdmin => AdminServer c | RTracer => tracerShutdown c | RDatabase => ownsDB c end = true)
               [RAdmin; RTracer; RDatabase] /\
  length errs = length (filter (fun r => is_Some (shutdown r)) released) /\
  forall s1, run e (Close c') s1 = (([], c', []), s1).
Proof using Type.
  assert (Hone : forall (b : bool) r msg (k : list error -> prog (list error * option Container * list resource)) s1, exists l s2,
    run e (let* x := (if b then release r msg else Ret []) in k x) s1 = run e (k l) s2 /\
    length l = length (filter (fun r => is_Some (shutdown r)) (if b then [r] else []))).
  { intros b r msg k s1. rewrite run_bind. destruct b.
    - destruct (run_release e r msg s1) as [s2 ->]. rewrite filter_cons.
      destruct (shutdown r) as [err|]; do 2 eexists; (split; [reflexivity|]).
      + by rewrite decide_True by (by exists err).
      + rewrite decide_False by (by intros [? ?]). done.
    - by do 2 eexists. }
  unfold Close at 1. edestruct (Hone (AdminServer c)) as (l1 & s1 & -> & H1).
  edestruct (Hone (tracerShutdown c)) as (l2 & s2 & -> & H2). edestruct (Hone (ownsDB c)) as (l3 & s3 & -> & H3).
  cbn [run]. intros [= <- <- <- _]. split; [by destruct c as [[] [] []]|]. split; [|done].
  rewrite !length_app, H1, H2, H3, !filter_app, !length_app. lia.
Qed.
End close.

(** ** The janitor *)

(** What wakes the loop: a tick, or the end of the context. *)
Inductive signal := Tick | Cancelled.

Definition purgeExpiredRefreshTokens (svc : userService) (ctx : context) : prog unit :=
  let! removed := PurgeExpiredRefreshTokens svc ctx
    onerr err => perform (OpLog LError "sweeping expired refresh tokens" [("error", error_string err)]) in
  if removed >? 0 then perform (OpLog Info "swept expired refresh tokens" [("removed", Itoa removed)]) else Ret tt.

(** The goroutine, up to the last signal it has received. *)
Fixpoint janitor (svc : userService) (ctx : context) (signals : list signal) : prog unit :=
  let* _ := purgeExpiredRefreshTokens svc ctx in
  match signals with
  | Tick :: rest => janitor svc ctx rest
  | Cancelled :: _ | [] => Ret tt
  end.

Definition StartJanitor (interval : duration) (svc : userService) (ctx : context) (signals : list signal) : prog unit :=
  if interval <=? 0 then perform (OpLog Info "expired refresh token sweep is disabled" [])
  else janitor svc ctx signals.

(** ** Witnesses *)

Definition toy_route : Router := fun b rs m p =>
  match list_find (fun r => rt_method r = m /\ rt_path r = p) rs with
  | Some (_, r) => Matched r
  | None => if b && bool_decide (p ∈ rt_path <$> rs) then WrongMethod else Unmatched
  end.

#[export] Instance toy_routing : GinRouting toy_route.
Proof.
  split; unfold toy_route.
  - intros b rs r Hnd Hin. destruct (list_find _ rs) as [[i r']|] eqn:Hf.
    + apply list_find_Some in Hf as (Hi & [Hm Hp] & _). f_equal.
      apply list_elem_of_lookup in Hin as [k Hk].
      assert (i = k) as ->; [|congruence].
      eapply NoDup_lookup; [exact Hnd|rewrite list_lookup_fmap, Hi; reflexivity|].
      by rewrite list_lookup_fmap, Hk, Hm, Hp.
    + exfalso. apply list_find_None in Hf. rewrite Forall_forall in Hf. by apply (Hf r Hin).
  - intros b rs m p r. destruct (list_find _ rs) as [[i r']|] eqn:Hf.
    + intros [= <-]. apply list_find_Some in Hf as (Hi & [Hm Hp] & _). conj; [by eapply list_elem_of_lookup_2|done|done].
    + by destruct (b && _).
  - intros b rs m p. destruct (list_find _ rs) as [[i r']|]; [done|]. destruct b; [done|]. simpl. done.
Defined.

(** The environment of the testbed with a fixed id, and the application in it. *)
Definition app_env : env := mkEnv (env_now good_env) (fun _ => 7%N) (env_rand good_env) (env_done good_env)
  (env_begin good_env) (env_commit good_env) (env_sql good_env) (env_bcrypt_generate good_env) (env_bcrypt_compare good_env).

Definition pass : middleware := fun next c => next c.
Definition free : Limiter := mkLimiter (fun _ => Ret true).
Definition no_bound : bound :=
  let err := EString 803 "EOF" in mkBound (Err err) (Err err) (Err err) (Err err).

(** Tracing is off in this configuration, so the tracing middleware is not used;
    the one given strips the trace id. *)
Definition untraced : middleware := fun next c =>
  next (mkGin (mkRequest (rq_Method (g_req c)) (rq_Path (g_req c)) (rq_FullPath (g_req c)) (rq_RawQuery (g_req c))
                (rq_Header (g_req c)) (rq_Cookie (g_req c)) (rq_ClientIP (g_req c)) "" "")
         (g_ctx c) (g_logger c) (g_deadline c) (g_bodyLimit c) (g_keys c) (g_headers c) (g_cookies c) (g_writes c) (g_aborted c)).

Definition toy_app : handler :=
  dispatch toy_float (NewConfig toy_float strong) ToyJWT.jwt toy_uuid untraced pass None free free [] "goroutine 1"
    (fun _ => "0") (fun _ => 0) (fun _ => None) true (fun _ => Ret (Ok tt)) (fun _ => "") toy_route no_bound finish.

(** A request with an id of its own and no cookie, for a protected route. *)
Definition anonymous : Ctx := toy_ctx (toy_request "POST" [(RequestIDHeader, "abc-123")] []).

(** The same application with handlers that dereference a nil pointer. *)
Definition nil_deref : handler -> handler := fun h c => Ret (Panicked "invalid memory address or nil pointer dereference", c).
Definition broken_app : handler :=
  dispatch_as toy_float (NewConfig toy_float strong) ToyJWT.jwt toy_uuid untraced pass None free free [] "goroutine 1"
    (fun _ => "0") (fun _ => 0) (fun _ => None) true (fun _ => Ret (Ok tt)) (fun _ => "") toy_route nil_deref no_bound finish.

Lemma every_answer_is_tagged_witness :
  status_of (run app_env (broken_app anonymous) (start empty_tables)).1.2 = 500 /\
  replied (run app_env (broken_app anonymous) (start empty_tables)).1.2 /\
  Forall (fun w => Success w.2 = false /\ 400 <= w.1) (g_writes (run app_env (broken_app anonymous) (start empty_tables)).1.2).
Proof.
  split; [vm_compute; reflexivity|].
  destruct (every_answer_is_tagged toy_float (NewConfig toy_float strong) ToyJWT.jwt toy_uuid untraced pass None free free
    [] "goroutine 1" (fun _ => "0") (fun _ => 0) (fun _ => None) true (fun _ => Ret (Ok tt)) (fun _ => "") toy_route app_env
    nil_deref no_bound finish anonymous (start empty_tables) (run app_env (broken_app anonymous) (start empty_tables)).1.1
    (run app_env (broken_app anonymous) (start empty_tables)).1.2 (run app_env (broken_app anonymous) (start empty_tables)).2)
    as (_ & Hr & _ & He).
  - intros next c s. left. by exists c, s.
  - intros next c s. eexists _, s. split; [reflexivity|]. split; [reflexivity|].
    apply (bool_decide_unpack _). vm_compute. exact I.
  - intros n. apply (bool_decide_unpack _). vm_compute. exact I.
  - reflexivity.
  - apply (bool_decide_unpack _). vm_compute. exact I.
  - vm_compute. discriminate.
  - intros h c s. right. by eexists _, c, s.
  - unfold broken_app. destruct (run app_env _ (start empty_tables)) as [[o c'] s']. reflexivity.
  - split; [exact Hr|]. apply He. intros h c s. by eexists _, c, s.
Defined.

(** DELETE on the counter, which has GET and POST. *)
Definition wrong_method : Ctx := toy_ctx (toy_request "DELETE" [] []).

Lemma wrong_method_is_404_witness :
  status_of (run app_env (toy_app wrong_method) (start empty_tables)).1.2 = 404 /\
  toy_app wrong_method = chain (newRouter toy_float (NewConfig toy_float strong) toy_uuid untraced pass None free
    [] "goroutine 1" (fun _ => "0") (fun _ => 0) (fun _ => None) true) NoRoute wrong_method.
Proof.
  split; [vm_compute; reflexivity|]. apply (wrong_method_is_404 toy_float).
  - exact _.
  - refine (every_route_ok (fun r => ~ (rt_method r = "DELETE" /\ rt_path r = "/api/v1/counter")) _). vm_compute. reflexivity.
  - vm_compute. discriminate.
Defined.

Lemma close_once_witness :
  forall s1, run good_env (Close (fun _ => None) (Some (mkContainer false false false))) s1 = (([], Some (mkContainer false false false), []), s1).
Proof.
  refine (proj2 (proj2 (close_once (fun _ => None) good_env (mkContainer true true false) (start empty_tables)
    [] (Some (mkContainer false false false)) [RAdmin; RTracer] (start empty_tables) _))).
  reflexivity.
Defined.
