(* ===== verification/Passage.v ===== *)
(** * From the socket to a handler and back

    What the chain of middlewares does to what a handler makes of the tables and of
    the response.  A middleware is a [conduit] if it runs the rest of the chain on
    the request it was given, or answers itself, and changes no more of the response
    than [cosmetic] allows: headers, and bodies without data.  Every middleware of
    the application is one, and the guards hand on what they have established; so a
    claim about what a request leaves is proved endpoint by endpoint
    ([leaves_dispatch]).  A middleware that never answers itself [passes] the request
    on; that is what the application's own middlewares do, the guards and the limiter
    apart, and why they are conduits. *)

From S2P Require Import Prelude GoStd Apperr Model Gorm Effects Repository RepositoryLaws Testbed Token Csrf UserService UserSpec Accounts Counters Http Middleware Health Handlers Config App.

(** ** Programs that leave the tables alone *)

Section harmless.
Context (e : env).

Definition harmless {A} (p : prog A) : Prop := forall s, st_db (run e p s).2 = st_db s.

Lemma harmless_ret {A} (a : A) : harmless (Ret a).
Proof using Type. done. Qed.

Lemma harmless_bind {A B} (p : prog A) (f : A -> prog B) :
  harmless p -> (forall a, harmless (f a)) -> harmless (bind p f).
Proof using Type.
  intros Hp Hf s. rewrite run_bind. specialize (Hp s). destruct (run e p s) as [a s1]. by rewrite Hf.
Qed.

Lemma harmless_op {X} (o : op X) : (forall s, st_db (exec_op e o s).2 = st_db s) -> harmless (perform o).
Proof using Type. intros Ho s. unfold perform. simpl. specialize (Ho s). by destruct (exec_op e o s). Qed.

Lemma harmless_finish c : harmless (finish c).
Proof using Type. done. Qed.

Lemma harmless_log l c msg attrs : harmless (log l c msg attrs).
Proof using Type. by apply harmless_op. Qed.

Lemma harmless_Fail c err : harmless (Fail c err).
Proof using Type. intros s. destruct (run_Fail e c err s) as (s' & -> & Hd & _). exact Hd. Qed.

Lemma harmless_fail_with c err : harmless (fail_with c err).
Proof using Type. apply harmless_bind; [apply harmless_Fail|done]. Qed.

Lemma harmless_bound {T} c (b : result T) : harmless (BindJSON c b).
Proof using Type.
  intros s. pose proof (run_BindJSON e c b s) as Hb. destruct b as [req|err]; [by rewrite Hb|].
  by destruct Hb as (err' & s' & -> & Hd).
Qed.

Lemma harmless_user u c : harmless (GetUserIDFromContext u c).
Proof using Type.
  intros s. destruct (GetUserID_cases e u c s) as (r & s' & -> & Hs). exact (st_db_proper _ _ Hs).
Qed.

End harmless.

Create HintDb harmless.
#[export] Hint Resolve harmless_ret harmless_finish harmless_log harmless_bind harmless_Fail harmless_fail_with harmless_bound harmless_user : harmless.
#[export] Hint Extern 1 (harmless _ (perform _)) => (apply harmless_op; done) : harmless.

(** ** What a middleware may do to a response *)

(** Bodies without data, and no cookies. *)
Definition cosmetic (c c1 : Ctx) : Prop :=
  g_cookies c1 = g_cookies c /\
  exists extra, g_writes c1 = g_writes c ++ extra /\ Forall (fun w => Data w.2 = DNil) extra.

#[export] Instance cosmetic_preorder : PreOrder cosmetic.
Proof.
  split.
  - intros c. split; [done|]. exists []. by rewrite app_nil_r.
  - intros c1 c2 c3 [H1 (x & Hx & Fx)] [H2 (y & Hy & Fy)]. split; [congruence|].
    exists (x ++ y). split; [by rewrite Hy, Hx, app_assoc|]. by apply Forall_app.
Qed.

Lemma cosmetic_same c c1 : g_cookies c1 = g_cookies c -> g_writes c1 = g_writes c -> cosmetic c c1.
Proof. intros Hc Hw. split; [done|]. exists []. by rewrite app_nil_r. Qed.

Lemma cosmetic_abort status r c : Data r = DNil -> cosmetic c (AbortWithStatusJSON status r c).
Proof. intros Hr. split; [done|]. exists [(status, r)]. split; [done|]. by apply Forall_singleton. Qed.

(** Nothing has been answered yet: no body and no cookie. *)
Definition same_answer (c c1 : Ctx) : Prop := g_cookies c1 = g_cookies c /\ g_writes c1 = g_writes c.

#[export] Instance same_answer_preorder : PreOrder same_answer.
Proof. split; [by intros c|]. intros c1 c2 c3 [H1 H2] [H3 H4]. split; congruence. Qed.

Lemma same_answer_cosmetic c c1 : same_answer c c1 -> cosmetic c c1.
Proof. intros [Hc Hw]. by apply cosmetic_same. Qed.

(** A claim about a response and the tables that such changes preserve. *)
Definition closed (Q : Ctx -> Tables -> Prop) : Prop := forall c c1 db, cosmetic c c1 -> Q c db -> Q c1 db.

(** The method, headers and cookies the client sent. *)
Definition same_request (c c1 : Ctx) : Prop :=
  rq_Method (g_req c1) = rq_Method (g_req c) /\ rq_Header (g_req c1) = rq_Header (g_req c) /\
  rq_Cookie (g_req c1) = rq_Cookie (g_req c) /\ ctx_value (g_ctx c1) = ctx_value (g_ctx c).

#[export] Instance same_request_preorder : PreOrder same_request.
Proof. split; [by intros c|]. intros c1 c2 c3 (H1 & H2 & H3 & H4) (H5 & H6 & H7 & H8). repeat split; congruence. Qed.

Section leaving.
Context (e : env).

(** The claim holds of what a handler leaves. *)
Definition leaves (Q : Ctx -> Tables -> Prop) (p : prog (outcome * Ctx)) (s : state) : Prop :=
  wp e p (fun r s' => Q r.2 (st_db s')) s.

Lemma leaves_run Q p s r s' : leaves Q p s -> run e p s = (r, s') -> Q r.2 (st_db s').
Proof using Type. unfold leaves, wp. intros H Hr. by rewrite Hr in H. Qed.

(** A handler that changes no tables and answers without data. *)
Definition settles (c : Ctx) (p : prog (outcome * Ctx)) : Prop :=
  forall s, wp e p (fun r s' => st_db s' = st_db s /\ cosmetic c r.2) s.

Lemma settles_finish c c1 : cosmetic c c1 -> settles c (finish c1).
Proof using Type. by intros Hc s. Qed.

Lemma settles_bind {A} c (p : prog A) f : harmless e p -> (forall a, settles c (f a)) -> settles c (bind p f).
Proof using Type.
  intros Hp Hf s. apply wp_bind. unfold wp. specialize (Hp s). destruct (run e p s) as [a s1].
  simpl in *. rewrite <- Hp. apply Hf.
Qed.

Lemma wp_Fail c err (R : Ctx -> state -> Prop) s :
  (forall c1 s', st_db s' = st_db s -> cosmetic c c1 -> R c1 s') -> wp e (Fail c err) R s.
Proof using Type.
  intros HR. unfold wp. destruct (run_Fail e c err s) as (s' & -> & Hd & _). apply HR; [exact Hd|]. by apply cosmetic_abort.
Qed.

Lemma settles_fail_with c c1 err : cosmetic c c1 -> settles c (fail_with c1 err).
Proof using Type.
  intros Hc s. apply wp_bind, wp_Fail. intros c2 s' Hd Hc2. split; [exact Hd|]. by etransitivity.
Qed.

Lemma leaves_settled Q c p s : closed Q -> settles c p -> Q c (st_db s) -> leaves Q p s.
Proof using Type.
  intros HQ Hp Hs. eapply wp_mono; [apply Hp|]. intros r s' [Hd Hc]. rewrite Hd. by eapply HQ.
Qed.

(** A service call, answered or failed; and a body that was bound, or answered with
    its error. *)
Lemma leaves_call {A} Q (call : prog (result A)) (f : A -> Ctx) (R : A -> Tables -> Prop) c s :
  closed Q -> wp e call (fun r s' => match r with Ok x => R x (st_db s') | Err _ => Q c (st_db s') end) s ->
  (forall x db1, R x db1 -> Q (f x) db1) ->
  leaves Q (let! x := call onerr err => fail_with c err in finish (f x)) s.
Proof using Type.
  intros HQ Hc Hf. apply wp_bind. eapply wp_mono; [exact Hc|]. intros [x|err] s1 Hx; [by apply Hf|].
  exact (leaves_settled Q c _ s1 HQ (settles_fail_with c c err (reflexivity c)) Hx).
Qed.

Lemma leaves_bound {T} Q c (b : result T) (k : T -> prog (outcome * Ctx)) s :
  closed Q -> Q c (st_db s) -> (forall req, b = Ok req -> leaves Q (k req) s) ->
  leaves Q (let* r := BindJSON c b in match r with inr c => finish c | inl req => k req end) s.
Proof using Type.
  intros HQ Hs Hk. apply wp_bind. unfold wp. pose proof (run_BindJSON e c b s) as Hb.
  destruct b as [req|err]; [rewrite Hb; by apply Hk|]. destruct Hb as (err' & s' & -> & Hd). simpl. rewrite Hd.
  eapply HQ; [by apply cosmetic_abort|done].
Qed.

Lemma leaves_after {A} Q (p : prog A) f s :
  harmless e p -> (forall a s1, st_db s1 = st_db s -> leaves Q (f a) s1) -> leaves Q (bind p f) s.
Proof using Type.
  intros Hp Hf. apply wp_bind. unfold wp. specialize (Hp s). destruct (run e p s) as [a s1]. by apply Hf.
Qed.

Lemma leaves_then Q p (f : outcome * Ctx -> prog (outcome * Ctx)) s :
  closed Q -> leaves Q p s -> (forall o c, settles c (f (o, c))) -> leaves Q (bind p f) s.
Proof using Type.
  unfold leaves. intros HQ Hp Hf. apply wp_bind. eapply wp_mono; [exact Hp|]. intros [o c] s1 H1.
  by apply (leaves_settled Q c).
Qed.

(** ** Middlewares *)

(** Whatever the rest of the chain leaves, run on the same request, the middleware
    leaves, if that holds with nothing done. *)
Definition conduit (m : middleware) : Prop := forall Q next c s, closed Q ->
  (forall c1 s1, same_request c c1 -> cosmetic c c1 -> st_db s1 = st_db s -> leaves Q (next c1) s1) ->
  Q c (st_db s) -> leaves Q (m next c) s.

Lemma conduit_chain ms Q h c s :
  Forall conduit ms -> closed Q ->
  (forall c1 s1, same_request c c1 -> cosmetic c c1 -> st_db s1 = st_db s -> leaves Q (h c1) s1) ->
  Q c (st_db s) -> leaves Q (chain ms h c) s.
Proof using Type.
  intros Hms HQ. revert c s. induction Hms as [|m ms Hm _ IH]; intros c s Hh Hs; [by apply Hh|].
  apply Hm; [done| |done]. intros c1 s1 Hc1 Hk1 Hs1. apply IH; [|rewrite Hs1; by eapply HQ].
  intros c2 s2 Hc2 Hk2 Hs2. apply Hh; [by etransitivity|by etransitivity|congruence].
Qed.

Lemma settles_denied status message c :
  settles c (finish (abortWithError status message c)).
Proof using Type. apply settles_finish. by apply cosmetic_abort. Qed.

(** A middleware lets the request [c0] through if it runs the rest of the chain on it,
    before anything is answered, whatever else it does. *)
Definition passes (c0 : Ctx) (m : middleware) : Prop := forall Q next c s, closed Q -> same_request c0 c ->
  (forall c1 s1, same_request c c1 -> same_answer c c1 -> st_db s1 = st_db s -> leaves Q (next c1) s1) ->
  leaves Q (m next c) s.

Lemma conduit_passes m : (forall c0, passes c0 m) -> conduit m.
Proof using Type.
  intros Hm Q next c s HQ Hn _. apply (Hm c); [done|done|]. intros c1 s1 Hc1 Hk1 Hs1.
  apply Hn; [done|by apply same_answer_cosmetic|done].
Qed.

Lemma passes_chain c0 ms Q h c s :
  Forall (passes c0) ms -> closed Q -> same_request c0 c ->
  (forall c1 s1, same_request c c1 -> same_answer c c1 -> st_db s1 = st_db s -> leaves Q (h c1) s1) ->
  leaves Q (chain ms h c) s.
Proof using Type.
  intros Hms HQ. revert c s. induction Hms as [|m ms Hm _ IH]; intros c s Hc Hh; [by apply Hh|].
  apply Hm; [done|done|]. intros c1 s1 Hc1 Hk1 Hs1. apply IH; [by etransitivity|].
  intros c2 s2 Hc2 Hk2 Hs2. apply Hh; [by etransitivity|by etransitivity|congruence].
Qed.

Lemma passes_RequestID c0 u base : passes c0 (RequestID u base).
Proof using Type.
  intros Q next c s HQ _ Hn. apply leaves_after.
  - unfold resolveRequestID. repeat case_match; auto with harmless.
  - intros id s1 Hs1. destruct (negb _); by apply Hn.
Qed.

Lemma passes_Recovery c0 stack : passes c0 (Recovery stack).
Proof using Type.
  intros Q next c s HQ _ Hn. apply leaves_then; [done|by apply Hn|]. intros [|v] c1; [by apply settles_finish|].
  apply settles_bind; [auto with harmless|]. intros _. apply settles_denied.
Qed.

Lemma passes_Metrics c0 observe :
  (forall m r st d, harmless e (observe m r st d)) -> passes c0 (Metrics_Middleware observe).
Proof using Type.
  intros Ho Q next c s HQ _ Hn. apply leaves_after; [auto with harmless|]. intros start s1 Hs1.
  apply leaves_then; [done|by apply Hn|]. intros [|v] c1; [|by apply (settles_finish c1 c1)].
  apply settles_bind; [auto with harmless|]. intros now. apply settles_bind; [apply Ho|]. intros _. by apply settles_finish.
Qed.

Lemma passes_AccessLog c0 print_ms size_of errors_of : passes c0 (AccessLog print_ms size_of errors_of).
Proof using Type.
  intros Q next c s HQ _ Hn. apply leaves_after; [auto with harmless|]. intros start s1 Hs1.
  apply leaves_then; [done|by apply Hn|]. intros [|v] c1; [|by apply (settles_finish c1 c1)].
  apply settles_bind; [auto with harmless|]. intros now. apply settles_bind; [|intros _; by apply settles_finish].
  repeat case_match; auto with harmless.
Qed.

Lemma passes_SecurityHeaders c0 devMode : passes c0 (SecurityHeaders devMode).
Proof using Type. intros Q next c s HQ _ Hn. destruct devMode; by apply Hn. Qed.

Lemma passes_BodyLimit c0 maxBytes b : passes c0 (BodyLimit maxBytes b).
Proof using Type. intros Q next c s HQ _ Hn. unfold BodyLimit. destruct (_ && _); by apply Hn. Qed.

Lemma passes_Timeout c0 d : passes c0 (Timeout d).
Proof using Type. intros Q next c s HQ _ Hn. unfold Timeout. destruct (d <=? 0); by apply Hn. Qed.

(** A limiter that has budget left for every client. *)
Definition allows (l : Limiter) : Prop := forall ip s, (run e (lim_Allow l ip) s).1 = true.

Lemma passes_RateLimit c0 l : (forall ip, harmless e (lim_Allow l ip)) -> allows l -> passes c0 (RateLimit l).
Proof using Type.
  intros Hl Ha Q next c s HQ _ Hn. unfold RateLimit. apply wp_bind. unfold wp.
  pose proof (Hl (rq_ClientIP (g_req c)) s) as Hs. pose proof (Ha (rq_ClientIP (g_req c)) s) as Hok.
  destruct (run e _ s) as [ok s1]. simpl in *. subst ok. by apply Hn.
Qed.

Lemma conduit_RequestID u base : conduit (RequestID u base).
Proof using Type. apply conduit_passes. intros c0. apply passes_RequestID. Qed.
Lemma conduit_Recovery stack : conduit (Recovery stack).
Proof using Type. apply conduit_passes. intros c0. apply passes_Recovery. Qed.
Lemma conduit_Metrics observe :
  (forall m r st d, harmless e (observe m r st d)) -> conduit (Metrics_Middleware observe).
Proof using Type. intros Ho. apply conduit_passes. intros c0. by apply passes_Metrics. Qed.
Lemma conduit_AccessLog print_ms size_of errors_of : conduit (AccessLog print_ms size_of errors_of).
Proof using Type. apply conduit_passes. intros c0. apply passes_AccessLog. Qed.
Lemma conduit_SecurityHeaders devMode : conduit (SecurityHeaders devMode).
Proof using Type. apply conduit_passes. intros c0. apply passes_SecurityHeaders. Qed.
Lemma conduit_BodyLimit maxBytes b : conduit (BodyLimit maxBytes b).
Proof using Type. apply conduit_passes. intros c0. apply passes_BodyLimit. Qed.
Lemma conduit_Timeout d : conduit (Timeout d).
Proof using Type. apply conduit_passes. intros c0. apply passes_Timeout. Qed.
Lemma conduit_pass : conduit (fun next c => next c).
Proof using Type. intros Q next c s HQ Hn Hs. by apply Hn. Qed.

Lemma conduit_RateLimit l : (forall ip, harmless e (lim_Allow l ip)) -> conduit (RateLimit l).
Proof using Type.
  intros Hl Q next c s HQ Hn Hs. apply leaves_after; [apply Hl|]. intros [|] s1 Hs1; simpl; [by apply Hn|].
  eapply leaves_settled; [done|apply settles_denied|by rewrite Hs1].
Qed.

(** ** The guards *)

(** A request that was turned away. *)
Lemma turned_away_leaves (Q : Ctx -> Tables -> Prop) status c s o s' :
  closed Q -> Q c (st_db s) -> turned_away status c s o s' -> Q o.2 (st_db s').
Proof using Type.
  intros HQ Hs [Hs' (msg & ->)]. rewrite (st_db_proper _ _ Hs'). eapply HQ; [|exact Hs]. by apply cosmetic_abort.
Qed.

(** The CSRF guard lets state-changing requests through with a valid token only. *)
Definition csrf_valid (csrf : csrfService) (c : Ctx) : Prop :=
  exists s, (run e (ValidateToken csrf (rq_Header (g_req c) CSRFHeader)) s).1 = true.

Lemma leaves_CSRF csrf Q next c s :
  closed Q -> changes_state (rq_Method (g_req c)) = true ->
  (csrf_valid csrf c -> forall s1, st_db s1 = st_db s -> leaves Q (next c) s1) ->
  Q c (st_db s) -> leaves Q (CSRFMiddleware (ValidateToken csrf) next c) s.
Proof using Type.
  intros HQ Hm Hn Hs. unfold leaves, wp.
  destruct (run e (CSRFMiddleware (ValidateToken csrf) next c) s) as [o s'] eqn:Hr. apply CSRF_cases in Hr. rewrite Hm in Hr.
  destruct Hr as [(s1 & Hv & _ & Hr)|Haway]; [|by eapply turned_away_leaves].
  pose proof (ValidateToken_pure e csrf (rq_Header (g_req c) CSRFHeader) s) as Hs1. rewrite Hv in Hs1.
  refine (leaves_run Q _ _ _ _ (Hn _ s1 _) Hr); [by exists s; rewrite Hv|exact (st_db_proper _ _ Hs1)].
Qed.

(** A token that the service accepts passes. *)
Definition csrf_accepted (csrf : csrfService) (token : string) : Prop :=
  forall s, (run e (ValidateToken csrf token) s).1 = true.

Lemma leaves_accepted csrf Q next c s :
  csrf_accepted csrf (rq_Header (g_req c) CSRFHeader) ->
  (forall s1, st_db s1 = st_db s -> leaves Q (next c) s1) -> leaves Q (CSRFMiddleware (ValidateToken csrf) next c) s.
Proof using Type.
  intros Hv Hn. unfold CSRFMiddleware. destruct (changes_state _); [|by apply Hn].
  destruct (String.eqb_spec (rq_Header (g_req c) CSRFHeader) "") as [He|_]; [specialize (Hv s); by rewrite He in Hv|].
  apply wp_bind. unfold wp. specialize (Hv s).
  pose proof (ValidateToken_pure e csrf (rq_Header (g_req c) CSRFHeader) s) as Hs1.
  destruct (run e (ValidateToken csrf _) s) as [ok s1]. simpl in *. subst ok. apply Hn, (st_db_proper _ _ Hs1).
Qed.

(** The authentication guard hands on the user of a valid access token. *)
Definition access_valid (j : JWT) {HJ : JWTLaws j} (config : TokenConfig) (c : Ctx) (uid : UUID) : Prop :=
  exists tok m claims n,
    rq_Cookie (g_req c) AccessTokenCookie = Ok tok /\ is_HMAC m = true /\
    Token.signed m (to_bytes (AccessTokenSecret config)) tok claims /\ unexpired claims (env_now e n) /\ tc_UserID claims = uid.

Lemma ValidateAccessToken_sound (j : JWT) {HJ : JWTLaws j} config tok s claims s1 :
  run e (ValidateAccessToken j config tok) s = (Ok claims, s1) ->
  exists m n, is_HMAC m = true /\ Token.signed m (to_bytes (AccessTokenSecret config)) tok claims /\ unexpired claims (env_now e n).
Proof using Type.
  unfold ValidateAccessToken. simpl. destruct (String.eqb tok ""); [done|]. simpl.
  destruct (ParseWithClaims j tok _ _) as [c|err] eqn:Hp; [|done]. intros [= <- _].
  apply parse_sound in Hp as (m & k & Hk & Hs & Hexp). unfold hmac_key in Hk. destruct (is_HMAC m) eqn:Hm; [|done].
  injection Hk as <-. by eexists m, _.
Qed.

Lemma leaves_Auth (j : JWT) {HJ : JWTLaws j} u {HUU : UUIDLaws u} config Q next c s :
  closed Q ->
  (forall uid c1 s1, access_valid j config c uid -> same_request c c1 -> cosmetic c c1 -> g_ctx c1 = g_ctx c ->
     GetUserIDFromContext u c1 = Ret (Ok uid) -> st_db s1 = st_db s -> leaves Q (next c1) s1) ->
  Q c (st_db s) -> leaves Q (AuthMiddleware u (NewTokenService j (uuid_String u) config) next c) s.
Proof using Type.
  intros HQ Hn Hs. unfold leaves, wp.
  destruct (run e (AuthMiddleware u _ next c) s) as [o s'] eqn:Hr.
  apply Auth_cases in Hr as [(tok & claims & s1 & Hc & Hv & Hs1 & Hr)|Haway]; [|by eapply turned_away_leaves].
  destruct (ValidateAccessToken_sound j config tok s claims s1 Hv) as (m & n & Hm & Hsig & Hexp).
  refine (leaves_run Q _ _ _ _ (Hn (tc_UserID claims) _ s1 _ _ _ _ _ _) Hr);
    [by exists tok, m, claims, n|done|by apply cosmetic_same|done|apply (user_of_claims u claims c)|exact (st_db_proper _ _ Hs1)].
Qed.

(** A token that the service takes for one of user [uid], whenever it is shown. *)
Definition recognised (j : JWT) (config : TokenConfig) (tok : string) (uid : UUID) : Prop :=
  forall s, exists claims s1, run e (ValidateAccessToken j config tok) s = (Ok claims, s1) /\ tc_UserID claims = uid.

Lemma leaves_recognised (j : JWT) u {HUU : UUIDLaws u} config Q tok uid next c s :
  rq_Cookie (g_req c) AccessTokenCookie = Ok tok -> recognised j config tok uid ->
  (forall c1 s1, same_request c c1 -> same_answer c c1 -> GetUserIDFromContext u c1 = Ret (Ok uid) -> st_db s1 = st_db s ->
     leaves Q (next c1) s1) ->
  leaves Q (AuthMiddleware u (NewTokenService j (uuid_String u) config) next c) s.
Proof using Type.
  intros Hc Hv Hn. unfold AuthMiddleware. rewrite Hc. apply wp_bind. cbn [ts_ValidateAccessToken NewTokenService]. unfold wp.
  pose proof (ValidateAccessToken_pure j e config tok s) as Hs1. destruct (Hv s) as (claims & s1 & Hr & <-).
  rewrite Hr in *. apply Hn; [done|done|apply (user_of_claims u claims c)|exact (st_db_proper _ _ Hs1)].
Qed.
End leaving.

(** ** The application *)

Section application.
Context (F : Float64) (cfg : Config F) (j : JWT) (u : UUIDLib).
Context (otel cors : middleware) (metrics : option (string -> string -> string -> duration -> prog unit))
        (limiter authLimiter : Limiter).
Context (base : list (string * string)) (stack : string) (print_ms : duration -> string)
        (size_of : Ctx -> Z) (errors_of : Ctx -> option string) (hasBody : bool).
Context (PingCheck : context -> prog (result unit)) (format : time -> string) (route_of : Router).
Context (e : env) {HJ : JWTLaws j} {HUU : UUIDLaws u} {HR : GinRouting route_of}.

(** Third parties: the tracing and CORS middlewares run the rest of the chain on
    the request of the client, or answer it themselves, and neither do the
    instruments, the limiters and the ping touch the tables. *)
Record third_parties : Prop := {
  otel_conduit : conduit e otel;
  cors_conduit : conduit e cors;
  observe_harmless observe : metrics = Some observe -> forall m r st d, harmless e (observe m r st d);
  limiter_harmless ip : harmless e (lim_Allow limiter ip);
  authLimiter_harmless ip : harmless e (lim_Allow authLimiter ip);
  ping_harmless ctx : harmless e (PingCheck ctx)
}.

Context (Hthird : third_parties).

Abbreviation config := (tokenConfig F cfg).
Abbreviation csrf := (csrfService_ F cfg).
Abbreviation router := (newRouter F cfg u otel cors metrics limiter base stack print_ms size_of errors_of hasBody).
Abbreviation handle := (route_handler F cfg j u authLimiter PingCheck format).

Lemma conduit_guard g : conduit e (guard_middleware F cfg j u authLimiter g).
Proof using HJ HUU Hthird.
  destruct g; cbn [guard_middleware].
  - unfold authRateLimiter. destruct (negb _); [apply conduit_pass|apply conduit_RateLimit, authLimiter_harmless, Hthird].
  - intros Q next c s HQ Hn Hs. apply (leaves_Auth e j u config); [done| |done]. intros uid c1 s1 _ Hc1 Hk1 _ _ Hs1. by apply Hn.
  - intros Q next c s HQ Hn Hs. destruct (changes_state (rq_Method (g_req c))) eqn:Hm.
    + apply leaves_CSRF; [done|done| |done]. intros _ s1 Hs1. by apply Hn.
    + unfold CSRFMiddleware. rewrite Hm. by apply Hn.
Qed.

Lemma conduit_router : Forall (conduit e) router.
Proof using Hthird.
  unfold newRouter. rewrite !Forall_app, !Forall_cons. conj; try apply Forall_nil_2.
  - unfold when. destruct (Enabled _ _); [apply Forall_singleton, otel_conduit, Hthird|by apply Forall_nil].
  - apply conduit_RequestID.
  - apply conduit_Recovery.
  - destruct metrics as [observe|] eqn:Hm; [|by apply Forall_nil].
    apply Forall_singleton, conduit_Metrics. by apply (observe_harmless Hthird).
  - apply conduit_AccessLog.
  - apply conduit_SecurityHeaders.
  - apply cors_conduit, Hthird.
  - apply conduit_BodyLimit.
  - unfold when. destruct (RateLimitEnabled _ _); [|by apply Forall_nil].
    apply Forall_singleton, conduit_RateLimit, limiter_harmless, Hthird.
  - apply conduit_Timeout.
Qed.

(** The request is for this endpoint. *)
Definition asks (ep : endpoint) (c : Ctx) : Prop :=
  exists r, route_of HandleMethodNotAllowed every_route (rq_Method (g_req c)) (rq_Path (g_req c)) = Matched r /\
    rt_endpoint r = ep.

(** The request [c0], on the tables [db], and a claim that holds with nothing done. *)
Section one_request.
Context (i : bound) (c0 : Ctx) (db : Tables) (Q : Ctx -> Tables -> Prop) (HQ : closed Q) (HQ0 : Q c0 db).

(** It has come as far as route [r], in [c] and [s]. *)
Definition arrived (r : route) (c : Ctx) (s : state) : Prop :=
  route_of HandleMethodNotAllowed every_route (rq_Method (g_req c0)) (rq_Path (g_req c0)) = Matched r /\
  same_request c0 c /\ cosmetic c0 c /\ ctx_value (g_ctx c0) = None /\ st_db s = db.

Lemma arrived_context r c s : arrived r c s -> ctx_value (g_ctx c) = None.
Proof using Type. intros (_ & (_ & _ & _ & Hc) & _ & Hn & _). congruence. Qed.

Lemma arrived_moved r c s c1 s1 :
  arrived r c s -> same_request c c1 -> cosmetic c c1 -> st_db s1 = st_db s -> arrived r c1 s1.
Proof using Type.
  intros (Hr & Hc & Hk & Hn & Hs) Hc1 Hk1 Hs1. split; [done|]. split; [by etransitivity|]. split; [by etransitivity|].
  split; [done|congruence].
Qed.

Lemma arrived_claim r c s : arrived r c s -> Q c (st_db s).
Proof using HQ HQ0. intros (_ & _ & Hk & _ & ->). by eapply HQ. Qed.

Lemma arrived_changes r c s : arrived r c s -> changes_state (rt_method r) = true -> changes_state (rq_Method (g_req c)) = true.
Proof using HR. intros ((_ & Hm & _)%routing_sound & (-> & _) & _). by rewrite Hm. Qed.

Lemma csrf_same c c1 : same_request c c1 -> csrf_valid e csrf c1 -> csrf_valid e csrf c.
Proof using Type. intros (_ & Hh & _) [s Hv]. exists s. by rewrite <- Hh. Qed.

Lemma access_same c c1 uid : same_request c c1 -> access_valid e j config c1 uid -> access_valid e j config c uid.
Proof using Type. intros (_ & _ & Hk & _) (tok & Hv). exists tok. by rewrite <- Hk. Qed.

(** Behind guards that establish nothing the endpoint needs. *)
Lemma leaves_unguarded r c s :
  arrived r c s ->
  (forall c1 s1, arrived r c1 s1 -> leaves e Q (endpoint_handler F cfg j u PingCheck format i (rt_endpoint r) c1) s1) ->
  leaves e Q (handle i r c) s.
Proof using HJ HUU HQ HQ0 Hthird.
  intros Ha Hh. apply conduit_chain; [| done| |by eapply arrived_claim].
  - apply Forall_fmap, Forall_true. intros g. apply conduit_guard.
  - intros c1 s1 Hc1 Hk1 Hs1. apply Hh. by eapply arrived_moved.
Qed.

(** Behind the authentication guard. *)
Lemma leaves_authenticated r c s h :
  arrived r c s ->
  (forall c1 s1 uid, arrived r c1 s1 -> access_valid e j config c0 uid -> GetUserIDFromContext u c1 = Ret (Ok uid) ->
     leaves e Q (h c1) s1) ->
  leaves e Q (guard_middleware F cfg j u authLimiter GAuth h c) s.
Proof using HJ HUU HQ HQ0.
  intros Ha Hh. apply (leaves_Auth e j u config); [done| |by eapply arrived_claim]. intros uid c1 s1 Hacc Hc1 Hk1 _ Hid Hs1.
  apply (Hh c1 s1 uid); [by eapply arrived_moved| |done]. eapply access_same; [apply Ha|exact Hacc].
Qed.

(** Behind the CSRF guard. *)
Lemma leaves_protected r c s h :
  arrived r c s -> changes_state (rt_method r) = true ->
  (forall s1, arrived r c s1 -> csrf_valid e csrf c0 -> leaves e Q (h c) s1) ->
  leaves e Q (guard_middleware F cfg j u authLimiter GCSRF h c) s.
Proof using HR HQ HQ0.
  intros Ha Hm Hh. apply leaves_CSRF; [done|by eapply arrived_changes| |by eapply arrived_claim].
  intros Hv s1 Hs1. apply Hh; [by eapply arrived_moved|]. eapply csrf_same; [apply Ha|exact Hv].
Qed.

(** What every route leaves, the application does. *)
Lemma leaves_dispatch redirect s :
  ctx_value (g_ctx c0) = None -> st_db s = db ->
  route_of HandleMethodNotAllowed every_route (rq_Method (g_req c0)) (rq_Path (g_req c0)) <> Redirected ->
  (forall r c s, arrived r c s -> leaves e Q (handle i r c) s) ->
  leaves e Q
    (dispatch F cfg j u otel cors metrics limiter authLimiter base stack print_ms size_of errors_of hasBody PingCheck format
       route_of i redirect c0) s.
Proof using All.
  intros Hctx Hs Hred Hroute. unfold dispatch, dispatch_as.
  assert (Hchain : forall h : handler,
    (forall c s, same_request c0 c -> cosmetic c0 c -> st_db s = db -> leaves e Q (h c) s) -> leaves e Q (chain router h c0) s).
  { intros h Hh. apply conduit_chain; [apply conduit_router|done| |by rewrite Hs].
    intros c1 s1 Hc1 Hk1 Hs1. apply Hh; [done|done|congruence]. }
  destruct (route_of _ _ _ _) as [r| | |] eqn:Hr; [| | |done]; apply Hchain; intros c1 s1 Hc1 Hk1 Hs1.
  - by apply Hroute.
  - eapply leaves_settled; [done|apply settles_finish; by apply cosmetic_abort|rewrite Hs1; by eapply HQ].
  - eapply leaves_settled; [done|apply settles_finish; by apply cosmetic_abort|rewrite Hs1; by eapply HQ].
Qed.
End one_request.
End application.
