(* ===== verification/Authority.v ===== *)
(** * Who may change an account

    The application of App.v end to end: whatever the request, and whatever fails
    on the way, what is stored of a user changes only if the request carries that
    user's authority: a valid access token, a valid refresh token, or the address
    and the password of the account. *)

From S2P Require Import Prelude GoStd Apperr Model Gorm Effects Repository RepositoryLaws Testbed Token Csrf UserService UserSpec Accounts Counters Http Middleware Health Handlers Config App Passage.

(** ** What is stored of a user *)

(** The rows of [v], live or deleted, and the sessions of [v] are the same. *)
Definition untouched (v : UUID) (db db' : Tables) : Prop :=
  (forall k x, u_ID x = v -> t_users db !! k = Some x <-> t_users db' !! k = Some x) /\
  (forall k x, rt_UserID x = v -> t_tokens db !! k = Some x <-> t_tokens db' !! k = Some x).

Lemma untouched_refl v db : untouched v db db.
Proof. done. Qed.

Section changes.
Context (v : UUID) (db : Tables).

Lemma tokens_revoked p m k x :
  (forall x : RefreshTokenEntity, rt_UserID x = v -> p x = false) -> rt_UserID x = v ->
  m !! k = Some x <-> revoked p m !! k = Some x.
Proof using Type. intros Hp Hx. rewrite revoked_lookup. specialize (Hp x Hx). tauto. Qed.

Lemma tokens_issued e svc {HT : TokenServiceLaws e (tokenService svc)} user pair m m' k x :
  issued e svc user pair m m' -> gu_ID user <> v -> rt_UserID x = v -> m !! k = Some x <-> m' !! k = Some x.
Proof using Type.
  intros (_ & _ & n & row & Hu & _ & _ & Hc & ->) Hne Hx. destruct (decide (k = rt_ID row)) as [->|Hk].
  - rewrite lookup_insert_eq. split; [|intros [= <-]; congruence].
    intros Hm. exfalso. apply Hc. left. simpl. by rewrite Hm.
  - by rewrite lookup_insert_ne.
Qed.

Lemma users_mapped (f : UserEntity -> UserEntity) (m : gmap UUID UserEntity) k x :
  (forall y, u_ID (f y) = u_ID y) -> (forall y, u_ID y = v -> f y = y) -> u_ID x = v ->
  m !! k = Some x <-> (f <$> m) !! k = Some x.
Proof using Type.
  intros Hid Hf Hx. rewrite lookup_fmap_Some. split.
  - intros Hm. exists x. by rewrite Hf.
  - intros (y & <- & Hy). rewrite Hid in Hx. by rewrite Hf.
Qed.

Lemma untouched_revoked p :
  (forall x : RefreshTokenEntity, rt_UserID x = v -> p x = false) ->
  untouched v db (set_rows TTokens (revoked p (t_tokens db)) db).
Proof using Type. intros Hp. split; [done|]. intros k x Hx. by apply tokens_revoked. Qed.

Lemma untouched_sessions_of uid :
  uid <> v -> untouched v db (set_rows TTokens (revoked (token_of_user uid) (t_tokens db)) db).
Proof using Type. intros Hne. apply untouched_revoked. intros x <-. by apply N.eqb_neq. Qed.
End changes.

Section ends.
Context (e : env).

(** ** Programs that end in tables of a kind *)

Definition ends_in {A} (P : Tables -> Prop) (p : prog A) (s : state) : Prop := wp e p (fun _ s' => P (st_db s')) s.

Lemma ends_run {A} P (p : prog A) s r s' : ends_in P p s -> run e p s = (r, s') -> P (st_db s').
Proof using Type. unfold ends_in, wp. intros H Hr. by rewrite Hr in H. Qed.

Lemma ends_harmless {A} P (p : prog A) s : harmless e p -> P (st_db s) -> ends_in P p s.
Proof using Type. intros Hp HP. unfold ends_in, wp. specialize (Hp s). destruct (run e p s) as [a s']. simpl in *. by rewrite Hp. Qed.

Lemma ends_after {A B} P (p : prog A) (f : A -> prog B) s :
  harmless e p -> (forall a s1, st_db s1 = st_db s -> ends_in P (f a) s1) -> ends_in P (bind p f) s.
Proof using Type.
  intros Hp Hf. apply wp_bind. unfold wp. specialize (Hp s). destruct (run e p s) as [a s1]. by apply Hf.
Qed.

Lemma ends_then {A B} (P : Tables -> Prop) (p : prog A) (f : A -> prog B) s :
  ends_in P p s -> (forall a, harmless e (f a)) -> ends_in P (bind p f) s.
Proof using Type.
  unfold ends_in. intros Hp Hf. apply wp_bind. eapply wp_mono; [exact Hp|]. intros a s1 H1. by apply ends_harmless.
Qed.
End ends.

(** ** The application *)

Section authority.
Context (F : Float64) (cfg : Config F) (j : JWT) (u : UUIDLib).
Context (otel cors : middleware) (metrics : option (string -> string -> string -> duration -> prog unit))
        (limiter authLimiter : Limiter).
Context (base : list (string * string)) (stack : string) (print_ms : duration -> string)
        (size_of : Ctx -> Z) (errors_of : Ctx -> option string) (hasBody : bool).
Context (PingCheck : context -> prog (result unit)) (format : time -> string) (route_of : Router).
Context (e : env) {HG : GormLaws e} {HC : ClockLaws e} {HB : BcryptLaws e} {HJ : JWTLaws j} {HUU : UUIDLaws u}
        {HR : GinRouting route_of}.
Context (Httl : ttl_ok (RefreshTokenTTL (Auth F cfg))).

Abbreviation config := (tokenConfig F cfg).
Abbreviation svc := (userService_ F cfg j u).
Abbreviation hdl := (userHandler F cfg j u).

#[local] Instance svc_users : UserRepositoryLaws e (userRepository svc) := GORM_UserRepositoryLaws.
#[local] Instance svc_sessions : RefreshTokenRepositoryLaws e (refreshTokenRepository svc) :=
  GORM_RefreshTokenRepositoryLaws (uuid_String u).
#[local] Instance svc_tokens : TokenServiceLaws e (tokenService svc) := tokenService_laws j u e config Httl.
#[local] Instance svc_tx : TxManagerLaws e (txManager svc) := GORM_TxManagerLaws e.

Abbreviation asks := (asks route_of).
Abbreviation third_parties := (third_parties otel cors metrics limiter authLimiter PingCheck e).

(** What entitles a request to change what is stored of [v]. *)
Inductive entitled (i : bound) (c : Ctx) (db : Tables) (v : UUID) : Prop :=
  | entitled_access ep :
      ep ∈ [ELogout; EChangePassword; EDeleteAccount] -> asks ep c ->
      access_valid e j config c v -> csrf_valid e (csrfService_ F cfg) c -> entitled i c db v
  | entitled_refresh tok uid :
      asks ERefresh c -> csrf_valid e (csrfService_ F cfg) c -> rq_Cookie (g_req c) RefreshTokenCookie = Ok tok ->
      vouching_token j e config tok uid ->
      uid = v \/ (exists k row, t_tokens db !! k = Some row /\ rt_TokenHash row = Hash tok /\ rt_UserID row = v) ->
      entitled i c db v
  | entitled_login req row :
      asks ELogin c -> in_Login i = Ok req -> selected TUsers (user_has_email (lr_Email req)) db row -> u_ID row = v ->
      env_bcrypt_compare e (u_Password row) (to_bytes (lr_Password req)) = None -> entitled i c db v
  | entitled_register req :
      asks ERegister c -> in_Register i = Ok req -> t_users db !! v = None -> entitled i c db v.

Section one_request.
Context (i : bound) (c0 : Ctx) (db : Tables) (v : UUID).

(** What the request may leave of the tables it found. *)
Definition allowed (db' : Tables) : Prop := untouched v db db' \/ entitled i c0 db v.

Lemma allowed_same : allowed db.
Proof using Type. by left. Qed.

(** A service call, answered. *)
Lemma ends_call {A} (call : prog (result A)) (f : A -> Ctx) c s :
  ends_in e allowed call s -> ends_in e allowed (let! x := call onerr err => fail_with c err in finish (f x)) s.
Proof using Type. intros Hc. apply ends_then; [exact Hc|]. intros [x|err]; auto with harmless. Qed.

Lemma ends_bound {T} c (b : result T) (k : T -> prog (outcome * Ctx)) s :
  st_db s = db -> (forall req s1, b = Ok req -> st_db s1 = db -> ends_in e allowed (k req) s1) ->
  ends_in e allowed (let* r := BindJSON c b in match r with inr c => finish c | inl req => k req end) s.
Proof using Type.
  intros Hs Hk. destruct b as [req|err]; [by apply Hk|].
  unfold ends_in, wp. rewrite run_bind. destruct (run_BindJSON e c (Err err : result T) s) as (err' & s' & -> & Hd).
  simpl. rewrite Hd, Hs. apply allowed_same.
Qed.

(** The tables a service call leaves, by what it commits. *)
Lemma ends_commits {A} (p : prog (result A)) (Q : A -> Tables -> Prop) s :
  st_db s = db -> wp e p (fun r s' => commits (st_db s) Q r (st_db s')) s ->
  (forall x db', Q x db' -> allowed db') -> ends_in e allowed p s.
Proof using Type.
  unfold ends_in. intros Hs Hp HQ. eapply wp_mono; [exact Hp|]. intros [x|err] s' H; simpl in H; [by eapply HQ|].
  rewrite H, Hs. apply allowed_same.
Qed.

Lemma ends_Register c s :
  asks ERegister c0 -> ctx_value (g_ctx c) = None -> st_db s = db ->
  ends_in e allowed (handle_Register hdl (in_Register i) c) s.
Proof using HG HC HB HJ HUU Httl.
  intros Hep Hctx Hs. apply ends_bound; [done|]. intros req s1 Hreq Hs1. apply ends_call.
  eapply ends_commits; [done|exact (wp_Register e svc (g_ctx c) Hctx req s1)|].
  rewrite Hs1. intros resp db' (row & _ & _ & _ & _ & Hu & Hc & Hdb & Hi & _).
  assert (Hnew : t_users db !! u_ID row = None).
  { apply eq_None_not_Some. intros [x Hx]. apply Hc. left. simpl. by rewrite Hx. }
  destruct (decide (u_ID row = v)) as [Heq|Hne];
    [right; eapply entitled_register; [done|exact Hreq|by rewrite <- Heq]|left]. split.
  - intros k x Hx. rewrite Hdb. destruct (decide (k = u_ID row)) as [->|Hk]; [|by rewrite lookup_insert_ne].
    rewrite lookup_insert_eq, Hnew. split; [done|intros [= <-]; congruence].
  - intros k x Hx. apply (tokens_issued v e svc _ _ _ _ k x Hi); [|done]. by rewrite Hu.
Qed.

Lemma ends_Login c s :
  asks ELogin c0 -> ctx_value (g_ctx c) = None -> st_db s = db ->
  ends_in e allowed (handle_Login hdl (in_Login i) c) s.
Proof using HG HC HB HJ HUU Httl.
  intros Hep Hctx Hs. apply ends_bound; [done|]. intros req s1 Hreq Hs1. apply ends_call.
  eapply ends_commits; [done|exact (wp_Login e svc (g_ctx c) Hctx req s1)|].
  rewrite Hs1. intros resp db' (row & m & Hrow & Hcmp & Hu & Hi & ->).
  destruct (decide (u_ID row = v)) as [Heq|Hne]; [right; by eapply entitled_login|left]. split; [done|].
  intros k x Hx. apply (tokens_issued v e svc _ _ _ _ k x Hi); [|done]. by rewrite Hu.
Qed.

(** Ending the sessions of [uid] touches [v] only if they are the same. *)
Lemma allowed_user uid db' :
  (uid = v -> entitled i c0 db v) -> (uid <> v -> untouched v db db') -> allowed db'.
Proof using Type. intros He Hu. destruct (decide (uid = v)) as [Heq|Hne]; [right; by apply He|left; by apply Hu]. Qed.

Lemma ends_Logout c s uid :
  (uid = v -> entitled i c0 db v) -> ctx_value (g_ctx c) = None -> st_db s = db ->
  GetUserIDFromContext u c = Ret (Ok uid) -> ends_in e allowed (handle_Logout u hdl c) s.
Proof using HG HC HB HJ HUU Httl.
  intros He Hctx Hs Hid. unfold handle_Logout. rewrite Hid. cbn [bind].
  apply ends_then; [|auto with harmless]. apply ends_then; [|intros [[]|err]; auto with harmless].
  eapply (ends_commits _ (fun _ db' => exists m, m = revoked (token_of_user uid) (t_tokens db) /\ db' = set_rows TTokens m db));
    [done| |].
  - eapply wp_mono; [apply (wp_RevokeRefreshTokens e svc (g_ctx c) uid s)|]. intros r s' H.
    apply writes_commits in H; [|done]. rewrite (seen_committed _ s Hctx), Hs in H. rewrite Hs. exact H.
  - intros x db' (m & -> & ->). apply (allowed_user uid); [done|]. apply untouched_sessions_of.
Qed.

Lemma ends_ChangePassword c s uid :
  (uid = v -> entitled i c0 db v) -> ctx_value (g_ctx c) = None -> st_db s = db ->
  GetUserIDFromContext u c = Ret (Ok uid) -> ends_in e allowed (handle_ChangePassword u hdl (in_ChangePassword i) c) s.
Proof using HG HC HB HJ HUU Httl.
  intros He Hctx Hs Hid. unfold handle_ChangePassword. rewrite Hid. cbn [bind].
  apply ends_bound; [done|]. intros req s1 Hreq Hs1. apply ends_call.
  eapply ends_commits; [done|exact (wp_ChangePassword e svc (g_ctx c) Hctx uid req s1)|].
  rewrite Hs1. intros tp db' (row & hashed & now & _ & _ & _ & Hdb & Hi & _).
  apply (allowed_user uid); [done|]. intros Hne. split.
  - intros k x Hx. rewrite Hdb. apply (users_mapped v); [intros y; by case_match| |done].
    intros y <-. unfold user_has_id. rewrite (proj2 (N.eqb_neq _ _)) by congruence. by rewrite andb_false_r.
  - intros k x Hx. rewrite <- (tokens_issued v e svc _ _ _ _ k x Hi); [|done|done].
    apply (tokens_revoked v); [|done]. intros y <-. by apply N.eqb_neq.
Qed.

Lemma ends_DeleteAccount c s uid :
  (uid = v -> entitled i c0 db v) -> ctx_value (g_ctx c) = None -> st_db s = db ->
  GetUserIDFromContext u c = Ret (Ok uid) -> ends_in e allowed (handle_DeleteAccount u hdl c) s.
Proof using HG HC HB HJ HUU Httl.
  intros He Hctx Hs Hid. unfold handle_DeleteAccount. rewrite Hid. cbn [bind]. apply (ends_call _ (fun _ => _)).
  eapply ends_commits; [done|exact (wp_DeleteAccount e svc (g_ctx c) Hctx uid s)|].
  rewrite Hs. intros x db' (_ & now & ->). apply (allowed_user uid); [done|]. intros Hne. split.
  - intros k y Hy. symmetry. apply deleted_others. unfold user_has_id. apply N.eqb_neq. congruence.
  - intros k y Hy. apply (tokens_revoked v); [|done]. intros z <-. by apply N.eqb_neq.
Qed.

(** An exchange touches the user the token names and the owner of its digest. *)
Lemma refresh_touches user tok r db' tr :
  refresh_outcome e u svc user tok db r db' tr -> gu_ID user <> v ->
  (forall k row, t_tokens db !! k = Some row -> rt_TokenHash row = Hash tok -> rt_UserID row <> v) ->
  untouched v db db'.
Proof using Type.
  intros Ho Hne Hnone.
  assert (Hkept : forall k x, rt_UserID x = v ->
    t_tokens db !! k = Some x <-> revoked (token_has_hash (Hash tok)) (t_tokens db) !! k = Some x).
  { intros k x Hx. rewrite revoked_lookup. split; [|by intros []]. intros Hk. split; [done|].
    apply not_true_iff_false. intros Hh%String.eqb_eq. by apply (Hnone k x Hk Hh). }
  inversion Ho; subst; try apply untouched_refl.
  - by apply untouched_sessions_of.
  - split; [done|]. exact Hkept.
  - split; [done|]. intros k x Hx. rewrite (Hkept k x Hx).
    eapply (tokens_issued v e svc); [eassumption|exact Hne|exact Hx].
Qed.

Lemma ends_Refresh c s :
  asks ERefresh c0 -> csrf_valid e (csrfService_ F cfg) c0 -> rq_Cookie (g_req c) = rq_Cookie (g_req c0) ->
  ctx_value (g_ctx c) = None -> st_db s = db -> ends_in e allowed (handle_Refresh hdl c) s.
Proof using HG HC HB HJ HUU Httl.
  intros Hep Hcsrf Hck Hctx Hs. unfold handle_Refresh. rewrite Hck.
  destruct (rq_Cookie (g_req c0) RefreshTokenCookie) as [tok|err] eqn:Htok.
  2: { apply ends_harmless; [|rewrite Hs; apply allowed_same]. auto with harmless. }
  apply ends_call. eapply wp_mono; [exact (wp_Refresh_claims e u svc (g_ctx c) Hctx tok s)|].
  intros r s' [(err & _ & [Hd _] & _)|(user & (tr & _ & Ho) & Hv & _)]; [rewrite Hd, Hs; apply allowed_same|].
  rewrite Hs in Ho.
  destruct (decide (gu_ID user = v)) as [Heq|Hne]; 
    [right; eapply entitled_refresh; [done|done|exact Htok|exact Hv|by left]|].
  destruct (decide (map_Exists (fun _ row => rt_TokenHash row = Hash tok /\ rt_UserID row = v) (t_tokens db)))
    as [(k & row & Hk & Hh & Hu)|Hno].
  - right. eapply entitled_refresh; [done|done|exact Htok|exact Hv|]. right. by exists k, row.
  - left. eapply refresh_touches; [exact Ho|done|]. intros k row Hk Hh Hu. apply Hno. by exists k, row.
Qed.

(** *** The endpoints that act for nobody, or only read *)

Lemma harmless_reads {A} (p : prog A) : (forall s, wp e p (fun _ s' => s' ≡ s) s) -> harmless e p.
Proof using Type. intros Hp s. specialize (Hp s). unfold wp in Hp. destruct (run e p s). by apply st_db_proper. Qed.

Lemma harmless_call {A} (call : prog (result A)) (f : A -> Ctx) c :
  harmless e call -> harmless e (let! x := call onerr err => fail_with c err in finish (f x)).
Proof using Type. intros Hc. apply harmless_bind; [done|]. intros [x|err]; auto with harmless. Qed.

Lemma harmless_unauthorized c err : harmless e (unauthorized c err).
Proof using Type. unfold unauthorized. auto with harmless. Qed.

Lemma harmless_GetMe c : ctx_value (g_ctx c) = None -> harmless e (handle_GetMe u hdl c).
Proof using HG.
  intros Hctx. apply harmless_bind; [auto with harmless|]. intros [uid|err]; [|apply harmless_unauthorized].
  apply harmless_call, harmless_reads. intros s.
  eapply wp_mono; [exact (wp_GetUserByID e u svc (g_ctx c) Hctx _ s)|]. by intros r s' [Hs _].
Qed.

Lemma harmless_ListSessions b c : ctx_value (g_ctx c) = None -> harmless e (handle_ListSessions u hdl b c).
Proof using HG HC HB HJ HUU Httl.
  intros Hctx. apply harmless_bind; [auto with harmless|]. intros [uid|err]; [|apply harmless_unauthorized].
  apply harmless_bind.
  - unfold BindPagination. destruct b; auto 6 with harmless.
  - intros [page|c1]; [|auto with harmless].
    apply (harmless_call _ (fun l => OKWithMeta 200 "Sessions retrieved" (DSessions (sl_Sessions l)) (sl_Meta l) c)).
    apply harmless_reads. intros s.
    eapply wp_mono; [exact (wp_ListSessions e svc (g_ctx c) Hctx uid _ page s)|]. by intros r s' [Hs _].
Qed.

Lemma harmless_fail_internal {A} msg err : harmless e (fail_internal (A := A) msg err).
Proof using Type. unfold fail_internal, Errorf. auto 6 with harmless. Qed.

Lemma harmless_GetMessage c : harmless e (handle_GetMessage messageService_ c).
Proof using HG.
  apply harmless_call, harmless_bind.
  - apply harmless_reads. intros s. eapply wp_mono; [apply (mr_GetMessage_law (e := e))|]. by intros r s' [Hs _].
  - intros [[m|]|err]; auto using harmless_ret, harmless_fail_internal.
Qed.

Lemma harmless_GetCounter c : harmless e (handle_GetCounter counterService_ c).
Proof using HG.
  apply harmless_call, harmless_bind.
  - apply harmless_reads. intros s. eapply wp_mono; [apply (cr_GetCounter_law (e := e))|]. by intros r s' [Hs _].
  - intros [m|err]; auto using harmless_ret, harmless_fail_internal.
Qed.

Lemma harmless_GetCSRFToken c : harmless e (handle_GetCSRFToken hdl c).
Proof using Type.
  apply harmless_bind.
  - apply harmless_bind; [auto with harmless|]. unfold Errorf. intros [nonce|err]; auto with harmless.
  - intros [token|err]; auto with harmless.
Qed.

Lemma harmless_checks ctx cs details n :
  Forall (fun nc => forall ctx, harmless e (nc.2 ctx)) cs -> harmless e (run_checks ctx cs details n).
Proof using Type.
  intros Hcs. revert details n. induction Hcs as [|[name check] rest Hc _ IH]; intros details n; [done|].
  apply harmless_bind; [apply Hc|]. intros [[]|err]; apply IH.
Qed.

Lemma harmless_Ready c : (forall ctx, harmless e (PingCheck ctx)) -> harmless e (handle_Ready [("database", PingCheck)] c).
Proof using Type.
  intros Hp. apply harmless_bind.
  - apply harmless_bind; [unfold ctx_poll; auto with harmless|]. intros [x|err]; [|done].
    apply harmless_bind; [by apply harmless_checks, Forall_singleton|]. intros [details n]. by destruct (n >? 0).
  - intros [st|err]; [|auto with harmless]. by destruct (negb _).
Qed.

Lemma harmless_Check c : harmless e (handle_Check format c).
Proof using Type.
  apply harmless_call, harmless_bind; [unfold ctx_poll; auto with harmless|]. intros [x|err]; auto with harmless.
Qed.

Lemma ends_IncrementCounter c s :
  ctx_value (g_ctx c) = None -> st_db s = db -> ends_in e allowed (handle_IncrementCounter counterService_ c) s.
Proof using HG.
  intros Hctx Hs. apply ends_call, ends_then.
  - eapply ends_commits; [done| |].
    + eapply wp_mono; [apply (cr_IncrementCounter_law (e := e)); exact Hctx|]. intros r s' [_ H]. exact H.
    + intros x db' (cn & now & _ & _ & ->). left. by rewrite Hs.
  - intros [x|err]; auto using harmless_ret, harmless_fail_internal.
Qed.

(** *** Routes *)

Context (Hthird : third_parties) (Hctx : ctx_value (g_ctx c0) = None).

Abbreviation leaves := (leaves e (fun _ => allowed)).
Abbreviation arrived := (arrived route_of c0 db).

Lemma closed_allowed : closed (fun _ => allowed).
Proof using Type. by intros c c1 db1 _. Qed.

#[local] Hint Resolve closed_allowed allowed_same : core.

(** The endpoints that act for the signed-in user. *)
Lemma ends_for_user r c s (h : handler) ep :
  arrived r c s -> changes_state (rt_method r) = true -> rt_endpoint r = ep ->
  ep ∈ [ELogout; EChangePassword; EDeleteAccount] ->
  (forall c1 s1 uid, (uid = v -> entitled i c0 db v) -> ctx_value (g_ctx c1) = None -> st_db s1 = db ->
     GetUserIDFromContext u c1 = Ret (Ok uid) -> ends_in e allowed (h c1) s1) ->
  leaves (chain (guard_middleware F cfg j u authLimiter <$> [GAuth; GCSRF]) h c) s.
Proof using HJ HUU HR.
  intros Ha Hm Hep Hin Hh. cbn [chain foldr fmap list_fmap].
  refine (leaves_authenticated F cfg j u authLimiter route_of e c0 db _ closed_allowed allowed_same r c s _ Ha _). intros c1 s1 uid Ha1 Hacc Hid.
  refine (leaves_protected F cfg j u authLimiter route_of e c0 db _ closed_allowed allowed_same r c1 s1 _ Ha1 Hm _). intros s2 Ha2 Hcsrf.
  apply (Hh c1 s2 uid); [|by eapply arrived_context|apply Ha2|done].
  intros ->. eapply (entitled_access _ _ _ _ ep); [done|exists r; by split; [apply Ha|]|done|done].
Qed.

Lemma ends_route r c s : arrived r c s -> leaves (route_handler F cfg j u authLimiter PingCheck format i r c) s.
Proof using All.
  intros Ha. pose proof Ha as (Hr & _). pose proof Hr as (Hin & _ & _)%routing_sound.
  assert (Hcase : (forall c1 s1, arrived r c1 s1 ->
      ends_in e allowed (endpoint_handler F cfg j u PingCheck format i (rt_endpoint r) c1) s1) ->
    leaves (route_handler F cfg j u authLimiter PingCheck format i r c) s) by 
    (exact (leaves_unguarded F cfg j u otel cors metrics limiter authLimiter PingCheck format route_of e Hthird i c0 db _
      closed_allowed allowed_same r c s Ha)).
  assert (Hread : (forall c1, ctx_value (g_ctx c1) = None ->
      harmless e (endpoint_handler F cfg j u PingCheck format i (rt_endpoint r) c1)) ->
    leaves (route_handler F cfg j u authLimiter PingCheck format i r c) s).
  { intros Hh. apply Hcase. intros c1 s1 Ha1. apply ends_harmless; [apply Hh; by eapply arrived_context|].
    destruct Ha1 as (_ & _ & _ & _ & ->). apply allowed_same. }
  pose proof (ping_harmless _ _ _ _ _ _ _ Hthird) as Hping.
  unfold every_route in Hin. cbn [SetupRoutes SetupHealthRoutes app] in Hin.
  repeat (apply elem_of_cons in Hin as [->|Hin]); [..|by apply not_elem_of_nil in Hin];
    try (apply Hread; intros c1 Hc1; cbn [rt_endpoint endpoint_handler];
         auto using harmless_GetMessage, harmless_GetCSRFToken, harmless_GetMe, harmless_ListSessions, harmless_GetCounter,
           harmless_Ready, harmless_Check; fail).
  - apply Hcase. intros c1 s1 Ha1. apply ends_Register; [by eexists|by eapply arrived_context|apply Ha1].
  - apply Hcase. intros c1 s1 Ha1. apply ends_Login; [by eexists|by eapply arrived_context|apply Ha1].
  - unfold route_handler. cbn [rt_guards chain foldr fmap list_fmap].
    apply (conduit_guard F cfg j u otel cors metrics limiter authLimiter PingCheck e Hthird GAuthLimiter);
      [done| |destruct Ha as (_ & _ & _ & _ & ->); apply allowed_same].
    intros c1 s1 Hc1 Hk1 Hs1. eapply (leaves_protected F cfg j u authLimiter route_of e c0 db _ closed_allowed allowed_same);
      [by eapply arrived_moved|done|]. intros s2 Ha2 Hcsrf.
    apply ends_Refresh; [by eexists|done|by destruct Ha2 as (_ & (_ & _ & -> & _) & _)|by eapply arrived_context|apply Ha2].
  - eapply ends_for_user; [done|done|done|set_solver|]. intros c1 s1 uid. apply ends_Logout.
  - eapply ends_for_user; [done|done|done|set_solver|]. intros c1 s1 uid. apply ends_ChangePassword.
  - eapply ends_for_user; [done|done|done|set_solver|]. intros c1 s1 uid. apply ends_DeleteAccount.
  - apply Hcase. intros c1 s1 Ha1. apply ends_IncrementCounter; [by eapply arrived_context|apply Ha1].
Qed.
End one_request.

(** C2.  Whatever the request, and whatever fails on the way: what is stored of a
    user, the row of the account and the sessions, is what it was, unless the
    request carried the authority of that user.  That is: a valid access token of
    the user with a valid CSRF token, to sign out, change the password or delete the
    account; a valid refresh token that names the user, or whose digest a session of
    the user is stored under, with a valid CSRF token, to exchange it; the address
    and the password of the account, to sign in; or the id was nobody's, and the
    request registered it. *)
Theorem account_isolation v i redirect c s r s' :
  third_parties -> ctx_value (g_ctx c) = None ->
  route_of HandleMethodNotAllowed every_route (rq_Method (g_req c)) (rq_Path (g_req c)) <> Redirected ->
  run e (dispatch F cfg j u otel cors metrics limiter authLimiter base stack print_ms size_of errors_of hasBody PingCheck
           format route_of i redirect c) s = (r, s') ->
  untouched v (st_db s) (st_db s') \/ entitled i c (st_db s) v.
Proof using All.
  intros Hthird Hctx Hred Hr. eapply (leaves_run e (fun _ => allowed i c (st_db s) v)); [|exact Hr].
  apply (leaves_dispatch F cfg j u otel cors metrics limiter authLimiter base stack print_ms size_of errors_of hasBody PingCheck
    format route_of e Hthird i c (st_db s)); [apply closed_allowed|apply allowed_same|done..|].
  intros r1 c1 s1 Ha. apply ends_route; done.
Qed.
End authority.

(** ** Witness: Ann signs in *)

Definition signing_in : bound := let err := EString 803 "EOF" in mkBound (Err err) (Ok ann_login) (Err err) (Err err).
Definition login_request : Ctx := toy_ctx (mkRequest "POST" "/api/v1/auth/login" "/api/v1/auth/login" "" (fun _ => "")
  (fun _ => Err (EString 802 "http: named cookie not present")) "203.0.113.7" "" "").

Definition toy_dispatch (i : bound) : handler :=
  dispatch toy_float (NewConfig toy_float strong) ToyJWT.jwt toy_uuid untraced pass None free free [] "goroutine 1"
    (fun _ => "0") (fun _ => 0) (fun _ => None) true (fun _ => Ret (Ok tt)) (fun _ => "") toy_route i finish.

Lemma toy_third_parties : third_parties untraced pass None free free (fun _ => Ret (Ok tt)) good_env.
Proof. split; try done; intros Q next c s HQ Hn Hs; apply Hn; done || by apply cosmetic_same. Qed.

Lemma app_ttl : ttl_ok (RefreshTokenTTL (Auth toy_float (NewConfig toy_float strong))).
Proof. by vm_compute. Qed.

Definition signed_in := Eval vm_compute in run good_env (toy_dispatch signing_in login_request) ann_state.

Lemma signed_in_eq : run good_env (toy_dispatch signing_in login_request) ann_state = signed_in.
Proof. vm_compute. reflexivity. Qed.

(** Something of Ann's has changed: there is a session that was not. *)
Lemma signed_in_touches : ~ untouched ann_id (st_db ann_state) (st_db signed_in.2).
Proof.
  intros [_ Ht]. destruct (t_tokens (st_db signed_in.2) !! 31%N) as [row|] eqn:Hrow; [|by vm_compute in Hrow].
  assert (Hu : rt_UserID row = ann_id) by (vm_compute in Hrow; by injection Hrow as <-).
  apply (Ht _ _ Hu) in Hrow. by vm_compute in Hrow.
Qed.

Lemma account_isolation_witness :
  status_of signed_in.1.2 = 200 /\
  entitled toy_float (NewConfig toy_float strong) ToyJWT.jwt toy_route good_env signing_in login_request (st_db ann_state) ann_id.
Proof.
  split; [reflexivity|].
  destruct (account_isolation toy_float (NewConfig toy_float strong) ToyJWT.jwt toy_uuid untraced pass None free free []
    "goroutine 1" (fun _ => "0") (fun _ => 0) (fun _ => None) true (fun _ => Ret (Ok tt)) (fun _ => "") toy_route good_env
    app_ttl ann_id signing_in finish login_request ann_state signed_in.1 signed_in.2 toy_third_parties eq_refl)
    as [Hsame|He]; [vm_compute; discriminate|exact signed_in_eq|by apply signed_in_touches in Hsame|exact He].
Defined.
