(* ===== verification/Secrecy.v ===== *)
(** * Who may learn of an account

    The counterpart of Authority.v for what the application answers: a response
    carries data of an account, or tokens for it, only if the request had the
    authority to see them, and then the data the tables held. *)

From S2P Require Import Prelude GoStd Apperr Model Gorm Effects Repository RepositoryLaws Testbed Token Csrf UserService UserSpec Accounts Counters Http Middleware Health Handlers Config App Passage Authority.

Section secrecy.
Context (F : Float64) (cfg : Config F) (j : JWT) (u : UUIDLib).
Context (otel cors : middleware) (metrics : option (string -> string -> string -> duration -> prog unit))
        (limiter authLimiter : Limiter).
Context (base : list (string * string)) (stack : string) (print_ms : duration -> string)
        (size_of : Ctx -> Z) (errors_of : Ctx -> option string) (hasBody : bool).
Context (PingCheck : context -> prog (result unit)) (format : time -> string) (route_of : Router).
Context (e : env) {HG : GormLaws e} {HC : ClockLaws e} {HB : BcryptLaws e} {HJ : JWTLaws j} {HUU : UUIDLaws u}
        {HR : GinRouting route_of}.
Context (Httl : ttl_ok (RefreshTokenTTL (Auth F cfg))).

Abbreviation config := (tokenConfig F cfg).
Abbreviation svc := (userService_ F cfg j u).
Abbreviation hdl := (userHandler F cfg j u).
Abbreviation asks := (asks route_of).
Abbreviation entitled := (entitled F cfg j route_of e).
Abbreviation third_parties := (third_parties otel cors metrics limiter authLimiter PingCheck e).

#[local] Instance svc_users : UserRepositoryLaws e (userRepository svc) := GORM_UserRepositoryLaws.
#[local] Instance svc_sessions : RefreshTokenRepositoryLaws e (refreshTokenRepository svc) :=
  GORM_RefreshTokenRepositoryLaws (uuid_String u).
#[local] Instance svc_tokens : TokenServiceLaws e (tokenService svc) := tokenService_laws j u e config Httl.
#[local] Instance svc_tx : TxManagerLaws e (txManager svc) := GORM_TxManagerLaws e.

Section one_request.
Context (i : bound) (c0 : Ctx) (db : Tables).

(** A session as it is listed, and the row it is of. *)
Definition lists (uid : UUID) (se : Session) : Prop :=
  exists k row, t_tokens db !! k = Some row /\ rt_UserID row = uid /\ se_ID se = rt_ID row /\
    se_CreatedAt se = rt_CreatedAt row /\ se_ExpiresAt se = rt_ExpiresAt row.

(** Data that the request may be answered with. *)
Definition due (d : data) : Prop :=
  match d with
  | DUser user => asks EGetMe c0 /\ access_valid e j config c0 (gu_ID user) /\
      exists row, selected TUsers (user_has_id (gu_ID user)) db row /\ gu_Email user = u_Email row /\ gu_Name user = u_Name row
  | DSessions l => asks EListSessions c0 /\ exists uid, access_valid e j config c0 uid /\ Forall (lists uid) l
  | DAuth resp => entitled i c0 db (gu_ID (ar_User resp)) /\
      ((exists req row, in_Login i = Ok req /\ selected TUsers (user_has_email (lr_Email req)) db row /\
          ar_User resp = mkGetUser (u_ID row) (u_Email row) (u_Name row)) \/
       (exists req, in_Register i = Ok req /\ gu_Email (ar_User resp) = rr_Email req /\ gu_Name (ar_User resp) = rr_Name req))
  | DCounter _ => exists uid, access_valid e j config c0 uid
  | _ => True
  end.

(** A cookie it may set: an empty one, or one with a token for a user whose
    authority it has. *)
Definition due_cookie (ck : Cookie) : Prop :=
  ck_Value ck = "" \/
  exists uid, entitled i c0 db uid /\
    (is_refresh_token j config (ck_Value ck) uid \/ exists email name, is_access_token j e config (ck_Value ck) uid email name).

Definition fit (c : Ctx) (_ : Tables) : Prop :=
  Forall (fun w => due (Data w.2)) (g_writes c) /\ Forall due_cookie (g_cookies c).

Lemma closed_fit : closed fit.
Proof using Type.
  intros c c1 db1 [Hk (extra & Hw & Hx)] [H1 H2]. split; [|by rewrite Hk]. rewrite Hw. apply Forall_app. split; [done|].
  eapply Forall_impl; [exact Hx|]. intros w Hd. by rewrite Hd.
Qed.

Abbreviation leaves := (leaves e fit).
Abbreviation arrived := (arrived route_of c0 db).

(** *** Answers *)

Lemma fit_OK status message d c db1 : due d -> fit c db1 -> fit (OK status message d c) db1.
Proof using Type. intros Hd [H1 H2]. split; [|done]. simpl. apply Forall_app. split; [done|]. by apply Forall_singleton. Qed.

Lemma fit_OKWithMeta status message d meta c db1 : due d -> fit c db1 -> fit (OKWithMeta status message d meta c) db1.
Proof using Type. intros Hd [H1 H2]. split; [|done]. simpl. apply Forall_app. split; [done|]. by apply Forall_singleton. Qed.

Lemma fit_cookie ck c db1 : due_cookie ck -> fit c db1 -> fit (with_cookie ck c) db1.
Proof using Type. intros Hk [H1 H2]. split; [done|]. simpl. apply Forall_app. split; [done|]. by apply Forall_singleton. Qed.

Lemma fit_cleared c db1 : fit c db1 -> fit (clearAuthCookies hdl c) db1.
Proof using Type. intros Hc. apply fit_cookie; [by left|]. apply fit_cookie; [by left|done]. Qed.

(** The cookies of a pair issued to a user whose authority the request has. *)
Lemma fit_issued user acc ref m m' c db1 :
  issued e svc user (acc, ref) m m' -> entitled i c0 db (gu_ID user) -> fit c db1 ->
  fit (setAuthCookies hdl acc ref c) db1.
Proof using Type.
  intros (Ha & Hr & _) He Hc. apply fit_cookie; [|apply fit_cookie; [|done]]; right; exists (gu_ID user); (split; [done|]).
  - left. exact Hr.
  - right. do 2 eexists. exact Ha.
Qed.

(** A service call, answered or failed. *)
Lemma fit_call {A} (call : prog (result A)) (f : A -> Ctx) (R : A -> Prop) c s :
  wp e call (fun r _ => forall x, r = Ok x -> R x) s -> fit c (st_db s) -> (forall x db1, R x -> fit (f x) db1) ->
  leaves (let! x := call onerr err => fail_with c err in finish (f x)) s.
Proof using Type.
  intros Hc Hs Hf. apply (Passage.leaves_call e fit call f (fun x _ => R x)); [apply closed_fit| |exact Hf].
  eapply wp_mono; [exact Hc|]. intros [x|err] s1 Hx; [by apply Hx|exact Hs].
Qed.

Lemma fit_bound {T} c (b : result T) (k : T -> prog (outcome * Ctx)) s :
  fit c (st_db s) -> (forall req, b = Ok req -> leaves (k req) s) ->
  leaves (let* r := BindJSON c b in match r with inr c => finish c | inl req => k req end) s.
Proof using Type. exact (Passage.leaves_bound e fit c b k s closed_fit). Qed.

Lemma leaves_Register c s :
  asks ERegister c0 -> ctx_value (g_ctx c) = None -> st_db s = db -> fit c db -> leaves (handle_Register hdl (in_Register i) c) s.
Proof using HG HC HB HJ HUU Httl.
  intros Hep Hctx Hs Hc. apply fit_bound; [by rewrite Hs|]. intros req Hreq.
  apply (fit_call _ _ (fun resp => exists db', registered e svc req db resp db')); [|by rewrite Hs|].
  - eapply wp_mono; [exact (wp_Register e svc (g_ctx c) Hctx req s)|]. intros r s' H x ->. rewrite Hs in H. by eexists.
  - intros resp db1 (db' & row & Hem & Hnm & _ & _ & Hu & Hcol & _ & Hi & _).
    assert (He : entitled i c0 db (gu_ID (ar_User resp))).
    { eapply entitled_register; [done|exact Hreq|]. rewrite Hu. apply eq_None_not_Some. intros [x Hx].
      apply Hcol. left. simpl. simpl in Hx. by rewrite Hx. }
    apply fit_OK; [split; [exact He|]; right; exists req; by rewrite Hu|]. by eapply (fit_issued (ar_User resp)).
Qed.

Lemma leaves_Login c s :
  asks ELogin c0 -> ctx_value (g_ctx c) = None -> st_db s = db -> fit c db -> leaves (handle_Login hdl (in_Login i) c) s.
Proof using HG HC HB HJ HUU Httl.
  intros Hep Hctx Hs Hc. apply fit_bound; [by rewrite Hs|]. intros req Hreq.
  apply (fit_call _ _ (fun resp => exists db', logged_in e svc req db resp db')); [|by rewrite Hs|].
  - eapply wp_mono; [exact (wp_Login e svc (g_ctx c) Hctx req s)|]. intros r s' H x ->. rewrite Hs in H. by eexists.
  - intros resp db1 (db' & row & m & Hrow & Hcmp & Hu & Hi & _).
    assert (He : entitled i c0 db (gu_ID (ar_User resp))) by (rewrite Hu; by eapply entitled_login).
    apply fit_OK; [split; [exact He|]; left; by exists req, row|]. by eapply (fit_issued (ar_User resp)).
Qed.

Lemma leaves_Refresh c s :
  asks ERefresh c0 -> csrf_valid e (csrfService_ F cfg) c0 -> rq_Cookie (g_req c) = rq_Cookie (g_req c0) ->
  ctx_value (g_ctx c) = None -> st_db s = db -> fit c db -> leaves (handle_Refresh hdl c) s.
Proof using HG HC HB HJ HUU Httl.
  intros Hep Hcsrf Hck Hctx Hs Hc. unfold handle_Refresh. rewrite Hck.
  destruct (rq_Cookie (g_req c0) RefreshTokenCookie) as [tok|err] eqn:Htok.
  2: { apply (leaves_settled e fit c); [apply closed_fit| |by rewrite Hs].
       apply settles_bind; [auto with harmless|]. intros a. by apply settles_fail_with. }
  apply (fit_call _ _ (fun pair => exists user m m',
    issued e svc user (tp_AccessToken pair, tp_RefreshToken pair) m m' /\ entitled i c0 db (gu_ID user))); [|by rewrite Hs|].
  - eapply wp_mono; [exact (wp_Refresh_claims e u svc (g_ctx c) Hctx tok s)|].
    intros r s' [(err & -> & _)|(user & (tr & _ & Ho) & Hv & _)] pair Hr; [done|]. subst r.
    apply refresh_outcome_ok in Ho as (row & n & m & _ & _ & Hi & _). eexists user, _, m. split; [exact Hi|].
    eapply entitled_refresh; [done|done|exact Htok|exact Hv|by left].
  - intros pair db1 (user & m & m' & Hi & He). apply fit_OK; [exact I|]. by eapply fit_issued.
Qed.

Lemma leaves_ChangePassword c s uid :
  entitled i c0 db uid -> ctx_value (g_ctx c) = None -> GetUserIDFromContext u c = Ret (Ok uid) -> fit c (st_db s) ->
  leaves (handle_ChangePassword u hdl (in_ChangePassword i) c) s.
Proof using HG HC HB HJ HUU Httl.
  intros He Hctx Hid Hc. unfold handle_ChangePassword. rewrite Hid. cbn [bind]. apply fit_bound; [done|]. intros req Hreq.
  apply (fit_call _ _ (fun pair => exists user m m',
    issued e svc user (tp_AccessToken pair, tp_RefreshToken pair) m m' /\ gu_ID user = uid)); [|done|].
  - eapply wp_mono; [exact (wp_ChangePassword e svc (g_ctx c) Hctx uid req s)|]. intros r s' H x ->.
    destruct H as (row & hashed & now & _ & _ & _ & _ & Hi & _). by eexists _, _, _.
  - intros pair db1 (user & m & m' & Hi & <-). apply fit_OK; [exact I|]. by eapply fit_issued.
Qed.

Lemma leaves_Logout c s : fit c (st_db s) -> leaves (handle_Logout u hdl c) s.
Proof using Type.
  intros Hc. apply wp_bind, wp_mono with (P := fun _ _ => True); [done|]. intros id s1 _.
  apply wp_bind, wp_mono with (P := fun _ _ => True); [done|]. intros x s2 _. by apply fit_OK, fit_cleared.
Qed.

Lemma leaves_DeleteAccount c s uid :
  GetUserIDFromContext u c = Ret (Ok uid) -> fit c (st_db s) -> leaves (handle_DeleteAccount u hdl c) s.
Proof using Type.
  intros Hid Hc. unfold handle_DeleteAccount. rewrite Hid. cbn [bind].
  apply (fit_call _ (fun _ => _) (fun _ => True)); [done|done|]. intros x db1 _. by apply fit_OK, fit_cleared.
Qed.

Lemma leaves_GetMe c s uid :
  asks EGetMe c0 -> access_valid e j config c0 uid -> ctx_value (g_ctx c) = None ->
  GetUserIDFromContext u c = Ret (Ok uid) -> st_db s = db -> fit c db -> leaves (handle_GetMe u hdl c) s.
Proof using HG HUU.
  intros Hep Hacc Hctx Hid Hs Hc. unfold handle_GetMe. rewrite Hid. cbn [bind].
  apply (fit_call _ _ (fun user => gu_ID user = uid /\ exists row,
    selected TUsers (user_has_id uid) db row /\ gu_Email user = u_Email row /\ gu_Name user = u_Name row)); [|by rewrite Hs|].
  - eapply wp_mono; [exact (wp_GetUserByID e u svc (g_ctx c) Hctx _ s)|]. intros r s' [_ H] user ->.
    destruct H as (uid' & row & Hp & Hrow & ->). rewrite uuid_Parse_String in Hp. injection Hp as <-.
    split; [done|]. exists row. by rewrite <- Hs.
  - intros user db1 (<- & Hrow). by apply fit_OK.
Qed.

Lemma leaves_ListSessions c s uid :
  asks EListSessions c0 -> access_valid e j config c0 uid -> ctx_value (g_ctx c) = None ->
  GetUserIDFromContext u c = Ret (Ok uid) -> st_db s = db -> fit c db ->
  leaves (handle_ListSessions u hdl (in_Pagination i) c) s.
Proof using HG.
  intros Hep Hacc Hctx Hid Hs Hc. unfold handle_ListSessions. rewrite Hid. cbn [bind].
  destruct (in_Pagination i) as [page|err].
  - apply (fit_call _ (fun l => OKWithMeta 200 "Sessions retrieved" (DSessions (sl_Sessions l)) (sl_Meta l) c)
      (fun l => Forall (lists uid) (sl_Sessions l))); [|by rewrite Hs|].
    + eapply wp_mono; [exact (wp_ListSessions e svc (g_ctx c) Hctx uid _ (Normalized page) s)|]. intros r s' [_ H] l ->.
      destruct (H l eq_refl) as (k & full & Hp & _ & _ & ->). apply Forall_fmap, Forall_take, Forall_drop.
      rewrite Hp, Hs. apply Forall_fmap, Forall_forall. intros [id row] Hin%elem_of_map_to_list.
      apply map_lookup_filter_Some in Hin as [Hrow Hact]. apply andb_true_iff in Hact as [Hu%N.eqb_eq _].
      by exists id, row.
    + intros l db1 Hl. apply fit_OKWithMeta; [|done]. split; [done|]. by exists uid.
  - apply (leaves_settled e fit c); [apply closed_fit| |by rewrite Hs]. unfold BindPagination.
    intros s1. apply wp_bind, wp_bind, wp_perform, wp_bind, wp_perform, wp_bind, wp_Fail.
    by intros c1 s2 Hd Hc1.
Qed.

(** *** The endpoints that answer with no account's data *)

Lemma leaves_answer {A} (call : prog (result A)) (f : A -> Ctx) c s :
  fit c (st_db s) -> (forall x db1, fit c db1 -> fit (f x) db1) ->
  leaves (let! x := call onerr err => fail_with c err in finish (f x)) s.
Proof using Type. intros Hc Hf. apply (fit_call call f (fun _ => True)); [done|done|]. intros x db1 _. by apply Hf. Qed.

Lemma leaves_GetCSRFToken c s : fit c (st_db s) -> leaves (handle_GetCSRFToken hdl c) s.
Proof using Type.
  intros Hc. apply wp_bind, wp_mono with (P := fun _ _ => True); [done|]. intros [tok|err] s1 _; [by apply fit_OK|].
  apply (leaves_settled e fit c); [apply closed_fit| |exact Hc].
  apply settles_bind; [auto with harmless|]. intros a. by apply settles_fail_with.
Qed.

Lemma leaves_Ready cs c s : fit c (st_db s) -> leaves (handle_Ready cs c) s.
Proof using Type.
  intros Hc. apply wp_bind, wp_mono with (P := fun _ _ => True); [done|]. intros [st|err] s1 _.
  - destruct (negb _); apply wp_ret; [|by apply fit_OK]. destruct Hc as [H1 H2]. split; [|done].
    simpl. apply Forall_app. split; [done|]. by apply Forall_singleton.
  - exact (leaves_settled e fit c _ s1 closed_fit (settles_fail_with e c c err (reflexivity c)) Hc).
Qed.

(** *** Routes *)

Context (Hthird : third_parties) (Hctx : ctx_value (g_ctx c0) = None) (H0 : fit c0 db).

Lemma arrived_fit r c s : arrived r c s -> fit c (st_db s).
Proof using H0. exact (arrived_claim route_of c0 db fit closed_fit H0 r c s). Qed.

(** An endpoint behind the authentication guard, and one behind both. *)
Lemma leaves_for_reader r c s (h : handler) :
  arrived r c s ->
  (forall c1 s1 uid, arrived r c1 s1 -> access_valid e j config c0 uid -> GetUserIDFromContext u c1 = Ret (Ok uid) ->
     leaves (h c1) s1) ->
  leaves (chain (guard_middleware F cfg j u authLimiter <$> [GAuth]) h c) s.
Proof using HJ HUU H0.
  exact (fun Ha Hh => leaves_authenticated F cfg j u authLimiter route_of e c0 db fit closed_fit H0 r c s h Ha Hh).
Qed.

Lemma leaves_for_user r c s (h : handler) :
  arrived r c s -> changes_state (rt_method r) = true ->
  (forall c1 s1 uid, arrived r c1 s1 -> access_valid e j config c0 uid -> csrf_valid e (csrfService_ F cfg) c0 ->
     GetUserIDFromContext u c1 = Ret (Ok uid) -> leaves (h c1) s1) ->
  leaves (chain (guard_middleware F cfg j u authLimiter <$> [GAuth; GCSRF]) h c) s.
Proof using HJ HUU HR H0.
  intros Ha Hm Hh.
  refine (leaves_authenticated F cfg j u authLimiter route_of e c0 db fit closed_fit H0 r c s _ Ha _). intros c1 s1 uid Ha1 Hacc Hid.
  refine (leaves_protected F cfg j u authLimiter route_of e c0 db fit closed_fit H0 r c1 s1 _ Ha1 Hm _). intros s2 Ha2 Hcsrf.
  exact (Hh c1 s2 uid Ha2 Hacc Hcsrf Hid).
Qed.

Lemma leaves_route r c s : arrived r c s -> leaves (route_handler F cfg j u authLimiter PingCheck format i r c) s.
Proof using All.
  intros Ha. pose proof Ha as (Hr & _). pose proof Hr as (Hin & _ & _)%routing_sound.
  pose proof (arrived_fit r) as Hfit. pose proof (arrived_context route_of c0 db r) as Hcx.
  assert (Hdb : forall c1 s1, arrived r c1 s1 -> st_db s1 = db) by (intros c1 s1 (_ & _ & _ & _ & ?); done).
  assert (Hfit0 : forall c1 s1, arrived r c1 s1 -> fit c1 db) by (intros c1 s1 H; by apply (Hfit c1 s1)).
  assert (Hcase : (forall c1 s1, arrived r c1 s1 -> leaves (endpoint_handler F cfg j u PingCheck format i (rt_endpoint r) c1) s1) ->
    leaves (route_handler F cfg j u authLimiter PingCheck format i r c) s)
    by exact (leaves_unguarded F cfg j u otel cors metrics limiter authLimiter PingCheck format route_of e Hthird i c0 db fit
      closed_fit H0 r c s Ha).
  unfold every_route in Hin. cbn [SetupRoutes SetupHealthRoutes app] in Hin.
  repeat (apply elem_of_cons in Hin as [->|Hin]); [..|by apply not_elem_of_nil in Hin].
  - apply Hcase. intros c1 s1 Ha1. apply leaves_answer; [by eapply Hfit|]. intros x db1 Hx. by apply fit_OK.
  - apply Hcase. intros c1 s1 Ha1. apply leaves_Register; [by eexists|by eapply Hcx|by eapply Hdb|by eapply Hfit0].
  - apply Hcase. intros c1 s1 Ha1. apply leaves_Login; [by eexists|by eapply Hcx|by eapply Hdb|by eapply Hfit0].
  - unfold route_handler. cbn [rt_guards chain foldr fmap list_fmap].
    apply (conduit_guard F cfg j u otel cors metrics limiter authLimiter PingCheck e Hthird GAuthLimiter);
      [apply closed_fit| |by eapply Hfit].
    intros c1 s1 Hc1 Hk1 Hs1. eapply (leaves_protected F cfg j u authLimiter route_of e c0 db _ closed_fit H0);
      [by eapply arrived_moved|done|]. intros s2 Ha2 Hcsrf.
    apply leaves_Refresh; [by eexists|done|by destruct Ha2 as (_ & (_ & _ & -> & _) & _)|by eapply Hcx|by eapply Hdb|by eapply Hfit0].
  - apply Hcase. intros c1 s1 Ha1. apply leaves_GetCSRFToken. by eapply Hfit.
  - eapply leaves_for_reader; [exact Ha|]. intros c1 s1 uid Ha1 Hacc Hid.
    eapply leaves_GetMe; [by eexists|exact Hacc|by eapply Hcx|exact Hid|by eapply Hdb|by eapply Hfit0].
  - eapply leaves_for_reader; [exact Ha|]. intros c1 s1 uid Ha1 Hacc Hid.
    eapply leaves_ListSessions; [by eexists|exact Hacc|by eapply Hcx|exact Hid|by eapply Hdb|by eapply Hfit0].
  - eapply leaves_for_user; [exact Ha|done|]. intros c1 s1 uid Ha1 Hacc Hcsrf Hid. apply leaves_Logout. by eapply Hfit.
  - eapply leaves_for_user; [exact Ha|done|]. intros c1 s1 uid Ha1 Hacc Hcsrf Hid.
    eapply leaves_ChangePassword; [|by eapply Hcx|exact Hid|by eapply Hfit].
    eapply (entitled_access _ _ _ _ _ _ _ _ _ EChangePassword); [set_solver|by eexists|exact Hacc|exact Hcsrf].
  - eapply leaves_for_user; [exact Ha|done|]. intros c1 s1 uid Ha1 Hacc Hcsrf Hid. eapply leaves_DeleteAccount; [exact Hid|by eapply Hfit].
  - eapply leaves_for_reader; [exact Ha|]. intros c1 s1 uid Ha1 Hacc Hid. apply leaves_answer; [by eapply Hfit|].
    intros x db1 Hx. apply fit_OK; [by exists uid|done].
  - eapply leaves_for_user; [exact Ha|done|]. intros c1 s1 uid Ha1 Hacc Hcsrf Hid. apply leaves_answer; [by eapply Hfit|].
    intros x db1 Hx. apply fit_OK; [by exists uid|done].
  - apply Hcase. intros c1 s1 Ha1. apply leaves_Ready. by eapply Hfit.
  - apply Hcase. intros c1 s1 Ha1. apply leaves_answer; [by eapply Hfit|]. intros x db1 Hx. by apply fit_OK.
  - apply Hcase. intros c1 s1 Ha1. apply leaves_Ready. by eapply Hfit.
Qed.
End one_request.

(** C3.  Whatever the request, and whatever fails on the way, the response tells of
    an account only what the request had the authority to see.  The profile it
    carries is the row of the user of a valid access token, and the sessions it
    lists are rows of that user; an account it answers a registration or sign-in
    with is one the request registered or had the password of; and a cookie it sets
    is empty or holds a token for a user whose authority the request carried. *)
Theorem account_secrecy i redirect c s r s' :
  third_parties -> ctx_value (g_ctx c) = None -> g_writes c = [] -> g_cookies c = [] ->
  route_of HandleMethodNotAllowed every_route (rq_Method (g_req c)) (rq_Path (g_req c)) <> Redirected ->
  run e (dispatch F cfg j u otel cors metrics limiter authLimiter base stack print_ms size_of errors_of hasBody PingCheck
           format route_of i redirect c) s = (r, s') ->
  Forall (fun w => due i c (st_db s) (Data w.2)) (g_writes r.2) /\ Forall (due_cookie i c (st_db s)) (g_cookies r.2).
Proof using All.
  intros Hthird Hctx Hw Hk Hred Hr. assert (H0 : fit i c (st_db s) c (st_db s)) by (split; [by rewrite Hw|by rewrite Hk]).
  eapply (leaves_run e (fit i c (st_db s))); [|exact Hr].
  apply (leaves_dispatch F cfg j u otel cors metrics limiter authLimiter base stack print_ms size_of errors_of hasBody PingCheck
    format route_of e Hthird i c (st_db s)); [apply closed_fit|exact H0|done..|].
  intros r1 c1 s1 Ha. by apply leaves_route.
Qed.
End secrecy.

(** ** Witness: Ann looks at her profile

    With the cookies of her sign-in. *)

Definition ann_cookie (name : string) : result string :=
  match list_find (fun ck => ck_Name ck = name) (g_cookies signed_in.1.2) with
  | Some (_, ck) => Ok (ck_Value ck)
  | None => Err (EString 802 "http: named cookie not present")
  end.

Definition me_request : Ctx := toy_ctx (mkRequest "GET" "/api/v1/auth/me" "/api/v1/auth/me" "" (fun _ => "")
  ann_cookie "203.0.113.7" "" "").

Definition me_run := Eval vm_compute in run good_env (toy_dispatch no_bound me_request) signed_in.2.

Lemma me_run_eq : run good_env (toy_dispatch no_bound me_request) signed_in.2 = me_run.
Proof. vm_compute. reflexivity. Qed.

Lemma account_secrecy_witness :
  (fun w => Data w.2) <$> g_writes me_run.1.2 = [DUser (mkGetUser ann_id "ann@example.org" "Ann")] /\
  access_valid good_env ToyJWT.jwt (tokenConfig toy_float (NewConfig toy_float strong)) me_request ann_id.
Proof.
  split; [reflexivity|].
  destruct (account_secrecy toy_float (NewConfig toy_float strong) ToyJWT.jwt toy_uuid untraced pass None free free []
    "goroutine 1" (fun _ => "0") (fun _ => 0) (fun _ => None) true (fun _ => Ret (Ok tt)) (fun _ => "") toy_route good_env
    app_ttl no_bound finish me_request signed_in.2 me_run.1 me_run.2 toy_third_parties eq_refl eq_refl eq_refl)
    as [Hw _]; [vm_compute; discriminate|exact me_run_eq|].
  apply (Forall_inv Hw).
Defined.
