(* ===== verification/Session.v ===== *)
(** * A session, from the client's side

    Authority.v and Secrecy.v say which requests are turned away; here is what the
    others get.  A client that registered or signed in and sends back the cookies it
    was given is recognised, for the lifetime of its access token and by that token
    alone; and with a CSRF token it has fetched it can renew its session, end its
    sessions, or delete its account.  Each request runs in an environment of its own, in which nothing fails
    where that matters; between two requests the tables may have changed in any way
    that a hypothesis does not exclude. *)

From S2P Require Import Prelude GoStd Apperr Model Gorm Effects Repository RepositoryLaws Testbed Token Csrf UserService UserSpec Accounts Counters Availability Http Middleware Health Handlers Config App Passage Authority Secrecy.

(** The routes of a signed-in user have the authentication guard first, and the
    CSRF guard as well if they change state; no other. *)
Lemma user_routes r :
  r ∈ every_route -> rt_endpoint r ∈ user_endpoints ->
  rt_guards r = [GAuth] \/ (rt_guards r = [GAuth; GCSRF] /\ changes_state (rt_method r) = true).
Proof.
  refine (every_route_ok (fun r => rt_endpoint r ∈ user_endpoints ->
    rt_guards r = [GAuth] \/ (rt_guards r = [GAuth; GCSRF] /\ changes_state (rt_method r) = true)) _ r).
  vm_compute. reflexivity.
Qed.

Lemma exchange_route r : r ∈ every_route -> rt_endpoint r = ERefresh -> rt_guards r = [GAuthLimiter; GCSRF].
Proof.
  refine (every_route_ok (fun r => rt_endpoint r = ERefresh -> rt_guards r = [GAuthLimiter; GCSRF]) _ r).
  vm_compute. reflexivity.
Qed.

(** The first body written, which is the one that is sent. *)
Definition replies (w : Z * APIResponse) (c : Ctx) : Prop := head (g_writes c) = Some w.

Lemma replies_cosmetic w c c1 : cosmetic c c1 -> replies w c -> replies w c1.
Proof. intros [_ (extra & Hw & _)]. unfold replies. rewrite Hw. by destruct (g_writes c). Qed.

Lemma replies_OK status message d c : g_writes c = [] -> replies (status, response_OK message d) (OK status message d c).
Proof. intros Hw. unfold replies, OK, JSON. simpl. by rewrite Hw. Qed.

Section session.
Context (F : Float64) (cfg : Config F) (j : JWT) (u : UUIDLib).
Context (otel cors : middleware) (metrics : option (string -> string -> string -> duration -> prog unit))
        (limiter authLimiter : Limiter).
Context (base : list (string * string)) (stack : string) (print_ms : duration -> string)
        (size_of : Ctx -> Z) (errors_of : Ctx -> option string) (hasBody : bool).
Context (PingCheck : context -> prog (result unit)) (format : time -> string) (route_of : Router).
Context {HJ : JWTLaws j} {HUU : UUIDLaws u} {HR : GinRouting route_of}.
Context (Hacc : ttl_ok (AccessTokenTTL (Auth F cfg))) (Httl : ttl_ok (RefreshTokenTTL (Auth F cfg))).

Abbreviation config := (tokenConfig F cfg).
Abbreviation csrf := (csrfService_ F cfg).
Abbreviation svc := (userService_ F cfg j u).
Abbreviation hdl := (userHandler F cfg j u).
Abbreviation asks := (asks route_of).
Abbreviation third_parties := (third_parties otel cors metrics limiter authLimiter PingCheck).
Abbreviation app := (dispatch F cfg j u otel cors metrics limiter authLimiter base stack print_ms size_of errors_of hasBody
  PingCheck format route_of).

(** A route this request does not ask for does not get it. *)
Lemma arrived_asks ep c0 db r c s : asks ep c0 -> arrived route_of c0 db r c s -> rt_endpoint r = ep.
Proof using Type. intros (r' & Hr' & <-) (Hr & _). congruence. Qed.

(** ** Signing in *)

Section sign_in.
Context (e : env) {HG : GormLaws e} {HC : ClockLaws e} {HB : BcryptLaws e}.

#[local] Instance svc_users : UserRepositoryLaws e (userRepository svc) := GORM_UserRepositoryLaws.
#[local] Instance svc_sessions : RefreshTokenRepositoryLaws e (refreshTokenRepository svc) :=
  GORM_RefreshTokenRepositoryLaws (uuid_String u).
#[local] Instance svc_tokens : TokenServiceLaws e (tokenService svc) := tokenService_laws j u e config Httl.
#[local] Instance svc_tx : TxManagerLaws e (txManager svc) := GORM_TxManagerLaws e.

(** What is answered about an account comes with the cookies of a session of it. *)
Definition opened (c : Ctx) (_ : Tables) : Prop :=
  Forall (fun w => forall resp, Data w.2 = DAuth resp ->
    is_access_token j e config (ar_AccessToken resp) (gu_ID (ar_User resp)) (gu_Email (ar_User resp)) (gu_Name (ar_User resp)) /\
    is_refresh_token j config (ar_RefreshToken resp) (gu_ID (ar_User resp)) /\
    auth_cookies hdl (ar_AccessToken resp) (ar_RefreshToken resp) ⊆ g_cookies c) (g_writes c).

Lemma closed_opened : closed opened.
Proof using Type.
  intros c c1 db [Hk (extra & Hw & Hx)] H. unfold opened. rewrite Hw, Hk. apply Forall_app. split; [exact H|].
  eapply Forall_impl; [exact Hx|]. intros w Hd resp Hr. congruence.
Qed.

Lemma opened_with status message resp c db m m' :
  issued e svc (ar_User resp) (ar_AccessToken resp, ar_RefreshToken resp) m m' -> opened c db ->
  opened (OK status message (DAuth resp) (setAuthCookies hdl (ar_AccessToken resp) (ar_RefreshToken resp) c)) db.
Proof using Type.
  intros (Ha & Hf & _) Hc. set (new := auth_cookies hdl (ar_AccessToken resp) (ar_RefreshToken resp)).
  set (c1 := setAuthCookies _ _ _ c). assert (Hk : g_cookies (OK status message (DAuth resp) c1) = g_cookies c ++ new)
    by (simpl; by rewrite <- app_assoc).
  unfold opened. rewrite Hk. simpl. apply Forall_app. split.
  - eapply Forall_impl; [exact Hc|]. intros w H x Hx. destruct (H x Hx) as (H1 & H2 & H3). split; [exact H1|].
    split; [exact H2|]. intros k Hin. apply elem_of_app. left. by apply H3.
  - apply Forall_singleton. intros x [= <-]. split; [exact Ha|]. split; [exact Hf|]. intros k Hin. apply elem_of_app. by right.
Qed.

(** The two endpoints that sign in. *)
Lemma leaves_sign_in i ep c s :
  ep = ERegister \/ ep = ELogin -> ctx_value (g_ctx c) = None -> opened c (st_db s) ->
  leaves e opened (endpoint_handler F cfg j u PingCheck format i ep c) s.
Proof using HG HC HB HJ HUU Httl.
  intros Hep Hctx Hc. destruct Hep as [-> | ->]; apply (leaves_bound e opened); try apply closed_opened; try done; intros req Hreq.
  - apply (leaves_call e opened _ _ (fun resp db1 => opened c db1 /\ exists m m',
      issued e svc (ar_User resp) (ar_AccessToken resp, ar_RefreshToken resp) m m')); [apply closed_opened| |].
    + eapply wp_mono; [exact (wp_Register e svc (g_ctx c) Hctx req s)|]. intros [resp|err] s' H; [|exact Hc].
      destruct H as (row & _ & _ & _ & _ & _ & _ & _ & Hi & _). split; [exact Hc|]. by do 2 eexists.
    + intros resp db1 (Ho & m & m' & Hi). by eapply opened_with.
  - apply (leaves_call e opened _ _ (fun resp db1 => opened c db1 /\ exists m m',
      issued e svc (ar_User resp) (ar_AccessToken resp, ar_RefreshToken resp) m m')); [apply closed_opened| |].
    + eapply wp_mono; [exact (wp_Login e svc (g_ctx c) Hctx req s)|]. intros [resp|err] s' H; [|exact Hc].
      destruct H as (row & m & _ & _ & _ & Hi & _). split; [exact Hc|]. by do 2 eexists.
    + intros resp db1 (Ho & m & m' & Hi). by eapply opened_with.
Qed.

Lemma leaves_signed_in i redirect c0 s :
  third_parties e -> ctx_value (g_ctx c0) = None -> g_writes c0 = [] -> asks ERegister c0 \/ asks ELogin c0 ->
  leaves e opened (app i redirect c0) s.
Proof using HG HC HB HJ HUU HR Httl.
  intros Hthird Hctx Hw Hasks. assert (H0 : opened c0 (st_db s)) by (unfold opened; rewrite Hw; by constructor).
  eapply (leaves_dispatch F cfg j u otel cors metrics limiter authLimiter base stack print_ms size_of errors_of hasBody PingCheck
    format route_of e Hthird i c0 (st_db s) opened closed_opened H0); [done|done| |].
  - intros Hred. by destruct Hasks as [(r & Hr & _)|(r & Hr & _)]; rewrite Hr in Hred.
  - intros r c s1 Ha. eapply (leaves_unguarded F cfg j u otel cors metrics limiter authLimiter PingCheck format route_of e Hthird
      i c0 (st_db s) opened closed_opened H0); [exact Ha|].
    intros c1 s2 Ha1. apply leaves_sign_in; [|by eapply arrived_context|].
    + destruct Hasks as [Hk|Hk]; [left|right]; by eapply arrived_asks.
    + exact (arrived_claim route_of c0 (st_db s) opened closed_opened H0 r c1 s2 Ha1).
Qed.
End sign_in.

(** ** Fetching a CSRF token *)

Section fetch.
Context (e : env).

(** Only tokens that the service has generated are handed out. *)
Definition handed_out (c : Ctx) (_ : Tables) : Prop :=
  Forall (fun w => forall token, Data w.2 = DCSRFToken token -> exists s s1, run e (GenerateToken csrf) s = (Ok token, s1))
    (g_writes c).

Lemma closed_handed_out : closed handed_out.
Proof using Type.
  intros c c1 db [_ (extra & Hw & Hx)] H. unfold handed_out. rewrite Hw. apply Forall_app. split; [exact H|].
  eapply Forall_impl; [exact Hx|]. intros w Hd token Ht. congruence.
Qed.

Lemma leaves_fetch c s : handed_out c (st_db s) -> leaves e handed_out (handle_GetCSRFToken hdl c) s.
Proof using Type.
  intros Hc. unfold handle_GetCSRFToken. apply wp_bind. unfold wp.
  destruct (run e (uh_GenerateToken hdl) s) as [[token|err] s1] eqn:Hr; cbn [fst snd].
  - unfold handed_out. simpl. apply Forall_app. split; [exact Hc|]. apply Forall_singleton.
    intros x [= <-]. by exists s, s1.
  - apply (leaves_settled e handed_out c); [apply closed_handed_out| |exact Hc].
    apply settles_bind; [auto with harmless|]. intros a. by apply settles_fail_with.
Qed.

Lemma leaves_fetched i redirect c0 s :
  third_parties e -> ctx_value (g_ctx c0) = None -> g_writes c0 = [] -> asks EGetCSRFToken c0 ->
  leaves e handed_out (app i redirect c0) s.
Proof using HJ HUU HR.
  intros Hthird Hctx Hw Hasks. assert (H0 : handed_out c0 (st_db s)) by (unfold handed_out; rewrite Hw; by constructor).
  eapply (leaves_dispatch F cfg j u otel cors metrics limiter authLimiter base stack print_ms size_of errors_of hasBody PingCheck
    format route_of e Hthird i c0 (st_db s) handed_out closed_handed_out H0); [done|done| |].
  - destruct Hasks as (r & Hr & _). by rewrite Hr.
  - intros r c s1 Ha. eapply (leaves_unguarded F cfg j u otel cors metrics limiter authLimiter PingCheck format route_of e Hthird
      i c0 (st_db s) handed_out closed_handed_out H0); [exact Ha|].
    intros c1 s2 Ha1. rewrite (arrived_asks _ _ _ _ _ _ Hasks Ha1).
    apply leaves_fetch, (arrived_claim route_of c0 (st_db s) handed_out closed_handed_out H0 r c1 s2 Ha1).
Qed.
End fetch.

(** ** Coming back *)

Section visit.
Context (e : env) {HG : GormLaws e} {HC : ClockLaws e} {HB : BcryptLaws e} {HF : Faultless e} {HS : Signs j}.

#[local] Instance visit_users : UserRepositoryLaws e (userRepository svc) := GORM_UserRepositoryLaws.
#[local] Instance visit_sessions : RefreshTokenRepositoryLaws e (refreshTokenRepository svc) :=
  GORM_RefreshTokenRepositoryLaws (uuid_String u).
#[local] Instance visit_tokens : TokenServiceLaws e (tokenService svc) := tokenService_laws j u e config Httl.
#[local] Instance visit_tokens_serve : TokenServiceServes e (tokenService svc) := tokenService_serves e j u config.
#[local] Instance visit_tx : TxManagerLaws e (txManager svc) := GORM_TxManagerLaws e.
#[local] Instance visit_users_serve : UserRepositoryServes e (userRepository svc) := GORM_UserRepositoryServes e.
#[local] Instance visit_sessions_serve : RefreshTokenRepositoryServes e (refreshTokenRepository svc) :=
  GORM_RefreshTokenRepositoryServes e (uuid_String u).
#[local] Instance visit_tx_serve : TxManagerServes e (txManager svc) := GORM_TxManagerServes e.

(** The door is open to this request: CORS and tracing run the chain on it, and the
    limiter has budget left. *)
Record lets_in (c0 : Ctx) : Prop := {
  door_otel : passes e c0 otel;
  door_cors : passes e c0 cors;
  door_observe observe : metrics = Some observe -> forall m r st d, harmless e (observe m r st d);
  door_harmless ip : harmless e (lim_Allow limiter ip);
  door_allows : allows e limiter
}.

Lemma passes_router c0 :
  lets_in c0 ->
  Forall (passes e c0) (newRouter F cfg u otel cors metrics limiter base stack print_ms size_of errors_of hasBody).
Proof using Type.
  intros Hdoor. unfold newRouter. rewrite !Forall_app, !Forall_cons. conj; try apply Forall_nil_2.
  - unfold when. destruct (Enabled _ _); [apply Forall_singleton, Hdoor|by apply Forall_nil].
  - apply passes_RequestID.
  - apply passes_Recovery.
  - destruct metrics as [observe|] eqn:Hm; [|by apply Forall_nil].
    apply Forall_singleton, passes_Metrics. by apply (door_observe c0 Hdoor).
  - apply passes_AccessLog.
  - apply passes_SecurityHeaders.
  - apply Hdoor.
  - apply passes_BodyLimit.
  - unfold when. destruct (RateLimitEnabled _ _); [|by apply Forall_nil].
    apply Forall_singleton, passes_RateLimit; apply Hdoor.
  - apply passes_Timeout.
Qed.

(** It gets as far as its route. *)
Lemma leaves_routed ep i redirect c0 s Q :
  lets_in c0 -> asks ep c0 -> closed Q ->
  (forall r c1 s1, r ∈ every_route -> rt_endpoint r = ep -> rt_method r = rq_Method (g_req c0) ->
     same_request c0 c1 -> same_answer c0 c1 -> st_db s1 = st_db s ->
     leaves e Q (route_handler F cfg j u authLimiter PingCheck format i r c1) s1) ->
  leaves e Q (app i redirect c0) s.
Proof using HR.
  intros Hdoor (r & Hr & Hep) HQ Hh. unfold dispatch, dispatch_as. rewrite Hr. apply routing_sound in Hr as (Hin & Hm & _).
  apply (passes_chain e c0 _ Q); [by apply passes_router|done|done|]. intros c1 s1 Hc1 Hk1 Hs1. by apply Hh.
Qed.

(** A request with an access token that is recognised, and a CSRF token that is
    accepted if it changes state, gets to its handler on behalf of the user. *)
Lemma leaves_reached ep i redirect c0 s Q tok uid :
  lets_in c0 -> asks ep c0 -> ep ∈ user_endpoints -> closed Q ->
  rq_Cookie (g_req c0) AccessTokenCookie = Ok tok -> recognised e j config tok uid ->
  (changes_state (rq_Method (g_req c0)) = true -> csrf_accepted e csrf (rq_Header (g_req c0) CSRFHeader)) ->
  (forall c1 s1, same_request c0 c1 -> same_answer c0 c1 -> GetUserIDFromContext u c1 = Ret (Ok uid) -> st_db s1 = st_db s ->
     leaves e Q (endpoint_handler F cfg j u PingCheck format i ep c1) s1) ->
  leaves e Q (app i redirect c0) s.
Proof using HR HUU.
  intros Hdoor Hasks Hep HQ Hck Hrec Hcsrf Hh. apply (leaves_routed ep); [done..|].
  intros r c1 s1 Hin <- Hm Hc1 Hk1 Hs1.
  assert (Hback : rq_Cookie (g_req c1) AccessTokenCookie = Ok tok) by (destruct Hc1 as (_ & _ & -> & _); exact Hck).
  unfold route_handler. destruct (user_routes r Hin Hep) as [-> | [-> Hst]]; cbn [chain foldr fmap list_fmap];
    apply (leaves_recognised e j u config Q tok uid); [done|done| |done|done|]; intros c2 s2 Hc2 Hk2 Hid Hs2.
  - apply Hh; [by etransitivity|by etransitivity|done|congruence].
  - apply leaves_accepted; [destruct Hc2 as (_ & -> & _), Hc1 as (_ & -> & _); apply Hcsrf; by rewrite <- Hm|].
    intros s3 Hs3. apply Hh; [by etransitivity|by etransitivity|done|congruence].
Qed.

(** The exchange of a refresh token has a limiter of its own, and the CSRF guard. *)
Lemma leaves_exchange i redirect c0 s Q :
  lets_in c0 -> (forall ip, harmless e (lim_Allow authLimiter ip)) -> allows e authLimiter -> asks ERefresh c0 -> closed Q ->
  csrf_accepted e csrf (rq_Header (g_req c0) CSRFHeader) ->
  (forall c1 s1, same_request c0 c1 -> same_answer c0 c1 -> st_db s1 = st_db s -> leaves e Q (handle_Refresh hdl c1) s1) ->
  leaves e Q (app i redirect c0) s.
Proof using HR.
  intros Hdoor Hharm Hallow Hasks HQ Hcsrf Hh. apply (leaves_routed ERefresh); [done..|].
  intros r c1 s1 Hin Hep _ Hc1 Hk1 Hs1. unfold route_handler. rewrite Hep, (exchange_route r Hin Hep).
  cbn [chain foldr fmap list_fmap guard_middleware endpoint_handler].
  assert (Hpass : passes e c0 (authRateLimiter F cfg authLimiter)).
  { unfold authRateLimiter. destruct (negb _); [|by apply passes_RateLimit]. intros Q' next c s' _ _ Hn. by apply Hn. }
  apply (Hpass Q); [done|done|]. intros c2 s2 Hc2 Hk2 Hs2.
  apply leaves_accepted; [destruct Hc2 as (_ & -> & _), Hc1 as (_ & -> & _); exact Hcsrf|].
  intros s3 Hs3. apply Hh; [by etransitivity|by etransitivity|congruence].
Qed.

(** The profile of an account that is there. *)
Definition shows_profile (uid : UUID) (db : Tables) (c : Ctx) (db1 : Tables) : Prop :=
  db1 = db /\ exists row, selected TUsers (user_has_id uid) db row /\
    replies (200, response_OK "User retrieved" (DUser (mkGetUser uid (u_Email row) (u_Name row)))) c.

Lemma closed_shows_profile uid db : closed (shows_profile uid db).
Proof using Type.
  intros c c1 db1 Hc (Hd & row & Hrow & Hw). split; [exact Hd|]. exists row. split; [exact Hrow|]. by eapply replies_cosmetic.
Qed.

Lemma no_transaction ctx : ctx_value ctx = None -> ctx = Background.
Proof using Type. by destruct ctx as [[|]]; intros. Qed.

Lemma leaves_profile uid row c s :
  selected TUsers (user_has_id uid) (st_db s) row -> ctx_value (g_ctx c) = None -> g_writes c = [] ->
  GetUserIDFromContext u c = Ret (Ok uid) -> leaves e (shows_profile uid (st_db s)) (handle_GetMe u hdl c) s.
Proof using HG HC HB HF HS HJ HUU Httl.
  intros Hrow Hctx Hw Hid. unfold handle_GetMe. rewrite Hid. cbn [bind].
  apply (leaves_call e _ _ _ (fun user db1 => db1 = st_db s /\ exists row,
    selected TUsers (user_has_id uid) (st_db s) row /\ user = mkGetUser uid (u_Email row) (u_Name row)));
    [apply closed_shows_profile| |].
  - cbn [uh_userService userHandler us_GetUser user_service]. rewrite (no_transaction _ Hctx).
    eapply wp_mono; [apply (wp_both e); [exact (wp_GetUserByID e u svc Background eq_refl (uuid_String u uid) s)
      |exact (serve_GetUserByID e u svc (uuid_String u uid) s)]|].
    intros [user|err] s' [[Hs' H] Hj]; rewrite (st_db_proper _ _ Hs').
    + destruct H as (uid' & row' & Hp & Hrow' & ->). rewrite uuid_Parse_String in Hp. injection Hp as <-. eauto.
    + exfalso. destruct Hj as [(a & cause & Hp & _)|(_ & uid' & Hp & Hnone)]; rewrite uuid_Parse_String in Hp; [done|].
      injection Hp as <-. by eapply Hnone.
  - intros user db1 (-> & row' & Hrow' & ->). split; [done|]. exists row'. split; [exact Hrow'|]. by apply replies_OK.
Qed.

(** A farewell: the cookies are cleared, no session of the user is left, and no
    account either if that was asked. *)
Definition farewell (uid : UUID) (message : string) (gone : Prop) (c : Ctx) (db1 : Tables) : Prop :=
  replies (200, response_OK message DNil) c /\ g_cookies c = cleared_cookies hdl /\
  (forall k row, t_tokens db1 !! k = Some row -> rt_UserID row <> uid) /\
  (gone -> forall row, ~ selected TUsers (user_has_id uid) db1 row).

Lemma closed_farewell uid message gone : closed (farewell uid message gone).
Proof using Type.
  intros c c1 db1 Hc (Hw & Hk & Hd). split; [by eapply replies_cosmetic|]. destruct Hc as [-> _]. by split.
Qed.

Lemma farewell_OK uid message (gone : Prop) c db1 :
  g_writes c = [] -> g_cookies c = [] -> (forall k row, t_tokens db1 !! k = Some row -> rt_UserID row <> uid) ->
  (gone -> forall row, ~ selected TUsers (user_has_id uid) db1 row) ->
  farewell uid message gone (OK 200 message DNil (clearAuthCookies hdl c)) db1.
Proof using Type. intros Hw Hk Ht Hg. split; [by apply replies_OK|]. split; [simpl; by rewrite Hk|]. by split. Qed.

Lemma leaves_logged_out uid c s :
  ctx_value (g_ctx c) = None -> g_writes c = [] -> g_cookies c = [] -> GetUserIDFromContext u c = Ret (Ok uid) ->
  leaves e (farewell uid "Logged out successfully" False) (handle_Logout u hdl c) s.
Proof using HG HC HB HF HS HJ HUU Httl.
  intros Hctx Hw Hk Hid. unfold handle_Logout. rewrite Hid. cbn [bind]. apply wp_bind.
  cbn [uh_userService userHandler us_RevokeRefreshTokens user_service]. rewrite (no_transaction _ Hctx).
  apply wp_bind. eapply wp_mono; [apply (wp_both e); [exact (wp_RevokeRefreshTokens e svc Background uid s)
    |exact (serve_RevokeRefreshTokens e svc Background uid s)]|].
  intros [x|err] s1 [Hwr Hj]; [|by destruct Hj]. apply wp_ret, wp_ret, farewell_OK; [done|done| |done].
  destruct Hwr as (m & -> & Hwr). apply wrote_committed in Hwr; [|done].
  intros k row. rewrite (st_db_proper _ _ Hwr). intros [_ Hu]%revoked_lookup. by apply N.eqb_neq in Hu.
Qed.

Lemma leaves_deleted uid row c s :
  selected TUsers (user_has_id uid) (st_db s) row -> ctx_value (g_ctx c) = None -> g_writes c = [] -> g_cookies c = [] ->
  GetUserIDFromContext u c = Ret (Ok uid) ->
  leaves e (farewell uid "Account deleted" True) (handle_DeleteAccount u hdl c) s.
Proof using HG HC HB HF HS HJ HUU Httl.
  intros Hrow Hctx Hw Hk Hid. unfold handle_DeleteAccount. rewrite Hid. cbn [bind].
  apply (leaves_call e _ _ (fun _ => _) (fun _ db1 => account_deleted uid (st_db s) db1)); [apply closed_farewell| |].
  - cbn [uh_userService userHandler us_DeleteAccount user_service]. rewrite (no_transaction _ Hctx).
    eapply wp_mono; [apply (wp_both e); [exact (wp_DeleteAccount e svc Background eq_refl uid s)
      |exact (serve_DeleteAccount e u svc uid s)]|].
    intros [x|err] s' [H Hj]; [apply H|]. destruct Hj as [_ Hnone]. by destruct (Hnone row).
  - intros x db1 (now & ->). apply farewell_OK; [done|done| |].
    + intros k row' [_ Hu]%revoked_lookup. by apply N.eqb_neq in Hu.
    + intros _ row'. apply deleted_gone.
Qed.

(** A renewal: a new pair of tokens in the cookies, and the session they belong to in
    the tables. *)
Definition renewed (uid : UUID) (c : Ctx) (db1 : Tables) : Prop :=
  replies (200, response_OK "Token refreshed" DNil) c /\
  exists acc ref, g_cookies c = auth_cookies hdl acc ref /\ is_access_token j e config acc uid "" "" /\
    is_refresh_token j config ref uid /\
    exists row, selected TTokens (token_has_hash (Hash ref)) db1 row /\ rt_UserID row = uid.

Lemma closed_renewed uid : closed (renewed uid).
Proof using Type.
  intros c c1 db1 Hc (Hw & acc & ref & Hk & H). split; [by eapply replies_cosmetic|]. exists acc, ref.
  by destruct Hc as [-> _].
Qed.

(** The session of this refresh token is stored, and neither it nor the token has
    expired. *)
Record exchangeable (ref : string) (db : Tables) : Prop := {
  ex_stored : exists row, selected TTokens (token_has_hash (Hash ref)) db row;
  ex_session row n : selected TTokens (token_has_hash (Hash ref)) db row -> env_now e n <= rt_ExpiresAt row;
  ex_token n : ~ not_valid_at e j config n ref
}.

(** Neither ids nor digests of new sessions of this user are taken. *)
Definition unclaimed (uid : UUID) (db : Tables) : Prop :=
  (forall n, t_tokens db !! env_uuid e n = None) /\
  (forall n tok k row, minted_at e j u config n tok uid -> t_tokens db !! k = Some row -> rt_TokenHash row <> Hash tok).

Lemma unclaimed_clash uid db n0 n1 : unclaimed uid db -> session_clash e svc n0 n1 uid (t_tokens db) -> False.
Proof using Type.
  intros [Hid Hdig] (n & k & tok & _ & Htok & [Hk|(i & y & Hy & Hh)]); [by rewrite Hid in Hk|exact (Hdig n tok i y Htok Hy Hh)].
Qed.

Lemma vouches_for tok uid uid' :
  is_refresh_token j config tok uid -> vouches (ts := tokenService svc) tok uid' -> uid' = uid.
Proof using HJ.
  intros (c & Hsig & Henc & <- & _) (m & c' & n & _ & Hs & _ & <-).
  apply (sign_law (j := j)) in Hsig as [Hsig _]; [|done]. by rewrite (payload_law (j := j) _ _ _ _ _ _ _ Hs Hsig).
Qed.

(** Nothing keeps such a token from being exchanged. *)
Lemma exchange_unrefused ref uid s n1 err :
  is_refresh_token j config ref uid -> exchangeable ref (st_db s) -> unclaimed uid (st_db s) ->
  justified e u svc (CallRefresh ref) s n1 err -> False.
Proof using HJ.
  intros Hfor [(row & Hrow) Hlive Htok] Hnew [(a & cause & n & _ & _ & Hst)|[(_ & Hnone)|[(_ & row' & n & Hrow' & _ & Hexp)|(_ & uid' & Hv & Hc)]]].
  - by apply (Htok n).
  - by apply (Hnone row).
  - specialize (Hlive row' n Hrow'). lia.
  - rewrite (vouches_for ref uid uid' Hfor Hv) in Hc. by eapply unclaimed_clash.
Qed.

Lemma leaves_renewed ref uid c s :
  is_refresh_token j config ref uid -> exchangeable ref (st_db s) -> unclaimed uid (st_db s) ->
  ctx_value (g_ctx c) = None -> g_writes c = [] -> g_cookies c = [] -> rq_Cookie (g_req c) RefreshTokenCookie = Ok ref ->
  leaves e (renewed uid) (handle_Refresh hdl c) s.
Proof using HG HC HB HF HS HJ HUU Httl.
  intros Hfor Hex Hnew Hctx Hw Hk Hck. unfold handle_Refresh. rewrite Hck.
  apply (leaves_call e _ _ _ (fun pair db1 => exists m m',
    issued e svc (mkGetUser uid "" "") (tp_AccessToken pair, tp_RefreshToken pair) m m' /\ t_tokens db1 = m'));
    [apply closed_renewed| |].
  - cbn [uh_userService userHandler us_Refresh user_service]. rewrite (no_transaction _ Hctx).
    eapply wp_mono; [apply (wp_both e); [exact (wp_Refresh_claims e u svc Background eq_refl ref s)
      |exact (serve_Refresh e u svc ref s)]|].
    intros [pair|err] s' [H Hj]; [|by destruct (exchange_unrefused ref uid s _ err Hfor Hex Hnew Hj)].
    destruct H as [(err & Hr & _)|(user & (tr & _ & Ho) & _ & Hu)]; [done|].
    apply refresh_outcome_ok in Ho as (row & n & m & _ & _ & Hi & ->). rewrite (Hu uid Hfor) in Hi. by do 2 eexists.
  - intros pair db1 (m & m' & (Ha & Hf & n & row & Hrow & Hh & _ & _ & ->) & Hdb). split; [by apply replies_OK|].
    exists (tp_AccessToken pair), (tp_RefreshToken pair). split; [simpl; by rewrite Hk|]. split; [exact Ha|]. split; [exact Hf|].
    exists row. split; [|exact Hrow]. exists (rt_ID row). split; [cbn; rewrite Hdb; apply lookup_insert_eq|].
    split; [done|]. unfold token_has_hash. rewrite Hh. apply String.eqb_refl.
Qed.
End visit.

(** ** From one request to the next *)

(** A request as it comes in. *)
Definition incoming (c : Ctx) : Prop := ctx_value (g_ctx c) = None /\ g_writes c = [] /\ g_cookies c = [].

(** Registering or signing in is answered by [c1], which tells of this account. *)
Definition signs_in (e : env) (i : bound) (redirect : handler) (c : Ctx) (s : state) (c1 : Ctx) (resp : AuthResponse) : Prop :=
  incoming c /\ (asks ERegister c \/ asks ELogin c) /\
  (exists o s1, run e (app i redirect c) s = ((o, c1), s1)) /\
  (exists w, w ∈ g_writes c1 /\ Data w.2 = DAuth resp) /\
  Utf8.ValidString (gu_Email (ar_User resp)) = true /\ Utf8.ValidString (gu_Name (ar_User resp)) = true.

(** A request for a CSRF token is answered with this one. *)
Definition fetches (e : env) (i : bound) (redirect : handler) (c : Ctx) (s : state) (token : string) : Prop :=
  incoming c /\ asks EGetCSRFToken c /\
  exists o c1 s1 w, run e (app i redirect c) s = ((o, c1), s1) /\ w ∈ g_writes c1 /\ Data w.2 = DCSRFToken token.

(** The client sends back the cookies it was given. *)
Definition gives_back (c1 c : Ctx) : Prop :=
  forall ck, ck ∈ g_cookies c1 -> rq_Cookie (g_req c) (ck_Name ck) = Ok (ck_Value ck).

(** The clock of [e'] has not reached the expiry of an access token minted in [e];
    and that of [e'] reads a time at which a CSRF token generated in [e] is fresh. *)
Definition within_lifetime (e e' : env) : Prop :=
  forall n m, env_now e' n < NewNumericDate j (env_now e m + AccessTokenTTL (Auth F cfg)).

Definition csrf_fresh (e e' : env) : Prop :=
  forall n m, - clockSkew <= env_now e' n - env_now e m / Second * Second <= CSRFTokenTTL (Auth F cfg).

(** What the client has from its sign-in. *)
Lemma session_given e {HG : GormLaws e} {HC : ClockLaws e} {HB : BcryptLaws e} i redirect c s c1 resp c2 :
  third_parties e -> signs_in e i redirect c s c1 resp -> gives_back c1 c2 ->
  rq_Cookie (g_req c2) AccessTokenCookie = Ok (ar_AccessToken resp) /\
  rq_Cookie (g_req c2) RefreshTokenCookie = Ok (ar_RefreshToken resp) /\
  is_access_token j e config (ar_AccessToken resp) (gu_ID (ar_User resp)) (gu_Email (ar_User resp)) (gu_Name (ar_User resp)) /\
  is_refresh_token j config (ar_RefreshToken resp) (gu_ID (ar_User resp)).
Proof using HJ HUU HR Httl.
  intros Hthird ((Hctx & Hw & Hk) & Hasks & (o & s1 & Hr) & (w & Hin & Hd) & _) Hback.
  pose proof (leaves_run e (opened e) _ _ _ _ (leaves_signed_in e i redirect c s Hthird Hctx Hw Hasks) Hr) as Ho.
  unfold opened in Ho. rewrite Forall_forall in Ho. destruct (Ho w Hin resp Hd) as (Htok & Href & Hck).
  split; [|split; [|done]]; eapply (Hback (auth_cookie hdl _ _ _)), Hck; [apply list_elem_of_here|].
  apply list_elem_of_further, list_elem_of_here.
Qed.

Lemma session_recognised e e' {HG : GormLaws e} {HC : ClockLaws e} {HB : BcryptLaws e} i redirect c s c1 resp c2 :
  third_parties e -> signs_in e i redirect c s c1 resp -> gives_back c1 c2 -> within_lifetime e e' ->
  rq_Cookie (g_req c2) AccessTokenCookie = Ok (ar_AccessToken resp) /\
  recognised e' j config (ar_AccessToken resp) (gu_ID (ar_User resp)).
Proof using HJ HUU HR Hacc Httl.
  intros Hthird Hin Hback Hlife. destruct (session_given e i redirect c s c1 resp c2 Hthird Hin Hback) as (Hck & _ & Htok & _).
  split; [exact Hck|]. intros s2. destruct Hin as (_ & _ & _ & _ & Hem & Hnm).
  exact (validate_minted j u e e' config _ _ _ _ s2 Hem Hnm Hacc Htok Hlife).
Qed.

Lemma fetched_accepted e e' {HC : ClockLaws e} {HRd : RandLaws e} i redirect c s token :
  third_parties e -> fetches e i redirect c s token -> in_int64 (CSRFTokenTTL (Auth F cfg)) -> csrf_fresh e e' ->
  csrf_accepted e' csrf token.
Proof using HJ HUU HR.
  intros Hthird ((Hctx & Hw & Hk) & Hasks & o & c1 & s1 & w & Hr & Hin & Hd) Httl' Hfresh s2.
  pose proof (leaves_run e (handed_out e) _ _ _ _ (leaves_fetched e i redirect c s Hthird Hctx Hw Hasks) Hr) as Ho.
  unfold handed_out in Ho. rewrite Forall_forall in Ho. destruct (Ho w Hin token Hd) as (s3 & s4 & Hgen).
  rewrite (validate_generated e e' csrf s3 s4 s2 token Hgen). apply bool_decide_eq_true_2.
  pose proof (Hfresh (st_n s2) (S (st_n s3))) as Hage. unfold time_Sub. rewrite sat64_id; [exact Hage|].
  unfold in_int64, int64_min, int64_max, clockSkew, Minute, Second, csrf_ttl, NewCSRFService, csrfService_ in *.
  cbn [csrf_ttl] in *. lia.
Qed.

(** What a handler is given, up to what the chain has added. *)
Lemma incoming_handler c c1 :
  incoming c -> same_request c c1 -> same_answer c c1 -> ctx_value (g_ctx c1) = None /\ g_writes c1 = [] /\ g_cookies c1 = [].
Proof using Type. intros (Hx & Hw & Hk) (_ & _ & _ & Hc) [Hk1 Hw1]. split; [congruence|]. split; congruence. Qed.

(** Asking for the profile changes no state. *)
Lemma profile_reads c : asks EGetMe c -> changes_state (rq_Method (g_req c)) = true -> False.
Proof using HR.
  intros (r & (Hin & <- & _)%routing_sound & He). revert r Hin He.
  refine (every_route_ok (fun r => rt_endpoint r = EGetMe -> changes_state (rt_method r) = true -> False) _).
  vm_compute. reflexivity.
Qed.

(** C4.  A client that registered or signed in and sends back the cookies it was
    given is recognised as long as the clock has not reached the expiry of the access
    token: asking for its profile, it gets 200 and the data its account has by then.
    Nothing else of the session matters: whatever happened in between, a sign-out or a
    change of the password included, as long as the account is there. *)
Theorem session_roundtrip e1 {HG1 : GormLaws e1} {HC1 : ClockLaws e1} {HB1 : BcryptLaws e1}
    e2 {HG2 : GormLaws e2} {HC2 : ClockLaws e2} {HB2 : BcryptLaws e2} {HF2 : Faultless e2} {HS : Signs j}
    i1 red1 c1 s1 c1' resp i2 red2 c2 s2 o2 c2' s2' row :
  third_parties e1 -> signs_in e1 i1 red1 c1 s1 c1' resp ->
  lets_in e2 c2 -> incoming c2 -> asks EGetMe c2 -> gives_back c1' c2 -> within_lifetime e1 e2 ->
  selected TUsers (user_has_id (gu_ID (ar_User resp))) (st_db s2) row ->
  run e2 (app i2 red2 c2) s2 = ((o2, c2'), s2') ->
  shows_profile (gu_ID (ar_User resp)) (st_db s2) c2' (st_db s2').
Proof using All.
  intros Hthird Hin Hdoor Hnew Hasks Hback Hlife Hrow Hr.
  destruct (session_recognised e1 e2 i1 red1 c1 s1 c1' resp c2 Hthird Hin Hback Hlife) as [Hck Hrec].
  assert (HQ : leaves e2 (shows_profile (gu_ID (ar_User resp)) (st_db s2)) (app i2 red2 c2) s2);
    [|exact (leaves_run e2 _ _ _ _ _ HQ Hr)].
  eapply (leaves_reached e2 EGetMe); [done|done|apply (bool_decide_unpack _); exact I|apply closed_shows_profile|exact Hck|exact Hrec| |].
  - intros Hst. by destruct (profile_reads c2 Hasks).
  - intros c3 s3 Hc3 Hk3 Hid Hs3. destruct (incoming_handler c2 c3 Hnew Hc3 Hk3) as (Hx & Hw & _). rewrite <- Hs3 in *.
    by eapply leaves_profile.
Qed.

(** C15.  The same client fetches a CSRF token and, while that is fresh, signs out or
    deletes its account.  It is answered 200 with both cookies cleared, no session of
    the user is left, and if it asked to be deleted no account either. *)
Theorem session_can_be_ended e1 {HG1 : GormLaws e1} {HC1 : ClockLaws e1} {HB1 : BcryptLaws e1}
    e2 {HC2 : ClockLaws e2} {HR2 : RandLaws e2}
    e3 {HG3 : GormLaws e3} {HC3 : ClockLaws e3} {HB3 : BcryptLaws e3} {HF3 : Faultless e3} {HS : Signs j}
    i1 red1 c1 s1 c1' resp i2 red2 c2 s2 token i3 red3 c3 s3 o3 c3' s3' row :
  in_int64 (CSRFTokenTTL (Auth F cfg)) ->
  third_parties e1 -> signs_in e1 i1 red1 c1 s1 c1' resp ->
  third_parties e2 -> fetches e2 i2 red2 c2 s2 token ->
  lets_in e3 c3 -> incoming c3 -> asks ELogout c3 \/ asks EDeleteAccount c3 ->
  gives_back c1' c3 -> within_lifetime e1 e3 -> rq_Header (g_req c3) CSRFHeader = token -> csrf_fresh e2 e3 ->
  selected TUsers (user_has_id (gu_ID (ar_User resp))) (st_db s3) row ->
  run e3 (app i3 red3 c3) s3 = ((o3, c3'), s3') ->
  exists message, farewell (gu_ID (ar_User resp)) message (asks EDeleteAccount c3) c3' (st_db s3').
Proof using All.
  intros Hcsrf Hthird Hin Hthird2 Hfetch Hdoor Hnew Hasks Hback Hlife Hhd Hfresh Hrow Hr.
  destruct (session_recognised e1 e3 i1 red1 c1 s1 c1' resp c3 Hthird Hin Hback Hlife) as [Hck Hrec].
  pose proof (fetched_accepted e2 e3 i2 red2 c2 s2 token Hthird2 Hfetch Hcsrf Hfresh) as Hok. rewrite <- Hhd in Hok.
  assert (Hone : forall ep message gone, asks ep c3 -> ep = ELogout \/ ep = EDeleteAccount ->
    (forall c4 s4, incoming c4 -> GetUserIDFromContext u c4 = Ret (Ok (gu_ID (ar_User resp))) -> st_db s4 = st_db s3 ->
       leaves e3 (farewell (gu_ID (ar_User resp)) message gone) (endpoint_handler F cfg j u PingCheck format i3 ep c4) s4) ->
    farewell (gu_ID (ar_User resp)) message gone c3' (st_db s3')).
  { intros ep message gone Hep Hone Hh. refine (leaves_run e3 _ _ _ _ _ _ Hr).
    eapply (leaves_reached e3 ep); [done|done| |apply closed_farewell|exact Hck|exact Hrec|done|].
    { destruct Hone as [-> | ->]; apply (bool_decide_unpack _); exact I. }
    intros c4 s4 Hc4 Hk4 Hid Hs4. apply Hh; [exact (incoming_handler c3 c4 Hnew Hc4 Hk4)|done|done]. }
  destruct Hasks as [Hep|Hep]; eexists.
  - destruct (Hone ELogout "Logged out successfully" False Hep ltac:(by left)) as (H1 & H2 & H3 & _).
    { intros c4 s4 (Hx & Hw & Hk) Hid _. by apply leaves_logged_out. }
    split; [exact H1|]. split; [exact H2|]. split; [exact H3|].
    intros (r & Hr1 & He1). destruct Hep as (r' & Hr2 & He2). congruence.
  - destruct (Hone EDeleteAccount "Account deleted" True Hep ltac:(by right)) as (H1 & H2 & H3 & H4).
    { intros c4 s4 (Hx & Hw & Hk) Hid Hs4. apply (leaves_deleted e3 (gu_ID (ar_User resp)) row c4 s4); [by rewrite Hs4|done..]. }
    split; [exact H1|]. split; [exact H2|]. split; [exact H3|]. auto.
Qed.

(** C17.  Once it has fetched a CSRF token, the same client can exchange its refresh
    token, if its session is stored and neither has expired: it is answered 200 with
    a new pair of cookies, whose session is stored in its turn; and by the new access
    token it is recognised for another lifetime. *)
Theorem session_renewal e1 {HG1 : GormLaws e1} {HC1 : ClockLaws e1} {HB1 : BcryptLaws e1}
    e2 {HC2 : ClockLaws e2} {HR2 : RandLaws e2}
    e3 {HG3 : GormLaws e3} {HC3 : ClockLaws e3} {HB3 : BcryptLaws e3} {HF3 : Faultless e3} {HS : Signs j}
    i1 red1 c1 s1 c1' resp i2 red2 c2 s2 token i3 red3 c3 s3 o3 c3' s3' :
  in_int64 (CSRFTokenTTL (Auth F cfg)) ->
  third_parties e1 -> signs_in e1 i1 red1 c1 s1 c1' resp ->
  third_parties e2 -> fetches e2 i2 red2 c2 s2 token ->
  lets_in e3 c3 -> (forall ip, harmless e3 (lim_Allow authLimiter ip)) -> allows e3 authLimiter ->
  incoming c3 -> asks ERefresh c3 -> gives_back c1' c3 -> rq_Header (g_req c3) CSRFHeader = token -> csrf_fresh e2 e3 ->
  exchangeable e3 (ar_RefreshToken resp) (st_db s3) -> unclaimed e3 (gu_ID (ar_User resp)) (st_db s3) ->
  run e3 (app i3 red3 c3) s3 = ((o3, c3'), s3') ->
  renewed e3 (gu_ID (ar_User resp)) c3' (st_db s3') /\
  forall e4 c4, gives_back c3' c4 -> within_lifetime e3 e4 -> exists tok,
    rq_Cookie (g_req c4) AccessTokenCookie = Ok tok /\ recognised e4 j config tok (gu_ID (ar_User resp)).
Proof using All.
  intros Hcsrf Hthird Hin Hthird2 Hfetch Hdoor Hharm Hallow Hnew Hasks Hback Hhd Hfresh Hex Hun Hr.
  destruct (session_given e1 i1 red1 c1 s1 c1' resp c3 Hthird Hin Hback) as (_ & Hck & _ & Hfor).
  pose proof (fetched_accepted e2 e3 i2 red2 c2 s2 token Hthird2 Hfetch Hcsrf Hfresh) as Hok. rewrite <- Hhd in Hok.
  assert (HQ : leaves e3 (renewed e3 (gu_ID (ar_User resp))) (app i3 red3 c3) s3).
  { apply (leaves_exchange e3); [done|done|done|done|apply closed_renewed|exact Hok|].
    intros c4 s4 Hc4 Hk4 Hs4. destruct (incoming_handler c3 c4 Hnew Hc4 Hk4) as (Hx & Hw & Hk). rewrite <- Hs4 in Hex, Hun.
    apply (leaves_renewed e3 (ar_RefreshToken resp)); [done|done|done|done|done|done|].
    destruct Hc4 as (_ & _ & -> & _). exact Hck. }
  pose proof (leaves_run e3 _ _ _ _ _ HQ Hr) as Hren. split; [exact Hren|].
  intros e4 c4 Hback4 Hlife. destruct Hren as (_ & acc & ref & Hcs & Htok & _). exists acc. split.
  - eapply (Hback4 (auth_cookie hdl _ _ _)). cbn [snd] in Hcs. rewrite Hcs. apply list_elem_of_here.
  - intros s4. by apply (validate_minted j u e3 e4 config acc _ "" "" s4).
Qed.
End session.

(** ** Witnesses: Ann comes back a minute later *)

(** An environment whose clock has stopped. *)
Definition stopped (t : time) (e : env) : env :=
  mkEnv (fun _ => t) (env_uuid e) (env_rand e) (env_done e) (env_begin e) (env_commit e) (env_sql e)
    (env_bcrypt_generate e) (env_bcrypt_compare e).

Section stopped.
Context (t : time) (e : env).

#[export] Instance stopped_gorm {HG : GormLaws e} : GormLaws (stopped t e).
Proof using Type. exact HG. Qed.
#[export] Instance stopped_bcrypt {HB : BcryptLaws e} : BcryptLaws (stopped t e).
Proof using Type. exact HB. Qed.
#[export] Instance stopped_rand {HR : RandLaws e} : RandLaws (stopped t e).
Proof using Type. exact HR. Qed.
#[export] Instance stopped_faultless {HF : Faultless e} : Faultless (stopped t e).
Proof using Type. destruct HF. by split. Qed.
End stopped.

Definition a_minute_later : env := stopped (epoch + Minute) good_env.

#[export] Instance later_clock : ClockLaws a_minute_later.
Proof. intros n. simpl. unfold epoch, Minute, Second. lia. Qed.

Abbreviation toy_passing := (lets_in untraced pass None free).

Lemma toy_lets_in c : toy_passing a_minute_later c.
Proof. by split; try (intros Q next c1 s HQ Hc Hn; apply Hn). Qed.

Lemma later_third_parties : third_parties untraced pass None free free (fun _ => Ret (Ok tt)) a_minute_later.
Proof. split; try done; intros Q next c s HQ Hn Hs; apply Hn; done || by apply cosmetic_same. Qed.

Lemma app_access_ttl : ttl_ok (AccessTokenTTL (Auth toy_float (NewConfig toy_float strong))).
Proof. by vm_compute. Qed.

Lemma still_valid : within_lifetime toy_float (NewConfig toy_float strong) ToyJWT.jwt good_env a_minute_later.
Proof.
  intros n m. cbn [a_minute_later stopped env_now good_env toy_env NewNumericDate ToyJWT.jwt].
  change (AccessTokenTTL (Auth toy_float (NewConfig toy_float strong))) with (15 * Minute).
  unfold epoch, Minute, Second, Millisecond. pose proof (Z.mod_pos_bound (Z.of_nat m) (10 ^ 9) ltac:(lia)).
  match goal with |- _ < ?x / ?s * ?s => pose proof (Z.div_mod x s ltac:(lia)); pose proof (Z.mod_pos_bound x s ltac:(lia)) end.
  lia.
Qed.

Definition ann_auth : AuthResponse :=
  match g_writes signed_in.1.2 with
  | (_, mkResponse _ _ (DAuth resp) _ _ _ _) :: _ => resp
  | _ => ann_response
  end.

Lemma ann_signs_in :
  signs_in toy_float (NewConfig toy_float strong) ToyJWT.jwt toy_uuid untraced pass None free free [] "goroutine 1"
    (fun _ => "0") (fun _ => 0) (fun _ => None) true (fun _ => Ret (Ok tt)) (fun _ => "") toy_route
    good_env signing_in finish login_request ann_state signed_in.1.2 ann_auth.
Proof.
  split; [done|]. split; [right; eexists; split; [vm_compute; reflexivity|reflexivity]|].
  split; [eexists _, _; etransitivity; [exact signed_in_eq|]; reflexivity|].
  split; [eexists; split; [apply list_elem_of_here|reflexivity]|]. by split.
Qed.

Lemma ann_gives_back c : rq_Cookie (g_req c) = ann_cookie -> gives_back signed_in.1.2 c.
Proof.
  intros Hc ck Hin. rewrite Hc. revert ck Hin. apply Forall_forall.
  by repeat constructor; vm_compute.
Qed.

Lemma ann_stored : exists row, selected TUsers (user_has_id (gu_ID (ar_User ann_auth))) (st_db signed_in.2) row.
Proof.
  destruct (t_users (st_db signed_in.2) !! ann_id) as [row|] eqn:Hrow; [|by vm_compute in Hrow].
  exists row, ann_id. split; [exact Hrow|]. vm_compute in Hrow. by injection Hrow as <-.
Qed.

Definition me_later := Eval vm_compute in run a_minute_later (toy_dispatch no_bound me_request) signed_in.2.

Lemma me_later_eq : run a_minute_later (toy_dispatch no_bound me_request) signed_in.2 = me_later.
Proof. vm_compute. reflexivity. Qed.

Lemma session_roundtrip_witness :
  Data <$> (g_writes me_later.1.2).*2 = [DUser (mkGetUser ann_id "ann@example.org" "Ann")] /\
  shows_profile (gu_ID (ar_User ann_auth)) (st_db signed_in.2) me_later.1.2 (st_db me_later.2).
Proof.
  split; [reflexivity|]. destruct ann_stored as [row Hrow].
  apply (session_roundtrip toy_float (NewConfig toy_float strong) ToyJWT.jwt toy_uuid untraced pass None free free []
    "goroutine 1" (fun _ => "0") (fun _ => 0) (fun _ => None) true (fun _ => Ret (Ok tt)) (fun _ => "") toy_route
    app_access_ttl app_ttl good_env a_minute_later signing_in finish login_request ann_state signed_in.1.2 ann_auth
    no_bound finish me_request signed_in.2 me_later.1.1 me_later.1.2 me_later.2 row).
  - exact toy_third_parties.
  - exact ann_signs_in.
  - apply toy_lets_in.
  - done.
  - eexists. split; [vm_compute; reflexivity|reflexivity].
  - by apply ann_gives_back.
  - exact still_valid.
  - exact Hrow.
  - exact me_later_eq.
Defined.

(** She fetches a CSRF token and deletes her account. *)
Definition csrf_request : Ctx := toy_ctx (mkRequest "GET" "/api/v1/csrf" "/api/v1/csrf" "" (fun _ => "")
  ann_cookie "203.0.113.7" "" "").

Definition csrf_later := Eval vm_compute in run a_minute_later (toy_dispatch no_bound csrf_request) signed_in.2.

Lemma csrf_later_eq : run a_minute_later (toy_dispatch no_bound csrf_request) signed_in.2 = csrf_later.
Proof. vm_compute. reflexivity. Qed.

Definition ann_csrf : string :=
  match g_writes csrf_later.1.2 with
  | (_, mkResponse _ _ (DCSRFToken token) _ _ _ _) :: _ => token
  | _ => ""
  end.

Definition leave_request : Ctx := toy_ctx (mkRequest "DELETE" "/api/v1/auth/me" "/api/v1/auth/me" ""
  (fun k => if String.eqb k CSRFHeader then ann_csrf else "") ann_cookie "203.0.113.7" "" "").

Definition left_later := Eval vm_compute in run a_minute_later (toy_dispatch no_bound leave_request) csrf_later.2.

Lemma left_later_eq : run a_minute_later (toy_dispatch no_bound leave_request) csrf_later.2 = left_later.
Proof. vm_compute. reflexivity. Qed.

Lemma csrf_still_fresh : csrf_fresh toy_float (NewConfig toy_float strong) a_minute_later a_minute_later.
Proof.
  intros n m. change (CSRFTokenTTL (Auth toy_float (NewConfig toy_float strong))) with (12 * Hour).
  cbn [a_minute_later stopped env_now]. vm_compute. split; discriminate.
Qed.

Lemma ann_fetches :
  fetches toy_float (NewConfig toy_float strong) ToyJWT.jwt toy_uuid untraced pass None free free [] "goroutine 1"
    (fun _ => "0") (fun _ => 0) (fun _ => None) true (fun _ => Ret (Ok tt)) (fun _ => "") toy_route
    a_minute_later no_bound finish csrf_request signed_in.2 ann_csrf.
Proof.
  split; [done|]. split; [eexists; split; [vm_compute; reflexivity|reflexivity]|].
  exists csrf_later.1.1, csrf_later.1.2, csrf_later.2. eexists.
  split; [etransitivity; [exact csrf_later_eq|]; reflexivity|]. split; [apply list_elem_of_here|reflexivity].
Qed.

Lemma session_can_be_ended_witness :
  status_of left_later.1.2 = 200 /\
  exists message, farewell toy_float (NewConfig toy_float strong) ToyJWT.jwt toy_uuid (gu_ID (ar_User ann_auth)) message
    (asks toy_route EDeleteAccount leave_request) left_later.1.2 (st_db left_later.2).
Proof.
  split; [reflexivity|]. destruct ann_stored as [row Hrow].
  apply (session_can_be_ended toy_float (NewConfig toy_float strong) ToyJWT.jwt toy_uuid untraced pass None free free []
    "goroutine 1" (fun _ => "0") (fun _ => 0) (fun _ => None) true (fun _ => Ret (Ok tt)) (fun _ => "") toy_route
    app_access_ttl app_ttl good_env a_minute_later a_minute_later signing_in finish login_request ann_state signed_in.1.2
    ann_auth no_bound finish csrf_request signed_in.2 ann_csrf no_bound finish leave_request csrf_later.2
    left_later.1.1 left_later.1.2 left_later.2 row).
  - by vm_compute.
  - exact toy_third_parties.
  - exact ann_signs_in.
  - exact later_third_parties.
  - exact ann_fetches.
  - apply toy_lets_in.
  - done.
  - right. eexists. split; [vm_compute; reflexivity|reflexivity].
  - by apply ann_gives_back.
  - exact still_valid.
  - reflexivity.
  - exact csrf_still_fresh.
  - exact Hrow.
  - exact left_later_eq.
Defined.

(** Or she has her session renewed, by an environment that hands out new ids. *)
Definition fixed_id (id : UUID) (e : env) : env :=
  mkEnv (env_now e) (fun _ => id) (env_rand e) (env_done e) (env_begin e) (env_commit e) (env_sql e)
    (env_bcrypt_generate e) (env_bcrypt_compare e).

Section fixed_id.
Context (id : UUID) (e : env).

#[export] Instance fixed_gorm {HG : GormLaws e} : GormLaws (fixed_id id e).
Proof using Type. exact HG. Qed.
#[export] Instance fixed_bcrypt {HB : BcryptLaws e} : BcryptLaws (fixed_id id e).
Proof using Type. exact HB. Qed.
#[export] Instance fixed_clock {HC : ClockLaws e} : ClockLaws (fixed_id id e).
Proof using Type. exact HC. Qed.
#[export] Instance fixed_faultless {HF : Faultless e} : Faultless (fixed_id id e).
Proof using Type. destruct HF. by split. Qed.
End fixed_id.

Definition new_ids : env := fixed_id 1000000 a_minute_later.

Definition renew_request : Ctx := toy_ctx (mkRequest "POST" "/api/v1/auth/refresh" "/api/v1/auth/refresh" ""
  (fun k => if String.eqb k CSRFHeader then ann_csrf else "") ann_cookie "203.0.113.7" "" "").

Definition renewed_later := Eval vm_compute in run new_ids (toy_dispatch no_bound renew_request) csrf_later.2.

Lemma renewed_later_eq : run new_ids (toy_dispatch no_bound renew_request) csrf_later.2 = renewed_later.
Proof. vm_compute. reflexivity. Qed.

(** The claims of Ann's refresh token. *)
Definition ann_claims : option TokenClaims := Eval vm_compute in
  match (run new_ids (ValidateRefreshToken ToyJWT.jwt (tokenConfig toy_float (NewConfig toy_float strong))
           (ar_RefreshToken ann_auth)) (start empty_tables)).1 with
  | Ok claims => Some claims
  | Err _ => None
  end.

Lemma ann_exchangeable :
  exchangeable toy_float (NewConfig toy_float strong) ToyJWT.jwt new_ids (ar_RefreshToken ann_auth) (st_db csrf_later.2).
Proof.
  split.
  - destruct (t_tokens (st_db csrf_later.2) !! 31%N) as [row|] eqn:Hrow; [|by vm_compute in Hrow].
    exists row, 31%N. split; [exact Hrow|]. split; [done|]. vm_compute in Hrow. injection Hrow as <-. vm_compute. reflexivity.
  - intros row n (k & Hk & _ & Hh). revert Hh. revert k row Hk. cbn [new_ids fixed_id a_minute_later stopped env_now rows].
    change (map_Forall (fun _ row => token_has_hash (Hash (ar_RefreshToken ann_auth)) row = true ->
      epoch + Minute <= rt_ExpiresAt row) (t_tokens (st_db csrf_later.2))).
    apply (bool_decide_unpack _). vm_compute. exact I.
  - intros n Hst. destruct ann_claims as [c|] eqn:Hc; [|done]. apply (Hst c); injection Hc as <-.
    + split; [vm_compute; reflexivity|]. repeat (split; [vm_compute; reflexivity|]).
      split; apply (bool_decide_unpack _); vm_compute; exact I.
    + vm_compute. reflexivity.
    + vm_compute. reflexivity.
Qed.

(** The refresh token she gets. *)
Definition renewed_token : result string := Eval vm_compute in
  (run new_ids (GenerateRefreshToken ToyJWT.jwt (uuid_String toy_uuid) (tokenConfig toy_float (NewConfig toy_float strong))
     ann_id) (start empty_tables)).1.

Lemma ann_unclaimed :
  unclaimed toy_float (NewConfig toy_float strong) ToyJWT.jwt toy_uuid new_ids (gu_ID (ar_User ann_auth)) (st_db csrf_later.2).
Proof.
  split; [intros n; vm_compute; reflexivity|]. intros n tok k row Hm.
  assert (Htok : Ok tok = renewed_token) by (rewrite <- Hm; vm_compute; reflexivity).
  destruct renewed_token as [tok'|err] eqn:Hr; [|done]. injection Htok as ->. injection Hr as <-.
  revert k row. refine (_ : map_Forall (fun _ row => rt_TokenHash row <> _) (t_tokens (st_db csrf_later.2))).
  apply (bool_decide_unpack _). vm_compute. exact I.
Qed.

Lemma session_renewal_witness :
  status_of renewed_later.1.2 = 200 /\
  renewed toy_float (NewConfig toy_float strong) ToyJWT.jwt toy_uuid new_ids (gu_ID (ar_User ann_auth))
    renewed_later.1.2 (st_db renewed_later.2).
Proof.
  split; [reflexivity|].
  apply (session_renewal toy_float (NewConfig toy_float strong) ToyJWT.jwt toy_uuid untraced pass None free free []
    "goroutine 1" (fun _ => "0") (fun _ => 0) (fun _ => None) true (fun _ => Ret (Ok tt)) (fun _ => "") toy_route
    app_access_ttl app_ttl good_env a_minute_later new_ids signing_in finish login_request ann_state signed_in.1.2
    ann_auth no_bound finish csrf_request signed_in.2 ann_csrf no_bound finish renew_request csrf_later.2
    renewed_later.1.1 renewed_later.1.2 renewed_later.2).
  - by vm_compute.
  - exact toy_third_parties.
  - exact ann_signs_in.
  - exact later_third_parties.
  - exact ann_fetches.
  - by split; try (intros Q next c1 s HQ Hc Hn; apply Hn).
  - done.
  - done.
  - done.
  - eexists. split; [vm_compute; reflexivity|reflexivity].
  - by apply ann_gives_back.
  - reflexivity.
  - exact csrf_still_fresh.
  - exact ann_exchangeable.
  - exact ann_unclaimed.
  - exact renewed_later_eq.
Defined.
