(* ===== verification/Container.v ===== *)
(** * internal/di: building the container

    [NewContainer] as far as it can fail: validation, tracing, the pool, the
    migrations, in this order, over the state of Startup.v and the database of
    Migrate.v.  What it builds when it does not is in App.v; the admin listener is
    that of Observability.v.  The theorems: a configuration that validates is one
    the rest of the program understands; when a container comes out, and what it
    owns; and what a failed construction leaves behind. *)

From stdpp Require Import pretty.
From S2P Require Import Prelude GoStd Apperr Script Model Gorm Effects Repository RepositoryLaws Testbed Token Http Middleware Handlers Migrate Config Startup Telemetry Observability App.
#[local] Open Scope mig_scope.

Section container.
Context (F : Float64) (Getenv : string -> string) (range : list (string * string) -> list (string * string))
        (ip_loopback : string -> option bool).
Context (DB SqlDB : Type) (drv : driver DB SqlDB).
Context (SpanExporter : Type) (stdouttrace_New : bool -> result SpanExporter)
        (otlptracehttp_New : string -> bool -> result SpanExporter)
        (Merge : list (string * string) -> result (list (string * string))).
Context (e : env) (ddl_exec : forall A, nat -> ddl A -> schema -> result A * schema).
Context (cfg : Config F).

Definition tracing_config : Tracing_.Config_ F :=
  let t := Tracing F cfg in
  Tracing_.mkConfig_ F (Config.Enabled F t) (ServiceName F t) (ServiceVersion F t) (Environment F t) (Exporter F t)
    (Endpoint F t) (Insecure F t) (SampleRatio F t).

Definition admin_config : AdminConfig :=
  let o := Observability F cfg in
  let s := Server F cfg in
  mkAdminConfig (MetricsEnabled o) (PprofEnabled o) (AdminHost o) (AdminPort o)
    (ReadTimeout s) (WriteTimeout s) (IdleTimeout s).

Abbreviation world := (boot * database)%type.
Abbreviation Shutdown := (Tracing_.ShutdownFunc F SpanExporter).

(** What [NewContainer] returns, as far as it is not determined by the
    configuration: the container's resources and the tracer it has to stop. *)
Record built := mkBuilt { bc_container : Container; bc_admin : option HTTPServer; bc_db : DB; bc_tracer : Shutdown }.

(** [return nil, fmt.Errorf(msg + ": %w", err)] *)
Definition refuse {A} (msg : string) (err : error) : Script world (option (result A)) :=
  do* err := on_fst (boot_Errorf msg err) in mret (Some (Err err)).

(** The database and whether the container owns it; the handle is also stored in the
    configuration, which is the second component of the state. *)
Definition connect (fuel : nat) (injected : option DB) : Script world (option (result (DB * bool))) :=
  match injected with
  | Some db => mret (Some (Ok (db, false)))
  | None =>
      do* r := on_fst (InitializeDatabase DB SqlDB drv F fuel cfg) in
      match r with
      | None => mret None
      | Some (Err err) => refuse "initializing database" err
      | Some (Ok db) => mret (Some (Ok (db, true)))
      end
  end.

Definition migrate : Script world (result unit) :=
  if AutoMigrate (Database F cfg) then
    do! _ := on_snd (Migrate e ddl_exec)
      onerr err => do* err := on_fst (boot_Errorf "migrating database" err) in mret (Err err) in
    do* _ := on_fst (record_ (Migrated true)) in mret (Ok tt)
  else
    do* _ := on_fst (record_ (Logged Info "startup migrations are disabled; run them as a separate step" [])) in
    mret (Ok tt).

(** The result, and [cfg.Database.Gorm] afterwards. *)
Definition NewContainer (fuel : nat) (injected : option DB)
  : Script world (option (result built) * option DB) :=
  match Validate F Getenv range ip_loopback cfg with
  | Some msg => do* err := on_fst (boot_error msg) in mret (Some (Err err), injected)
  | None =>
      do* traced := on_fst (Tracing_.Init F SpanExporter stdouttrace_New otlptracehttp_New Merge tracing_config) in
      match traced with
      | (_, Some err) => do* r := refuse "initializing tracing" err in mret (r, injected)
      | (tracerShutdown, None) =>
          do* connected := connect fuel injected in
          match connected with
          | None => mret (None, injected)
          | Some (Err err) => mret (Some (Err err), injected)
          | Some (Ok (db, ownsDB)) =>
              do* migrated := migrate in
              match migrated with
              | Err err => mret (Some (Err err), Some db)
              | Ok _ =>
                  let metrics := if MetricsEnabled (Observability F cfg) then Some NewMetricsWithRegistry else None in
                  let admin := NewAdminServer admin_config metrics in
                  mret (Some (Ok (mkBuilt (mkContainer (bool_decide (is_Some admin)) true ownsDB) admin db tracerShutdown)),
                        Some db)
              end
          end
      end
  end.

(** ** What validation is for *)

Context (range_permutes : forall l, range l ≡ₚ l).

(** What validation says of the values that select something. *)
Lemma validated :
  Validate F Getenv range ip_loopback cfg = None ->
  (Type_ (Database F cfg) = "sqlite" \/ Type_ (Database F cfg) = "postgres") /\
  (Config.Enabled F (Tracing F cfg) = true ->
     Exporter F (Tracing F cfg) = "otlp" \/ Exporter F (Tracing F cfg) = "console" \/ Exporter F (Tracing F cfg) = "stdout") /\
  Level (Log F cfg) ∈ ["debug"; "info"; "warn"; "warning"; "error"] /\ Format (Log F cfg) ∈ ["json"; "text"].
Proof using range_permutes.
  intros Hv. apply Validate_nil in Hv; [|done]. destruct Hv as [_ _ _ _ _ [Htype _] _ _ _ [Hlevel Hformat] Htracing _].
  split; [done|]. split; [|done]. intros He. destruct (Htracing He) as (Hx & _).
  rewrite !elem_of_cons, elem_of_nil in Hx. tauto.
Qed.

(** C34.  A configuration that passes validation is one the rest of the start-up
    understands: [InitializeDatabase] opens the dialect the database type names, the
    exporter is the one that was asked for, and the log level and format mean what
    they say, so that none of the fall-backs or errors for unknown values is ever
    met. *)
Theorem validated_configuration_is_understood fuel b :
  Validate F Getenv range ip_loopback cfg = None ->
  ((Type_ (Database F cfg) = "postgres" /\
    InitializeDatabase DB SqlDB drv F fuel cfg b = open_pool DB SqlDB drv F fuel cfg Postgres b) \/
   (Type_ (Database F cfg) = "sqlite" /\
    InitializeDatabase DB SqlDB drv F fuel cfg b = open_pool DB SqlDB drv F fuel cfg SQLite b)) /\
  (Config.Enabled F (Tracing F cfg) = true ->
     (Exporter F (Tracing F cfg) = "otlp" /\
      Tracing_.newExporter F SpanExporter stdouttrace_New otlptracehttp_New tracing_config b =
        (otlptracehttp_New (Endpoint F (Tracing F cfg)) (Insecure F (Tracing F cfg)), b)) \/
     ((Exporter F (Tracing F cfg) = "console" \/ Exporter F (Tracing F cfg) = "stdout") /\
      Tracing_.newExporter F SpanExporter stdouttrace_New otlptracehttp_New tracing_config b = (stdouttrace_New true, b))) /\
  (Level (Log F cfg), Logging.ParseLevel (Level (Log F cfg))) ∈
    [("debug", Debug); ("info", Info); ("warn", Warn); ("warning", Warn); ("error", LError)] /\
  (Format (Log F cfg), Logging.lg_format (Logging.New (Logging.mkOptions (Level (Log F cfg)) (Format (Log F cfg)) None))) ∈
    [("json", Logging.JSONHandler); ("text", Logging.TextHandler)].
Proof using range_permutes.
  intros Hv. destruct (validated Hv) as (Htype & Hexp & Hlevel & Hformat).
  split; [|split; [|split]].
  - unfold InitializeDatabase. destruct Htype as [Ht|Ht]; rewrite Ht; [by right|by left].
  - intros He. unfold Tracing_.newExporter, tracing_config. simpl.
    destruct (Hexp He) as [Hx|[Hx|Hx]]; rewrite Hx; [left|right..]; (split; [auto|]); reflexivity.
  - rewrite !elem_of_cons, elem_of_nil in Hlevel.
    repeat destruct Hlevel as [->|Hlevel]; try done; vm_compute; repeat constructor.
  - rewrite !elem_of_cons, elem_of_nil in Hformat.
    repeat destruct Hformat as [->|Hformat]; try done; unfold Logging.New; simpl; vm_compute; repeat constructor.
Qed.

(** ** What comes out *)

(** Events that neither open nor close a pool. *)
Definition touches_pool (ev : boot_event) : bool :=
  match ev with Opened _ _ _ | ClosedPool => true | _ => false end.
Definition leaves_pool (tr : list boot_event) : Prop := Forall (fun ev => touches_pool ev = false) tr.

(** *** The tracer *)

(** The exporter a validated configuration asks for, which may refuse to start. *)
Definition exporter : result SpanExporter :=
  if String.eqb (Exporter F (Tracing F cfg)) "otlp"
  then otlptracehttp_New (Endpoint F (Tracing F cfg)) (Insecure F (Tracing F cfg)) else stdouttrace_New true.

(** The tracer comes up as [tracer], with these events; or not, for [err]. *)
Inductive tracing_up : Shutdown -> list boot_event -> Prop :=
  | TracingOff : Config.Enabled F (Tracing F cfg) = false ->
      tracing_up (Tracing_.Noop F SpanExporter) [PropagatorsInstalled]
  | TracingOn x : Config.Enabled F (Tracing F cfg) = true -> exporter = Ok x ->
      tracing_up (Tracing_.ProviderShutdown F SpanExporter x (Tracing_.newResource F Merge tracing_config) (SampleRatio F (Tracing F cfg)))
        [PropagatorsInstalled; TracerInstalled ("ParentBased{" +:+ float_v F (SampleRatio F (Tracing F cfg)) +:+ "}")].

Definition tracing_down (err : error) : Prop := Config.Enabled F (Tracing F cfg) = true /\ exporter = Err err.

Lemma Init_runs b :
  Validate F Getenv range ip_loopback cfg = None ->
  exists shutdown oerr b' tr,
    Tracing_.Init F SpanExporter stdouttrace_New otlptracehttp_New Merge tracing_config b = ((shutdown, oerr), b') /\
    b_pings b' = b_pings b /\ b_trace b' = b_trace b ++ tr /\
    match oerr with None => tracing_up shutdown tr | Some err => tracing_down err /\ tr = [PropagatorsInstalled] end.
Proof using range_permutes.
  intros Hv. destruct (validated Hv) as (_ & Hexp & _). unfold Tracing_.Init, mbind at 1, record_, modify. simpl.
  destruct (Config.Enabled F (Tracing F cfg)) eqn:He; simpl.
  2: { do 4 eexists. split; [reflexivity|]. split; [done|]. split; [reflexivity|]. by apply TracingOff. }
  assert (Hnew : forall b, Tracing_.newExporter F SpanExporter stdouttrace_New otlptracehttp_New tracing_config b = (exporter, b)).
  { intros b0. unfold Tracing_.newExporter, exporter, tracing_config. simpl.
    destruct (Hexp eq_refl) as [Hx|[Hx|Hx]]; rewrite Hx; reflexivity. }
  unfold mbind at 1. rewrite Hnew. destruct exporter as [x|err] eqn:Hx.
  - do 4 eexists. split; [reflexivity|]. split; [done|]. simpl. rewrite <- app_assoc. split; [reflexivity|].
    by apply TracingOn.
  - do 4 eexists. split; [reflexivity|]. split; [done|]. split; [reflexivity|]. done.
Qed.

(** *** The pool *)

(** The container's database is [db], with these events: the injected one, or one
    that was opened in the dialect the configuration names. *)
Definition pool_up (injected : option DB) (pings : nat) (db : DB) (tr : list boot_event) : Prop :=
  match injected with
  | Some db' => db = db' /\ tr = []
  | None => exists d, speaks (Type_ (Database F cfg)) d /\ opened DB SqlDB drv F cfg d pings (Ok db) tr
  end.

Definition pool_down (injected : option DB) (pings : nat) (err : error) (tr : list boot_event) : Prop :=
  injected = None /\
  exists d, speaks (Type_ (Database F cfg)) d /\ opened DB SqlDB drv F cfg d pings (Err err) tr.

Lemma connect_runs fuel injected b d :
  (enough_fuel <= fuel)%nat -> Validate F Getenv range ip_loopback cfg = None ->
  exists r b' tr, connect fuel injected (b, d) = (Some r, (b', d)) /\ b_trace b' = b_trace b ++ tr /\
    match r with
    | Ok (db, owned) => pool_up injected (b_pings b) db tr /\ owned = (if injected is Some _ then false else true)
    | Err err => exists a cause, err = EWrap a "initializing database" cause /\ pool_down injected (b_pings b) cause tr
    end.
Proof using range_permutes.
  intros Hf Hv. destruct (validated Hv) as (Htype & _). unfold connect. destruct injected as [db|].
  { do 3 eexists. split; [reflexivity|]. by rewrite app_nil_r. }
  unfold mbind at 1, on_fst at 1. cbn [fst snd].
  destruct (InitializeDatabase_runs DB SqlDB drv F fuel cfg b Hf) as (r & b' & tr & -> & Ht & H).
  destruct H as [(dia & Hdia & H)|(Hno & _)].
  2: { exfalso. destruct Htype as [Htype|Htype]; rewrite Htype in Hno; eapply Hno; constructor. }
  destruct r as [db|err]; do 3 eexists; (split; [reflexivity|]); (split; [exact Ht|]).
  - split; [|done]. by exists dia.
  - do 2 eexists. split; [reflexivity|]. split; [done|]. by exists dia.
Qed.

(** A pool that came up was opened, and not closed again. *)
Lemma pool_up_opened pings db tr : pool_up None pings db tr ->
  exists dia dsn l tr', tr = Opened dia dsn l :: tr' /\ leaves_pool tr'.
Proof using Type.
  intros (dia & _ & H). inversion H as [| | | |? sqlDB i _ _ _ Hi]; subst.
  do 4 eexists. split; [reflexivity|]. unfold leaves_pool.
  do 3 (apply Forall_cons; split; [done|]). apply Forall_app. split.
  - unfold plugin. destruct (Config.Enabled _ _); by repeat constructor.
  - generalize (S i) 1. intros p. induction p as [|p IH]; intros attempt; [constructor|].
    simpl. constructor; [done|]. destruct p; [constructor|]. constructor; [done|]. apply IH.
Qed.

Lemma tracing_up_leaves shutdown tr : tracing_up shutdown tr -> leaves_pool tr.
Proof using Type. destruct 1; by repeat constructor. Qed.

(** *** The migrations *)

(** What they do to the tables, and the event. *)
Definition migrated (d : database) : database := if AutoMigrate (Database F cfg) then (Migrate e ddl_exec d).2 else d.
Definition migration_event : boot_event :=
  if AutoMigrate (Database F cfg) then Migrated true
  else Logged Info "startup migrations are disabled; run them as a separate step" [].
Definition migrations_fail (d : database) (err : error) : Prop :=
  AutoMigrate (Database F cfg) = true /\ (Migrate e ddl_exec d).1 = Err err.

Lemma migrate_runs b d :
  exists r b', migrate (b, d) = (r, (b', migrated d)) /\
    match r with
    | Ok _ => (forall err, ~ migrations_fail d err) /\ b_trace b' = b_trace b ++ [migration_event]
    | Err err => exists a cause, err = EWrap a "migrating database" cause /\ migrations_fail d cause /\ b_trace b' = b_trace b
    end.
Proof using Type.
  unfold migrate, migrated, migration_event, migrations_fail. destruct (AutoMigrate (Database F cfg)).
  - unfold mbind, on_snd, on_fst. cbn [fst snd].
    destruct (Migrate e ddl_exec d) as [[[]|err] d1]; do 2 eexists; (split; [reflexivity|]).
    + split; [by intros err [_ ?]|done].
    + by do 2 eexists.
  - do 2 eexists. split; [reflexivity|]. split; [by intros err [? _]|done].
Qed.

Definition admin_on : bool := MetricsEnabled (Observability F cfg) || PprofEnabled (Observability F cfg).
Definition admin_server : option HTTPServer :=
  NewAdminServer admin_config (if MetricsEnabled (Observability F cfg) then Some NewMetricsWithRegistry else None).

Lemma admin_exists :
  bool_decide (is_Some admin_server) = admin_on.
Proof using Type.
  unfold admin_server, admin_on, NewAdminServer, Admin_Enabled. simpl.
  destruct (MetricsEnabled _), (PprofEnabled _); reflexivity.
Qed.

(** What [NewContainer] answers with a configuration that validates, the handle it
    leaves in it, what it has done, and the tables: it is stopped by the first of the
    tracer, the pool and the migrations that fails, or builds a container. *)
Inductive constructed (injected : option DB) (pings : nat) (d : database) :
    result built -> option DB -> list boot_event -> database -> Prop :=
  | RefusedTracing a cause : tracing_down cause ->
      constructed injected pings d (Err (EWrap a "initializing tracing" cause)) injected [PropagatorsInstalled] d
  | RefusedDatabase shutdown tr tr' a cause : tracing_up shutdown tr -> pool_down injected pings cause tr' ->
      constructed injected pings d (Err (EWrap a "initializing database" cause)) injected (tr ++ tr') d
  | RefusedMigration shutdown tr db tr' a cause : tracing_up shutdown tr -> pool_up injected pings db tr' ->
      migrations_fail d cause ->
      constructed injected pings d (Err (EWrap a "migrating database" cause)) (Some db) (tr ++ tr') (migrated d)
  | Built shutdown tr db tr' : tracing_up shutdown tr -> pool_up injected pings db tr' ->
      (forall err, ~ migrations_fail d err) ->
      constructed injected pings d
        (Ok (mkBuilt (mkContainer admin_on true (if injected is Some _ then false else true)) admin_server db shutdown))
        (Some db) (tr ++ tr' ++ [migration_event]) (migrated d).

Lemma constructed_ok injected pings d bc gorm tr d' :
  constructed injected pings d (Ok bc) gorm tr d' ->
  bc_container bc = mkContainer admin_on true (if injected is Some _ then false else true) /\ gorm = Some (bc_db bc).
Proof using Type. by inversion 1. Qed.

Lemma new_container_runs fuel injected b d :
  (enough_fuel <= fuel)%nat ->
  exists r gorm b' tr d', NewContainer fuel injected (b, d) = ((Some r, gorm), (b', d')) /\ b_trace b' = b_trace b ++ tr /\
    match Validate F Getenv range ip_loopback cfg with
    | Some msg => (exists a, r = Err (EString a msg)) /\ gorm = injected /\ tr = [] /\ d' = d
    | None => constructed injected (b_pings b) d r gorm tr d'
    end.
Proof using range_permutes.
  intros Hf. unfold NewContainer. destruct (Validate F Getenv range ip_loopback cfg) as [msg|] eqn:Hv.
  { do 5 eexists. split; [reflexivity|]. rewrite app_nil_r. split; [done|]. split; [by eexists|done]. }
  unfold mbind at 1, on_fst at 1. cbn [fst snd].
  destruct (Init_runs b Hv) as (shutdown & oerr & b1 & tr1 & -> & Hp1 & Ht1 & H1). destruct oerr as [err|].
  { destruct H1 as [Hd ->]. do 5 eexists. split; [reflexivity|]. split; [exact Ht1|]. by apply RefusedTracing. }
  unfold mbind at 1. destruct (connect_runs fuel injected b1 d Hf Hv) as (r & b2 & tr2 & -> & Ht2 & H2).
  rewrite Ht1, <- app_assoc in Ht2. rewrite Hp1 in H2. destruct r as [[db owned]|err].
  2: { destruct H2 as (a & cause & -> & Hd). do 5 eexists. split; [reflexivity|]. split; [exact Ht2|]. by eapply RefusedDatabase. }
  destruct H2 as [Hup ->]. unfold mbind at 1. destruct (migrate_runs b2 d) as (m & b3 & -> & H3). destruct m as [[]|err].
  - destruct H3 as [Hno Ht3]. do 5 eexists. split; [reflexivity|]. rewrite Ht3, Ht2, <- !app_assoc. split; [reflexivity|].
    pose proof admin_exists as Ha. unfold admin_server in Ha. cbv zeta. rewrite Ha. by apply Built.
  - destruct H3 as (a & cause & -> & Hfail & Ht3). do 5 eexists. split; [reflexivity|]. rewrite Ht3. split; [exact Ht2|].
    by eapply RefusedMigration.
Qed.

(** A pool the construction opened for itself is neither closed nor owned by anyone
    once the migrations fail: the error comes back while the pool is open, and as its
    handle stays in the configuration, a second attempt takes it for an injected one,
    so that no [Close] ever releases it. *)
Theorem failed_migration_orphans_the_pool fuel b d err db b1 d1 bc gorm b2 d2 :
  (enough_fuel <= fuel)%nat -> Validate F Getenv range ip_loopback cfg = None ->
  NewContainer fuel None (b, d) = ((Some (Err err), Some db), (b1, d1)) ->
  NewContainer fuel (Some db) (b1, d1) = ((Some (Ok bc), gorm), (b2, d2)) ->
  (exists tr dia dsn l tr', b_trace b1 = b_trace b ++ tr ++ Opened dia dsn l :: tr' /\ leaves_pool tr /\ leaves_pool tr') /\
  (exists tr, b_trace b2 = b_trace b1 ++ tr /\ leaves_pool tr) /\ bc_db bc = db /\ ownsDB (bc_container bc) = false.
Proof using range_permutes.
  intros Hf Hv H1 H2.
  destruct (new_container_runs fuel None b d Hf) as (r & g & b' & tr & d' & Hr & Ht & H). rewrite Hr in H1.
  injection H1 as -> -> -> ->. rewrite Hv in H.
  destruct (new_container_runs fuel (Some db) b1 d1 Hf) as (r' & g' & b'' & tr' & d'' & Hr' & Ht' & H'). rewrite Hr' in H2.
  injection H2 as -> -> -> ->. rewrite Hv in H'. split.
  - inversion H as [| |shutdown tr1 db' tr2 a cause Hup Hpool Hfail|]; subst.
    destruct (pool_up_opened _ _ _ Hpool) as (dia & dsn & l & tr3 & -> & Hl). exists tr1, dia, dsn, l, tr3.
    split; [done|]. split; [by eapply tracing_up_leaves|done].
  - inversion H' as [| | |shutdown tr1 db' tr2 Hup Hpool Hok]; subst. destruct Hpool as [-> ->].
    split; [|done]. eexists. split; [exact Ht'|]. apply Forall_app. split; [by eapply tracing_up_leaves|].
    unfold migration_event. destruct (AutoMigrate _); by repeat constructor.
Qed.

(** C26.  Building the container always comes to an end, and in one of five ways.  A
    configuration that does not validate is refused with nothing touched.  Otherwise
    the exporter, the pool and the migrations are tried in this order: if the exporter
    cannot be made, that error comes back, with no pool opened; if the pool cannot, it
    comes back with the tables and the handle in the configuration as they were and
    the pool spared or opened and closed again, the tracer staying installed; if a
    migration fails, it comes back with the pool open and its handle in the
    configuration; and exactly if none of them fails a container comes out, which has
    the admin listener if metrics or profiling are on, runs on the migrated tables and
    owns its pool if none was injected. *)
Theorem new_container_outcome fuel injected b d :
  (enough_fuel <= fuel)%nat ->
  exists r gorm b' tr d', NewContainer fuel injected (b, d) = ((Some r, gorm), (b', d')) /\ b_trace b' = b_trace b ++ tr /\
    match Validate F Getenv range ip_loopback cfg with
    | Some msg => (exists a, r = Err (EString a msg)) /\ gorm = injected /\ tr = [] /\ d' = d
    | None => constructed injected (b_pings b) d r gorm tr d'
    end.
Proof using range_permutes. apply new_container_runs. Qed.
End container.

(** ** Witnesses

    A database that takes three pings to come up, with migrations that succeed, and
    one whose first migration is interrupted. *)

Definition toy_container (e : env) : nat -> option unit -> Script (boot * database) (option (result (built toy_float unit unit)) * option unit) :=
  NewContainer toy_float strong in_order no_ip unit unit booting unit (fun _ => Ok tt) (fun _ _ => Ok tt) Ok e toy_ddl toy_cfg.

Lemma new_container_outcome_witness :
  match (toy_container good_env 6 None (power_on, legacy_db)).1 with
  | (Some (Ok bc), Some tt) => bc_container _ _ _ bc = mkContainer false true true
  | _ => False
  end.
Proof.
  destruct (new_container_outcome toy_float strong in_order no_ip unit unit booting unit (fun _ => Ok tt) (fun _ _ => Ok tt) Ok
    good_env toy_ddl toy_cfg (fun l => Permutation_refl l) 6 None power_on legacy_db (le_n 6))
    as (r & gorm & b' & tr & d' & Hr & _ & H).
  replace (Validate toy_float strong in_order no_ip toy_cfg) with (@None string) in H by (vm_compute; reflexivity).
  unfold toy_container. rewrite Hr. cbn [fst]. destruct r as [bc|err].
  - apply constructed_ok in H as [Hc ->]. rewrite Hc. destruct (bc_db _ _ _ bc). vm_compute. reflexivity.
  - exfalso. assert (Hok : is_ok (default (Err err) (toy_container good_env 6 None (power_on, legacy_db)).1.1) = true)
      by (vm_compute; reflexivity). unfold toy_container in Hok. rewrite Hr in Hok. done.
Defined.

(** A first attempt whose migrations are interrupted, and a second one. *)
Example failed_then_built :
  match toy_container flaky_env 6 None (power_on, legacy_db) with
  | ((Some (Err _), Some tt), w) =>
      match (toy_container flaky_env 6 (Some tt) w).1 with
      | (Some (Ok bc), _) => ownsDB (bc_container _ _ _ bc) = false
      | _ => False
      end
  | _ => False
  end.
Proof. vm_compute. reflexivity. Qed.

Lemma validated_configuration_is_understood_witness :
  Validate toy_float strong in_order no_ip toy_cfg = None /\
  InitializeDatabase unit unit booting toy_float 6 toy_cfg power_on = open_pool unit unit booting toy_float 6 toy_cfg SQLite power_on.
Proof.
  assert (Hv : Validate toy_float strong in_order no_ip toy_cfg = None) by (vm_compute; reflexivity).
  split; [exact Hv|].
  destruct (validated_configuration_is_understood toy_float strong in_order no_ip unit unit booting unit (fun _ => Ok tt)
    (fun _ _ => Ok tt) toy_cfg (fun l => Permutation_refl l) 6 power_on Hv) as ([[Ht _]|[_ Hi]] & _); [|exact Hi].
  exfalso. revert Ht. vm_compute. discriminate.
Defined.
