(* ===== verification/Process.v ===== *)
(** * cmd/server: the life of the process

    [run] of main.go once the container is built, as a timed transition system: the main
    goroutine waits for a signal or a failure of the server, drains, and closes the
    container step by step, while the server and the requests it has accepted, the admin
    listener and the janitor run beside it.  The calls that block are states main stays
    in until what they wait for has happened or their context's deadline is reached.
    The theorems: the process stops within its time-outs once it was told to; it leaves
    nothing open and reports success only when no request was cut short; and the one way
    it can crash.  What [main] does around it is in Cmd.v. *)

From S2P Require Import Prelude GoStd Apperr Model Gorm Effects Lts App.

(** ** States *)

(** How [run] returns: nil, [server error: ...] or [server shutdown: ...]. *)
Inductive exit_ := Clean | ServerError (err : error) | ShutdownError (err : error).

Inductive main_pc :=
  | Selecting                       (* select on serverErr and ctx.Done() *)
  | Draining                        (* in srv.Shutdown *)
  | ClosingAdmin (r : exit_)        (* container.Close: is there an admin listener? *)
  | ClearingAdmin (r : exit_)       (* ... in AdminServer.Shutdown; then AdminServer = nil *)
  | ClosingTracer (r : exit_)       (* ... in tracerShutdown *)
  | ClosingDatabase (r : exit_)     (* ... in CloseDatabase *)
  | Exited (r : exit_).

Inductive server_pc := ServerSpawned | ServerServing | ServerStopped.

(** The goroutine of [StartAdmin]: it logs the address it kept, then calls
    [c.AdminServer.ListenAndServe()], reading the field again. *)
Inductive admin_pc := AdminOff | AdminSpawned | AdminAnnounced | AdminServing | AdminStopped | AdminCrashed.

Inductive janitor_pc := JanitorOff | JanitorSweeping | JanitorWaiting | JanitorStopped.

(** The clock, and what the blocking calls wait for. *)
Record waits := mkWaits {
  w_now : time;
  w_deadline : option time;         (* of the context of the call main is in *)
  w_requests : nat;                 (* accepted by the API's server and not answered yet *)
  w_scrapes : nat;                  (* requests in flight on the admin listener *)
  w_flushed : bool                  (* the collector has taken the last spans *)
}.

Record proc := mkProc {
  p_main : main_pc; p_server : server_pc; p_admin : admin_pc; p_janitor : janitor_pc;
  p_cancelled : bool;               (* ctx, by a signal or by stop() *)
  p_serverErr : option error;       (* the channel of capacity one; nobody receives twice *)
  p_adminShut : bool;               (* AdminServer.Shutdown was called *)
  p_container : Container;
  p_log : list (level * string);
  p_waits : waits
}.

Definition set_main (m : main_pc) (p : proc) : proc :=
  mkProc m (p_server p) (p_admin p) (p_janitor p) (p_cancelled p) (p_serverErr p) (p_adminShut p) (p_container p) (p_log p) (p_waits p).
Definition set_server (s : server_pc) (err : option error) (p : proc) : proc :=
  mkProc (p_main p) s (p_admin p) (p_janitor p) (p_cancelled p) err (p_adminShut p) (p_container p) (p_log p) (p_waits p).
Definition set_admin (a : admin_pc) (p : proc) : proc :=
  mkProc (p_main p) (p_server p) a (p_janitor p) (p_cancelled p) (p_serverErr p) (p_adminShut p) (p_container p) (p_log p) (p_waits p).
Definition set_janitor (j : janitor_pc) (p : proc) : proc :=
  mkProc (p_main p) (p_server p) (p_admin p) j (p_cancelled p) (p_serverErr p) (p_adminShut p) (p_container p) (p_log p) (p_waits p).
Definition cancel (p : proc) : proc :=
  mkProc (p_main p) (p_server p) (p_admin p) (p_janitor p) true (p_serverErr p) (p_adminShut p) (p_container p) (p_log p) (p_waits p).
Definition set_container (shut : bool) (c : Container) (p : proc) : proc :=
  mkProc (p_main p) (p_server p) (p_admin p) (p_janitor p) (p_cancelled p) (p_serverErr p) shut c (p_log p) (p_waits p).
Definition say (l : level) (msg : string) (p : proc) : proc :=
  mkProc (p_main p) (p_server p) (p_admin p) (p_janitor p) (p_cancelled p) (p_serverErr p) (p_adminShut p) (p_container p)
    (p_log p ++ [(l, msg)]) (p_waits p).
Definition set_waits (w : waits) (p : proc) : proc :=
  mkProc (p_main p) (p_server p) (p_admin p) (p_janitor p) (p_cancelled p) (p_serverErr p) (p_adminShut p) (p_container p)
    (p_log p) w.

Definition pass_time (d : duration) (p : proc) : proc :=
  let w := p_waits p in set_waits (mkWaits (w_now w + d) (w_deadline w) (w_requests w) (w_scrapes w) (w_flushed w)) p.
Definition set_deadline (t : option time) (p : proc) : proc :=
  let w := p_waits p in set_waits (mkWaits (w_now w) t (w_requests w) (w_scrapes w) (w_flushed w)) p.
Definition set_requests (n : nat) (p : proc) : proc :=
  let w := p_waits p in set_waits (mkWaits (w_now w) (w_deadline w) n (w_scrapes w) (w_flushed w)) p.
Definition set_scrapes (n : nat) (p : proc) : proc :=
  let w := p_waits p in set_waits (mkWaits (w_now w) (w_deadline w) (w_requests w) n (w_flushed w)) p.
Definition set_flushed (p : proc) : proc :=
  let w := p_waits p in set_waits (mkWaits (w_now w) (w_deadline w) (w_requests w) (w_scrapes w) true) p.

(** [context.WithTimeout(context.Background(), d)], given to the call main makes next. *)
Definition WithTimeout (d : duration) (p : proc) : proc := set_deadline (Some (w_now (p_waits p) + d)) p.

(** The context of that call is done. *)
Definition expired (p : proc) : Prop := exists t, w_deadline (p_waits p) = Some t /\ t <= w_now (p_waits p).

(** [run] up to the select: [StartJanitor], [StartAdmin], and the server goroutine. *)
Definition StartAdmin (p : proc) : proc :=
  if AdminServer (p_container p) then set_admin AdminSpawned p
  else say Debug "metrics and pprof are disabled; no admin listener" p.

Definition StartJanitor_ (interval : Z) (p : proc) : proc :=
  if interval <=? 0 then say Info "expired refresh token sweep is disabled" p else set_janitor JanitorSweeping p.

Definition launched (interval : Z) (c : Container) : proc :=
  StartAdmin (StartJanitor_ interval (mkProc Selecting ServerSpawned AdminOff JanitorOff false None false c []
    (mkWaits 0 None 0 0 false))).

(** ** Steps *)

(** [Wait d] is the passing of time. *)
Inductive actor := World | Main | Server | Request | Admin | Janitor | Wait (d : duration).

#[export] Instance actor_eq_dec : EqDecision actor.
Proof. solve_decision. Defined.

(** container.go *)
Definition tracerShutdownTimeout : duration := 5 * Second.
Definition adminShutdownTimeout : duration := 2 * Second.

(** [srv.Shutdown] has been called. *)
Definition told_to_stop (p : proc) : Prop :=
  match p_main p with Selecting => False | ClosingAdmin (ServerError _) | ClearingAdmin (ServerError _)
  | ClosingTracer (ServerError _) | ClosingDatabase (ServerError _) => False | _ => True end.

Definition alive (p : proc) : Prop := (forall r, p_main p <> Exited r) /\ p_admin p <> AdminCrashed.

(** [AdminServer.Shutdown]: a listener that serves returns. *)
Definition shut_admin (p : proc) : proc :=
  set_admin (match p_admin p with AdminServing => AdminStopped | a => a end) p.

(** Leaving [run]: the deferred [stop] cancels the context, then [Close] starts. *)
Definition leave (r : exit_) (p : proc) : proc := set_main (ClosingAdmin r) (cancel p).

(** What each blocking call of [Close] is given. *)
Definition close_tracer (r : exit_) (p : proc) : proc := set_main (ClosingTracer r) (WithTimeout tracerShutdownTimeout p).
Definition close_admin (r : exit_) (p : proc) : proc :=
  set_main (ClearingAdmin r) (WithTimeout adminShutdownTimeout (set_container true (p_container p) (shut_admin p))).

Section steps.
(** [cfg.Server.ShutdownTimeout], and how long [sql.DB.Close], which takes no context
    and waits for the statements that are running, may take. *)
Context (ShutdownTimeout pool_close : duration).

(** The signal has come: [srv.Shutdown] is called. *)
Definition drain (p : proc) : proc :=
  set_main Draining (WithTimeout ShutdownTimeout (say Info "shutdown signal received" p)).

(** Main may let the time [d] pass: it has nothing to do, or is in a call whose
    deadline is not before that.  Between its calls main takes no time. *)
Definition may_wait (d : duration) (p : proc) : Prop :=
  match p_main p with
  | Selecting => p_cancelled p = false /\ p_serverErr p = None
  | ClosingAdmin _ | Exited _ => False
  | _ => forall t, w_deadline (p_waits p) = Some t -> w_now (p_waits p) + d <= t
  end.

Inductive step : proc -> actor -> proc -> Prop :=
  | Signal p : p_cancelled p = false -> step p World (cancel p)
  | Collected p : step p World (set_flushed p)
  | Passes p d : 0 < d -> may_wait d p -> step p (Wait d) (pass_time d p)
  (* the server goroutine, and the requests *)
  | ServerListens p : p_server p = ServerSpawned -> step p Server (set_server ServerServing (p_serverErr p) p)
  | ServerFails p err : p_server p <> ServerStopped -> p_serverErr p = None ->
      step p Server (set_server ServerStopped (Some err) p)
  | ServerCloses p : p_server p <> ServerStopped -> told_to_stop p ->
      step p Server (set_server ServerStopped (p_serverErr p) p)
  | RequestAccepted p : p_server p = ServerServing -> ~ told_to_stop p ->
      step p Request (set_requests (S (w_requests (p_waits p))) p)
  | RequestAnswered p n : w_requests (p_waits p) = S n -> step p Request (set_requests n p)
  (* the main goroutine *)
  | MainError p err : p_main p = Selecting -> p_serverErr p = Some err -> step p Main (leave (ServerError err) p)
  | MainSignal p : p_main p = Selecting -> p_cancelled p = true -> step p Main (drain p)
  | MainDrained p : p_main p = Draining -> w_requests (p_waits p) = 0%nat ->
      step p Main (leave Clean (say Info "shutdown complete" p))
  | MainDrainFails p (err : error) : p_main p = Draining -> expired p \/ w_requests (p_waits p) = 0%nat (* a listener's error *) ->
      step p Main (leave (ShutdownError err) p)
  | CloseAdmin p r : p_main p = ClosingAdmin r -> AdminServer (p_container p) = true -> step p Main (close_admin r p)
  | CloseNoAdmin p r : p_main p = ClosingAdmin r -> AdminServer (p_container p) = false -> step p Main (close_tracer r p)
  | ClearAdmin p r : p_main p = ClearingAdmin r -> w_scrapes (p_waits p) = 0%nat \/ expired p ->
      step p Main (close_tracer r (set_container (p_adminShut p)
        (mkContainer false (tracerShutdown (p_container p)) (ownsDB (p_container p))) p))
  | CloseTracer p r : p_main p = ClosingTracer r ->
      tracerShutdown (p_container p) = false \/ w_flushed (p_waits p) = true \/ expired p ->
      step p Main (set_main (ClosingDatabase r) (WithTimeout pool_close (set_container (p_adminShut p)
        (mkContainer (AdminServer (p_container p)) false (ownsDB (p_container p))) p)))
  | CloseDatabase_ p r : p_main p = ClosingDatabase r ->
      step p Main (set_main (Exited r) (set_container (p_adminShut p)
        (mkContainer (AdminServer (p_container p)) (tracerShutdown (p_container p)) false) p))
  (* the goroutine of StartAdmin *)
  | AdminAnnounces p : p_admin p = AdminSpawned -> step p Admin (set_admin AdminAnnounced (say Info "admin listener starting" p))
  | AdminListens p : p_admin p = AdminAnnounced -> AdminServer (p_container p) = true -> p_adminShut p = false ->
      step p Admin (set_admin AdminServing p)
  | AdminRefused p : p_admin p = AdminAnnounced -> AdminServer (p_container p) = true -> p_adminShut p = true ->
      step p Admin (set_admin AdminStopped p)
  | AdminFails p : (p_admin p = AdminAnnounced /\ AdminServer (p_container p) = true) \/ p_admin p = AdminServing ->
      step p Admin (set_admin AdminStopped (say LError "admin listener" p))
  | AdminNil p : p_admin p = AdminAnnounced -> AdminServer (p_container p) = false -> step p Admin (set_admin AdminCrashed p)
  | ScrapeAccepted p : p_admin p = AdminServing -> step p Admin (set_scrapes (S (w_scrapes (p_waits p))) p)
  | ScrapeAnswered p n : w_scrapes (p_waits p) = S n -> step p Admin (set_scrapes n p)
  (* the janitor *)
  | JanitorSwept p : p_janitor p = JanitorSweeping -> step p Janitor (set_janitor JanitorWaiting p)
  | JanitorTicks p : p_janitor p = JanitorWaiting -> step p Janitor (set_janitor JanitorSweeping p)
  | JanitorStops p : p_janitor p = JanitorWaiting -> p_cancelled p = true -> step p Janitor (set_janitor JanitorStopped p).

(** Once [run] has returned, or a goroutine has panicked, nothing happens any more. *)
Definition process : lts actor := mkLts proc (fun p a p' => alive p /\ step p a p').

(** ** Shutting down *)

(** How many steps the main goroutine has left at most. *)
Definition distance (m : main_pc) : nat :=
  match m with
  | Selecting => 6 | Draining => 5 | ClosingAdmin _ => 4 | ClearingAdmin _ => 3 | ClosingTracer _ => 2
  | ClosingDatabase _ => 1 | Exited _ => 0
  end.

(** The process was told to stop, or its server has failed, or it is on its way out. *)
Definition triggered (p : proc) : Prop :=
  p_cancelled p = true \/ p_serverErr p <> None \/ p_main p <> Selecting.

Lemma main_step p a p' :
  step p a p' ->
  if decide (a = Main) then (distance (p_main p') < distance (p_main p))%nat else p_main p' = p_main p.
Proof using Type.
  destruct 1; simpl; try done;
    match goal with H : p_main ?q = _ |- context [p_main ?q] => rewrite H end; simpl; lia.
Qed.

Lemma triggered_stable : stable process triggered.
Proof using Type.
  intros p a p' _ Ht [_ Hstep]. unfold triggered in *.
  destruct Hstep; simpl in *; try tauto; try (by left); try (right; by left); try (by right; right).
Qed.

Lemma main_steps p ls p' :
  executes process p ls p' ->
  (length (filter (fun a => a = Main) ls) + distance (p_main p') <= distance (p_main p))%nat.
Proof using Type.
  induction 1 as [p|p a p1 ls p' [_ Hs] _ IH]; [done|].
  apply main_step in Hs. rewrite filter_cons. destruct (decide (a = Main)); simpl; [lia|]. by rewrite <- Hs.
Qed.

(** *** How long it takes *)

Definition wait_of (a : actor) : duration := match a with Wait d => d | _ => 0 end.
Definition elapsed (ls : list actor) : duration := foldr (fun a t => wait_of a + t) 0 ls.

(** The time-outs of the calls main makes on its way out. *)
Definition time_to_stop : duration := ShutdownTimeout + adminShutdownTimeout + tracerShutdownTimeout + pool_close.

Definition time_left (p : proc) : duration :=
  match w_deadline (p_waits p) with Some t => t - w_now (p_waits p) | None => 0 end.

(** The call main is in has a deadline that is at most [d] away. *)
Definition within (d : duration) (p : proc) : Prop := w_deadline (p_waits p) <> None /\ 0 <= time_left p <= d.

Definition timely (p : proc) : Prop :=
  match p_main p with
  | Draining => within ShutdownTimeout p
  | ClearingAdmin _ => within adminShutdownTimeout p
  | ClosingTracer _ => within tracerShutdownTimeout p
  | ClosingDatabase _ => within pool_close p
  | _ => True
  end.

(** The time main has left at most. *)
Definition remaining (p : proc) : duration :=
  match p_main p with
  | Selecting => time_to_stop
  | Draining => time_left p + (adminShutdownTimeout + tracerShutdownTimeout + pool_close)
  | ClosingAdmin _ => adminShutdownTimeout + tracerShutdownTimeout + pool_close
  | ClearingAdmin _ => time_left p + (tracerShutdownTimeout + pool_close)
  | ClosingTracer _ => time_left p + pool_close
  | ClosingDatabase _ => time_left p
  | Exited _ => 0
  end.

(** Steps of the others leave main, the clock and the deadline alone. *)
Lemma others_untimed p a p' :
  step p a p' -> a <> Main -> wait_of a = 0 ->
  p_main p' = p_main p /\ w_now (p_waits p') = w_now (p_waits p) /\ w_deadline (p_waits p') = w_deadline (p_waits p).
Proof using Type. destruct 1; try done. simpl. lia. Qed.

Lemma within_WithTimeout d p : 0 <= d -> within d (WithTimeout d p).
Proof using Type. intros Hd. unfold within, time_left. simpl. split; [done|lia]. Qed.

Lemma timely_remaining p :
  0 <= ShutdownTimeout -> 0 <= pool_close -> timely p -> 0 <= remaining p <= time_to_stop.
Proof using Type.
  intros Hs Hp Ht. unfold timely, within, remaining, time_to_stop, adminShutdownTimeout, tracerShutdownTimeout, Second in *.
  destruct (p_main p); lia.
Qed.

Lemma main_timely p p' :
  0 <= ShutdownTimeout -> 0 <= pool_close -> timely p -> step p Main p' -> timely p' /\ remaining p' <= remaining p.
Proof using Type.
  intros Hs Hp Ht Hstep. pose proof (timely_remaining p Hs Hp Ht) as [Hr _].
  inversion Hstep; subst; unfold timely, remaining, within in *; unfold time_left in *; simpl in *;
    match goal with H : p_main p = _ |- _ => rewrite H in * end;
    unfold time_to_stop, adminShutdownTimeout, tracerShutdownTimeout, Second in *; (split; [first [done|split; [done|lia]]|lia]).
Qed.

Lemma step_timely p a p' :
  0 <= ShutdownTimeout -> 0 <= pool_close -> timely p -> triggered p -> step p a p' ->
  timely p' /\ wait_of a + remaining p' <= remaining p.
Proof using Type.
  intros Hs Hp Ht Htr Hstep. destruct (decide (a = Main)) as [->|Hne].
  { destruct (main_timely p p' Hs Hp Ht Hstep). by simpl. }
  destruct (decide (wait_of a = 0)) as [H0|Hw].
  - destruct (others_untimed _ _ _ Hstep Hne H0) as (Hm & Hn & Hd).
    unfold timely, remaining, within, time_left in *. rewrite Hm, Hn, Hd. split; [done|lia].
  - destruct Hstep; try (by destruct Hw). unfold may_wait, triggered, timely, remaining, within, time_left in *. simpl in *.
    destruct (p_main p) as [| |r|r|r|r|r]; try done; [by destruct Htr as [?|[?|?]]; destruct H0; congruence|..];
      (destruct (w_deadline (p_waits p)) as [t|]; [|by destruct Ht]; specialize (H0 t eq_refl); split; [split; [done|lia]|lia]).
Qed.
(** Main is never stuck: it has a step to take at once, or its call's deadline is ahead
    and it has one when that is reached. *)
Lemma main_goes_on p :
  alive p -> triggered p -> timely p ->
  exists p', lts_step process p Main p' \/ exists d p1, lts_step process p (Wait d) p1 /\ lts_step process p1 Main p'.
Proof using Type.
  intros Ha Ht Hti.
  assert (Hcall : forall d m, p_main p = m -> m <> Selecting -> (forall r, m <> ClosingAdmin r) -> within d p ->
    (forall q, alive q -> p_main q = m -> expired q -> exists q', lts_step process q Main q') ->
    exists p', lts_step process p Main p' \/ exists d p1, lts_step process p (Wait d) p1 /\ lts_step process p1 Main p').
  { intros d m Hm Hn1 Hn2 [Hd Hl] Hq. unfold time_left in Hl. destruct (w_deadline (p_waits p)) as [t|] eqn:Hw; [|done].
    destruct (decide (t <= w_now (p_waits p))) as [Hle|Hgt].
    { destruct (Hq p) as [q' Hs]; [done..|by exists t|]. exists q'. by left. }
    set (p1 := pass_time (t - w_now (p_waits p)) p).
    destruct (Hq p1) as [q' Hs]; [done..|exists t; simpl; split; [done|lia]|]. exists q'. right.
    exists (t - w_now (p_waits p)), p1. split; [|done]. split; [done|]. apply Passes; [lia|]. unfold may_wait. rewrite Hm.
    assert (Hstay : forall t', w_deadline (p_waits p) = Some t' -> w_now (p_waits p) + (t - w_now (p_waits p)) <= t').
    { intros t'. rewrite Hw. intros [= <-]. lia. }
    destruct Ha as [Ha _]. destruct m as [| |r|r|r|r|r]; [done|exact Hstay|by destruct (Hn2 r)|exact Hstay..|by destruct (Ha r)]. }
  unfold timely in Hti. destruct (p_main p) as [| |r|r|r|r|r] eqn:Hm.
  - destruct Ht as [Hc|[He|Hn]]; [| |done].
    + eexists. left. split; [done|]. by apply MainSignal.
    + destruct (p_serverErr p) as [err|] eqn:Herr; [|done]. eexists. left. split; [done|]. by apply MainError.
  - eapply Hcall; [reflexivity|discriminate|intros ?; discriminate|exact Hti|]. intros q Hq Hqm He. eexists. split; [done|].
    apply (MainDrainFails q (ECtx DeadlineExceeded)); [done|by left].
  - destruct (AdminServer (p_container p)) eqn:Had; eexists; left; (split; [done|]); [by apply CloseAdmin|by apply CloseNoAdmin].
  - eapply Hcall; [reflexivity|discriminate|intros ?; discriminate|exact Hti|]. intros q Hq Hqm He. eexists. split; [done|]. eapply ClearAdmin; [done|by right].
  - eapply Hcall; [reflexivity|discriminate|intros ?; discriminate|exact Hti|]. intros q Hq Hqm He. eexists. split; [done|]. eapply CloseTracer; [done|by right; right].
  - eexists. left. split; [done|]. by apply CloseDatabase_.
  - by destruct Ha as [Ha _]; destruct (Ha r).
Qed.

Lemma executes_timely p ls p' :
  0 <= ShutdownTimeout -> 0 <= pool_close -> timely p -> triggered p -> executes process p ls p' ->
  timely p' /\ elapsed ls + remaining p' <= remaining p.
Proof using Type.
  intros Hs Hp Ht Htr Hex. induction Hex as [p|p a p1 ls p' Hstep _ IH]; [split; [done|simpl; lia]|].
  destruct (step_timely p a p1 Hs Hp Ht Htr (proj2 Hstep)) as [Ht1 Hr1].
  destruct (IH Ht1 (triggered_stable p a p1 I Htr Hstep)) as [Ht' Hr']. split; [done|]. simpl. lia.
Qed.

(** Before the trigger main waits in its select, which has no deadline. *)
Lemma reachable_timely p ls p' :
  0 <= ShutdownTimeout -> 0 <= pool_close -> timely p -> executes process p ls p' -> timely p'.
Proof using Type.
  intros Hs Hp Ht Hex. induction Hex as [p|p a p1 ls p' Hstep _ IH]; [done|]. apply IH.
  assert (Hd : p_main p = Selecting \/ p_main p <> Selecting) by (destruct (p_main p); auto).
  destruct Hd as [Hm|Hm].
  - destruct (decide (a = Main)) as [->|Hne]; [by apply (main_timely p p1 Hs Hp Ht (proj2 Hstep))|].
    pose proof (main_step _ _ _ (proj2 Hstep)) as Hp1. rewrite decide_False in Hp1 by done.
    unfold timely. by rewrite Hp1, Hm.
  - apply (step_timely p a p1 Hs Hp Ht); [by right; right|apply Hstep].
Qed.

(** C23.  The process cannot hang: once a signal has arrived or the server has failed,
    whatever the requests in flight, the collector and the other goroutines do or fail
    to do, it is gone within the shutdown time-out of the configuration, two seconds
    for the admin listener, five for the spans, and what closing the pool takes.  Main
    takes at most six steps, after which [run] has returned, and in every state until
    then it has one to take, at once or when the deadline of the call it is in is
    reached. *)
Theorem shutdown_terminates interval c before p ls p' :
  0 <= ShutdownTimeout -> 0 <= pool_close ->
  executes process (launched interval c) before p -> triggered p -> executes process p ls p' ->
  elapsed ls <= ShutdownTimeout + 2 * Second + 5 * Second + pool_close /\
  (length (filter (fun a => a = Main) ls) <= 6)%nat /\
  (length (filter (fun a => a = Main) ls) = 6%nat -> exists r, p_main p' = Exited r) /\
  (alive p' -> exists p'', lts_step process p' Main p'' \/
     exists d p1, lts_step process p' (Wait d) p1 /\ lts_step process p1 Main p'').
Proof using Type.
  intros Hs Hp Hbefore Ht Hex.
  assert (Hti : timely p).
  { eapply reachable_timely; [done..| |exact Hbefore]. unfold launched, StartAdmin, StartJanitor_.
    destruct (interval <=? 0); simpl; destruct (AdminServer c); exact I. }
  destruct (executes_timely _ _ _ Hs Hp Hti Ht Hex) as [Hti' Hel].
  pose proof (timely_remaining p Hs Hp Hti). pose proof (timely_remaining p' Hs Hp Hti').
  pose proof (main_steps _ _ _ Hex) as Hd.
  assert (Hmax : (distance (p_main p) <= 6)%nat) by (destruct (p_main p); simpl; lia).
  split; [unfold time_to_stop, adminShutdownTimeout, tracerShutdownTimeout in *; lia|]. split; [lia|]. split.
  - intros H6. assert (H0' : distance (p_main p') = 0%nat) by lia. destruct (p_main p'); try done. by eexists.
  - intros Ha. apply main_goes_on; [done| |done]. eapply executes_stable; [apply triggered_stable|exact Hex|exact Ht].
Qed.

(** What is still held of the container [c], by the point main has reached. *)
Definition held (c : Container) (p : proc) : Prop :=
  match p_main p with
  | Selecting | Draining | ClosingAdmin _ | ClearingAdmin _ => p_container p = c
  | ClosingTracer _ => p_container p = mkContainer false (tracerShutdown c) (ownsDB c)
  | ClosingDatabase _ => p_container p = mkContainer false false (ownsDB c)
  | Exited _ => p_container p = mkContainer false false false
  end.

(** How [run] is going to return, once that is settled. *)
Definition outcome (p : proc) : option exit_ :=
  match p_main p with
  | Selecting | Draining => None
  | ClosingAdmin r | ClearingAdmin r | ClosingTracer r | ClosingDatabase r | Exited r => Some r
  end.

(** Why main is where it is. *)
Definition justified (p : proc) : Prop :=
  match p_main p with
  | Selecting => True
  | Draining => p_cancelled p = true
  | ClosingAdmin r | ClearingAdmin r | ClosingTracer r | ClosingDatabase r | Exited r =>
      p_cancelled p = true /\
      match r with
      | Clean => (Info, "shutdown complete") ∈ p_log p /\ w_requests (p_waits p) = 0%nat
      | ServerError err => p_serverErr p = Some err
      | ShutdownError _ => (Info, "shutdown signal received") ∈ p_log p
      end
  end.

Definition settled (c : Container) (p : proc) : Prop :=
  held c p /\ justified p /\ (p_main p = Draining -> (Info, "shutdown signal received") ∈ p_log p).

Lemma in_log (l : level) (msg : string) log : (l, msg) ∈ log ++ [(l, msg)].
Proof using Type. apply elem_of_app. right. by apply list_elem_of_singleton. Qed.


(** What the other goroutines may do to main's surroundings. *)
Definition later (p p' : proc) : Prop :=
  p_main p' = p_main p /\ p_container p' = p_container p /\ (p_cancelled p = true -> p_cancelled p' = true) /\
  (forall err, p_serverErr p = Some err -> p_serverErr p' = Some err) /\ (forall x, x ∈ p_log p -> x ∈ p_log p') /\
  (told_to_stop p -> (w_requests (p_waits p') <= w_requests (p_waits p))%nat).

Lemma others_later p a p' : step p a p' -> a <> Main -> later p p'.
Proof using Type.
  destruct 1; try done; intros _; repeat split; simpl; try done; try congruence; try lia; intros x Hx; apply elem_of_app; by left.
Qed.

Lemma settled_later c p p' : later p p' -> settled c p -> settled c p'.
Proof using Type.
  intros (Hm & Hc & Hk & He & Hl & Hr) (Hh & Hj & Hd). unfold settled, held, justified, told_to_stop in *. rewrite Hm, Hc.
  split; [done|]. split; [|by intros ?%Hd%Hl].
  destruct (p_main p) as [| |r|r|r|r|r]; auto; destruct Hj as [Hj Hjr]; (split; [auto|]); destruct r; auto;
    destruct Hjr as [Hlog H0]; (split; [auto|]); specialize (Hr I); lia.
Qed.

Lemma settled_stable c : stable process (settled c).
Proof using Type.
  intros p a p' _ Hp [_ Hstep]. destruct (decide (a = Main)) as [->|Hne].
  2: { eapply settled_later; [by eapply others_later|done]. }
  destruct Hp as (Hh & Hj & Hd). unfold settled, held, justified in *.
  inversion Hstep; subst; match goal with H : p_main p = _ |- _ => rewrite H in * end; simpl.
  - done.
  - split; [done|]. split; [done|]. intros _. apply in_log.
  - split; [done|]. split; [split; [done|split; [apply in_log|done]]|done].
  - split; [done|]. split; [split; [done|by apply Hd]|done].
  - done.
  - rewrite Hh in *. split; [|done]. destruct c as [ad tr ow]. simpl in *. congruence.
  - rewrite Hh. done.
  - rewrite Hh. done.
  - rewrite Hh. done.
Qed.

Lemma launched_settled interval c : settled c (launched interval c).
Proof using Type.
  unfold launched, StartAdmin, StartJanitor_. destruct (interval <=? 0); simpl; destruct (AdminServer c); done.
Qed.

(** C24.  Nothing is left open, and nothing is closed too early: until the requests in
    flight have been answered, or the time for that is up, or the server has failed,
    the container keeps all it has, and when [run] returns it holds nothing; the
    background work has been told to stop by then; and the process leaves, and at the
    end reports success, only when every request that was accepted has been answered. *)
Theorem process_leaves_nothing_open interval c ls p :
  executes process (launched interval c) ls p ->
  (p_main p = Selecting \/ p_main p = Draining -> p_container p = c) /\
  (outcome p = Some Clean -> w_requests (p_waits p) = 0%nat) /\
  forall r, p_main p = Exited r ->
    p_container p = mkContainer false false false /\ p_cancelled p = true /\
    match r with
    | Clean => (Info, "shutdown complete") ∈ p_log p /\ w_requests (p_waits p) = 0%nat
    | ServerError err => p_serverErr p = Some err
    | ShutdownError _ => (Info, "shutdown signal received") ∈ p_log p
    end.
Proof using Type.
  intros Hex.
  destruct (executes_stable _ _ _ _ _ (settled_stable c) Hex (launched_settled interval c)) as (Hh & Hj & _).
  unfold held, justified, outcome in *. split; [intros [Hm|Hm]; by rewrite Hm in Hh|]. split.
  - intros Ho. destruct (p_main p); simplify_eq; tauto.
  - intros r Hm. rewrite Hm in *. tauto.
Qed.

(** ** The admin listener *)

(** A goroutine that crashed found the listener gone. *)
Definition admin_ok (c : Container) (p : proc) : Prop :=
  settled c p /\ (AdminServer c = false -> p_admin p = AdminOff) /\
  (p_admin p = AdminCrashed -> AdminServer (p_container p) = false).

Lemma admin_ok_stable c : stable process (admin_ok c).
Proof using Type.
  intros p a p' _ (Hs & Hoff & Hcr) [[Hx Hac] Hstep].
  split; [by eapply settled_stable|].
  destruct Hstep; simpl in *; split; try done; try (intros Hc; specialize (Hoff Hc)); try congruence.
  - unfold shut_admin. simpl. by rewrite Hoff.
  - unfold shut_admin. simpl. destruct (p_admin p); done.
  - by match goal with H : _ \/ _ |- _ => destruct H as [[H _]|H]; congruence end.
Qed.

Lemma launched_admin_ok interval c : admin_ok c (launched interval c).
Proof using Type.
  split; [apply launched_settled|]. unfold launched, StartAdmin, StartJanitor_.
  destruct (interval <=? 0); simpl; destruct (AdminServer c); done.
Qed.

(** C40.  The one way the process can crash: the goroutine of [StartAdmin] reads the
    container's listener after [Close] has cleared it, and calls a method of a nil
    pointer.  It takes a listener that is switched on and a server that fails, or a
    stop that comes, before the goroutine was scheduled; then the tracer is not
    flushed or the pool not closed. *)
Theorem admin_listener_races_with_close interval c :
  (forall ls p, executes process (launched interval c) ls p -> p_admin p = AdminCrashed ->
     AdminServer c = true /\ exists r, p_main p = ClosingTracer r \/ p_main p = ClosingDatabase r \/ p_main p = Exited r) /\
  (AdminServer c = true -> forall err, exists ls p,
     executes process (launched interval c) ls p /\ p_admin p = AdminCrashed /\
     p_main p = ClosingTracer (ServerError err) /\ ownsDB (p_container p) = ownsDB c).
Proof using Type.
  split.
  - intros ls p Hex Hcr.
    destruct (executes_stable _ _ _ _ _ (admin_ok_stable c) Hex (launched_admin_ok interval c)) as ((Hh & _) & Hoff & Hnil).
    assert (Hon : AdminServer c = true) by (destruct (AdminServer c); [done|]; by rewrite Hoff in Hcr).
    split; [done|]. specialize (Hnil Hcr). unfold held in Hh.
    destruct (p_main p) as [| |r|r|r|r|r]; try congruence; exists r; auto.
  - intros Hon err. exists [Server; Main; Main; Main; Admin; Admin].
    assert (Hl : exists j log, launched interval c =
      mkProc Selecting ServerSpawned AdminSpawned j false None false c log (mkWaits 0 None 0 0 false)).
    { unfold launched, StartAdmin, StartJanitor_. destruct (interval <=? 0); simpl; rewrite Hon; by do 2 eexists. }
    destruct Hl as (j & log & ->). eexists. split.
    { econstructor; [split; [done|]; by apply (ServerFails _ err)|].
      econstructor; [split; [done|]; by eapply MainError|].
      econstructor; [split; [done|]; by eapply CloseAdmin|].
      econstructor; [split; [done|]; eapply ClearAdmin; [done|by left]|].
      econstructor; [split; [done|]; by eapply AdminAnnounces|].
      econstructor; [split; [done|]; by eapply AdminNil|].
      constructor. }
    done.
Qed.

End steps.

(** ** Witnesses *)

(** A request is in flight when a signal reaches a process that serves metrics, and is
    never answered: the deadline of the drain passes, then that of the spans. *)
Definition full : Container := mkContainer true true true.

Lemma stuck_request : exists p ls p',
  executes (process Minute Second) (launched 0 full) [Server; Request; World] p /\ triggered p /\
  executes (process Minute Second) p ls p' /\ elapsed ls = Minute + 5 * Second /\
  p_main p' = Exited (ShutdownError (ECtx DeadlineExceeded)) /\ w_requests (p_waits p') = 1%nat.
Proof.
  eexists _, [Main; Wait Minute; Main; Main; Main; Wait (5 * Second); Main; Main], _. split.
  { econstructor; [split; [done|]; by apply ServerListens|].
    econstructor; [split; [done|]; by apply RequestAccepted; [|intros []]|].
    econstructor; [split; [done|]; by apply Signal|]. constructor. }
  split; [by left|]. split.
  { econstructor; [split; [done|]; by apply MainSignal|].
    econstructor; [split; [done|]; apply Passes; [done|intros t [= <-]; done]|].
    econstructor; [split; [done|]; apply (MainDrainFails _ _ _ (ECtx DeadlineExceeded)); [done|left; by eexists]|].
    econstructor; [split; [done|]; by eapply CloseAdmin|].
    econstructor; [split; [done|]; eapply ClearAdmin; [done|by left]|].
    econstructor; [split; [done|]; apply Passes; [done|intros t [= <-]; done]|].
    econstructor; [split; [done|]; eapply CloseTracer; [done|right; right; by eexists]|].
    econstructor; [split; [done|]; by eapply CloseDatabase_|].
    constructor. }
  done.
Qed.

Lemma shutdown_terminates_witness :
  exists ls, elapsed ls = 65 * Second /\ elapsed ls <= Minute + 2 * Second + 5 * Second + Second.
Proof.
  destruct stuck_request as (p & ls & p' & Hb & Ht & Hex & Hel & _). exists ls. split; [exact Hel|].
  exact (proj1 (shutdown_terminates Minute Second 0 full _ p ls p' ltac:(done) ltac:(done) Hb Ht Hex)).
Defined.

(** A request is answered, and the collector takes the last spans. *)
Lemma clean_exit : exists ls p, executes (process Minute Second) (launched 0 full) ls p /\ p_main p = Exited Clean.
Proof.
  eexists [Server; Request; World; Main; Request; Main; Main; Main; World; Main; Main], _. split.
  { econstructor; [split; [done|]; by apply ServerListens|].
    econstructor; [split; [done|]; by apply RequestAccepted; [|intros []]|].
    econstructor; [split; [done|]; by apply Signal|].
    econstructor; [split; [done|]; by apply MainSignal|].
    econstructor; [split; [done|]; by eapply RequestAnswered|].
    econstructor; [split; [done|]; by apply MainDrained|].
    econstructor; [split; [done|]; by eapply CloseAdmin|].
    econstructor; [split; [done|]; eapply ClearAdmin; [done|by left]|].
    econstructor; [split; [done|]; by apply Collected|].
    econstructor; [split; [done|]; eapply CloseTracer; [done|by right; left]|].
    econstructor; [split; [done|]; by eapply CloseDatabase_|].
    constructor. }
  done.
Qed.

Lemma process_leaves_nothing_open_witness :
  exists p, p_main p = Exited Clean /\ p_container p = mkContainer false false false /\ w_requests (p_waits p) = 0%nat.
Proof.
  destruct clean_exit as (ls & p & Hex & Hm). exists p. split; [exact Hm|].
  destruct (proj2 (proj2 (process_leaves_nothing_open Minute Second 0 full ls p Hex)) Clean Hm) as (Hc & _ & _ & H0).
  by split.
Defined.

Lemma admin_listener_races_with_close_witness :
  exists ls p, executes (process Minute Second) (launched 0 full) ls p /\ p_admin p = AdminCrashed /\ ownsDB (p_container p) = true.
Proof.
  destruct (proj2 (admin_listener_races_with_close Minute Second 0 full) eq_refl (EString 950 "listen tcp :8080: bind: address already in use"))
    as (ls & p & Hex & Hc & _ & Ho). by exists ls, p.
Defined.
