(* ===== verification/Cmd.v ===== *)
(** * cmd/server: from the environment to the exit status

    [main] and [run] of main.go around the life of the process in Process.v: the
    configuration with the build's version stamped into it, the root logger, the
    container, the HTTP server's settings, and what the operating system is told at
    the end.  Reading a .env file beforehand changes what [Getenv] answers and
    nothing else. *)

From stdpp Require Import pretty.
From S2P Require Import Prelude GoStd Apperr Script Model Gorm Effects Testbed Repository Http Migrate Config Startup Telemetry Observability App Container Lts Process.

Section main.
Context (F : Float64) (Getenv : string -> string) (range : list (string * string) -> list (string * string))
        (ip_loopback : string -> option bool).
Context (DB SqlDB : Type) (drv : driver DB SqlDB).
Context (SpanExporter : Type) (stdouttrace_New : bool -> result SpanExporter)
        (otlptracehttp_New : string -> bool -> result SpanExporter)
        (Merge : list (string * string) -> result (list (string * string))).
Context (e : env) (ddl_exec : forall A, nat -> ddl A -> schema -> result A * schema).
(** [main.version], stamped by the linker. *)
Context (version : string).
(** How long closing the pool may take. *)
Context (pool_close : duration).

Abbreviation world := (boot * database)%type.

(** ** Configuration *)

(** The version the build stamped wins, unless the environment was explicit. *)
Definition stamped (cfg : Config F) : Config F :=
  if String.eqb (Getenv "OTEL_SERVICE_VERSION") "" then
    let t := Tracing F cfg in
    mkConfig F (Config.Server F cfg) (Database F cfg) (Auth F cfg) (Log F cfg) (Security F cfg)
      (mkTracing F (Config.Enabled F t) (ServiceName F t) version (Environment F t) (Exporter F t) (Endpoint F t)
        (Insecure F t) (SampleRatio F t))
      (Observability F cfg)
  else cfg.

Definition run_config : Config F := stamped (NewConfig F Getenv).

Definition root_logger : Logging.Logger :=
  Logging.New (Logging.mkOptions (Level (Log F run_config)) (Format (Log F run_config)) None).

(** The [http.Server] of the API; its handler is the container's router. *)
Record APIServer := mkAPIServer {
  api_Addr : string; api_ReadTimeout : duration; api_WriteTimeout : duration; api_IdleTimeout : duration
}.

Definition api_server : APIServer :=
  let s := Config.Server F run_config in
  mkAPIServer (Host s +:+ ":" +:+ Itoa (Port s)) (ReadTimeout s) (WriteTimeout s) (IdleTimeout s).

(** The attributes of the line [server starting]. *)
Definition starting_attrs : list (string * string) :=
  let bool_v (b : bool) := if b then "true" else "false" in
  [("addr", api_Addr api_server); ("version", version); ("dev_mode", bool_v (DevMode (Auth F run_config)));
   ("database", Type_ (Database F run_config)); ("tracing", bool_v (Config.Enabled F (Tracing F run_config)));
   ("metrics", bool_v (MetricsEnabled (Observability F run_config)))].

(** ** run *)

(** How a run ends: without a container, or in a state of the process in which
    nothing happens any more. *)
Inductive ended := NotBuilt (err : error) | Ran (p : proc).

Definition build (fuel : nat) : Script world (option (result (built F DB SpanExporter)) * option DB) :=
  NewContainer F Getenv range ip_loopback DB SqlDB drv SpanExporter stdouttrace_New otlptracehttp_New Merge e ddl_exec
    run_config fuel None.

Inductive runs (fuel : nat) (w w' : world) : ended -> Prop :=
  | run_refused err gorm : build fuel w = ((Some (Err err), gorm), w') -> runs fuel w w' (NotBuilt err)
  | run_served bc gorm ls p :
      build fuel w = ((Some (Ok bc), gorm), w') ->
      executes (process (ShutdownTimeout (Config.Server F run_config)) pool_close)
        (launched (RefreshTokenPurgeInterval (Auth F run_config)) (bc_container F DB SpanExporter bc)) ls p ->
      ~ alive p -> runs fuel w w' (Ran p).

(** The error [run] returns, as [main] logs it; a panic never gets that far. *)
Definition run_error (x : ended) : option string :=
  match x with
  | NotBuilt err => Some ("initializing application: " +:+ error_string err)
  | Ran p => match p_main p with
             | Exited (ServerError err) => Some ("server error: " +:+ error_string err)
             | Exited (ShutdownError err) => Some ("server shutdown: " +:+ error_string err)
             | _ => None
             end
  end.

(** The exit status: 2 for a panic, 1 if [run] returned an error. *)
Definition main (x : ended) : Z :=
  match x with
  | Ran p => match p_admin p with
             | AdminCrashed => 2
             | _ => match run_error x with Some _ => 1 | None => 0 end
             end
  | NotBuilt _ => 1
  end.

(** ** What the exit status tells *)

Lemma Validate_stamped (cfg : Config F) :
  Validate F Getenv range ip_loopback (stamped cfg) = Validate F Getenv range ip_loopback cfg.
Proof using Type. unfold stamped. by destruct (String.eqb (Getenv "OTEL_SERVICE_VERSION") ""). Qed.

(** The service version that traces carry: the environment's, or else the build's. *)
Lemma version_precedence :
  ServiceVersion F (Tracing F run_config) =
    if String.eqb (Getenv "OTEL_SERVICE_VERSION") "" then version else Getenv "OTEL_SERVICE_VERSION".
Proof using Type.
  unfold run_config, stamped. destruct (String.eqb (Getenv "OTEL_SERVICE_VERSION") "") eqn:Hv; [done|].
  simpl. unfold getEnv. by rewrite Hv.
Qed.

Lemma not_alive p : ~ alive p -> p_admin p = AdminCrashed \/ exists r, p_main p = Exited r.
Proof using Type.
  intros Hd. destruct (p_main p) as [| |r|r|r|r|r] eqn:Hm; [..|right; by exists r];
    (destruct (p_admin p) eqn:Ha; [..|by left]); exfalso; apply Hd; unfold alive; by rewrite Hm, Ha.
Qed.

Context (range_permutes : forall l, range l ≡ₚ l).

Lemma build_runs fuel b d :
  (enough_fuel <= fuel)%nat ->
  exists r gorm b' d', build fuel (b, d) = ((Some r, gorm), (b', d')) /\
    match Validate F Getenv range ip_loopback (NewConfig F Getenv) with
    | Some _ => is_ok r = false /\ b_trace b' = b_trace b /\ d' = d
    | None => forall bc, r = Ok bc ->
        bc_container F DB SpanExporter bc =
          mkContainer (MetricsEnabled (Observability F run_config) || PprofEnabled (Observability F run_config)) true true
    end.
Proof using range_permutes.
  intros Hf. destruct (new_container_runs F Getenv range ip_loopback DB SqlDB drv SpanExporter stdouttrace_New
    otlptracehttp_New Merge e ddl_exec run_config range_permutes fuel None b d Hf) as (r & g & b' & tr & d' & Hr & Ht & H).
  exists r, g, b', d'. split; [exact Hr|]. rewrite <- (Validate_stamped (NewConfig F Getenv)). fold run_config.
  destruct (Validate F Getenv range ip_loopback run_config).
  - destruct H as ([a ->] & _ & -> & ->). by rewrite Ht, app_nil_r.
  - intros bc ->. by apply constructed_ok in H as [Hc _].
Qed.

(** The exit status is never 0 unless the configuration was valid, a signal came,
    every request that was accepted was answered and all that the container held was
    released; it is 2 only if the admin listener is switched on; and a configuration
    that does not validate ends in 1 with neither the pool nor the tables touched. *)
Theorem exit_status fuel b d w' x :
  (enough_fuel <= fuel)%nat -> runs fuel (b, d) w' x ->
  (main x = 0 -> exists p, x = Ran p /\ Validate F Getenv range ip_loopback (NewConfig F Getenv) = None /\
     (Info, "shutdown complete") ∈ p_log p /\ w_requests (p_waits p) = 0%nat /\ p_cancelled p = true /\
     p_container p = mkContainer false false false) /\
  (main x = 2 -> MetricsEnabled (Observability F run_config) || PprofEnabled (Observability F run_config) = true) /\
  (Validate F Getenv range ip_loopback (NewConfig F Getenv) <> None ->
     main x = 1 /\ b_trace w'.1 = b_trace b /\ w'.2 = d).
Proof using range_permutes.
  intros Hf Hruns. destruct (build_runs fuel b d Hf) as (r & g & b' & d' & Hr & H).
  destruct Hruns as [err gorm Hb|bc gorm ls p Hb Hex Hd]; rewrite Hr in Hb; injection Hb as -> -> <-.
  - split; [done|]. split; [done|]. intros Hn.
    destruct (Validate F Getenv range ip_loopback (NewConfig F Getenv)); [|done]. by destruct H as (_ & Ht & ->).
  - destruct (Validate F Getenv range ip_loopback (NewConfig F Getenv)); [by destruct H|].
    specialize (H bc eq_refl). destruct (executes_stable _ _ _ _ _ (admin_ok_stable _ _ _) Hex (launched_admin_ok _ _))
      as ((Hh & Hj & _) & Hoff & _). rewrite H in Hoff. split; [|split; [|done]].
    + intros H0. exists p. split; [done|]. split; [done|]. simpl in H0.
      destruct (not_alive p Hd) as [Ha|[x Hm]]; [by rewrite Ha in H0|].
      unfold held, justified in Hh, Hj. rewrite Hm in H0, Hh, Hj. destruct Hj as [Hk Hx].
      destruct x; [tauto|destruct (p_admin p); discriminate H0..].
    + intros H2. simpl in H2. destruct (_ || _); [done|]. rewrite Hoff in H2 by done. by case_match.
Qed.

End main.

(** ** A run

    The service starts on the databases of Container.v, gets a signal and stops. *)

Abbreviation toy_build :=
  (build toy_float strong in_order no_ip unit unit booting unit (fun _ => Ok tt) (fun _ _ => Ok tt) Ok good_env toy_ddl "1.4.2").
Definition toy_runs : (boot * database) -> ended -> Prop :=
  runs toy_float strong in_order no_ip unit unit booting unit (fun _ => Ok tt) (fun _ _ => Ok tt) Ok good_env toy_ddl "1.4.2"
    Second 6 (power_on, legacy_db).

Lemma toy_built : exists bc gorm w', toy_build 6 (power_on, legacy_db) = ((Some (Ok bc), gorm), w') /\
  bc_container toy_float unit unit bc = mkContainer false true true.
Proof.
  destruct (build_runs toy_float strong in_order no_ip unit unit booting unit (fun _ => Ok tt) (fun _ _ => Ok tt) Ok
    good_env toy_ddl "1.4.2" (fun l => Permutation_refl l) 6 power_on legacy_db (le_n 6)) as (r & gorm & b' & d' & Hr & H).
  replace (Validate toy_float strong in_order no_ip (NewConfig toy_float strong)) with (@None string) in H
    by (vm_compute; reflexivity).
  destruct r as [bc|err]; [exists bc, gorm, (b', d'); split; [exact Hr|by apply H]|].
  exfalso. assert (Hok : is_ok (default (Err err) (toy_build 6 (power_on, legacy_db)).1.1) = true)
    by (vm_compute; reflexivity). by rewrite Hr in Hok.
Qed.

(** A signal comes, and main goes through its steps. *)
Lemma toy_life timeout interval c : AdminServer c = false -> exists p,
  executes (process timeout Second) (launched interval c) [World; World; Main; Main; Main; Main; Main] p /\
  p_main p = Exited Clean /\ p_admin p = AdminOff.
Proof.
  intros Hc. unfold launched, StartAdmin, StartJanitor_. destruct (interval <=? 0); simpl; rewrite Hc; eexists; (split;
  [ econstructor; [split; [done|]; by apply Signal|];
    econstructor; [split; [done|]; by apply Collected|];
    econstructor; [split; [done|]; by apply MainSignal|];
    econstructor; [split; [done|]; by apply MainDrained|];
    econstructor; [split; [done|]; by eapply CloseNoAdmin|];
    econstructor; [split; [done|]; eapply CloseTracer; [done|by right; left]|];
    econstructor; [split; [done|]; by eapply CloseDatabase_|]; constructor | done ]).
Qed.

Lemma exit_status_witness : exists w' p, toy_runs w' (Ran p) /\ main (Ran p) = 0 /\
  p_container p = mkContainer false false false.
Proof.
  destruct toy_built as (bc & gorm & w' & Hb & Hc).
  destruct (toy_life (ShutdownTimeout (Config.Server _ (run_config toy_float strong "1.4.2"))) (RefreshTokenPurgeInterval (Auth _ (run_config toy_float strong "1.4.2"))) (bc_container _ _ _ bc)) as (p & Hex & Hm & Ha);
    [by rewrite Hc|].
  assert (Hruns : toy_runs w' (Ran p)).
  { eapply run_served; [exact Hb|exact Hex|]. intros [Hal _]. by destruct (Hal Clean). }
  assert (H0 : main (Ran p) = 0) by (simpl; by rewrite Ha, Hm).
  exists w', p. split; [exact Hruns|]. split; [exact H0|].
  destruct (proj1 (exit_status toy_float strong in_order no_ip unit unit booting unit (fun _ => Ok tt) (fun _ _ => Ok tt) Ok
    good_env toy_ddl "1.4.2" Second (fun l => Permutation_refl l) 6 power_on legacy_db w' (Ran p) (le_n 6) Hruns) H0)
    as (p' & [= <-] & _ & _ & _ & _ & Hp). exact Hp.
Defined.
